(* ===== verification/_CoqProject ===== *)
-Q . S2P
Prelude.v
Names.v
Rdata.v
Plain.v
Hashing.v
Zone.v
Lookup.v
Build.v
Checked.v
BuildFacts.v
LayoutFacts.v
ArenaFacts.v
Finish.v
Totality.v
Served.v
Asserts.v
Answers.v
ZoneTheorems.v
Declared.v
FileVerdict.v
FileZone.v
ZoneExamples.v
Cas.v
RateLimit.v
RateLimitFacts.v
RateLimitTheorems.v
Lifecycle.v
Shutdown.v
ShutdownTheorems.v
ShutdownTiming.v
ShutdownExamples.v
Metrics.v
Handler.v
HandlerFacts.v
HandlerTheorems.v
HandlerAnswers.v
HandlerExamples.v
FileServer.v
Config.v
Admin.v
Reload.v
ConfigTheorems.v
Serve.v
ReloadTheorems.v
Drift.v
ReloadExamples.v
EndToEnd.v
Files.v
FilesTheorems.v
FilesExamples.v
Serial.v
Toml.v
Editor.v
EditorFacts.v
EditorSpec.v
EditorTheorems.v
PlainToml.v
Commands.v
CommandTheorems.v
EditorExamples.v
Text.v
Exposition.v
Client.v
ClientTheorems.v
HttpTheorems.v
ClientExamples.v
DnsClient.v
DnsClientTheorems.v
DnsClientExamples.v
Diagnostics.v
SeedFree.v
Dispatch.v
DispatchTheorems.v
Added.v
DispatchExamples.v
Ui.v
UiTheorems.v
Printing.v
PrintingTheorems.v
UiExamples.v
