(* ===== verification/Prelude.v ===== *)
(** * Vega, an authoritative DNS server: a verification development

    The program (Rust, under src/src/) reads a configuration, builds one immutable
    zone from it, and answers queries from that zone behind a rate limiter; a
    lifecycle word and a set of counters are shared by its tasks.  This library
    models those parts by shallow embedding and proves what makes them correct.

    ** Conventions

    Machine words are [N]s, and every operation that can wrap or truncate says so.
    [Result] is [result], with one constructor per error the code can raise; an
    error's text is not modelled, its kind and its arguments are.  Operations on
    shared atomics are steps under a schedule.  Times are integers (nanoseconds, or
    milliseconds where the code truncates to them).  Log lines have no effect on
    any state and are left out.

    Third-party code is an interface, never a definition: [HickoryNames] and
    [HickoryRdata] (hickory_proto's names, RDATA and zone-file lexer),
    [HashTableApi] (hashbrown's table), [HickoryMessages] (message metadata and
    EDNS), [Toml] (toml_edit's documents) and [TomlSame] (which of them read alike),
    [RecordTypeText] (the text of a record type), [MessageCodec] (messages as octets),
    [JsonText] (serde_json), [HashOrder] (the order a HashMap is walked in, any
    permutation).  Of the standard library, floating point ([F64]: conversions and
    decimal text; [F64Text]: the arithmetic that is printed with) and the text of socket
    addresses ([AddrText]) are classes too, and so are the escape sequences of
    owo_colors ([OwoColors]), the JSON values a command writes ([JsonDoc]) and the
    [Display] of the libraries' types ([DisplayText]).
    Those whose behaviour a theorem relies on have a class of laws, the documented
    behaviour, and a small concrete instance the witnesses are evaluated on (Plain.v
    for names and values, PlainToml.v for documents, ClientExamples for numbers).
    Sockets are functions from what is sent to what comes back in time.

    Rust's [trim], [to_uppercase] and [to_lowercase] know all of Unicode; here they are
    their ASCII readings, so for a name or a type with white space outside ASCII at an
    end, or letters outside it, the theorems are about that reading and not the code.

    Three conditions on a configuration recur, and each claim that has one says so:
    [plain_config] (Answers.v), no backslash in any name of it and an origin that is
    neither empty nor a wildcard; [fits] (Declared.v), no more nodes than a 32-bit index
    counts; and [arenas_fit] (Totality.v), the same of records and of the octets of sort
    keys.  Outside the first the code has a behaviour of its own: a name whose first
    label is an escaped asterisk is an asterisk label without the wildcard flag, so it
    synthesises for other names and yet may own NS records (zone.rs:1483).

    ** The standard, and the departures from it

    [standard_lookup] (Lookup) is RFC 1034 section 4.3.2 with RFC 4592, written once,
    against what a zone tells of itself ([View]), and with nothing taken from the code but
    the length of a chain of aliases, eight, which the standard leaves open.
    The program departs from it in three places, each named in the claims it touches.
    The aliases of wildcards are not followed, neither for the wildcard's own name nor
    for one it covers ([wildcard_alias]; the code says the first of its own accord).
    The zone's lookup answers ANY only with whether the name is there, and the handler
    makes RFC 8482's answer of that.  And the handler denies ANY for a name that is not in
    the file below a delegation, where a referral is owed ([answer_departs],
    [any_below_cut_is_denied]).

    ** The parts

    - Prelude: results, words, slices, the stable sort, strings; tactics and the
      hint database [vega].
    - Names (canonical.rs): labels and the canonical sort key.  Comparing keys is
      comparing names in RFC 4034 order; a strict key prefix is an ancestor.
    - Rdata (rdata.rs): the gate in front of the lexer, which can abort the process.
    - Hashing (zone.rs): the label hash and the hashes of all suffixes of a name.
    - Zone (zone.rs, the query path): the arena, the index, the probe, the
      bisection for the closest encloser, [resolve] and [lookup].
    - Lookup: the standard's algorithm; [ZoneWf], what a built zone guarantees; and the
      refinement of the lookup to [spec_resolve], what the program does on a zone read
      as a map from names to nodes, departures and all.
    - Build (zone.rs, the build path): [from_config], one definition per function;
      Checked, BuildFacts, LayoutFacts, ArenaFacts, Finish, Totality, Served and
      Asserts hold its lemmas, stage by stage.
    - Answers, ZoneTheorems: what [spec_resolve] has to do with the standard, and what a
      query of a built zone is answered, in the terms of the scratch zone.  Declared: what the record blocks of a configuration declare,
      read block by block, and that the builder holds exactly that.  FileVerdict: a
      configuration builds exactly when its blocks read and declare what keeps the
      rules of a zone ([from_config_accepts_exactly]).  FileZone: the standard's
      algorithm on the blocks as they are written ([file_lookup]), and that the lookup
      of the built zone is this, for every name and every type but ANY, away from the
      aliases of wildcards ([lookup_reads_the_file]), in whatever order a table is
      walked ([builds_agree]).  ZoneExamples applies
      every theorem to one zone.
    - Cas: compare-exchange loops under any schedule, linearised.
    - RateLimit, RateLimitFacts, RateLimitTheorems (ratelimit.rs): slot words bit by
      bit, the clock bands, and the promises of the limiter.
    - Lifecycle (lifecycle.rs): the phase word and the deadline.
    - Metrics (metrics.rs): the counters, interleaved add by add.
    - Handler (handler.rs): validation, built-ins, ANY, truncation, EDNS and the
      whole of [handle_request]; HandlerFacts, HandlerTheorems (errors and their
      order, sizes, shedding) and HandlerAnswers (what the bytes of an answer hold);
      HandlerExamples applies them.  FileServer: the response a configuration owes
      ([file_respond]: codes, AA, SOA, ANY, the diagnostic names and all), and that
      [resolve] over the zone built from it is this, but for [answer_departs].
    - Config (config.rs): validation and the merge of an environment overlay;
      ConfigTheorems: the merge is the overlay and nothing else changes.
    - Admin (admin.rs): the bearer gate, the router, the endpoints' answers.
    - Reload (reload.rs): the reload as a machine of seven steps, its lock and the
      drain; ReloadTheorems run it against any interleaved world; Drift compares a
      running configuration with a file; ReloadExamples applies them.
    - Serve (main.rs, start-up): a configuration to a serving process.
    - Shutdown (main.rs, shutdown.rs): the drain task polled turn by turn against
      signals, timers and the servers' ends; ShutdownTheorems (the order of the
      steps), ShutdownTiming (the deadlines), ShutdownExamples.
    - Files (editor.rs, [write_atomically]): one directory of a file system with what
      its disk may fall back to, and a save as one system call per step;
      FilesTheorems: any number of savers, failures, crashes and outages.
    - Toml: the document interface.  Editor (editor.rs): every edit; EditorFacts,
      EditorSpec (the contract on lists of record sets) and EditorTheorems (the edits
      refine it; twice is once; removing undoes adding).
    - Serial (commands/mod.rs): dates and serials.  Commands (commands/): record add,
      delete, list, get and zone bump-serial; CommandTheorems: what a command leaves
      in the file.  FilesExamples and EditorExamples apply these, the latter on
      PlainToml's reading of documents.
    - Text: Rust's string methods on octets - lines, words, splits, decimal numbers -
      and how they undo one another.
    - Exposition (metrics.rs, lifecycle.rs): the page of counters, line by line, and
      the list of samples it stands for.
    - Client (http.rs, healthcheck.rs, commands/inspect.rs): the HTTP client, the
      probe, [vega status] and [vega reload].  ClientTheorems: a page is read back as
      its samples.  HttpTheorems:
      a response on the wire is read back, and the commands therefore report the
      state of the server of [Admin].  ClientExamples applies them.
    - DnsClient (dnsclient.rs): [vega query] over a datagram and a framed stream.
      DnsClientTheorems: against the handler of [Handler] its outcome is the whole
      answer, which is what the configuration's file says; DnsClientExamples.
    - Diagnostics (tomlparse.rs): the line and column of a parse failure, and that an
      error tells nothing else of the file.
    - SeedFree (zone.rs, commands/zone.rs): builds that differ in their hash seed
      cannot be told apart, so [vega check] speaks for the server.
    - Dispatch (main.rs, cli.rs, commands/zone.rs): the renamed variables, every
      subcommand, its writes and its exit code; DispatchTheorems, DispatchExamples.
    - Ui (ui.rs): colour, styles, tables, durations.  UiTheorems: what is seen of a text,
      and that a table lines up.  Printing (commands/, main.rs, config.rs): what every
      command prints, for people and as JSON.  PrintingTheorems: a listing shows every
      value, a breakdown lists the server's counters, [vega check] prints its verdict
      and no secret, the shutdown plan logged is the one armed, and [vega query] prints
      the code, the flags and the sections of what the file says.  UiExamples applies
      them.
    - EndToEnd: after a reload the handler sends what the file says, from its record
      blocks to the response; a started process keeps serving through reloads.
    - Added: [vega record add --reload] to the answers: when the command exits with
      success, every later question for the record set is answered with every value
      it was given ([added_records_are_answered]); and a file that passes
      [vega check] starts a server, whatever seed it draws, that answers as the file
      says ([check_speaks_for_the_server]).  DispatchExamples runs both.

    The components meet in three places.  [Build]'s result is a [ZoneWf] zone, and
    nothing else of it is used by [Lookup] and [Handler].  [Cas] is the one account
    of a shared word, used by the slots of [RateLimit], the phase of [Lifecycle] and
    the counters of [Metrics].  [Reload] and [Shutdown] are machines whose states
    hold the other components' states; their invariants are kept per program point.

    Automation: the hint database [vega] resolves well-formedness and word bounds,
    the rewrite database [lengths] (tactic [len]) normalises list lengths, and
    [decide]/[bool_decide] serve the decidable predicates.

    ** Bounds and fuel

    [Zone_resolve] recurses through CNAMEs only, and [lookup_fuel] is one more than
    [MAX_CNAME_DEPTH], at which the code stops by itself ([resolve_returns]).
    [bisect] is given [MAX_LABELS] passes and seven are shown to be enough
    ([closest_encloser_is_climb]).  [climb_insert] removes a label per pass from a
    name of at most [MAX_LABELS] labels.  [check_at] makes at most [CAS_ATTEMPTS]
    exchanges; [enter] loops until its exchange lands, and retries only when
    another task has advanced the word or the exchange failed spuriously.  A reload
    finishes in seven steps whatever the world does between them.  The drain is
    over sixteen turns after its deadline, which is the drain window and five
    seconds; two more seconds are the watchdog's ([deadline_is_enforced]).  A save
    is at most twenty-two system calls, sixteen of them names ([save_returns]).
    What a client reads of a response is capped at [MAX_BODY]
    octets, and the theorems about it ask that the answer fits.  Dates are exact up to the year 4294, where [YYYYMMDDnn] leaves 32 bits.

    ** Not modelled

    Sockets, signals and the async runtime; symbolic links and file systems other
    than Unix ones; message encoding and decoding (hickory's) and HTTP parsing on the
    server's side (axum's); the text of errors and logs; argument parsing (clap's) and
    the completions it generates; the clock behind the durations a client reports; what
    is outside ASCII in [trim] and the case methods; a panic of [println!] on a closed
    standard output, and whatever ends a server while it runs.  [seed_is_unobservable] is
    stated for one order of walking a HashMap: two orders may give an empty
    non-terminal the letter case of different descendants, which no answer shows
    ([builds_agree]) but a diagnostic may.
    PROJECT.json lists every source file with what is modelled of it. *)

From Stdlib Require Export NArith ZArith Lia.
From stdpp Require Export base gmap list strings sorting.

(** Machine words are kept in [N]; every operation that can wrap says so. *)
Declare Scope vega_scope.
Delimit Scope vega_scope with vega.

(** ** Results: the values of Rust's [Result] *)

Inductive result (E A : Type) : Type :=
| Ok (a : A)
| Err (e : E).
Arguments Ok {E A} a.
Arguments Err {E A} e.

Definition rbind {E A B} (m : result E A) (k : A -> result E B) : result E B :=
  match m with
  | Ok a => k a
  | Err e => Err e
  end.

Notation "'let?' x ':=' m 'in' k" := (rbind m (fun x => k))
  (at level 10, x pattern, m at level 100, k at level 200) : vega_scope.

Definition is_ok {E A} (m : result E A) : bool :=
  match m with Ok _ => true | Err _ => false end.

Definition is_present {A} (o : option A) : bool := match o with Some _ => true | None => false end.

Definition ok_or {E A} (e : E) (o : option A) : result E A :=
  match o with Some a => Ok a | None => Err e end.

Definition map_err {E F A} (f : E -> F) (m : result E A) : result F A :=
  match m with Ok a => Ok a | Err e => Err (f e) end.

(** Run [f] over a list, threading a state and stopping at the first error. *)
Fixpoint fold_res {E S A} (f : S -> A -> result E S) (s : S) (l : list A) : result E S :=
  match l with
  | [] => Ok s
  | a :: l' => match f s a with Ok s' => fold_res f s' l' | Err e => Err e end
  end.

Fixpoint map_res {E A B} (f : A -> result E B) (l : list A) : result E (list B) :=
  match l with
  | [] => Ok []
  | a :: l' =>
      match f a with
      | Ok b => match map_res f l' with Ok bs => Ok (b :: bs) | Err e => Err e end
      | Err e => Err e
      end
  end.

(** ** Machine words *)

Definition U8_MOD : N := 2 ^ 8.
Definition U16_MOD : N := 2 ^ 16.
Definition U32_MOD : N := 2 ^ 32.
Definition U64_MOD : N := 2 ^ 64.
Definition u32_MAX : N := U32_MOD - 1.
Definition u64_MAX : N := U64_MOD - 1.

(** [wrapping_mul] and [wrapping_sub] at 64 and 32 bits, [as u32] truncation. *)
Definition u64_wrapping_mul (a b : N) : N := (a * b) mod U64_MOD.
Definition u32_wrapping_sub (a b : N) : N := (a + U32_MOD - b) mod U32_MOD.
Definition as_u32 (a : N) : N := a mod U32_MOD.

(** Rust's [clamp]. *)
Definition clampN (x lo hi : N) : N := if (x <? lo)%N then lo else if (hi <? x)%N then hi else x.

(** ** Slices

    [slice.get(start..end)]: [None] when the range is inverted or runs past the
    end, exactly the cases in which Rust's [get] answers [None]. *)
Definition slice_get {A} (l : list A) (s e : nat) : option (list A) :=
  if (s <=? e)%nat && (e <=? length l)%nat then Some (take (e - s) (drop s l)) else None.

(** [slice.get(i)] at a machine-width index: bounds first, so that an index that is
    a sentinel is refused without being walked to. *)
Definition getN {A} (l : list A) (i : N) : option A :=
  if (i <? N.of_nat (length l))%N then l !! N.to_nat i else None.

(** [slice.partition_point]: the index of the first element that fails [p], on a
    slice that is partitioned by [p]. *)
Fixpoint partition_point {A} (p : A -> bool) (l : list A) : nat :=
  match l with
  | [] => 0%nat
  | x :: l' => if p x then S (partition_point p l') else 0%nat
  end.

(** [sort_by] with a boolean [<=]: a stable insertion sort, and [sort_by_key]. *)
Fixpoint insert_by {A} (leb : A -> A -> bool) (x : A) (l : list A) : list A :=
  match l with
  | [] => [x]
  | y :: l' => if leb x y then x :: y :: l' else y :: insert_by leb x l'
  end.

Definition sort_by {A} (leb : A -> A -> bool) (l : list A) : list A := foldr (insert_by leb) [] l.

Definition key_leb {A} (key : A -> N) (a b : A) : bool := (key a <=? key b)%N.
Definition sort_by_key {A} (key : A -> N) (l : list A) : list A := sort_by (key_leb key) l.

(** [iter().rposition(p)]: the last index whose element satisfies [p]. *)
Definition rposition {A} (p : A -> bool) (l : list A) : option nat :=
  match list_find (fun x => p x = true) (reverse l) with
  | Some (j, _) => Some (length l - S j)%nat
  | None => None
  end.

(** ** Strings: the ASCII readings of Rust's [str] methods *)

Definition is_ascii_space (c : Ascii.ascii) : bool :=
  let n := Ascii.N_of_ascii c in ((9 <=? n) && (n <=? 13) || (n =? 32))%N.

Fixpoint trim_start_by (p : Ascii.ascii -> bool) (s : string) : string :=
  match s with
  | EmptyString => EmptyString
  | String c s' => if p c then trim_start_by p s' else s
  end.

Fixpoint trim_end_by (p : Ascii.ascii -> bool) (s : string) : string :=
  match s with
  | EmptyString => EmptyString
  | String c s' =>
      match trim_end_by p s' with
      | EmptyString => if p c then EmptyString else String c EmptyString
      | s'' => String c s''
      end
  end.

Definition str_trim (s : string) : string := trim_end_by is_ascii_space (trim_start_by is_ascii_space s).

Fixpoint str_map (f : N -> N) (s : string) : string :=
  match s with
  | EmptyString => EmptyString
  | String c s' => String (Ascii.ascii_of_N (f (Ascii.N_of_ascii c))) (str_map f s')
  end.

Definition upper_octet (c : N) : N := if ((97 <=? c) && (c <=? 122))%N then (c - 32)%N else c.
Definition lower_octet (c : N) : N := if ((65 <=? c) && (c <=? 90))%N then (c + 32)%N else c.
Definition str_to_uppercase (s : string) : string := str_map upper_octet s.
Definition str_to_lowercase (s : string) : string := str_map lower_octet s.

Definition str_strip_prefix (p s : string) : option string :=
  if String.prefix p s then Some (String.substring (String.length p) (String.length s - String.length p) s)
  else None.

Fixpoint str_ends_with_char (c : Ascii.ascii) (s : string) : bool :=
  match s with
  | EmptyString => false
  | String d EmptyString => Ascii.eqb c d
  | String _ s' => str_ends_with_char c s'
  end.

Fixpoint octets_of_string (s : string) : list N :=
  match s with
  | EmptyString => []
  | String c s' => Ascii.N_of_ascii c :: octets_of_string s'
  end.

(** A word of lower-case letters. *)
Fixpoint letters (s : string) : bool :=
  match s with
  | EmptyString => true
  | String c s' => (97 <=? Ascii.N_of_ascii c)%N && (Ascii.N_of_ascii c <=? 122)%N && letters s'
  end.

Definition char_dot : Ascii.ascii := Ascii.ascii_of_N 46.

Definition trim_start_matches (c : Ascii.ascii) (s : string) : string := trim_start_by (Ascii.eqb c) s.

(** ** The order in which a [HashMap] is walked: unspecified *)
Class HashOrder : Type := {
  hash_order {A} : list A -> list A;
  hash_order_perm {A} (l : list A) : hash_order l ≡ₚ l;
}.

(** ** Tactics *)

(** Destruct every [match]/[if] scrutinee in sight, innermost first. *)
Ltac destruct_match :=
  match goal with
  | |- context [match ?x with _ => _ end] =>
      lazymatch x with
      | context [match _ with _ => _ end] => fail
      | _ => destruct x eqn:?
      end
  | H : context [match ?x with _ => _ end] |- _ =>
      lazymatch x with
      | context [match _ with _ => _ end] => fail
      | _ => destruct x eqn:?
      end
  end.

(** Turn boolean comparisons on [N] and [nat] into propositions. *)
Ltac bool_prop :=
  repeat match goal with
  | H : (_ <? _)%N = true |- _ => apply N.ltb_lt in H
  | H : (_ <? _)%N = false |- _ => apply N.ltb_ge in H
  | H : (_ <=? _)%N = true |- _ => apply N.leb_le in H
  | H : (_ <=? _)%N = false |- _ => apply N.leb_gt in H
  | H : (_ =? _)%N = true |- _ => apply N.eqb_eq in H
  | H : (_ =? _)%N = false |- _ => apply N.eqb_neq in H
  | H : (_ <? _)%nat = true |- _ => apply Nat.ltb_lt in H
  | H : (_ <? _)%nat = false |- _ => apply Nat.ltb_ge in H
  | H : (_ <=? _)%nat = true |- _ => apply Nat.leb_le in H
  | H : (_ <=? _)%nat = false |- _ => apply Nat.leb_gt in H
  | H : (_ =? _)%nat = true |- _ => apply Nat.eqb_eq in H
  | H : (_ =? _)%nat = false |- _ => apply Nat.eqb_neq in H
  | H : (_ && _) = true |- _ => apply andb_true_iff in H; destruct H
  | H : (_ || _) = false |- _ => apply orb_false_iff in H; destruct H
  | H : negb _ = true |- _ => apply negb_true_iff in H
  | H : negb _ = false |- _ => apply negb_false_iff in H
  end.

(** ** Lemmas on results *)

Lemma rbind_ok {E A B} (m : result E A) (k : A -> result E B) b :
  rbind m k = Ok b -> exists a, m = Ok a /\ k a = Ok b.
Proof. destruct m as [a|e]; simpl; [eauto | discriminate]. Qed.

Lemma ok_or_ok {E A} (e : E) (o : option A) a : ok_or e o = Ok a -> o = Some a.
Proof. destruct o; simpl; congruence. Qed.

(** Where an error comes from. *)
Lemma rbind_err {E A B} (m : result E A) (k : A -> result E B) e :
  rbind m k = Err e -> m = Err e \/ exists a, m = Ok a /\ k a = Err e.
Proof. destruct m as [a|e']; simpl; [eauto|]. intros [= ->]. by left. Qed.

Lemma fold_res_err {E S A} (f : S -> A -> result E S) l s e :
  fold_res f s l = Err e -> exists s' a, a ∈ l /\ f s' a = Err e.
Proof.
  revert s; induction l as [|a l IH]; simpl; intros s H; [done|]. destruct (f s a) as [s1|e1] eqn:Ef.
  - destruct (IH s1 H) as (s' & a' & Hin & Hf). exists s', a'. split; [by right|done].
  - simplify_eq. exists s, a. split; [by left|done].
Qed.

Lemma map_res_err {E A B} (f : A -> result E B) l e :
  map_res f l = Err e -> exists a, a ∈ l /\ f a = Err e.
Proof.
  induction l as [|a l IH]; simpl; intros H; [done|]. destruct (f a) as [b|e1] eqn:Ef.
  - destruct (map_res f l) as [bs|e2]; [done|]. destruct (IH H) as (a' & Hin & Hf). exists a'. split; [by right|done].
  - simplify_eq. exists a. split; [by left|done].
Qed.

Lemma map_res_length {E A B} (f : A -> result E B) l bs :
  map_res f l = Ok bs -> length bs = length l.
Proof.
  revert bs; induction l as [|a l IH]; simpl; intros bs H; [by simplify_eq|].
  destruct (f a); [|done]. destruct (map_res f l); [|done].
  simplify_eq; simpl; f_equal; by apply IH.
Qed.

(** An invariant of every accepted step is an invariant of the fold. *)
Lemma fold_res_ind {E S A} (P : S -> Prop) (f : S -> A -> result E S) l s s' :
  (forall s a s', a ∈ l -> P s -> f s a = Ok s' -> P s') ->
  P s -> fold_res f s l = Ok s' -> P s'.
Proof.
  revert s; induction l as [|a l IH]; simpl; intros s Hstep HP H; [by simplify_eq|].
  destruct (f s a) as [s1|e] eqn:Hf; [|done].
  eapply (IH s1); [|eapply Hstep; [|exact HP|exact Hf]|exact H].
  - intros ????. apply Hstep. by right.
  - by left.
Qed.

(** The same with the elements already folded in hand. *)
Lemma fold_res_prefix {E S A} (P : list A -> S -> Prop) (f : S -> A -> result E S) l s s' :
  P [] s ->
  (forall pre a post s s', l = pre ++ a :: post -> P pre s -> f s a = Ok s' -> P (pre ++ [a]) s') ->
  fold_res f s l = Ok s' -> P l s'.
Proof.
  intros H0 Hstep.
  cut (forall post pre s, l = pre ++ post -> P pre s -> fold_res f s post = Ok s' -> P l s').
  { intros H. by apply (H l [] s). }
  induction post as [|a post IH]; simpl; intros pre s1 -> HP H.
  { rewrite app_nil_r. by simplify_eq. }
  destruct (f s1 a) as [s2|e] eqn:Hf; [|done].
  apply (IH (pre ++ [a]) s2); [by rewrite <- (assoc_L (++))| |done]. by eapply Hstep.
Qed.

(** A fold succeeds when an invariant makes every step succeed. *)
Lemma fold_res_total {E S A} (P : list A -> S -> Prop) (f : S -> A -> result E S) l s :
  P [] s ->
  (forall pre a post s, l = pre ++ a :: post -> P pre s -> exists s', f s a = Ok s' /\ P (pre ++ [a]) s') ->
  exists s', fold_res f s l = Ok s'.
Proof.
  intros H0 Hstep.
  cut (forall post pre s, l = pre ++ post -> P pre s -> exists s', fold_res f s post = Ok s').
  { intros H. by apply (H l [] s). }
  induction post as [|a post IH]; simpl; intros pre s1 Hl HP; [by exists s1|].
  destruct (Hstep pre a post s1 Hl HP) as (s2 & -> & HP2).
  apply (IH (pre ++ [a])); [by rewrite Hl, <- (assoc_L (++))|done].
Qed.

Lemma fold_left_prefix {S A} (P : list A -> S -> Prop) (f : S -> A -> S) l s :
  P [] s ->
  (forall pre a post s, l = pre ++ a :: post -> P pre s -> P (pre ++ [a]) (f s a)) ->
  P l (fold_left f l s).
Proof.
  intros H0 Hstep.
  cut (forall post pre s, l = pre ++ post -> P pre s -> P l (fold_left f post s)).
  { intros H. by apply (H l []). }
  induction post as [|a post IH]; simpl; intros pre s1 -> HP; [by rewrite app_nil_r|].
  apply (IH (pre ++ [a])); [by rewrite <- (assoc_L (++))|]. by eapply Hstep.
Qed.

(** ** Lemmas on integers *)

Lemma N_div_between a k q : k <> 0%N -> (a / k = q <-> q * k <= a < (q + 1) * k)%N.
Proof.
  intros Hk. split.
  - intros <-. pose proof (N.Div0.mul_div_le a k). pose proof (N.mul_succ_div_gt a k Hk). nia.
  - intros [H1 H2]. symmetry. apply (N.div_unique a k q (a - q * k)); nia.
Qed.

(** ** Lemmas on slices and sorting *)

Lemma getN_lookup {A} (l : list A) i : getN l i = l !! N.to_nat i.
Proof.
  unfold getN. destruct (_ <? _)%N eqn:E; [done|]. bool_prop. symmetry. apply lookup_ge_None. lia.
Qed.

Lemma slice_get_some {A} (l : list A) s e :
  (s <= e <= length l)%nat -> slice_get l s e = Some (take (e - s) (drop s l)).
Proof.
  intros [H1 H2]. unfold slice_get.
  apply Nat.leb_le in H1, H2. by rewrite H1, H2.
Qed.

Lemma slice_get_inv {A} (l : list A) s e m :
  slice_get l s e = Some m -> (s <= e <= length l)%nat /\ m = take (e - s) (drop s l).
Proof. unfold slice_get. intros H. destruct_match; [|done]. bool_prop. by simplify_eq. Qed.

Lemma slice_get_app {A} (l1 m l2 : list A) :
  slice_get (l1 ++ m ++ l2) (length l1) (length l1 + length m) = Some m.
Proof.
  rewrite slice_get_some by (rewrite !length_app; lia).
  by rewrite drop_app_length, Nat.add_comm, Nat.add_sub, take_app_length.
Qed.

Lemma rposition_some {A} (p : A -> bool) l i :
  rposition p l = Some i -> exists x, l !! i = Some x /\ p x = true.
Proof.
  unfold rposition. destruct (list_find _ _) as [[j x]|] eqn:E; [|done]. intros [= <-].
  apply list_find_Some in E as (Hj & Hp & _). exists x.
  by apply reverse_lookup_Some in Hj as [Hj _].
Qed.

Lemma rposition_none {A} (p : A -> bool) l :
  rposition p l = None <-> Forall (fun x => p x = false) l.
Proof.
  unfold rposition. rewrite Forall_forall. destruct (list_find _ _) as [[j x]|] eqn:E; split; try done.
  - intros H. apply list_find_Some in E as (Hj & Hp & _). apply list_elem_of_lookup_2 in Hj.
    rewrite elem_of_reverse in Hj. by rewrite H in Hp.
  - intros _ x Hx. rewrite list_find_None, Forall_forall in E. rewrite <- elem_of_reverse in Hx.
    specialize (E x Hx). by destruct (p x).
Qed.

Lemma filter_all {A} (P : A -> Prop) `{!forall x, Decision (P x)} l : Forall P l -> filter P l = l.
Proof. induction 1 as [|x l Hx _ IH]; [done|]. by rewrite filter_cons, decide_True, IH. Qed.

Lemma filter_ext_in {A} (P Q : A -> Prop) `{!forall x, Decision (P x), !forall x, Decision (Q x)} (l : list A) :
  (forall x, x ∈ l -> P x <-> Q x) -> filter P l = filter Q l.
Proof.
  induction l as [|x l IH]; intros Hiff; [done|]. rewrite !filter_cons.
  assert (IH' : filter P l = filter Q l) by (apply IH; intros y Hy; apply Hiff; by right).
  assert (Hx : P x <-> Q x) by (apply Hiff; by left).
  destruct (decide (P x)), (decide (Q x)); rewrite ?IH'; tauto || done.
Qed.

Lemma sorted_filter {A} (R : A -> A -> Prop) (P : A -> Prop) `{!forall x, Decision (P x)} l :
  StronglySorted R l -> StronglySorted R (filter P l).
Proof.
  induction 1 as [|x l Hs IH Hf]; [constructor|]. rewrite filter_cons. destruct (decide (P x)); [|done].
  constructor; [done|]. apply Forall_forall. intros y [_ Hy]%list_elem_of_filter.
  rewrite Forall_forall in Hf. auto.
Qed.

Lemma length_tail {A} (l : list A) : length (tail l) = (length l - 1)%nat.
Proof. destruct l; simpl; lia. Qed.

Lemma sorted_lookup {A} (R : A -> A -> Prop) l i j a b :
  StronglySorted R l -> (i < j)%nat -> l !! i = Some a -> l !! j = Some b -> R a b.
Proof.
  intros Hs. revert i j. induction Hs as [|x l Hs IH Hf]; intros i j Hij Hi Hj; [done|].
  destruct j as [|j]; [lia|]. cbn in Hj. destruct i as [|i]; cbn in Hi.
  - simplify_eq. rewrite Forall_forall in Hf. apply Hf. by eapply list_elem_of_lookup_2.
  - apply (IH i j); [lia|done|done].
Qed.

Lemma partition_point_le {A} (p : A -> bool) l : (partition_point p l <= length l)%nat.
Proof. induction l; simpl; [lia|]. destruct_match; lia. Qed.

Section Sorting.
Context {A : Type} (leb : A -> A -> bool).

Lemma insert_by_perm x l : insert_by leb x l ≡ₚ x :: l.
Proof.
  induction l as [|y l IH]; simpl; [done|]. destruct_match; [done|].
  rewrite IH. constructor.
Qed.

Lemma sort_by_perm l : sort_by leb l ≡ₚ l.
Proof.
  induction l as [|x l IH]; [done|]. change (sort_by leb (x :: l)) with (insert_by leb x (sort_by leb l)).
  by rewrite insert_by_perm, IH.
Qed.

Hypothesis leb_total : forall a b, leb a b = false -> leb b a = true.
Hypothesis leb_trans : forall a b c, leb a b = true -> leb b c = true -> leb a c = true.

Lemma insert_by_sorted x l :
  StronglySorted (fun a b => leb a b = true) l ->
  StronglySorted (fun a b => leb a b = true) (insert_by leb x l).
Proof.
  induction l as [|y l IH]; simpl; intros Hs; [by repeat constructor|].
  apply StronglySorted_inv in Hs as [Hs Hf]. destruct (leb x y) eqn:E.
  - constructor; [by constructor|]. constructor; [done|].
    eapply Forall_impl; [exact Hf|]. simpl; eauto.
  - constructor; [by apply IH|]. rewrite insert_by_perm. constructor; [auto|done].
Qed.

Lemma sort_by_sorted l : StronglySorted (fun a b => leb a b = true) (sort_by leb l).
Proof. induction l; [constructor|by apply insert_by_sorted]. Qed.

End Sorting.

(** A list whose keys never decrease. *)
Definition key_sorted {A} (key : A -> N) (l : list A) : Prop :=
  StronglySorted (fun a b => (key a <= key b)%N) l.

Lemma sort_by_key_perm {A} (key : A -> N) l : sort_by_key key l ≡ₚ l.
Proof. apply sort_by_perm. Qed.

Lemma sort_by_key_sorted {A} (key : A -> N) l : key_sorted key (sort_by_key key l).
Proof.
  unfold key_sorted, sort_by_key.
  assert (Hs : StronglySorted (fun a b => key_leb key a b = true) (sort_by (key_leb key) l)).
  { apply sort_by_sorted; unfold key_leb; intros; bool_prop; apply N.leb_le; lia. }
  induction Hs as [|a l' Hs IH Hf]; constructor; [done|].
  eapply Forall_impl; [exact Hf|]. intros b Hb. by apply N.leb_le.
Qed.

(** Stability: the sort does not reorder elements that share a key. *)
Lemma insert_by_stable {A} (key : A -> N) k x l :
  filter (fun a => key a = k) (insert_by (key_leb key) x l) = filter (fun a => key a = k) (x :: l).
Proof.
  unfold key_leb. induction l as [|y l IH]; simpl; [done|]. destruct_match; [done|]. bool_prop.
  rewrite !filter_cons in *. destruct (decide (key x = k)); destruct (decide (key y = k));
    rewrite ?IH; try done. exfalso; lia.
Qed.

Lemma sort_by_key_stable {A} (key : A -> N) k l :
  filter (fun a => key a = k) (sort_by_key key l) = filter (fun a => key a = k) l.
Proof.
  unfold sort_by_key. induction l as [|x l IH]; [done|].
  change (sort_by (key_leb key) (x :: l)) with (insert_by (key_leb key) x (sort_by (key_leb key) l)).
  rewrite insert_by_stable. rewrite !filter_cons, IH. done.
Qed.

(** On a list sorted by key, the elements in [[want, want]] are one run, found by
    two partition points. *)
Lemma key_sorted_run {A} (key : A -> N) (want : N) l :
  key_sorted key l ->
  slice_get l (partition_point (fun a => (key a <? want)%N) l)
              (partition_point (fun a => (key a <=? want)%N) l)
  = Some (filter (fun a => key a = want) l).
Proof.
  intros Hs. unfold key_sorted in Hs.
  assert (Hle : forall l, StronglySorted (fun a b => (key a <= key b)%N) l ->
    (partition_point (fun a => (key a <? want)%N) l <=
     partition_point (fun a => (key a <=? want)%N) l)%nat).
  { clear. induction 1 as [|x l Hs IH Hf]; simpl; [lia|].
    destruct (key x <? want)%N eqn:E1; destruct (key x <=? want)%N eqn:E2; bool_prop; lia. }
  rewrite slice_get_some by (split; [by apply Hle|apply partition_point_le]).
  f_equal. specialize (Hle l Hs). induction Hs as [|x l Hs IH Hf]; simpl; [done|].
  rewrite filter_cons. destruct (key x <? want)%N eqn:E1; destruct (key x <=? want)%N eqn:E2; bool_prop; try lia.
  - simpl. rewrite decide_False by lia. apply IH.
    revert Hle; simpl. destruct (key x <? want)%N eqn:E3; destruct (key x <=? want)%N eqn:E4; bool_prop; lia.
  - assert (Heq : key x = want) by lia. rewrite decide_True by done. simpl. f_equal.
    assert (H0 : partition_point (fun a => (key a <? want)%N) l = 0%nat).
    { destruct l as [|y l']; simpl; [done|]. inversion Hf; subst.
      destruct (key y <? key x)%N eqn:?; bool_prop; [lia|done]. }
    rewrite <- IH by (rewrite H0; lia). by rewrite H0, Nat.sub_0_r.
  - rewrite decide_False by lia. simpl. symmetry.
    assert (Hn : Forall (fun a => key a <> want) l).
    { eapply Forall_impl; [exact Hf|]. simpl; intros; lia. }
    clear -Hn. induction Hn; [done|]. by rewrite filter_cons, decide_False.
Qed.

Lemma length_str_append (s t : string) : String.length (s +:+ t) = (String.length s + String.length t)%nat.
Proof. induction s as [|c s IH]; [done|]. change (S (String.length (s +:+ t)) = S (String.length s + String.length t))%nat. by rewrite IH. Qed.

(** ** Automation

    [vega] collects the side conditions the components' files register with it: sorts
    here, ancestry of names in [BuildFacts], well-formed zones in [Answers].  [lengths]
    holds the equations of list lengths, and [len] is arithmetic up to them. *)
Create HintDb vega discriminated.
#[export] Hint Resolve sort_by_key_perm sort_by_key_sorted partition_point_le : vega.

Create Rewrite HintDb lengths.
#[export] Hint Rewrite @length_take @length_drop @length_app @length_map @length_rev @length_insert @length_replicate
  @length_str_append : lengths.

Ltac len := autorewrite with lengths; cbn [length]; lia.
