(* ===== verification/Names.v ===== *)
(** * Domain names and their canonical sort key (src/src/canonical.rs)

    Names are values of the [hickory_proto] crate, which is not part of the
    repository: the class [HickoryNames] lists the operations of [Name] and
    [LowerName] the program calls, and [HickoryNamesLaws] the documented behaviour
    it relies on.  The canonical key, the label counts and the prefix test are the
    repository's own and are definitions. *)

From S2P Require Import Prelude.

(** ** Labels *)

(** A label is its octets; a name is its labels, leftmost first. *)
Abbreviation label := (list N).

Definition to_ascii_lowercase (c : N) : N :=
  if ((65 <=? c) && (c <=? 90))%N then (c + 32)%N else c.

Definition lc (l : label) : label := map to_ascii_lowercase l.

(** The [*] label. *)
Definition WILDCARD_LABEL : label := [42%N].

(** The most labels any DNS name can carry. *)
Definition MAX_LABELS : nat := 127.

(** A record name, trimmed, whose leftmost label is an asterisk. *)
Definition is_wildcard_text (text : string) : bool :=
  String.eqb text "*" || String.prefix "*." text.

(** Presentation format without escapes. *)
Fixpoint backslash_free (s : string) : bool :=
  match s with
  | EmptyString => true
  | String c s' => negb (Ascii.N_of_ascii c =? 92)%N && backslash_free s'
  end.

(** The octets of an encoded name: a length octet before each label, and the root's. *)
Definition name_octets (ls : list label) : nat :=
  S (sum_list_with (fun l => S (length l)) ls).

(** ** The interface to [hickory_proto]'s names *)

Class HickoryNames : Type := {
  Name : Type;
  LowerName : Type;
  #[global] lname_eq_dec :: EqDecision LowerName;
  #[global] lname_countable :: Countable LowerName;
  (** [Name::iter] and the same through [LowerName]'s deref *)
  iter : Name -> list label;
  liter : LowerName -> list label;
  (** [LowerName::from(Name)] and [Name::from(LowerName)] *)
  lower_from : Name -> LowerName;
  name_from : LowerName -> Name;
  is_fqdn : Name -> bool;
  set_fqdn : Name -> bool -> Name;
  zone_of : LowerName -> LowerName -> bool;
  base_name : Name -> Name;
  prepend_label : label -> Name -> option Name;
  (** [str::parse::<Name>] and [Name::parse(s, Some(origin))] *)
  name_from_str : string -> option Name;
  name_parse : string -> Name -> option Name;
  (** [Name::len], an estimate of the encoded length, and [Name::num_labels] *)
  name_len : Name -> N;
  num_labels : Name -> N;
}.

(** [z] is [n] or an ancestor of [n]: its labels end those of [n]. *)
Definition labels_under (z n : list label) : Prop := exists p, n = p ++ z.

Class HickoryNamesLaws (HN : HickoryNames) : Prop := {
  liter_lower_from n : liter (lower_from n) = map lc (iter n);
  iter_name_from l : iter (name_from l) = liter l;
  liter_lowercase l : map lc (liter l) = liter l;
  lower_from_name_from l : lower_from (name_from l) = l;
  fqdn_lower_from n : is_fqdn (name_from (lower_from n)) = is_fqdn n;
  lname_ext a b : liter a = liter b -> is_fqdn (name_from a) = is_fqdn (name_from b) -> a = b;
  (** [num_labels] discounts a leading asterisk, so the law is stated for zones
      that are not wildcards. *)
  zone_of_spec z n : head (liter z) <> Some WILDCARD_LABEL ->
    zone_of z n = true <-> labels_under (liter z) (liter n);
  base_name_labels n : iter (base_name n) = tail (iter n);
  base_name_fqdn n : is_fqdn n = true -> is_fqdn (base_name n) = true;
  prepend_label_spec l n m : prepend_label l n = Some m ->
    iter m = l :: iter n /\ is_fqdn m = is_fqdn n;
  set_fqdn_labels n b : iter (set_fqdn n b) = iter n;
  set_fqdn_spec n b : is_fqdn (set_fqdn n b) = b;
  name_parse_under s o n : name_parse s o = Some n ->
    is_fqdn o = true -> labels_under (iter o) (iter n) /\ is_fqdn n = true;
  (** Text without escapes spells the labels it has. *)
  name_parse_star s o n : backslash_free s = true -> s <> ""%string ->
    name_parse s o = Some n -> head (iter n) = Some WILDCARD_LABEL -> is_wildcard_text s = true;
  name_from_str_star s n : backslash_free s = true -> s <> ""%string ->
    name_from_str s = Some n -> head (iter n) = Some WILDCARD_LABEL -> is_wildcard_text s = true;
  name_label_limit n : (length (iter n) <= MAX_LABELS)%nat;
  name_octet_limit n : (name_octets (iter n) <= 255)%nat;
  (** The root's octet is the only one [Name::len] may leave out. *)
  name_len_octets n : (N.of_nat (name_octets (iter n)) <= name_len n + 1)%N;
  num_labels_spec n : num_labels n =
    (N.of_nat (length (iter n)) - (if bool_decide (head (iter n) = Some WILDCARD_LABEL) then 1 else 0))%N;
  (** One word is one label in front of the origin. *)
  name_parse_label s o n : letters s = true -> s <> ""%string ->
    name_parse s o = Some n -> iter n = octets_of_string s :: iter o;
}.

(** ** Orders on labels and names *)

Fixpoint lex_compare {A} (cmp : A -> A -> comparison) (l1 l2 : list A) : comparison :=
  match l1, l2 with
  | [], [] => Eq
  | [], _ :: _ => Lt
  | _ :: _, [] => Gt
  | x :: l1', y :: l2' =>
      match cmp x y with
      | Eq => lex_compare cmp l1' l2'
      | c => c
      end
  end.

Abbreviation octets_compare := (lex_compare N.compare).

(** RFC 4034 section 6.1: labels outwards from the root, each compared as octets,
    a missing octet or label sorting first. *)
Definition labels_compare (a b : list label) : comparison :=
  lex_compare octets_compare (rev a) (rev b).

(** ** The key *)

Definition LABEL_END : list N := [0%N; 0%N].
Definition ESCAPED_NUL : list N := [0%N; 1%N].

Section Canonical.
Context {HN : HickoryNames}.

(** The number of labels, asterisks included. *)
Definition label_count (name : LowerName) : nat := length (liter name).

(** The RFC 4034 section 6.1 order on names. *)
Definition canonical_compare (a b : LowerName) : comparison :=
  labels_compare (liter a) (liter b).

Definition write_canonical_sort_key (name : LowerName) (key : list N) : list N :=
  fold_left (fun key lab =>
      fold_left (fun key octet =>
          let octet := to_ascii_lowercase octet in
          if (octet =? 0)%N then key ++ ESCAPED_NUL else key ++ [octet])
        lab key ++ LABEL_END)
    (rev (liter name)) key.

(** The key alone, as the build sorts it. *)
Definition sort_key (name : LowerName) : list N := write_canonical_sort_key name [].

End Canonical.

Definition octets_eqb (a b : list N) : bool := bool_decide (a = b).

(** [child.starts_with(parent)] on octets. *)
Fixpoint starts_with (child parent : list N) : bool :=
  match parent, child with
  | [], _ => true
  | p :: parent', c :: child' => (p =? c)%N && starts_with child' parent'
  | _ :: _, [] => false
  end.

Definition is_strict_prefix (parent child : list N) : bool :=
  (length parent <? length child)%nat && starts_with child parent.

(** ** The key as a concatenation *)

Definition esc (o : N) : list N := if (o =? 0)%N then ESCAPED_NUL else [o].
Definition enc_label (l : label) : list N := flat_map esc l ++ LABEL_END.
Definition enc_labels (ls : list label) : list N := flat_map enc_label ls.

Lemma lex_compare_refl {A} (cmp : A -> A -> comparison) l :
  (forall x, cmp x x = Eq) -> lex_compare cmp l l = Eq.
Proof. intros H. induction l; simpl; [done|]. by rewrite H. Qed.

Lemma lex_compare_eq {A} (cmp : A -> A -> comparison) l1 l2 :
  (forall x y, cmp x y = Eq -> x = y) -> lex_compare cmp l1 l2 = Eq -> l1 = l2.
Proof.
  intros Hc. revert l2; induction l1 as [|x l1 IH]; intros [|y l2]; simpl; try done.
  destruct (cmp x y) eqn:E; try done. intros. f_equal; auto.
Qed.

Lemma lex_compare_antisym {A} (cmp : A -> A -> comparison) l1 l2 :
  (forall x y, cmp y x = CompOpp (cmp x y)) ->
  lex_compare cmp l2 l1 = CompOpp (lex_compare cmp l1 l2).
Proof.
  intros Hc. revert l2; induction l1 as [|x l1 IH]; intros [|y l2]; simpl; try done.
  rewrite Hc. destruct (cmp x y); simpl; auto.
Qed.

Lemma lex_compare_trans {A} (cmp : A -> A -> comparison) l1 l2 l3 :
  (forall x y, cmp x y = Eq -> x = y) ->
  (forall x y z, cmp x y = Lt -> cmp y z = Lt -> cmp x z = Lt) ->
  lex_compare cmp l1 l2 = Lt -> lex_compare cmp l2 l3 = Lt -> lex_compare cmp l1 l3 = Lt.
Proof.
  intros He Ht. revert l2 l3; induction l1 as [|x l1 IH]; intros [|y l2] [|z l3]; simpl; try done.
  destruct (cmp x y) eqn:E1; destruct (cmp y z) eqn:E2; try done.
  - pose proof (He _ _ E1); subst. rewrite E2. apply IH.
  - apply He in E1; subst. by rewrite E2.
  - apply He in E2; subst. by rewrite E1.
  - by rewrite (Ht _ _ _ E1 E2).
Qed.

(** The octet order. *)
Lemma octets_compare_refl l : octets_compare l l = Eq.
Proof. apply lex_compare_refl, N.compare_refl. Qed.

Lemma octets_compare_eq l1 l2 : octets_compare l1 l2 = Eq <-> l1 = l2.
Proof.
  split; [apply lex_compare_eq, N.compare_eq|intros ->; apply octets_compare_refl].
Qed.

Lemma octets_compare_antisym l1 l2 : octets_compare l2 l1 = CompOpp (octets_compare l1 l2).
Proof. apply lex_compare_antisym. intros; apply N.compare_antisym. Qed.

Lemma octets_compare_trans l1 l2 l3 :
  octets_compare l1 l2 = Lt -> octets_compare l2 l3 = Lt -> octets_compare l1 l3 = Lt.
Proof.
  apply lex_compare_trans; [apply N.compare_eq|].
  intros x y z; rewrite !N.compare_lt_iff; lia.
Qed.

Lemma octets_compare_prefix p s : s <> [] -> octets_compare p (p ++ s) = Lt.
Proof.
  intros Hs. induction p as [|x p IH]; simpl; [by destruct s|]. by rewrite N.compare_refl.
Qed.

(** Whatever sorts between a prefix and one of its extensions extends the prefix. *)
Lemma octets_between_prefix p x s :
  octets_compare x p <> Lt -> octets_compare x (p ++ s) <> Gt -> exists t, x = p ++ t.
Proof.
  revert x; induction p as [|o p IH]; intros x H1 H2; [by exists x|].
  destruct x as [|y x]; simpl in *; [done|].
  destruct (N.compare y o) eqn:E; try done.
  apply N.compare_eq in E; subst. destruct (IH x H1 H2) as [t ->]. by exists t.
Qed.

Lemma starts_with_spec child parent :
  starts_with child parent = true <-> exists s, child = parent ++ s.
Proof.
  revert child; induction parent as [|p parent IH]; intros child; simpl.
  { split; [intros _; by exists child|intros _; by destruct child]. }
  destruct child as [|c child]; simpl; [split; [discriminate|intros [s Hs]; discriminate]|].
  rewrite andb_true_iff, IH. split.
  - intros [Hp [s ->]]. bool_prop. exists s. by subst.
  - intros [s Hs]. simplify_eq/=. split; [apply N.eqb_refl|by exists s].
Qed.

Lemma is_strict_prefix_spec parent child :
  is_strict_prefix parent child = true <-> exists s, s <> [] /\ child = parent ++ s.
Proof.
  unfold is_strict_prefix. rewrite andb_true_iff, starts_with_spec. split.
  - intros [Hl [s ->]]. bool_prop. rewrite length_app in Hl. exists s. split; [|done].
    intros ->. simpl in Hl; lia.
  - intros (s & Hs & ->). split; [|by exists s]. apply Nat.ltb_lt. rewrite length_app.
    destruct s; [done|]. simpl; lia.
Qed.

(** ** The escape preserves order and prefixes *)

Lemma esc_cons_nonzero o : o <> 0%N -> esc o = [o].
Proof. intros H. unfold esc. apply N.eqb_neq in H. by rewrite H. Qed.

Lemma enc_label_compare l1 l2 r1 r2 :
  octets_compare (enc_label l1 ++ r1) (enc_label l2 ++ r2)
  = match octets_compare l1 l2 with Eq => octets_compare r1 r2 | c => c end.
Proof.
  unfold enc_label. rewrite <- !(assoc_L (++)).
  revert l2; induction l1 as [|x l1 IH]; intros [|y l2]; cbn [flat_map app].
  - done.
  - destruct (decide (y = 0%N)) as [->|Hy]; [done|].
    rewrite (esc_cons_nonzero y Hy). simpl. destruct y; done.
  - destruct (decide (x = 0%N)) as [->|Hx]; [done|].
    rewrite (esc_cons_nonzero x Hx). simpl. destruct x; done.
  - simpl lex_compare at 2. rewrite <- !(assoc_L (++)).
    destruct (decide (x = 0%N)) as [->|Hx]; destruct (decide (y = 0%N)) as [->|Hy];
      rewrite ?(esc_cons_nonzero x), ?(esc_cons_nonzero y) by done.
    + simpl. apply IH.
    + simpl. destruct y; done.
    + simpl. destruct x; done.
    + simpl. destruct (N.compare x y) eqn:E; [apply IH|done|done].
Qed.

Lemma enc_label_nonempty l r : enc_label l ++ r <> [].
Proof. unfold enc_label. destruct (flat_map esc l); done. Qed.

Lemma enc_labels_compare a b :
  octets_compare (enc_labels a) (enc_labels b) = lex_compare octets_compare a b.
Proof.
  unfold enc_labels. revert b; induction a as [|x a IH]; intros [|y b]; cbn [flat_map lex_compare].
  - done.
  - pose proof (enc_label_nonempty y (flat_map enc_label b)). by destruct (_ ++ _).
  - pose proof (enc_label_nonempty x (flat_map enc_label a)). by destruct (_ ++ _).
  - rewrite enc_label_compare. destruct (octets_compare x y); auto.
Qed.

Lemma enc_labels_app a b : enc_labels (a ++ b) = enc_labels a ++ enc_labels b.
Proof. apply flat_map_app. Qed.

Lemma enc_label_prefix l1 l2 r1 r2 s :
  enc_label l2 ++ r2 = (enc_label l1 ++ r1) ++ s -> l1 = l2 /\ r2 = r1 ++ s.
Proof.
  unfold enc_label. rewrite <- !(assoc_L (++)).
  revert l2; induction l1 as [|x l1 IH]; intros [|y l2]; cbn [flat_map app]; intros H.
  - by simplify_eq/=.
  - destruct (decide (y = 0%N)) as [->|Hy]; [done|].
    rewrite (esc_cons_nonzero y Hy) in H. simplify_eq/=.
  - destruct (decide (x = 0%N)) as [->|Hx]; [done|].
    rewrite (esc_cons_nonzero x Hx) in H. simplify_eq/=.
  - destruct (decide (x = 0%N)) as [->|Hx]; destruct (decide (y = 0%N)) as [->|Hy];
      rewrite ?(esc_cons_nonzero x), ?(esc_cons_nonzero y) in H by done;
      cbn in H; simplify_eq; destruct (IH l2) as [-> ->]; auto.
Qed.

Lemma enc_labels_prefix a b s :
  enc_labels b = enc_labels a ++ s -> exists c, b = a ++ c /\ s = enc_labels c.
Proof.
  revert b; induction a as [|x a IH]; intros b H; [by exists b|].
  destruct b as [|y b]; cbn in H.
  { rewrite <- (assoc_L (++)) in H. by pose proof (enc_label_nonempty x (flat_map enc_label a ++ s)). }
  apply enc_label_prefix in H as [-> H].
  destruct (IH b) as (c & -> & ->); [done|]. by exists c.
Qed.

(** ** The key of a name *)

Section CanonicalFacts.
Context {HN : HickoryNames} {HL : HickoryNamesLaws HN}.

Lemma lc_idemp_octets (l : label) :
  lc l = l -> Forall (fun o => to_ascii_lowercase o = o) l.
Proof. unfold lc. induction l; simpl; intros H; simplify_eq; constructor; auto. Qed.

Lemma fold_label_enc lab key :
  Forall (fun o => to_ascii_lowercase o = o) lab ->
  fold_left (fun key octet =>
      let octet := to_ascii_lowercase octet in
      if (octet =? 0)%N then key ++ ESCAPED_NUL else key ++ [octet]) lab key
  = key ++ flat_map esc lab.
Proof.
  intros H. revert key; induction H as [|o lab Ho _ IH]; intros key; simpl; [by rewrite app_nil_r|].
  rewrite Ho, IH. unfold esc. destruct (o =? 0)%N; by rewrite <- (assoc_L (++)).
Qed.

Lemma write_key_enc name key :
  write_canonical_sort_key name key = key ++ enc_labels (rev (liter name)).
Proof.
  unfold write_canonical_sort_key.
  assert (Hl : Forall (fun l => lc l = l) (rev (liter name))).
  { apply Forall_rev. pose proof (liter_lowercase name) as H. revert H.
    generalize (liter name). induction l; simpl; intros H; simplify_eq; constructor; auto. }
  revert key; induction Hl as [|l ls Hl _ IH]; intros key; simpl; [by rewrite app_nil_r|].
  rewrite IH, fold_label_enc by (by apply lc_idemp_octets).
  unfold enc_label. by rewrite <- !(assoc_L (++)).
Qed.

Lemma sort_key_enc name : sort_key name = enc_labels (rev (liter name)).
Proof. apply (write_key_enc name []). Qed.

Lemma sort_key_compare a b :
  octets_compare (sort_key a) (sort_key b) = canonical_compare a b.
Proof. rewrite !sort_key_enc. apply enc_labels_compare. Qed.

Lemma labels_under_rev z n : labels_under z n <-> exists s, rev n = rev z ++ s.
Proof.
  split.
  - intros [p ->]. exists (rev p). by rewrite rev_app_distr.
  - intros [s Hs]. exists (rev s). rewrite <- (rev_involutive n), Hs, rev_app_distr.
    by rewrite rev_involutive.
Qed.

Lemma sort_key_prefix a b :
  (exists s, sort_key b = sort_key a ++ s) <-> labels_under (liter a) (liter b).
Proof.
  rewrite !sort_key_enc, labels_under_rev. split.
  - intros [s Hs]. apply enc_labels_prefix in Hs as (c & Hc & _). by exists c.
  - intros [s Hs]. exists (enc_labels s). by rewrite Hs, enc_labels_app.
Qed.

Lemma sort_key_strict_prefix a b :
  is_strict_prefix (sort_key a) (sort_key b) = true
  <-> labels_under (liter a) (liter b) /\ liter a <> liter b.
Proof.
  rewrite is_strict_prefix_spec. split.
  - intros (s & Hs & Hk). split; [apply sort_key_prefix; by exists s|].
    intros Heq. rewrite !sort_key_enc, Heq in Hk.
    apply Hs. apply (app_inv_head (enc_labels (rev (liter b)))). by rewrite app_nil_r.
  - intros [Hu Hne]. apply sort_key_prefix in Hu as [s Hs]. exists s. split; [|done].
    intros ->. rewrite app_nil_r, !sort_key_enc in Hs.
    apply Hne. destruct (enc_labels_prefix (rev (liter a)) (rev (liter b)) []) as (c & Hc & Hn).
    { by rewrite app_nil_r. }
    destruct c as [|x c]; [|cbn in Hn; symmetry in Hn; by apply enc_label_nonempty in Hn].
    rewrite app_nil_r in Hc. apply (f_equal (@rev _)) in Hc. by rewrite !rev_involutive in Hc.
Qed.

Lemma sort_key_inj a b : sort_key a = sort_key b -> liter a = liter b.
Proof.
  intros H. destruct (decide (liter a = liter b)) as [|Hne]; [done|].
  assert (Hu : labels_under (liter a) (liter b)).
  { apply sort_key_prefix. exists []. by rewrite app_nil_r. }
  assert (Hp := proj2 (sort_key_strict_prefix a b) (conj Hu Hne)).
  apply is_strict_prefix_spec in Hp as (s & Hs & Hk). rewrite H in Hk.
  exfalso. apply Hs. apply (app_inv_head (sort_key b)). by rewrite app_nil_r.
Qed.

End CanonicalFacts.
