(* ===== verification/Rdata.v ===== *)
(** * Record types, RDATA and the value gate (src/src/rdata.rs)

    [RData] and [Record] are [hickory_proto] types: [RData] carries the variants
    the program matches on, with [RD_Other] for the rest.  The class
    [HickoryRdata] holds the three library functions the program calls on them. *)

From S2P Require Import Prelude Names.

(** ** Record types

    A [RecordType] is kept as the number [u16::from] gives it, which is what the
    program sorts and compares by. *)
Abbreviation RecordType := N.

Definition RT_ZERO : RecordType := 0.
Definition RT_A : RecordType := 1.
Definition RT_NS : RecordType := 2.
Definition RT_CNAME : RecordType := 5.
Definition RT_SOA : RecordType := 6.
Definition RT_HINFO : RecordType := 13.
Definition RT_MX : RecordType := 15.
Definition RT_TXT : RecordType := 16.
Definition RT_AAAA : RecordType := 28.
Definition RT_OPT : RecordType := 41.
Definition RT_TSIG : RecordType := 250.
Definition RT_IXFR : RecordType := 251.
Definition RT_AXFR : RecordType := 252.
Definition RT_ANY : RecordType := 255.

Definition is_any (t : RecordType) : bool := (t =? RT_ANY)%N.

Section Types.
Context {HN : HickoryNames}.

(** ** RDATA and records *)

Inductive RData : Type :=
| RD_A (addr : N)
| RD_AAAA (addr : N)
| RD_NS (target : Name)
| RD_CNAME (target : Name)
| RD_PTR (target : Name)
| RD_MX (preference : N) (exchange : Name)
| RD_SRV (priority weight port : N) (target : Name)
| RD_SOA (mname rname : Name) (serial : N) (refresh retry expire : Z) (minimum : N)
| RD_TXT (txt_data : list (list N))
| RD_HINFO (cpu os : list N)
| RD_Other (rtype : RecordType) (rdata : list N).

(** [Record::from_rdata(name, ttl, data)] *)
Record DnsRecord : Type := from_rdata {
  rec_name : Name;
  rec_ttl : N;
  rec_data : RData;
}.

End Types.

(** ** What the library's zone-file lexer can do with a value

    [RData::try_from_str] is not total: its lexer asserts, which under
    [panic = "abort"] is the end of the process. *)
Inductive lexed (A : Type) : Type :=
| LexOk (a : A)
| LexErr
| LexAbort.
Arguments LexOk {A} a.
Arguments LexErr {A}.
Arguments LexAbort {A}.

Class HickoryRdata (HN : HickoryNames) : Type := {
  (** [str::parse::<RecordType>] *)
  record_type_parse : string -> option RecordType;
  try_from_str : RecordType -> string -> lexed RData;
  (** [rdata.to_bytes()], which can fail to encode *)
  to_bytes : RData -> option (list N);
}.

(** ** Characters of a UTF-8 string *)

Definition is_continuation (c : Ascii.ascii) : bool :=
  let n := Ascii.N_of_ascii c in ((128 <=? n) && (n <? 192))%N.

(** [value.chars().count()]: the octets that do not continue a character. *)
Fixpoint chars_count (s : string) : N :=
  match s with
  | EmptyString => 0
  | String c s' => (if is_continuation c then 0 else 1) + chars_count s'
  end.

Definition MAX_VALUE_CHARS : N := 4090.
Definition LEXER_ABORTS_AT : N := 4095.

(** The library's documented abort: a token of at least [LEXER_ABORTS_AT]
    characters, so a value at least that long. *)
Class HickoryRdataLaws (HN : HickoryNames) (HR : HickoryRdata HN) : Prop := {
  try_from_str_abort t v : try_from_str t v = LexAbort -> (LEXER_ABORTS_AT <= chars_count v)%N;
}.

Inductive ValueError : Type :=
| TooLong (record_type : RecordType) (owner : string) (chars : N)
| Unparsable.

Section Gate.
Context {HN : HickoryNames} {HR : HickoryRdata HN}.

(** [rdata::parse_value].  The outer [option] is the process: [None] when the
    lexer's assertion ends it. *)
Definition parse_value (record_type : RecordType) (owner value : string)
    : option (result ValueError RData) :=
  let chars := chars_count value in
  if (MAX_VALUE_CHARS <? chars)%N then Some (Err (TooLong record_type owner chars))
  else match try_from_str record_type value with
       | LexOk rdata => Some (Ok rdata)
       | LexErr => Some (Err Unparsable)
       | LexAbort => None
       end.

Lemma parse_value_returns {RL : HickoryRdataLaws HN HR} t o v : parse_value t o v <> None.
Proof.
  unfold parse_value. destruct_match; [done|]. bool_prop.
  destruct (try_from_str t v) eqn:E; [done|done|].
  apply try_from_str_abort in E. unfold MAX_VALUE_CHARS, LEXER_ABORTS_AT in *. lia.
Qed.

(** The gate never lets the lexer abort the process, refuses exactly the values
    over the limit before the lexer sees them, and otherwise answers as the lexer
    does. *)
Theorem parse_value_spec {RL : HickoryRdataLaws HN HR} t o v :
  parse_value t o v =
    Some (if (MAX_VALUE_CHARS <? chars_count v)%N then Err (TooLong t o (chars_count v))
          else match try_from_str t v with LexOk d => Ok d | _ => Err Unparsable end).
Proof.
  pose proof (parse_value_returns t o v) as Hr. unfold parse_value in *.
  destruct (_ <? _)%N; [done|]. by destruct (try_from_str t v).
Qed.

End Gate.
