(* ===== verification/Plain.v ===== *)
(** * A concrete reading of the name and RDATA interfaces

    A small implementation of [HickoryNames] and [HickoryRdata] that satisfies
    their laws.  The witnesses evaluate the program's definitions on it; no
    theorem about the program depends on it. *)

From S2P Require Import Prelude Names Rdata.


(** ** Names as bounded label lists *)

Record RawName := { raw_labels : list label; raw_fqdn : bool }.

#[global] Instance raw_name_eq_dec : EqDecision RawName.
Proof. solve_decision. Defined.

#[global] Instance raw_name_countable : Countable RawName.
Proof.
  apply (inj_countable' (fun r => (raw_labels r, raw_fqdn r))
           (fun p => {| raw_labels := p.1; raw_fqdn := p.2 |})).
  by intros [].
Defined.

(** RFC 1035's limits: 127 labels, 63 octets each, 255 octets in all. *)
Definition raw_ok (r : RawName) : bool :=
  (length (raw_labels r) <=? MAX_LABELS)%nat && (name_octets (raw_labels r) <=? 255)%nat.

Definition raw_lower (r : RawName) : RawName :=
  {| raw_labels := map lc (raw_labels r); raw_fqdn := raw_fqdn r |}.

Record PlainName := { pn_raw : RawName; pn_ok : raw_ok pn_raw = true }.

Record PlainLower := {
  pl_raw : RawName;
  pl_ok : raw_ok pl_raw && bool_decide (map lc (raw_labels pl_raw) = raw_labels pl_raw) = true;
}.

Lemma plain_lower_eq a b : pl_raw a = pl_raw b -> a = b.
Proof.
  destruct a as [a Ha], b as [b Hb]; simpl; intros <-. f_equal.
  apply (Eqdep_dec.UIP_dec Bool.bool_dec).
Qed.

Definition lower_of_raw (r : RawName) : option PlainLower :=
  match Bool.bool_dec (raw_ok r && bool_decide (map lc (raw_labels r) = raw_labels r)) true with
  | left H => Some {| pl_raw := r; pl_ok := H |}
  | right _ => None
  end.

Definition name_of_raw (r : RawName) : option PlainName :=
  match Bool.bool_dec (raw_ok r) true with
  | left H => Some {| pn_raw := r; pn_ok := H |}
  | right _ => None
  end.

#[global] Instance plain_lower_eq_dec : EqDecision PlainLower.
Proof.
  intros a b. destruct (decide (pl_raw a = pl_raw b)) as [H|H].
  - left. by apply plain_lower_eq.
  - right. congruence.
Defined.

#[global] Instance plain_lower_countable : Countable PlainLower.
Proof.
  apply (inj_countable pl_raw lower_of_raw).
  intros [r H]. unfold lower_of_raw; simpl. destruct (Bool.bool_dec _ _) as [H'|]; [|done].
  f_equal. by apply plain_lower_eq.
Defined.

Lemma lc_lc l : lc (lc l) = lc l.
Proof.
  unfold lc. rewrite map_map. apply map_ext. intros c. unfold to_ascii_lowercase.
  destruct (65 <=? c)%N eqn:E1; destruct (c <=? 90)%N eqn:E2; simpl;
    rewrite ?E1, ?E2; simpl; try done.
  bool_prop. destruct (c + 32 <=? 90)%N eqn:E3; bool_prop; [lia|]. by rewrite andb_false_r.
Qed.

Lemma length_lc l : length (lc l) = length l.
Proof. apply length_map. Qed.

Lemma name_octets_lower ls : name_octets (map lc ls) = name_octets ls.
Proof.
  unfold name_octets. f_equal. induction ls as [|l ls IH]; simpl; [done|].
  by rewrite length_lc, IH.
Qed.

Lemma raw_ok_lower r : raw_ok (raw_lower r) = raw_ok r.
Proof. unfold raw_ok, raw_lower; cbn [raw_labels raw_fqdn]. by rewrite length_map, name_octets_lower. Qed.

Lemma raw_lower_ok r :
  raw_ok r = true ->
  raw_ok (raw_lower r) && bool_decide (map lc (raw_labels (raw_lower r)) = raw_labels (raw_lower r)) = true.
Proof.
  intros H. rewrite raw_ok_lower, H. simpl. apply bool_decide_eq_true. rewrite map_map.
  apply map_ext, lc_lc.
Qed.

Lemma raw_tail_ok r :
  raw_ok r = true ->
  raw_ok {| raw_labels := tail (raw_labels r); raw_fqdn := raw_fqdn r |} = true.
Proof.
  unfold raw_ok, name_octets; cbn [raw_labels raw_fqdn]. intros H. bool_prop.
  apply andb_true_iff. split; apply Nat.leb_le; destruct (raw_labels r); simpl in *; lia.
Qed.

Lemma pl_lower_fix l : map lc (raw_labels (pl_raw l)) = raw_labels (pl_raw l).
Proof. destruct l as [r H]; simpl. apply andb_true_iff in H as [_ H]. by apply bool_decide_eq_true in H. Qed.

Definition plain_lower (n : PlainName) : PlainLower :=
  {| pl_raw := raw_lower (pn_raw n); pl_ok := raw_lower_ok _ (pn_ok n) |}.

Lemma pl_raw_ok l : raw_ok (pl_raw l) = true.
Proof. destruct l as [r H]; simpl. by apply andb_true_iff in H as [H _]. Qed.

Definition plain_from_lower (l : PlainLower) : PlainName :=
  {| pn_raw := pl_raw l; pn_ok := pl_raw_ok l |}.

Definition plain_base (n : PlainName) : PlainName :=
  {| pn_raw := {| raw_labels := tail (raw_labels (pn_raw n)); raw_fqdn := raw_fqdn (pn_raw n) |};
     pn_ok := raw_tail_ok _ (pn_ok n) |}.

Definition plain_set_fqdn (n : PlainName) (b : bool) : PlainName :=
  {| pn_raw := {| raw_labels := raw_labels (pn_raw n); raw_fqdn := b |}; pn_ok := pn_ok n |}.

Definition plain_zone_of (z n : PlainLower) : bool :=
  let lz := raw_labels (pl_raw z) in
  let ln := raw_labels (pl_raw n) in
  bool_decide (drop (length ln - length lz) ln = lz).

(** ** Text *)

(** Split presentation-format text at its dots; the flag is a trailing dot. *)
Fixpoint split_dots (cur : list N) (s : list N) : list label * bool :=
  match s with
  | [] => match cur with [] => ([], true) | _ => ([rev cur], false) end
  | c :: s' =>
      if (c =? 46)%N then let '(ls, f) := split_dots [] s' in (rev cur :: ls, f)
      else split_dots (c :: cur) s'
  end.

Definition raw_of_octets (s : list N) : option RawName :=
  match s with
  | [46%N] => Some {| raw_labels := []; raw_fqdn := true |}
  | [] => None
  | _ =>
      let '(ls, f) := split_dots [] s in
      if forallb (fun l => (1 <=? length l)%nat && (length l <=? 63)%nat) ls
      then Some {| raw_labels := ls; raw_fqdn := f |} else None
  end.

Definition plain_from_str (s : string) : option PlainName :=
  r ← raw_of_octets (octets_of_string s); name_of_raw r.

Definition plain_parse (s : string) (o : PlainName) : option PlainName :=
  r ← raw_of_octets (octets_of_string s);
  let ls := if raw_fqdn r then raw_labels r else raw_labels r ++ raw_labels (pn_raw o) in
  if bool_decide (drop (length ls - length (raw_labels (pn_raw o))) ls = raw_labels (pn_raw o))
  then name_of_raw {| raw_labels := ls; raw_fqdn := raw_fqdn (pn_raw o) |} else None.

#[global] Instance plain_names : HickoryNames := {|
  Name := PlainName;
  LowerName := PlainLower;
  iter n := raw_labels (pn_raw n);
  liter l := raw_labels (pl_raw l);
  lower_from := plain_lower;
  name_from := plain_from_lower;
  is_fqdn n := raw_fqdn (pn_raw n);
  set_fqdn := plain_set_fqdn;
  zone_of := plain_zone_of;
  base_name := plain_base;
  prepend_label l n :=
    name_of_raw {| raw_labels := l :: raw_labels (pn_raw n); raw_fqdn := raw_fqdn (pn_raw n) |};
  name_from_str := plain_from_str;
  name_parse := plain_parse;
  name_len n := N.of_nat (name_octets (raw_labels (pn_raw n)));
  num_labels n := (N.of_nat (length (raw_labels (pn_raw n)))
    - (if bool_decide (head (raw_labels (pn_raw n)) = Some WILDCARD_LABEL) then 1 else 0))%N;
|}.

Lemma name_of_raw_some r n : name_of_raw r = Some n -> pn_raw n = r.
Proof. unfold name_of_raw. destruct (Bool.bool_dec _ _); [|done]. intros [= <-]. done. Qed.

Lemma drop_suffix_under (z n : list label) :
  drop (length n - length z) n = z <-> labels_under z n.
Proof.
  split.
  - intros H. exists (take (length n - length z) n). by rewrite <- H at 2; rewrite take_drop.
  - intros [p ->]. rewrite length_app. by rewrite Nat.add_sub, drop_app_length.
Qed.

Lemma split_dots_head s cur l ls f :
  split_dots cur s = (l :: ls, f) ->
  exists p, l = rev cur ++ p /\ (s = p \/ exists r, s = p ++ 46%N :: r).
Proof.
  revert cur l ls f; induction s as [|c s IH]; intros cur l ls f H; simpl in H.
  - destruct cur as [|x cur]; [done|]. simplify_eq. exists []. rewrite app_nil_r. auto.
  - destruct (c =? 46)%N eqn:E; bool_prop.
    + destruct (split_dots [] s) as [ls' f']. simplify_eq. exists []. rewrite app_nil_r. eauto.
    + apply IH in H as (p & -> & Hs). exists (c :: p). simpl. rewrite <- (assoc_L (++)). simpl.
      split; [done|]. destruct Hs as [->|[r ->]]; [by left|right; by exists r].
Qed.

Lemma octets_of_string_star s r :
  octets_of_string s = [42%N] \/ octets_of_string s = 42%N :: 46%N :: r ->
  is_wildcard_text s = true.
Proof.
  assert (Hc : forall c k, Ascii.N_of_ascii c = k -> c = Ascii.ascii_of_N k).
  { intros c k <-. by rewrite Ascii.ascii_N_embedding. }
  destruct s as [|c s]; simpl; [by intros [|]|]. intros [H|H]; simplify_eq/=.
  - destruct s; [|done]. apply Hc in H. by subst.
  - destruct s as [|d s]; [done|]. simplify_eq/=. apply Hc in H, H0. subst. unfold is_wildcard_text.
    simpl. by destruct s.
Qed.

Lemma raw_of_octets_star s r :
  raw_of_octets (octets_of_string s) = Some r -> head (raw_labels r) = Some WILDCARD_LABEL ->
  is_wildcard_text s = true.
Proof.
  intros H Hh. unfold raw_of_octets in H.
  assert (Hs : let '(ls, f) := split_dots [] (octets_of_string s) in
    (if forallb (fun l => (1 <=? length l)%nat && (length l <=? 63)%nat) ls
     then Some {| raw_labels := ls; raw_fqdn := f |} else None) = Some r).
  { repeat destruct_match; simplify_eq; done. }
  clear H. destruct (split_dots [] (octets_of_string s)) as [ls f] eqn:E.
  destruct (forallb _ ls); [|done]. simplify_eq/=. destruct ls as [|l ls]; [done|]. simplify_eq/=.
  apply split_dots_head in E as (p & Hp & Hs). simpl in Hp. subst p.
  destruct Hs as [Hs|[r Hs]]; simpl in Hs; [apply (octets_of_string_star s []); by left|].
  apply (octets_of_string_star s r). by right.
Qed.

Lemma split_dots_letters cur s : 46%N ∉ s -> cur <> [] \/ s <> [] -> split_dots cur s = ([rev cur ++ s], false).
Proof.
  revert cur; induction s as [|c s IH]; intros cur Hs Hne; simpl.
  - destruct cur; [by destruct Hne|]. by rewrite app_nil_r.
  - destruct (c =? 46)%N eqn:E; bool_prop; [exfalso; apply Hs; subst; by left|].
    rewrite IH; [|by intros H; apply Hs; right|by left]. simpl. by rewrite <- (assoc_L (++)).
Qed.

Lemma raw_of_octets_letters s r :
  letters s = true -> s <> ""%string -> raw_of_octets (octets_of_string s) = Some r ->
  r = {| raw_labels := [octets_of_string s]; raw_fqdn := false |}.
Proof.
  intros Hl Hne. assert (H46 : 46%N ∉ octets_of_string s).
  { clear Hne. induction s as [|c s IH]; [by intros ?%elem_of_nil|]. simpl in Hl. bool_prop.
    intros [H'|H']%elem_of_cons; [lia|]. by apply IH. }
  assert (Ho : octets_of_string s <> []) by (by destruct s).
  unfold raw_of_octets. pose proof (split_dots_letters [] (octets_of_string s) H46 (or_intror Ho)) as Hsp.
  simpl in Hsp. intros H.
  assert (Hs : let '(ls, f) := split_dots [] (octets_of_string s) in
    (if forallb (fun l => (1 <=? length l)%nat && (length l <=? 63)%nat) ls
     then Some {| raw_labels := ls; raw_fqdn := f |} else None) = Some r).
  { repeat destruct_match; simplify_eq; done. }
  rewrite Hsp in Hs. by destruct (forallb _ _); simplify_eq.
Qed.

#[global] Instance plain_names_laws : HickoryNamesLaws plain_names.
Proof.
  constructor; simpl.
  - done.
  - done.
  - apply pl_lower_fix.
  - intros l. apply plain_lower_eq; simpl. destruct (pl_raw l) as [ls f] eqn:E. unfold raw_lower; simpl.
    pose proof (pl_lower_fix l) as H. rewrite E in H. simpl in H. by rewrite H.
  - done.
  - intros a b H1 H2. apply plain_lower_eq. destruct (pl_raw a), (pl_raw b); simpl in *. congruence.
  - intros z n _. unfold plain_zone_of. rewrite bool_decide_eq_true. apply drop_suffix_under.
  - done.
  - done.
  - intros l n m H. apply name_of_raw_some in H. by rewrite H.
  - done.
  - done.
  - intros s o n H Ho. unfold plain_parse in H. destruct (raw_of_octets _) as [r|]; [|done]. simpl in H.
    case_bool_decide as Hd; [|done]. apply name_of_raw_some in H. rewrite H; simpl.
    split; [|done]. by apply drop_suffix_under.
  - intros s o n _ _ H Hh. unfold plain_parse in H.
    destruct (raw_of_octets _) as [r|] eqn:Er; [|done]. simpl in H.
    case_bool_decide as Hd; [|done]. apply name_of_raw_some in H. rewrite H in Hh; simpl in Hh.
    eapply raw_of_octets_star; [exact Er|]. destruct (raw_fqdn r) eqn:Ef; [done|].
    destruct (raw_labels r) as [|l ls] eqn:El; [|done]. exfalso. clear -Er Ef El.
    unfold raw_of_octets in Er. destruct (octets_of_string s) as [|c cs] eqn:Es; [done|].
    destruct (split_dots [] (c :: cs)) as [ls f] eqn:E.
    assert (Hls : ls = [] /\ f = false).
    { repeat destruct_match; simplify_eq/=; done. }
    destruct Hls as [-> ->]. simpl in E. destruct (c =? 46)%N; [by destruct (split_dots [] cs)|].
    clear -E. assert (Hn : forall s cur, cur <> [] -> split_dots cur s <> ([], false)).
    { clear. induction s as [|c s IH]; intros cur Hc; simpl; [by destruct cur|].
      destruct (c =? 46)%N; [by destruct (split_dots [] s)|]. by apply IH. }
    by apply (Hn cs [c]) in E.
  - intros s n _ _ H Hh. unfold plain_from_str in H.
    destruct (raw_of_octets _) as [r|] eqn:Er; [|done]. simpl in H.
    apply name_of_raw_some in H. rewrite H in Hh. by eapply raw_of_octets_star.
  - intros [r H]; simpl. unfold raw_ok in H. by bool_prop.
  - intros [r H]; simpl. unfold raw_ok in H. by bool_prop.
  - intros n. lia.
  - done.
  - intros s o n Hs Hne H. unfold plain_parse in H. destruct (raw_of_octets _) as [r|] eqn:Er; [|done]. simpl in H.
    case_bool_decide as Hd; [|done]. apply name_of_raw_some in H. rewrite H; simpl.
    apply raw_of_octets_letters in Er as ->; [done|done|done].
Qed.

(** A name given as text, for the examples. *)
Definition pname (s : string) : PlainName :=
  match plain_from_str s with
  | Some n => n
  | None => plain_set_fqdn {| pn_raw := {| raw_labels := []; raw_fqdn := true |}; pn_ok := eq_refl |} true
  end.

Definition plower (s : string) : PlainLower := plain_lower (pname s).

Example pname_labels :
  iter (pname "www.example.com.") =
    [octets_of_string "www"; octets_of_string "example"; octets_of_string "com"].
Proof. reflexivity. Qed.

(** ** Values *)

Definition digit_of (c : N) : option N := if ((48 <=? c) && (c <=? 57))%N then Some (c - 48)%N else None.

Fixpoint decimal (acc : N) (l : list N) : option N :=
  match l with
  | [] => Some acc
  | c :: l' => d ← digit_of c; decimal (acc * 10 + d) l'
  end.

(** A dotted quad as a 32-bit number. *)
Definition dotted_quad (s : list N) : option N :=
  match split_dots [] s with
  | ([a; b; c; d], false) =>
      a ← decimal 0 a; b ← decimal 0 b; c ← decimal 0 c; d ← decimal 0 d;
      if ((a <? 256) && (b <? 256) && (c <? 256) && (d <? 256))%N
      then Some (((a * 256 + b) * 256 + c) * 256 + d)%N else None
  | _ => None
  end.

Definition plain_value (t : RecordType) (s : string) : option (@RData plain_names) :=
  let octets := octets_of_string s in
  if (t =? RT_A)%N then option_map RD_A (dotted_quad octets)
  else if (t =? RT_NS)%N then option_map (@RD_NS plain_names) (plain_from_str s)
  else if (t =? RT_CNAME)%N then option_map (@RD_CNAME plain_names) (plain_from_str s)
  else if (t =? RT_TXT)%N then Some (RD_TXT [octets])
  else Some (RD_Other t octets).

Definition type_names : list (string * RecordType) :=
  [("A", RT_A); ("NS", RT_NS); ("CNAME", RT_CNAME); ("SOA", RT_SOA); ("MX", RT_MX);
   ("TXT", RT_TXT); ("AAAA", RT_AAAA)]%string.

#[global] Instance plain_rdata : HickoryRdata plain_names := {|
  record_type_parse s := option_map snd (List.find (fun p => String.eqb (fst p) s) type_names);
  try_from_str t s :=
    if (LEXER_ABORTS_AT <=? chars_count s)%N then LexAbort
    else match plain_value t s with Some d => LexOk d | None => LexErr end;
  to_bytes d := match d with RD_Other _ bs => Some bs | _ => Some [] end;
|}.

#[global] Instance plain_rdata_laws : HickoryRdataLaws plain_names plain_rdata.
Proof.
  constructor. intros t v. simpl. destruct (LEXER_ABORTS_AT <=? chars_count v)%N eqn:E.
  - intros _. by apply N.leb_le.
  - by destruct (plain_value t v).
Qed.

(** A map walked in the order it lists itself. *)
#[global] Instance plain_order : HashOrder := {| hash_order A l := l; hash_order_perm A l := reflexivity l |}.
