(* ===== verification/Hashing.v ===== *)
(** * Suffix hashes and the name index (src/src/zone.rs, the primitives)

    [mix_label] and [name_hash] fold a name right to left; [SuffixHashes] keeps the
    hash of every suffix.  The index itself is a [hashbrown::HashTable], a library
    type: [HashTableApi] lists the three calls made on it and [HashTableLaws] what
    they promise. *)

From S2P Require Import Prelude Names.

(** ** The fold *)

Definition FNV_PRIME : N := 0x100000001b3.
Definition GOLDEN : N := 0x9e3779b97f4a7c15.

Definition mix_label (state : N) (lab : label) : N :=
  let hash := fold_left (fun hash octet => u64_wrapping_mul (N.lxor hash octet) FNV_PRIME) lab state in
  let hash := u64_wrapping_mul hash GOLDEN in
  N.lxor hash (N.shiftr hash 31).

(** [name_hash] over the labels of a name, leftmost first. *)
Definition labels_hash (seed : N) (ls : list label) : N := fold_left mix_label (rev ls) seed.

Definition name_hash {HN : HickoryNames} (seed : N) (name : LowerName) : N :=
  labels_hash seed (liter name).

(** ** Every suffix at once *)

Record SuffixHashes : Type := {
  sh_h : list N;       (** [h[d]] hashes the [d] rightmost labels *)
  sh_labels : nat;     (** the raw label count of the name *)
}.

(** The loop of [SuffixHashes::new]: [filled] is the last depth written. *)
Fixpoint fill_suffixes (labels : list label) (filled : nat) (h : list N) : list N :=
  match labels with
  | [] => h
  | lab :: labels' =>
      let next := mix_label (nth filled h 0%N) lab in
      fill_suffixes labels' (S filled) (<[S filled := next]> h)
  end.

Definition SuffixHashes_new {HN : HickoryNames} (seed : N) (name : LowerName) : SuffixHashes :=
  {| sh_h := fill_suffixes (take MAX_LABELS (rev (liter name))) 0 (replicate (S MAX_LABELS) seed);
     sh_labels := label_count name |}.

Definition SuffixHashes_at (s : SuffixHashes) (depth : nat) : option N :=
  if (sh_labels s <? depth)%nat || (MAX_LABELS <? depth)%nat then None else sh_h s !! depth.

(** ** The index *)

Class HashTableApi : Type := {
  HashTable : Type;
  ht_with_capacity : nat -> HashTable;
  (** [insert_unique(hash, value, rehash)] *)
  ht_insert_unique : N -> N -> HashTable -> HashTable;
  (** [find(hash, eq)] *)
  ht_find : HashTable -> N -> (N -> bool) -> option N;
  ht_len : HashTable -> nat;
  (** The entries held, for stating the laws. *)
  ht_entries : HashTable -> list (N * N);
}.

Class HashTableLaws (HT : HashTableApi) : Prop := {
  ht_entries_new n : ht_entries (ht_with_capacity n) = [];
  ht_entries_insert h v t : ht_entries (ht_insert_unique h v t) ≡ₚ (h, v) :: ht_entries t;
  (** what [find] answers satisfies the test and is in the table *)
  ht_find_sound t h eq v : ht_find t h eq = Some v ->
    eq v = true /\ exists h', (h', v) ∈ ht_entries t;
  (** an entry stored under the hash asked for and passing the test is not missed *)
  ht_find_complete t h eq v : (h, v) ∈ ht_entries t -> eq v = true -> ht_find t h eq <> None;
  ht_len_entries t : ht_len t = length (ht_entries t);
}.

(** A table as a list of its entries, for the examples. *)
#[global] Instance list_table : HashTableApi := {|
  HashTable := list (N * N);
  ht_with_capacity _ := [];
  ht_insert_unique h v t := (h, v) :: t;
  ht_find t h eq := snd <$> List.find (fun e => (fst e =? h)%N && eq (snd e)) t;
  ht_len := length;
  ht_entries t := t;
|}.

#[global] Instance list_table_laws : HashTableLaws list_table.
Proof.
  constructor; simpl; try done.
  - intros t h eq v H. destruct (List.find _ t) as [[h' v']|] eqn:E; [|done]. simplify_eq/=.
    apply List.find_some in E as [Hin E]; simpl in E. bool_prop. subst.
    split; [done|]. exists h. by apply list_elem_of_In.
  - intros t h eq v Hin He H. destruct (List.find _ t) as [|] eqn:E; [done|].
    apply list_elem_of_In in Hin. apply (List.find_none _ _ E) in Hin. simpl in Hin.
    by rewrite N.eqb_refl, He in Hin.
Qed.

(** ** Facts *)

Lemma labels_hash_cons seed l ls : labels_hash seed (l :: ls) = mix_label (labels_hash seed ls) l.
Proof. unfold labels_hash. simpl. by rewrite fold_left_app. Qed.

(** The suffix of [d] labels. *)
Definition suffix_of (ls : list label) (d : nat) : list label := drop (length ls - d) ls.

Lemma rev_suffix_of ls d : rev (suffix_of ls d) = take d (rev ls).
Proof. unfold suffix_of. symmetry. rewrite firstn_rev. done. Qed.

Lemma length_suffix_of ls d : (d <= length ls)%nat -> length (suffix_of ls d) = d.
Proof. intros. unfold suffix_of. len. Qed.

Lemma suffix_of_full ls : suffix_of ls (length ls) = ls.
Proof. unfold suffix_of. by rewrite Nat.sub_diag. Qed.

Lemma suffix_of_under ls d : labels_under (suffix_of ls d) ls.
Proof. exists (take (length ls - d) ls). unfold suffix_of. by rewrite take_drop. Qed.

Lemma suffix_of_succ ls d :
  (d < length ls)%nat -> exists l, suffix_of ls (S d) = l :: suffix_of ls d.
Proof.
  intros Hd. unfold suffix_of. destruct (lookup_lt_is_Some_2 ls (length ls - S d)) as [l Hl]; [lia|].
  exists l. rewrite (drop_S ls l _ Hl). by replace (S (length ls - S d)) with (length ls - d)%nat by lia.
Qed.

Lemma fill_suffixes_length ls f h : length (fill_suffixes ls f h) = length h.
Proof. revert f h; induction ls; intros; simpl; [done|]. rewrite IHls. apply length_insert. Qed.

Lemma fill_suffixes_lookup labels seed done_ h d :
  (length done_ + length labels < length h)%nat ->
  (forall i, (i <= length done_)%nat -> h !! i = Some (fold_left mix_label (take i done_) seed)) ->
  (d <= length done_ + length labels)%nat ->
  fill_suffixes labels (length done_) h !! d
  = Some (fold_left mix_label (take d (done_ ++ labels)) seed).
Proof.
  revert done_ h; induction labels as [|l labels IH]; intros done_ h Hlen Hh Hd; simpl.
  { rewrite app_nil_r. apply Hh. simpl in Hd; lia. }
  simpl in *.
  assert (Hn : nth (length done_) h 0%N = fold_left mix_label done_ seed).
  { erewrite nth_lookup_Some; [done|]. rewrite Hh by lia. by rewrite take_ge by lia. }
  rewrite Hn. specialize (IH (done_ ++ [l])).
  rewrite length_app in IH; simpl in IH. rewrite Nat.add_1_r in IH.
  rewrite IH; [by rewrite <- (assoc_L (++))|rewrite length_insert; lia| |lia].
  intros i Hi. destruct (decide (i = S (length done_))) as [->|Hne].
  - rewrite list_lookup_insert_eq by lia.
    rewrite take_ge by len. by rewrite fold_left_app.
  - rewrite list_lookup_insert_ne by lia. rewrite Hh by lia.
    by rewrite take_app_le by lia.
Qed.

Section Facts.
Context {HN : HickoryNames} {HL : HickoryNamesLaws HN}.

Lemma liter_limit n : (length (liter n) <= MAX_LABELS)%nat.
Proof. rewrite <- iter_name_from. apply name_label_limit. Qed.

Lemma suffix_hashes_at seed name d :
  SuffixHashes_at (SuffixHashes_new seed name) d
  = if (d <=? label_count name)%nat then Some (labels_hash seed (suffix_of (liter name) d)) else None.
Proof.
  pose proof (liter_limit name) as Hlim. unfold SuffixHashes_at, SuffixHashes_new, label_count; cbn [sh_h sh_labels].
  destruct (d <=? length (liter name))%nat eqn:Hd; bool_prop.
  - assert ((length (liter name) <? d)%nat = false) as -> by (apply Nat.ltb_ge; lia).
    assert ((MAX_LABELS <? d)%nat = false) as -> by (apply Nat.ltb_ge; lia). simpl orb. cbv iota.
    rewrite take_ge by len.
    etrans; [apply (fill_suffixes_lookup (rev (liter name)) seed [])|].
    + rewrite length_replicate, length_rev. simpl length. lia.
    + intros i Hi. simpl in Hi. assert (i = 0%nat) as -> by lia. done.
    + len.
    + simpl app. unfold labels_hash. by rewrite rev_suffix_of.
  - assert ((length (liter name) <? d)%nat = true) as -> by (apply Nat.ltb_lt; lia). done.
Qed.

(** One reverse pass produces, at every depth, the hash of that suffix, and no
    depth past the name has one. *)
Theorem suffix_hashes_exact seed name d :
  SuffixHashes_at (SuffixHashes_new seed name) d
  = if (d <=? label_count name)%nat then Some (labels_hash seed (suffix_of (liter name) d)) else None.
Proof. apply suffix_hashes_at. Qed.

End Facts.
