(* ===== verification/Zone.v ===== *)
(** * The zone arena and its lookup (src/src/zone.rs)

    The data of a built zone, and the functions that answer a query from it, one
    definition per function of the source.  [Lookup.v] relates them to a
    specification; [Build.v] builds the zones. *)

From S2P Require Import Prelude Names Rdata Hashing.

(** ** Indices, spans and flags *)

(** Maximum number of CNAMEs followed inside the zone. *)
Definition MAX_CNAME_DEPTH : nat := 8.

(** An arena index, a [u32]. *)
Abbreviation NodeIdx := N.
Definition APEX : NodeIdx := 0.
Definition NODE_NONE : NodeIdx := u32_MAX.
Definition is_none (i : NodeIdx) : bool := (i =? NODE_NONE)%N.

(** A half-open range of [u32]s into one of the arenas, and its slice. *)
Abbreviation Span := (N * N)%type.
Definition span (range : Span) : nat * nat := (N.to_nat range.1, N.to_nat range.2).
Definition get_span {A} (l : list A) (range : Span) : option (list A) :=
  slice_get l (span range).1 (span range).2.

(** One octet of flags. *)
Abbreviation NodeFlags := N.
Definition FLAGS_NONE : NodeFlags := 0.
Definition DELEGATION : NodeFlags := N.shiftl 1 1.
Definition WILDCARD : NodeFlags := N.shiftl 1 2.
Definition HAS_CNAME : NodeFlags := N.shiftl 1 3.
Definition GLUE : NodeFlags := N.shiftl 1 4.
Definition flags_contains (self other : NodeFlags) : bool := (N.land self other =? other)%N.
Definition flags_insert (self other : NodeFlags) : NodeFlags := N.lor self other.

(** ** Build-time findings that do not stop the zone *)
Inductive Diagnostic {HN : HickoryNames} : Type :=
| Occluded (owner : LowerName) (rtype : RecordType)
| MissingGlue (cut target : LowerName).

Section Data.
Context {HN : HickoryNames}.

Record Rrset : Type := mkRrset {
  rr_type : RecordType;
  rr_ttl : N;
  rr_rdata : Span;
}.

Record Node : Type := mkNode {
  nd_name : Name;
  nd_rrsets : Span;
  nd_cut : NodeIdx;
  nd_flags : NodeFlags;
}.

Record Referral : Type := mkReferral {
  ref_authority : list DnsRecord;
  ref_additional : list DnsRecord;
}.

Record Zone {HT : HashTableApi} : Type := mkZone {
  lower_origin : LowerName;
  default_ttl : N;
  soa : DnsRecord;
  nodes : list Node;
  rrsets : list Rrset;
  rdata : list RData;
  index : HashTable;
  hash_seed : N;
  origin_depth : N;
  max_depth : N;
  referrals : gmap N Referral;
  diagnostics : list Diagnostic;
  record_count : N;
}.

Inductive Answer : Type :=
| Records (records : list DnsRecord)
| ReferralAnswer (answers authority additional : list DnsRecord)
| NoData
| NxDomain.

Definition is_authoritative (a : Answer) : bool :=
  match a with
  | ReferralAnswer answers _ _ => match answers with [] => false | _ => true end
  | _ => true
  end.

Inductive Resolution : Type :=
| Found
| ReferralTo (cut : NodeIdx)
| ResNoData
| ResNxDomain.

End Data.

(** ** Name comparison *)

Section Matching.
Context {HN : HickoryNames}.

Definition eq_ignore_ascii_case (a b : label) : bool := bool_decide (lc a = lc b).

(** The loop of [node_name_matches]: [depth] labels of each iterator, and what is
    left of the node's. *)
Fixpoint match_labels (depth : nat) (node_labels query_labels : list label)
    : option (list label) :=
  match depth with
  | O => Some node_labels
  | S depth' =>
      match node_labels, query_labels with
      | l :: node_labels', r :: query_labels' =>
          if eq_ignore_ascii_case l r
          then match_labels depth' node_labels' query_labels' else None
      | _, _ => None
      end
  end.

Definition node_name_matches (node_name : Name) (qname : LowerName) (depth : nat) (star : bool)
    : bool :=
  if negb (length (iter node_name) =? depth + (if star then 1 else 0))%nat then false
  else match match_labels depth (rev (iter node_name)) (rev (liter qname)) with
       | None => false
       | Some rest => negb star || bool_decide (head rest = Some WILDCARD_LABEL)
       end.

End Matching.

(** ** The bisection of [Zone::closest_encloser] *)

Record Bisect : Type := mkBisect { bs_low : nat; bs_high : nat; bs_found : NodeIdx }.

(** [n.div_ceil(2)] *)
Definition div_ceil2 (n : nat) : nat := ((n + 1) / 2)%nat.

(** One pass of the [while low < high] loop; [None] when its condition fails. *)
Definition bisect_step (probe : nat -> option NodeIdx) (s : Bisect) : option Bisect :=
  if (bs_low s <? bs_high s)%nat then
    let mid := (bs_low s + div_ceil2 (bs_high s - bs_low s))%nat in
    match probe mid with
    | Some idx => Some (mkBisect mid (bs_high s) idx)
    | None => Some (mkBisect (bs_low s) (mid - 1) (bs_found s))
    end
  else None.

Fixpoint bisect (fuel : nat) (probe : nat -> option NodeIdx) (s : Bisect) : Bisect :=
  match fuel with
  | O => s
  | S fuel' =>
      match bisect_step probe s with
      | None => s
      | Some s' => bisect fuel' probe s'
      end
  end.

Section Lookup.
Context {HN : HickoryNames} {HT : HashTableApi}.

(** ** Accessors *)

Definition Zone_contains (z : Zone) (name : LowerName) : bool := zone_of (lower_origin z) name.

(** ** The probe *)

Definition node_get (z : Zone) (i : NodeIdx) : option Node := getN (nodes z) i.

Definition Zone_probe (z : Zone) (hash : N) (matches : Node -> bool) : option NodeIdx :=
  ht_find (index z) hash (fun i =>
    match node_get z i with Some nd => matches nd | None => false end).

Definition node_at (z : Zone) (name : LowerName) (depth : nat) (hashes : SuffixHashes)
    : option NodeIdx :=
  hash ← SuffixHashes_at hashes depth;
  Zone_probe z hash (fun nd => node_name_matches (nd_name nd) name depth false).

Definition exact_node (z : Zone) (name : LowerName) (hashes : SuffixHashes) : option NodeIdx :=
  node_at z name (sh_labels hashes) hashes.

Definition wildcard_node (z : Zone) (name : LowerName) (depth : nat) (hashes : SuffixHashes)
    : option NodeIdx :=
  h ← SuffixHashes_at hashes depth;
  Zone_probe z (mix_label h WILDCARD_LABEL) (fun nd =>
    flags_contains (nd_flags nd) WILDCARD && node_name_matches (nd_name nd) name depth true).

(** ** RRsets *)

Definition rrsets_of (z : Zone) (nd : Node) (rtype : RecordType) : list Rrset :=
  match get_span (rrsets z) (nd_rrsets nd) with
  | None => []
  | Some all =>
      let lo := partition_point (fun r => (rr_type r <? rtype)%N) all in
      let hi := partition_point (fun r => (rr_type r <=? rtype)%N) all in
      default [] (slice_get all lo hi)
  end.

Definition emit (z : Zone) (run : list Rrset) (owner : Name) (out : list DnsRecord)
    : list DnsRecord :=
  fold_left (fun out rrset =>
      match get_span (rdata z) (rr_rdata rrset) with
      | None => out
      | Some values => out ++ map (fun value => from_rdata owner (rr_ttl rrset) value) values
      end) run out.

Definition first_value (z : Zone) (run : list Rrset) : option RData :=
  r ← head run;
  values ← get_span (rdata z) (rr_rdata r);
  head values.

(** ** The closest encloser *)

Definition encloser_window (z : Zone) (labels : nat) : nat * nat :=
  let floor := N.to_nat (origin_depth z) in
  let ceiling := (((labels - 1) `min` N.to_nat (max_depth z)) `min` MAX_LABELS)%nat in
  (floor, ceiling).

Definition closest_encloser (z : Zone) (name : LowerName) (hashes : SuffixHashes)
    : nat * NodeIdx :=
  let '(floor, ceiling) := encloser_window z (sh_labels hashes) in
  if (ceiling <=? floor)%nat then (floor, APEX)
  else match node_at z name ceiling hashes with
       | Some idx => (ceiling, idx)
       | None =>
           let s := bisect MAX_LABELS (fun mid => node_at z name mid hashes)
                      (mkBisect floor (ceiling - 1) APEX) in
           (bs_low s, bs_found s)
       end.

Definition source_of_synthesis (z : Zone) (name : LowerName) (hashes : SuffixHashes)
    : option NodeIdx :=
  let '(depth, _) := closest_encloser z name hashes in
  wildcard_node z name depth hashes.

Definition exists_hashed (z : Zone) (name : LowerName) (hashes : SuffixHashes) : bool :=
  match exact_node z name hashes with
  | Some _ => true
  | None => match source_of_synthesis z name hashes with Some _ => true | None => false end
  end.

Definition Zone_exists (z : Zone) (name : LowerName) : bool :=
  exists_hashed z name (SuffixHashes_new (hash_seed z) name).

(** ** The lookup

    [Zone::resolve] recurses only through a CNAME and only below
    [MAX_CNAME_DEPTH]; [fuel] bounds the recursion and [None] is running out of
    it, which [Lookup.v] shows [lookup] never does. *)

Definition resolve_step (z : Zone) (name : LowerName) (record_type : RecordType) (depth : nat)
    (out : list DnsRecord)
    (rec : LowerName -> list DnsRecord -> option (Resolution * list DnsRecord))
    : option (Resolution * list DnsRecord) :=
  if negb (Zone_contains z name) then Some (ResNxDomain, out)
  else
    let hashes := SuffixHashes_new (hash_seed z) name in
    match (idx ← exact_node z name hashes; node_get z idx) with
    | Some nd =>
        if negb (is_none (nd_cut nd)) then Some (ReferralTo (nd_cut nd), out)
        else if is_any record_type then Some (ResNoData, out)
        else
          let run := rrsets_of z nd record_type in
          if negb (bool_decide (run = [])) then Some (Found, emit z run (nd_name nd) out)
          else if negb (record_type =? RT_CNAME)%N
                  && flags_contains (nd_flags nd) HAS_CNAME
                  && negb (flags_contains (nd_flags nd) WILDCARD)
          then
            let cnames := rrsets_of z nd RT_CNAME in
            if negb (bool_decide (cnames = [])) then
              let out := emit z cnames (nd_name nd) out in
              if (MAX_CNAME_DEPTH <=? depth)%nat then Some (Found, out)
              else
                match first_value z cnames with
                | Some (RD_CNAME target) =>
                    let target := lower_from target in
                    if Zone_contains z target then
                      match rec target out with
                      | Some (ReferralTo cut, out) => Some (ReferralTo cut, out)
                      | Some (_, out) => Some (Found, out)
                      | None => None
                      end
                    else Some (Found, out)
                | _ => Some (Found, out)
                end
            else Some (ResNoData, out)
          else Some (ResNoData, out)
    | None =>
        let '(encloser_depth, encloser) := closest_encloser z name hashes in
        let above := match node_get z encloser with Some nd => nd_cut nd | None => NODE_NONE end in
        if negb (is_none above) then Some (ReferralTo above, out)
        else
          match wildcard_node z name encloser_depth hashes with
          | None => Some (ResNxDomain, out)
          | Some idx =>
              if is_any record_type then Some (ResNoData, out)
              else
                match node_get z idx with
                | Some nd =>
                    let run := rrsets_of z nd record_type in
                    if negb (bool_decide (run = []))
                    then Some (Found, emit z run (name_from name) out)
                    else Some (ResNoData, out)
                | None => Some (ResNoData, out)
                end
          end
    end.

Fixpoint Zone_resolve (fuel : nat) (z : Zone) (name : LowerName) (record_type : RecordType)
    (depth : nat) (out : list DnsRecord) : option (Resolution * list DnsRecord) :=
  match fuel with
  | O => None
  | S fuel' =>
      resolve_step z name record_type depth out
        (fun target out => Zone_resolve fuel' z target record_type (S depth) out)
  end.

(** [Zone::referral]: the assembled referral of a cut. *)
Definition Zone_referral (z : Zone) (idx : NodeIdx) (answers : list DnsRecord) : Answer :=
  match referrals z !! idx with
  | Some r => ReferralAnswer answers (ref_authority r) (ref_additional r)
  | None => ReferralAnswer answers [] []
  end.

Definition lookup_fuel : nat := S MAX_CNAME_DEPTH.

Definition Zone_lookup (z : Zone) (name : LowerName) (record_type : RecordType) : Answer :=
  match Zone_resolve lookup_fuel z name record_type 0 [] with
  | Some (Found, answers) => Records answers
  | Some (ReferralTo cut, answers) => Zone_referral z cut answers
  | Some (ResNoData, _) => NoData
  | Some (ResNxDomain, _) => NxDomain
  | None => NxDomain (* out of fuel: unreachable *)
  end.

(** ** The invariants checked in debug builds *)

Fixpoint windows2 {A} (p : A -> A -> bool) (l : list A) : bool :=
  match l with
  | a :: ((b :: _) as l') => p a b && windows2 p l'
  | _ => true
  end.

Definition node_lower (nd : Node) : LowerName := lower_from (nd_name nd).

Definition assert_apex (z : Zone) : bool :=
  match node_get z APEX with
  | Some nd => bool_decide (node_lower nd = lower_origin z)
  | None => false
  end.

Definition assert_order (z : Zone) : bool :=
  windows2 (fun a b => match canonical_compare (node_lower a) (node_lower b) with Lt => true | _ => false end)
    (nodes z).

Definition assert_closed (z : Zone) : bool :=
  let names := map node_lower (nodes z) in
  forallb (fun name =>
      bool_decide (name = lower_origin z)
      || bool_decide (lower_from (base_name (name_from name)) ∈ names)) names.

Definition assert_rrsets (z : Zone) : bool :=
  forallb (fun nd =>
      match get_span (rrsets z) (nd_rrsets nd) with
      | None => false
      | Some all =>
          windows2 (fun a b => (rr_type a <=? rr_type b)%N) all
          && forallb (fun r => match get_span (rdata z) (rr_rdata r) with
                               | Some (_ :: _) => true
                               | _ => false
                               end) all
      end) (nodes z).

Definition assert_depths (z : Zone) : bool :=
  let floor := label_count (lower_origin z) in
  forallb (fun nd =>
      let depth := length (iter (nd_name nd)) in
      (floor <=? depth)%nat && (depth <=? N.to_nat (max_depth z))%nat
      && (floor =? N.to_nat (origin_depth z))%nat) (nodes z).

Definition assert_cut_flags (z : Zone) : bool :=
  forallb (fun '(i, nd) =>
      let delegation := flags_contains (nd_flags nd) DELEGATION in
      let glue := flags_contains (nd_flags nd) GLUE in
      let at_self := (nd_cut nd =? N.of_nat i)%N in
      eqb delegation (negb (is_none (nd_cut nd)) && at_self)
      && eqb glue (negb (is_none (nd_cut nd)) && negb at_self)
      && (negb delegation || bool_decide (is_Some (referrals z !! N.of_nat i)))
      && (is_none (nd_cut nd) || (nd_cut nd <? N.of_nat (length (nodes z)))%N))
    (imap pair (nodes z)).

Definition assert_cut_above (z : Zone) : bool :=
  forallb (fun nd =>
      is_none (nd_cut nd)
      || match node_get z (nd_cut nd) with
         | Some cut => zone_of (node_lower cut) (node_lower nd)
         | None => false
         end) (nodes z).

Definition debug_assert_invariants (z : Zone) : bool :=
  assert_apex z && assert_order z && assert_closed z
  && (ht_len (index z) =? length (nodes z))%nat
  && assert_rrsets z && assert_depths z && assert_cut_flags z && assert_cut_above z.

End Lookup.
