(* ===== verification/Lookup.v ===== *)
(** * The lookup refines RFC 1034 section 4.3.2 (src/src/zone.rs, the query path)

    [standard_lookup] is the standard's algorithm, on anything that has names, values
    and delegations, and [served_lookup] the program's departures from it.  [AZone] is
    a zone as a function from names to nodes, with no arena, hash, index or bisection;
    [spec_resolve] is what the program does, on it.  [ZoneWf] is what the build
    guarantees.  [resolve_refines] relates [Zone_resolve] to [spec_resolve],
    [spec_lookup_served] that to the standard, and the bounds on the bisection are
    proved here. *)

From S2P Require Import Prelude Names Rdata Hashing Zone.

(** ** The standard

    RFC 1034 section 4.3.2 for a question for one type, with the closest encloser and
    the source of synthesis of RFC 4592 section 3.3 (whose last paragraph also follows
    an alias found at a wildcard).  The standard leaves the length of a chain of aliases
    to the server; here it is the program's.  It is written against a view: what a zone must
    tell of itself to be answered from. *)

Section Standard.
Context {HN : HickoryNames}.

Record View : Type := mkView {
  v_origin : list label;
  (** the names of the zone, empty non-terminals among them *)
  v_node : list label -> bool;
  (** the referral of the delegation at or above a name, step 3(b) *)
  v_cut : list label -> option Referral;
  (** the values of a type at a name, each with its TTL *)
  v_values : list label -> RecordType -> list (N * RData);
  (** the same as records, under the owner as it is spelled *)
  v_records : list label -> RecordType -> list DnsRecord;
}.

Definition under_origin (z : list label) (ls : list label) : bool :=
  bool_decide (drop (length ls - length z) ls = z).

Definition records_at (owner : Name) (vs : list (N * RData)) : list DnsRecord :=
  map (fun v => from_rdata owner v.1 v.2) vs.

Definition is_wildcard_name (ls : list label) : bool := bool_decide (head ls = Some WILDCARD_LABEL).

(** The closest encloser of a name that is not in the zone. *)
Fixpoint encloser (node : list label -> bool) (ls : list label) : option (list label) :=
  match ls with
  | [] => None
  | _ :: up => if node up then Some up else encloser node up
  end.

(** One step of the algorithm. *)
Inductive Step : Type :=
  | NoSuchName
  | NothingHere
  | Delegated (r : Referral)
  | Answered (records : list DnsRecord)
  (** a CNAME, and its target where that is in the zone *)
  | Alias (records : list DnsRecord) (next : option LowerName).

Section Steps.
Context (v : View).

(** The node whose data answers for a name: its own, or the wildcard below its closest
    encloser. *)
Definition source (ls : list label) : option (list label) :=
  if v_node v ls then Some ls
  else match encloser (v_node v) ls with
  | None => None
  | Some ce => if v_node v (WILDCARD_LABEL :: ce) then Some (WILDCARD_LABEL :: ce) else None
  end.

(** What is synthesised is owned by the name asked for. *)
Definition records_for (name : LowerName) (at_node : list label) (t : RecordType) : list DnsRecord :=
  if v_node v (liter name) then v_records v at_node t else records_at (name_from name) (v_values v at_node t).

Definition standard_step (name : LowerName) (t : RecordType) : Step :=
  let ls := liter name in
  if negb (under_origin (v_origin v) ls) then NoSuchName
  else match v_cut v ls with
  | Some r => Delegated r
  | None =>
      match source ls with
      | None => NoSuchName
      | Some at_node =>
          match (if (t =? RT_CNAME)%N then [] else v_values v at_node RT_CNAME) with
          | (_, value) :: _ =>
              Alias (records_for name at_node RT_CNAME)
                match value with
                | RD_CNAME target =>
                    if under_origin (v_origin v) (liter (lower_from target)) then Some (lower_from target) else None
                | _ => None
                end
          | [] =>
              match v_values v at_node t with
              | [] => NothingHere
              | _ :: _ => Answered (records_for name at_node t)
              end
          end
      end
  end.

(** The alias of a wildcard, where it would be followed: asked for by the wildcard's own
    name, or by one it covers. *)
Definition wildcard_alias (name : LowerName) (t : RecordType) : bool :=
  match standard_step name t, source (liter name) with
  | Alias _ _, Some at_node => is_wildcard_name at_node
  | _, _ => false
  end.

(** The program's step: it never follows the alias of a wildcard. *)
Definition served_step (name : LowerName) (t : RecordType) : Step :=
  if wildcard_alias name t then NothingHere else standard_step name t.

(** A chain of aliases, at most [hops] of them; one that breaks off is answered with
    what was found on the way. *)
Fixpoint chase (step : LowerName -> RecordType -> Step) (hops : nat) (name : LowerName) (t : RecordType)
    (out : list DnsRecord) : Answer :=
  match step name t with
  | NoSuchName => match out with [] => NxDomain | _ => Records out end
  | NothingHere => match out with [] => NoData | _ => Records out end
  | Delegated r => ReferralAnswer out (ref_authority r) (ref_additional r)
  | Answered records => Records (out ++ records)
  | Alias records next =>
      match hops, next with
      | S hops, Some target => chase step hops target t (out ++ records)
      | _, _ => Records (out ++ records)
      end
  end.

(** The answer to a question for one type. *)
Definition standard_lookup (name : LowerName) (t : RecordType) : Answer :=
  chase standard_step MAX_CNAME_DEPTH name t [].

(** What stands in the way of that answer: some step of the chain is at the alias of a
    wildcard. *)
Fixpoint meets_wildcard_alias (hops : nat) (name : LowerName) (t : RecordType) : bool :=
  wildcard_alias name t ||
  match standard_step name t, hops with
  | Alias _ (Some target), S hops => meets_wildcard_alias hops target t
  | _, _ => false
  end.

Definition departs (name : LowerName) (t : RecordType) : bool := meets_wildcard_alias MAX_CNAME_DEPTH name t.

(** [Zone::lookup], as the standard with its two departures: the aliases of wildcards,
    and ANY, which is told whether the name is there and nothing else (what to say
    then is the handler's). *)
Definition served_lookup (name : LowerName) (t : RecordType) : Answer :=
  if is_any t then match standard_lookup name RT_CNAME with Records _ => NoData | a => a end
  else chase served_step MAX_CNAME_DEPTH name t [].

Lemma served_chase_standard hops name t out :
  meets_wildcard_alias hops name t = false -> chase served_step hops name t out = chase standard_step hops name t out.
Proof using.
  revert name out. induction hops as [|hops IH]; intros name out; cbn [chase meets_wildcard_alias];
    intros [Hw Hm]%orb_false_iff; unfold served_step; rewrite Hw; [done|].
  destruct (standard_step name t) as [| | | |rs [target|]]; try done. by apply IH.
Qed.

(** Away from the departures it is the standard. *)
Lemma served_standard name t : is_any t = false -> departs name t = false -> served_lookup name t = standard_lookup name t.
Proof using. unfold served_lookup. intros ->. apply served_chase_standard. Qed.

(** Where a question meets the departure at once, it is told that there is nothing. *)
Lemma wildcard_alias_is_nodata name t : is_any t = false -> wildcard_alias name t = true -> served_lookup name t = NoData.
Proof using.
  intros Hany Hw. unfold served_lookup. rewrite Hany. change MAX_CNAME_DEPTH with (S (pred MAX_CNAME_DEPTH)).
  cbn [chase]. unfold served_step. by rewrite Hw.
Qed.

(** A question for a CNAME follows none. *)
Lemma standard_step_cname name rs next : standard_step name RT_CNAME <> Alias rs next.
Proof using. unfold standard_step. repeat (case_match; try done). Qed.

Lemma cname_never_departs name : departs name RT_CNAME = false.
Proof using.
  unfold departs. change MAX_CNAME_DEPTH with (S (pred MAX_CNAME_DEPTH)). cbn [meets_wildcard_alias]. unfold wildcard_alias.
  pose proof (standard_step_cname name) as H. destruct (standard_step name RT_CNAME); try done. by destruct (H records next).
Qed.

(** NXDOMAIN is said of the names of the zone with no source, and of no other. *)
Lemma standard_nxdomain name :
  under_origin (v_origin v) (liter name) = true -> v_cut v (liter name) = None ->
  standard_lookup name RT_CNAME = NxDomain <-> source (liter name) = None.
Proof using.
  intros Hu Hc. unfold standard_lookup. change MAX_CNAME_DEPTH with (S (pred MAX_CNAME_DEPTH)). cbn [chase].
  unfold standard_step. rewrite Hu, Hc. cbn [negb]. destruct (source (liter name)); [|done].
  cbn. by destruct (v_values v _ _).
Qed.

End Steps.

Lemma chase_ext step step' hops name t out :
  (forall name, step name t = step' name t) -> chase step hops name t out = chase step' hops name t out.
Proof using.
  intros H. revert name out. induction hops as [|hops IH]; intros name out; cbn [chase]; rewrite H;
    by destruct (step' name t) as [| | | |rs [target|]].
Qed.

End Standard.

(** ** The abstract zone *)

Section Spec.
Context {HN : HickoryNames}.

Record ANode : Type := mkANode {
  an_name : Name;
  an_cut : NodeIdx;
  (** the values of a type, each with its TTL, in the order they are answered *)
  an_values : RecordType -> list (N * RData);
}.

Record AZone : Type := mkAZone {
  az_origin : list label;
  az_node : list label -> option ANode;
}.

(** The deepest proper ancestor that is a node: a climb, one label at a time. *)
Fixpoint climb (node : list label -> option ANode) (ls : list label) : option (list label) :=
  match ls with
  | [] => None
  | _ :: ls' =>
      match node ls' with
      | Some _ => Some ls'
      | None => climb node ls'
      end
  end.

(** [Zone::resolve] with the arena, the hashes and the bisection taken away, departures
    and all; [spec_lookup_served] says what it has to do with the standard. *)
Fixpoint spec_resolve (fuel : nat) (z : AZone) (name : LowerName) (t : RecordType) (depth : nat)
    (out : list DnsRecord) : option (Resolution * list DnsRecord) :=
  match fuel with
  | O => None
  | S fuel' =>
      if negb (under_origin (az_origin z) (liter name)) then Some (ResNxDomain, out)
      else match az_node z (liter name) with
      | Some nd =>
          if negb (is_none (an_cut nd)) then Some (ReferralTo (an_cut nd), out)
          else if is_any t then Some (ResNoData, out)
          else match an_values nd t with
          | _ :: _ => Some (Found, out ++ records_at (an_name nd) (an_values nd t))
          | [] =>
              if (t =? RT_CNAME)%N || is_wildcard_name (liter name) then Some (ResNoData, out)
              else match an_values nd RT_CNAME with
              | [] => Some (ResNoData, out)
              | (_, value) :: _ =>
                  let out := out ++ records_at (an_name nd) (an_values nd RT_CNAME) in
                  if (MAX_CNAME_DEPTH <=? depth)%nat then Some (Found, out)
                  else match value with
                  | RD_CNAME target =>
                      if under_origin (az_origin z) (liter (lower_from target)) then
                        match spec_resolve fuel' z (lower_from target) t (S depth) out with
                        | Some (ReferralTo cut, out) => Some (ReferralTo cut, out)
                        | Some (_, out) => Some (Found, out)
                        | None => None
                        end
                      else Some (Found, out)
                  | _ => Some (Found, out)
                  end
              end
          end
      | None =>
          match climb (az_node z) (liter name) with
          | None => Some (ResNxDomain, out)
          | Some ce =>
              let cut := match az_node z ce with Some nd => an_cut nd | None => NODE_NONE end in
              if negb (is_none cut) then Some (ReferralTo cut, out)
              else match az_node z (WILDCARD_LABEL :: ce) with
              | None => Some (ResNxDomain, out)
              | Some w =>
                  if is_any t then Some (ResNoData, out)
                  else match an_values w t with
                  | [] => Some (ResNoData, out)
                  | _ :: _ => Some (Found, out ++ records_at (name_from name) (an_values w t))
                  end
              end
          end
      end
  end.

(** A chain stops at [MAX_CNAME_DEPTH], so this much fuel is enough from any depth. *)
Lemma spec_resolve_total fuel z name t depth out :
  (0 < fuel)%nat -> (MAX_CNAME_DEPTH < fuel + depth)%nat ->
  spec_resolve fuel z name t depth out <> None.
Proof.
  revert name depth out; induction fuel as [|fuel IH]; intros name depth out H0 Hf; [lia|]. cbn [spec_resolve].
  repeat (case_match; try done). bool_prop. exfalso. eapply IH; [| |eassumption]; lia.
Qed.

(** Existence, as NXDOMAIN is decided: a node, or a source of synthesis. *)
Definition spec_exists (z : AZone) (name : LowerName) : bool :=
  match az_node z (liter name) with
  | Some _ => true
  | None =>
      match climb (az_node z) (liter name) with
      | None => false
      | Some ce => match az_node z (WILDCARD_LABEL :: ce) with Some _ => true | None => false end
      end
  end.

End Spec.

(** ** What a built zone guarantees *)

Section Wf.
Context {HN : HickoryNames} {HT : HashTableApi}.

(** The labels a node is filed under. *)
Definition node_labels (nd : Node) : list label := map lc (iter (nd_name nd)).

Record ZoneWf (z : Zone) : Prop := {
  wf_origin : head (liter (lower_origin z)) <> Some WILDCARD_LABEL;
  wf_apex : exists nd, node_get z APEX = Some nd /\
    node_labels nd = liter (lower_origin z) /\ nd_cut nd = NODE_NONE;
  wf_nodup : NoDup (map node_labels (nodes z));
  wf_under nd : nd ∈ nodes z -> labels_under (liter (lower_origin z)) (node_labels nd);
  wf_closed nd : nd ∈ nodes z -> node_labels nd <> liter (lower_origin z) ->
    exists nd', nd' ∈ nodes z /\ node_labels nd' = tail (node_labels nd);
  wf_index i nd : nodes z !! i = Some nd ->
    (labels_hash (hash_seed z) (node_labels nd), N.of_nat i) ∈ ht_entries (index z);
  wf_rrsets nd : nd ∈ nodes z ->
    exists all, get_span (rrsets z) (nd_rrsets nd) = Some all /\ key_sorted rr_type all /\
      Forall (fun r => exists v vs, get_span (rdata z) (rr_rdata r) = Some (v :: vs)) all;
  wf_depths : N.to_nat (origin_depth z) = length (liter (lower_origin z)) /\
    Forall (fun nd => length (node_labels nd) <= N.to_nat (max_depth z))%nat (nodes z);
  wf_wildcard nd : nd ∈ nodes z ->
    flags_contains (nd_flags nd) WILDCARD = is_wildcard_name (iter (nd_name nd));
  wf_cname nd : nd ∈ nodes z -> rrsets_of z nd RT_CNAME <> [] ->
    flags_contains (nd_flags nd) HAS_CNAME = true;
  wf_cname_alone nd all r : nd ∈ nodes z -> get_span (rrsets z) (nd_rrsets nd) = Some all ->
    r ∈ all -> rr_type r = RT_CNAME -> all = [r];
}.

(** The zone a built arena stands for. *)
Definition find_node (z : Zone) (ls : list label) : option (nat * Node) :=
  list_find (fun nd => node_labels nd = ls) (nodes z).

Definition run_values (z : Zone) (run : list Rrset) : list (N * RData) :=
  flat_map (fun r => map (pair (rr_ttl r)) (default [] (get_span (rdata z) (rr_rdata r)))) run.

Definition node_values (z : Zone) (nd : Node) (t : RecordType) : list (N * RData) :=
  run_values z (filter (fun r => rr_type r = t) (default [] (get_span (rrsets z) (nd_rrsets nd)))).

Definition abs_node (z : Zone) (nd : Node) : ANode :=
  mkANode (nd_name nd) (nd_cut nd) (node_values z nd).

Definition abs_zone (z : Zone) : AZone :=
  mkAZone (liter (lower_origin z)) (fun ls => abs_node z ∘ snd <$> find_node z ls).

End Wf.

(** ** The bisection *)

Definition bisect_done (s : Bisect) : Prop := (bs_high s <= bs_low s)%nat.

Lemma div_ceil2_bounds n : (0 < n -> 1 <= div_ceil2 n <= n /\ n - div_ceil2 n <= n / 2 /\ div_ceil2 n - 1 <= n / 2)%nat.
Proof.
  unfold div_ceil2. intros Hn.
  pose proof (Nat.div_mod_eq (n + 1) 2). pose proof (Nat.div_mod_eq n 2).
  pose proof (Nat.mod_upper_bound (n + 1) 2). pose proof (Nat.mod_upper_bound n 2). lia.
Qed.

Lemma bisect_step_width probe s s' :
  bisect_step probe s = Some s' ->
  (bs_low s < bs_high s)%nat /\ (bs_high s' - bs_low s' <= (bs_high s - bs_low s) / 2)%nat.
Proof.
  unfold bisect_step. destruct (_ <? _)%nat eqn:E; [|done]. bool_prop.
  pose proof (div_ceil2_bounds (bs_high s - bs_low s)) as Hd.
  intros H. split; [done|]. destruct (probe _); simplify_eq/=; lia.
Qed.

Lemma bisect_step_none probe s : bisect_step probe s = None <-> bisect_done s.
Proof.
  unfold bisect_step, bisect_done. destruct (_ <? _)%nat eqn:E; bool_prop.
  - destruct (probe _); split; [done|lia|done|lia].
  - split; [lia|done].
Qed.

(** [k] passes exhaust a window narrower than [2 ^ k]. *)
Lemma bisect_done_after k probe s :
  (bs_high s - bs_low s < 2 ^ k)%nat -> bisect_done (bisect k probe s).
Proof.
  revert s; induction k as [|k IH]; intros s Hk.
  { cbn in *. unfold bisect_done. lia. }
  cbn [bisect]. destruct (bisect_step probe s) as [s'|] eqn:E; [|by apply bisect_step_none in E].
  apply IH. apply bisect_step_width in E as [_ E]. rewrite Nat.pow_succ_r' in Hk.
  pose proof (Nat.div_mod_eq (bs_high s - bs_low s) 2).
  pose proof (Nat.mod_upper_bound (bs_high s - bs_low s) 2). lia.
Qed.

Lemma bisect_fixed k probe s : bisect_done s -> bisect k probe s = s.
Proof. intros H. apply (bisect_step_none probe) in H. destruct k; cbn; [done|]. by rewrite H. Qed.

Lemma bisect_more k k' probe s :
  (k <= k')%nat -> bisect_done (bisect k probe s) -> bisect k' probe s = bisect k probe s.
Proof.
  revert k' s; induction k as [|k IH]; intros k' s Hk Hd; [by rewrite bisect_fixed|].
  destruct k' as [|k']; [lia|]. cbn [bisect] in *. destruct (bisect_step probe s); [|done].
  apply IH; [lia|done].
Qed.

(** Any window of label depths is exhausted by seven passes. *)
Lemma bisect_done_labels probe s :
  (bs_high s - bs_low s < 128)%nat -> bisect_done (bisect MAX_LABELS probe s).
Proof.
  intros Hw. assert (H7 : bisect_done (bisect 7 probe s)) by (apply bisect_done_after; simpl; lia).
  rewrite (bisect_more 7); [done|unfold MAX_LABELS; lia|done].
Qed.

(** Where the search ends, when what it probes is downward closed above the floor. *)
Definition deepest (probe : nat -> option NodeIdx) (floor ceiling d : nat) (i : NodeIdx) : Prop :=
  (floor <= d <= ceiling)%nat /\ (d = floor /\ i = APEX \/ (floor < d)%nat /\ probe d = Some i) /\
  forall d', (d < d' <= ceiling)%nat -> probe d' = None.

Lemma bisect_deepest k probe floor ceiling s :
  (forall d d', (floor < d <= d')%nat -> (d' <= ceiling)%nat ->
      probe d = None -> probe d' = None) ->
  (floor <= bs_low s)%nat -> (bs_low s <= bs_high s <= ceiling)%nat ->
  (bs_low s = floor /\ bs_found s = APEX \/ (floor < bs_low s)%nat /\ probe (bs_low s) = Some (bs_found s)) ->
  (forall d, (bs_high s < d <= ceiling)%nat -> probe d = None) ->
  bisect_done (bisect k probe s) ->
  deepest probe floor ceiling (bs_low (bisect k probe s)) (bs_found (bisect k probe s)).
Proof.
  intros Hmono. revert s; induction k as [|k IH]; intros s Hf Hlh Hfound Habove Hdone; cbn [bisect] in *.
  { unfold bisect_done in Hdone. split_and!; [lia|lia|done|]. intros; apply Habove; lia. }
  destruct (bisect_step probe s) as [s'|] eqn:E.
  2:{ apply bisect_step_none in E. unfold bisect_done in E. split_and!; [lia|lia|done|]. intros; apply Habove; lia. }
  unfold bisect_step in E. destruct (_ <? _)%nat eqn:Elt; [|done]. bool_prop.
  pose proof (div_ceil2_bounds (bs_high s - bs_low s)) as Hd.
  destruct (probe (bs_low s + div_ceil2 (bs_high s - bs_low s))%nat) as [idx|] eqn:Ep; simplify_eq;
    apply IH; simpl; try done; try lia.
  - right. split; [lia|done].
  - intros d Hd'. destruct (decide (bs_high s < d)%nat); [apply Habove; lia|].
    eapply Hmono; [| |exact Ep]; lia.
Qed.

(** ** Label comparison *)

Section Match.
Context {HN : HickoryNames} {HL : HickoryNamesLaws HN}.

Lemma match_labels_some d nl ql rest :
  match_labels d nl ql = Some rest <->
  (d <= length nl)%nat /\ (d <= length ql)%nat /\
  map lc (take d nl) = map lc (take d ql) /\ rest = drop d nl.
Proof.
  revert nl ql; induction d as [|d IH]; intros nl ql; cbn [match_labels].
  { rewrite drop_0, !take_0. split; [intros [= ->]; split_and!; try done; lia|]. by intros (_&_&_&->). }
  destruct nl as [|x nl], ql as [|y ql]; cbn [length take drop map]; try (split; [done|lia]).
  unfold eq_ignore_ascii_case. case_bool_decide as E; rewrite ?IH.
  - rewrite E. split; intros (?&?&He&?); split_and!; try lia; try done; [by f_equal|by simplify_eq].
  - split; [done|]. intros (_&_&?&_). simplify_eq.
Qed.

Lemma map_lc_suffix (n : LowerName) d : map lc (suffix_of (liter n) d) = suffix_of (liter n) d.
Proof.
  unfold suffix_of. rewrite <- skipn_map.
  by rewrite (liter_lowercase n).
Qed.

Lemma map_lc_take_rev (n : LowerName) d :
  map lc (take d (rev (liter n))) = rev (suffix_of (liter n) d).
Proof. by rewrite <- rev_suffix_of, map_rev, map_lc_suffix. Qed.

Lemma rev_inj {A} (l1 l2 : list A) : rev l1 = rev l2 -> l1 = l2.
Proof. intros H. by rewrite <- (rev_involutive l1), H, rev_involutive. Qed.

Lemma node_name_matches_plain n q d :
  (d <= length (liter q))%nat ->
  node_name_matches n q d false = true <-> map lc (iter n) = suffix_of (liter q) d.
Proof.
  intros Hd. unfold node_name_matches. rewrite Nat.add_0_r.
  destruct (length (iter n) =? d)%nat eqn:El; cbn [negb]; bool_prop.
  2:{ split; [done|]. intros Hm. apply (f_equal length) in Hm.
      rewrite length_map, length_suffix_of in Hm by lia. done. }
  destruct (match_labels d (rev (iter n)) (rev (liter q))) as [rest|] eqn:E.
  - apply match_labels_some in E as (H1 & H2 & H3 & _). split; [intros _|done].
    rewrite map_lc_take_rev, take_ge in H3 by len.
    rewrite map_rev in H3. by apply rev_inj in H3.
  - split; [done|]. intros Hm. exfalso.
    assert (match_labels d (rev (iter n)) (rev (liter q)) = Some (drop d (rev (iter n)))) as Hs; [|congruence].
    apply match_labels_some. rewrite !length_rev. split_and!; try lia; [|done].
    by rewrite map_lc_take_rev, take_ge, map_rev, Hm by len.
Qed.

Lemma node_name_matches_star n q d :
  (d <= length (liter q))%nat ->
  node_name_matches n q d true = true <->
  head (iter n) = Some WILDCARD_LABEL /\ map lc (iter n) = WILDCARD_LABEL :: suffix_of (liter q) d.
Proof.
  intros Hd. unfold node_name_matches.
  destruct (length (iter n) =? d + 1)%nat eqn:El; cbn [negb]; bool_prop.
  2:{ split; [done|]. intros [_ Hm]. apply (f_equal length) in Hm. simpl in Hm.
      rewrite length_map, length_suffix_of in Hm by lia. lia. }
  destruct (iter n) as [|w rest] eqn:En; [simpl in El; lia|]. simpl in El.
  assert (Hrev : take d (rev (w :: rest)) = rev rest /\ drop d (rev (w :: rest)) = [w]).
  { simpl. rewrite take_app_le, drop_app_le by len.
    rewrite take_ge, drop_ge by len. done. }
  destruct Hrev as [Ht Hdr].
  destruct (match_labels d (rev (w :: rest)) (rev (liter q))) as [r|] eqn:E.
  - apply match_labels_some in E as (_ & _ & H3 & ->). rewrite Hdr. simpl.
    rewrite Ht, map_lc_take_rev, map_rev in H3. apply rev_inj in H3.
    rewrite bool_decide_eq_true. split.
    + intros [= ->]. split; [done|]. simpl. by rewrite H3.
    + by intros [? _].
  - split; [done|]. intros [_ Hm]. simpl in Hm. simplify_eq. exfalso.
    assert (match_labels d (rev (w :: rest)) (rev (liter q)) = Some [w]) as Hs; [|congruence].
    apply match_labels_some. rewrite !length_rev. simpl length.
    split_and!; try lia; [|done]. rewrite Ht, map_lc_take_rev, map_rev. by f_equal.
Qed.

Lemma lc_wildcard l : lc l = WILDCARD_LABEL -> l = WILDCARD_LABEL.
Proof.
  unfold WILDCARD_LABEL, lc. destruct l as [|c [|]]; simpl; intros; simplify_eq.
  unfold to_ascii_lowercase in *. destruct (_ && _) eqn:E; bool_prop; [lia|by subst].
Qed.

Lemma lc_wildcard_label : lc WILDCARD_LABEL = WILDCARD_LABEL.
Proof. done. Qed.

Lemma is_wildcard_map_lc ls : is_wildcard_name (map lc ls) = is_wildcard_name ls.
Proof.
  unfold is_wildcard_name. apply bool_decide_ext. destruct ls as [|l ls]; [done|].
  cbn [map head]. split; intros [= H]; [f_equal; by apply lc_wildcard|by rewrite H].
Qed.

Lemma under_origin_spec z ls : under_origin z ls = true <-> labels_under z ls.
Proof.
  unfold under_origin. rewrite bool_decide_eq_true. split.
  - intros H. exists (take (length ls - length z) ls). by rewrite <- H at 2; rewrite take_drop.
  - intros [p ->]. by rewrite length_app, Nat.add_sub, drop_app_length.
Qed.

End Match.

(** ** The probe finds exactly the node of a name *)

Section Probe.
Context {HN : HickoryNames} {HT : HashTableApi} {HL : HickoryNamesLaws HN} {TL : HashTableLaws HT}.
Context (z : Zone) (Hwf : ZoneWf z).

Lemma find_node_some ls i nd :
  find_node z ls = Some (i, nd) <-> nodes z !! i = Some nd /\ node_labels nd = ls.
Proof.
  unfold find_node. rewrite list_find_Some. split; [by intros (?&?&_)|].
  intros [Hi Hl]. split_and!; [done|done|]. intros j nd' Hj Hlt Hl'.
  assert (j = i); [|lia].
  eapply (NoDup_lookup _ j i (node_labels nd) (wf_nodup z Hwf)); rewrite list_lookup_fmap.
  - by rewrite Hj; simpl; rewrite Hl', Hl.
  - by rewrite Hi.
Qed.

Lemma find_node_none ls : find_node z ls = None <-> forall nd, nd ∈ nodes z -> node_labels nd <> ls.
Proof. unfold find_node. rewrite list_find_None, Forall_forall. done. Qed.

Lemma probe_spec ls (matches : Node -> bool) :
  (forall nd, nd ∈ nodes z -> matches nd = true <-> node_labels nd = ls) ->
  Zone_probe z (labels_hash (hash_seed z) ls) matches = N.of_nat ∘ fst <$> find_node z ls.
Proof.
  intros Hm. unfold Zone_probe. destruct (ht_find _ _ _) as [v|] eqn:E.
  - apply ht_find_sound in E as [E _]. unfold node_get in E. rewrite getN_lookup in E.
    destruct (nodes z !! N.to_nat v) as [nd|] eqn:Ev; [|done].
    apply Hm in E; [|by eapply list_elem_of_lookup_2].
    rewrite (proj2 (find_node_some ls (N.to_nat v) nd)) by done. simpl. by rewrite N2Nat.id.
  - destruct (find_node z ls) as [[i nd]|] eqn:Ef; [|done]. exfalso.
    apply find_node_some in Ef as [Hi Hl].
    pose proof (wf_index z Hwf i nd Hi) as Hin. rewrite Hl in Hin.
    eapply (ht_find_complete _ _ _ _ Hin); [|exact E].
    unfold node_get. rewrite getN_lookup, Nat2N.id, Hi.
    apply Hm; [by eapply list_elem_of_lookup_2|done].
Qed.

Lemma node_at_spec name d :
  node_at z name d (SuffixHashes_new (hash_seed z) name)
  = if (d <=? label_count name)%nat
    then N.of_nat ∘ fst <$> find_node z (suffix_of (liter name) d) else None.
Proof.
  unfold node_at. rewrite suffix_hashes_at. destruct (_ <=? _)%nat eqn:E; [|done]. bool_prop.
  cbn [mbind option_bind]. apply probe_spec. intros nd _. by apply node_name_matches_plain.
Qed.

Lemma exact_node_spec name :
  exact_node z name (SuffixHashes_new (hash_seed z) name)
  = N.of_nat ∘ fst <$> find_node z (liter name).
Proof.
  unfold exact_node. rewrite node_at_spec. cbn [sh_labels SuffixHashes_new].
  rewrite Nat.leb_refl. unfold label_count. by rewrite suffix_of_full.
Qed.

Lemma wildcard_node_spec name d :
  (d <= label_count name)%nat ->
  wildcard_node z name d (SuffixHashes_new (hash_seed z) name)
  = N.of_nat ∘ fst <$> find_node z (WILDCARD_LABEL :: suffix_of (liter name) d).
Proof.
  intros Hd. unfold wildcard_node. rewrite suffix_hashes_at.
  rewrite (proj2 (Nat.leb_le _ _) Hd). cbn [mbind option_bind].
  rewrite <- labels_hash_cons. apply probe_spec. intros nd Hnd.
  rewrite andb_true_iff, node_name_matches_star by done.
  rewrite (wf_wildcard z Hwf nd Hnd). unfold is_wildcard_name. rewrite bool_decide_eq_true.
  unfold node_labels. split; [by intros (_&_&?)|]. intros Hl. split; [|split; [|done]].
  all: destruct (iter (nd_name nd)) as [|w r]; [done|]; cbn in Hl |- *; simplify_eq; f_equal; by apply lc_wildcard.
Qed.

Lemma node_get_of_nat i : node_get z (N.of_nat i) = nodes z !! i.
Proof. unfold node_get. by rewrite getN_lookup, Nat2N.id. Qed.

Lemma exact_node_get name :
  (idx ← exact_node z name (SuffixHashes_new (hash_seed z) name); node_get z idx)
  = snd <$> find_node z (liter name).
Proof.
  rewrite exact_node_spec. destruct (find_node z (liter name)) as [[i nd]|] eqn:E; [|done].
  cbn. rewrite node_get_of_nat. by apply find_node_some in E as [-> _].
Qed.

End Probe.

(** ** RRsets and emission *)

Section Values.
Context {HN : HickoryNames} {HT : HashTableApi}.
Context (z : Zone) (Hwf : ZoneWf z).

Lemma rrsets_of_sorted nd t all :
  get_span (rrsets z) (nd_rrsets nd) = Some all -> key_sorted rr_type all ->
  rrsets_of z nd t = filter (fun r => rr_type r = t) all.
Proof using. intros Hg Hs. unfold rrsets_of. by rewrite Hg, (key_sorted_run rr_type t all Hs). Qed.

Lemma rrsets_of_spec nd t :
  nd ∈ nodes z ->
  rrsets_of z nd t = filter (fun r => rr_type r = t) (default [] (get_span (rrsets z) (nd_rrsets nd))).
Proof.
  intros Hnd. destruct (wf_rrsets z Hwf nd Hnd) as (all & Hg & Hs & _).
  rewrite (rrsets_of_sorted nd t all) by done. by rewrite Hg.
Qed.

Lemma emit_spec run owner out : emit z run owner out = out ++ records_at owner (run_values z run).
Proof.
  unfold emit. revert out; induction run as [|r run IH]; intros out; simpl; [by rewrite app_nil_r|].
  unfold records_at in *. rewrite map_app, map_map. destruct (get_span _ _) as [vs|]; simpl; rewrite IH; [|done].
  by rewrite <- (assoc_L (++)).
Qed.

Lemma rrsets_of_values nd t :
  nd ∈ nodes z -> run_values z (rrsets_of z nd t) = node_values z nd t.
Proof. intros Hnd. by rewrite rrsets_of_spec. Qed.

(** A run that exists has a first value; an absent one has none. *)
Lemma rrsets_of_first nd t :
  nd ∈ nodes z ->
  match rrsets_of z nd t with
  | [] => node_values z nd t = []
  | run => exists ttl v vs, node_values z nd t = (ttl, v) :: vs /\ first_value z run = Some v
  end.
Proof.
  intros Hnd. rewrite <- rrsets_of_values by done. rewrite rrsets_of_spec by done.
  destruct (wf_rrsets z Hwf nd Hnd) as (all & -> & _ & Hv). simpl default.
  destruct (filter _ all) as [|r run] eqn:E; [done|].
  assert (Hin : r ∈ all) by (apply (list_elem_of_filter (fun r => rr_type r = t)); rewrite E; left).
  rewrite Forall_forall in Hv. destruct (Hv r Hin) as (v & vs & Hs).
  unfold first_value, run_values. simpl. rewrite Hs. simpl. eauto.
Qed.

End Values.

(** ** The closest encloser *)

Lemma suffix_of_cons x ls d :
  (d <= length ls)%nat -> suffix_of (x :: ls) d = suffix_of ls d.
Proof.
  intros Hd. unfold suffix_of. simpl length.
  by replace (S (length ls) - d)%nat with (S (length ls - d)) by lia.
Qed.

Lemma climb_deepest {HN : HickoryNames} (f : list label -> option ANode) (ls : list label) d :
  (d < length ls)%nat -> f (suffix_of ls d) <> None ->
  (forall d', (d < d' < length ls)%nat -> f (suffix_of ls d') = None) ->
  climb f ls = Some (suffix_of ls d).
Proof.
  induction ls as [|x ls IH]; simpl; intros Hd Hf Hn; [lia|].
  rewrite suffix_of_cons in Hf |- * by lia.
  destruct (decide (d = length ls)) as [->|Hne].
  - rewrite suffix_of_full in *. by destruct (f ls).
  - pose proof (Hn (length ls)) as Hl. rewrite suffix_of_cons, suffix_of_full in Hl by lia.
    rewrite Hl by lia. apply IH; [lia|done|].
    intros d' Hd'. rewrite <- (suffix_of_cons x) by lia. apply Hn; lia.
Qed.

Section Encloser.
Context {HN : HickoryNames} {HT : HashTableApi} {HL : HickoryNamesLaws HN} {TL : HashTableLaws HT}.
Context (z : Zone) (Hwf : ZoneWf z).

Lemma find_apex : exists nd, find_node z (liter (lower_origin z)) = Some (0%nat, nd) /\ nd_cut nd = NODE_NONE.
Proof.
  destruct (wf_apex z Hwf) as (nd & H0 & Hl & Hc). exists nd. split; [|done].
  apply find_node_some; [done|]. unfold node_get in H0. rewrite getN_lookup in H0. split; [exact H0|done].
Qed.

Lemma find_closed ls d :
  (length (liter (lower_origin z)) <= d)%nat -> (d < length ls)%nat ->
  find_node z (suffix_of ls d) = None -> find_node z (suffix_of ls (S d)) = None.
Proof.
  intros Ho Hd Hn. destruct (find_node z (suffix_of ls (S d))) as [[i nd]|] eqn:E; [|done].
  apply find_node_some in E as [Hi Hl]; [|done]. exfalso.
  destruct (wf_closed z Hwf nd) as (nd' & Hin & Hl').
  - by eapply list_elem_of_lookup_2.
  - intros Heq. rewrite Hl in Heq. apply (f_equal length) in Heq.
    rewrite length_suffix_of in Heq by lia. lia.
  - rewrite Hl in Hl'. destruct (suffix_of_succ ls d Hd) as [l Hs]. rewrite Hs in Hl'. simpl in Hl'.
    apply list_elem_of_lookup_1 in Hin as [j Hj].
    assert (find_node z (suffix_of ls d) = Some (j, nd')) as Hf by (apply find_node_some; done). congruence.
Qed.

Lemma find_closed_le ls d d' :
  (length (liter (lower_origin z)) <= d <= d')%nat -> (d' <= length ls)%nat ->
  find_node z (suffix_of ls d) = None -> find_node z (suffix_of ls d') = None.
Proof.
  intros [Ho Hle]. induction Hle as [|d' Hle IH]; intros Hd' Hn; [done|].
  apply find_closed; [lia|lia|]. apply IH; [lia|done].
Qed.

Lemma find_deep ls d :
  (N.to_nat (max_depth z) < d <= length ls)%nat -> find_node z (suffix_of ls d) = None.
Proof.
  intros Hd. destruct (find_node z (suffix_of ls d)) as [[i nd]|] eqn:E; [|done].
  apply find_node_some in E as [Hi Hl]; [|done]. destruct (wf_depths z Hwf) as [_ Hm].
  rewrite Forall_forall in Hm. specialize (Hm nd (list_elem_of_lookup_2 _ _ _ Hi)).
  rewrite Hl, length_suffix_of in Hm by lia. lia.
Qed.

(** The depths [closest_encloser] searches for a name below the origin. *)
Definition search_floor : nat := length (liter (lower_origin z)).
Definition search_ceiling (ls : list label) : nat :=
  (((length ls - 1) `min` N.to_nat (max_depth z)) `min` MAX_LABELS)%nat.

Lemma depth_probe_spec name d :
  (d <= length (liter name))%nat ->
  node_at z name d (SuffixHashes_new (hash_seed z) name)
  = N.of_nat ∘ fst <$> find_node z (suffix_of (liter name) d).
Proof.
  intros Hd. rewrite node_at_spec by done. unfold label_count. by rewrite (proj2 (Nat.leb_le _ _) Hd).
Qed.

Lemma below_origin name :
  labels_under (liter (lower_origin z)) (liter name) -> find_node z (liter name) = None ->
  (search_floor < length (liter name))%nat /\ suffix_of (liter name) search_floor = liter (lower_origin z).
Proof.
  intros [p Hp] Hn. destruct find_apex as (apex & Hapex & _). unfold search_floor. rewrite Hp. split.
  - rewrite length_app. destruct p as [|x p]; [|simpl; lia]. simpl in Hp. rewrite Hp in Hn. congruence.
  - unfold suffix_of. rewrite length_app, Nat.add_sub. apply drop_app_length.
Qed.

(** The deepest depth the window probes find is the closest encloser's. *)
Lemma deepest_is_encloser name d i :
  labels_under (liter (lower_origin z)) (liter name) -> find_node z (liter name) = None ->
  deepest (fun d => node_at z name d (SuffixHashes_new (hash_seed z) name))
    search_floor (search_ceiling (liter name) `max` search_floor)%nat d i ->
  exists i' nd, i = N.of_nat i' /\ (d < length (liter name))%nat /\
    find_node z (suffix_of (liter name) d) = Some (i', nd) /\
    climb (az_node (abs_zone z)) (liter name) = Some (suffix_of (liter name) d).
Proof.
  intros Hu Hn ([Hd1 Hd2] & Hfound & Hmax). destruct (below_origin name Hu Hn) as [Hlen Ho].
  destruct find_apex as (apex & Hapex & _). unfold search_ceiling in *. set (ls := liter name) in *.
  assert (Hdl : (d < length ls)%nat) by lia.
  assert (exists i' nd, find_node z (suffix_of ls d) = Some (i', nd) /\ i = N.of_nat i') as (i' & nd & Hf & ->).
  { destruct Hfound as [[-> ->]|[_ Hs]]; [exists 0%nat, apex; by rewrite Ho|].
    rewrite depth_probe_spec in Hs by (fold ls; lia). fold ls in Hs.
    destruct (find_node z (suffix_of ls d)) as [[i' nd]|]; [|done]. simplify_eq/=. eauto. }
  exists i', nd. split_and!; [done|done|done|].
  apply climb_deepest; [done|cbn; by rewrite Hf|]. intros d' Hd'. cbn.
  assert (find_node z (suffix_of ls d') = None) as ->; [|done].
  destruct (decide (d' <= search_ceiling ls `max` search_floor)%nat) as [Hle|Hgt]; unfold search_ceiling in *.
  - specialize (Hmax d' ltac:(lia)). rewrite depth_probe_spec in Hmax by (fold ls; lia). fold ls in Hmax.
    by destruct (find_node z (suffix_of ls d')).
  - assert (Hlim : (length ls <= MAX_LABELS)%nat) by apply liter_limit. apply find_deep. fold ls. lia.
Qed.

(** What [closest_encloser] answers for a name of the zone that is not a node. *)
Lemma closest_encloser_spec name :
  labels_under (liter (lower_origin z)) (liter name) -> find_node z (liter name) = None ->
  exists d i nd,
    closest_encloser z name (SuffixHashes_new (hash_seed z) name) = (d, N.of_nat i) /\
    (d < label_count name)%nat /\
    find_node z (suffix_of (liter name) d) = Some (i, nd) /\
    climb (az_node (abs_zone z)) (liter name) = Some (suffix_of (liter name) d).
Proof.
  intros Hu Hn. destruct (below_origin name Hu Hn) as [Hlen _].
  pose proof (wf_depths z Hwf) as [Hod _]. fold search_floor in Hod.
  unfold closest_encloser, encloser_window. cbn [sh_labels SuffixHashes_new].
  unfold label_count. rewrite Hod. fold (search_ceiling (liter name)).
  set (ls := liter name) in *. set (ceiling := search_ceiling ls). set (probe := fun d => node_at z name d _).
  assert (Hgoal : forall d i, deepest probe search_floor (ceiling `max` search_floor)%nat d i -> _)
    by exact (fun d i => deepest_is_encloser name d i Hu Hn).
  fold ls in Hgoal.
  assert (Hc : (ceiling < length ls)%nat /\ (ceiling <= MAX_LABELS)%nat)
    by (unfold ceiling, search_ceiling; lia).
  destruct (ceiling <=? search_floor)%nat eqn:Ec; bool_prop.
  - destruct (Hgoal search_floor APEX) as (i & nd & Hi & ? & ? & ?); [|rewrite Hi; eauto 10].
    split_and!; [lia|lia|by left|]. intros; lia.
  - fold (probe ceiling). destruct (probe ceiling) as [idx|] eqn:Epc.
    + destruct (Hgoal ceiling idx) as (i & nd & -> & ? & ? & ?); [|eauto 10].
      split_and!; [lia|lia|right; done|]. intros; lia.
    + fold probe. set (s := bisect MAX_LABELS probe _).
      destruct (Hgoal (bs_low s) (bs_found s)) as (i & nd & Hi & ? & ? & ?); [|rewrite Hi; eauto 10].
      replace (ceiling `max` search_floor)%nat with ceiling by lia. unfold s.
      apply bisect_deepest; cbn [bs_low bs_high bs_found]; try lia.
      * intros d d' Hd Hd' Hnd. unfold probe in *. rewrite depth_probe_spec in Hnd |- * by (fold ls; lia). fold ls in Hnd |- *.
        rewrite (find_closed_le ls d d'); [done| | |by destruct (find_node z (suffix_of ls d))];
          unfold search_floor in *; lia.
      * intros d Hd. by replace d with ceiling by lia.
      * apply bisect_done_labels. cbn [bs_low bs_high]. unfold MAX_LABELS in *. lia.
Qed.

End Encloser.

(** ** Refinement *)

Section Refine.
Context {HN : HickoryNames} {HT : HashTableApi} {HL : HickoryNamesLaws HN} {TL : HashTableLaws HT}.
Context (z : Zone) (Hwf : ZoneWf z).

Lemma contains_under name :
  Zone_contains z name = under_origin (az_origin (abs_zone z)) (liter name).
Proof.
  unfold Zone_contains. apply eq_bool_prop_intro. rewrite !Is_true_true.
  rewrite zone_of_spec by apply (wf_origin z Hwf). by rewrite under_origin_spec.
Qed.

Lemma find_node_elem ls i nd : find_node z ls = Some (i, nd) -> nd ∈ nodes z.
Proof. intros H. apply find_node_some in H as [H _]; [|done]. by eapply list_elem_of_lookup_2. Qed.

Lemma node_is_wildcard nd ls i :
  find_node z ls = Some (i, nd) -> flags_contains (nd_flags nd) WILDCARD = is_wildcard_name ls.
Proof.
  intros H. rewrite (wf_wildcard z Hwf nd (find_node_elem _ _ _ H)).
  apply find_node_some in H as [_ <-]; [|done]. unfold node_labels. symmetry. apply is_wildcard_map_lc.
Qed.

(** At a node of the zone: the exact-match half of the algorithm. *)
Lemma resolve_step_exact name t depth out rec i nd :
  labels_under (liter (lower_origin z)) (liter name) ->
  find_node z (liter name) = Some (i, nd) ->
  resolve_step z name t depth out rec =
    if negb (is_none (nd_cut nd)) then Some (ReferralTo (nd_cut nd), out)
    else if is_any t then Some (ResNoData, out)
    else match node_values z nd t with
    | _ :: _ => Some (Found, out ++ records_at (nd_name nd) (node_values z nd t))
    | [] =>
        if (t =? RT_CNAME)%N || is_wildcard_name (liter name) then Some (ResNoData, out)
        else match node_values z nd RT_CNAME with
        | [] => Some (ResNoData, out)
        | (_, value) :: _ =>
            let out := out ++ records_at (nd_name nd) (node_values z nd RT_CNAME) in
            if (MAX_CNAME_DEPTH <=? depth)%nat then Some (Found, out)
            else match value with
            | RD_CNAME target =>
                if under_origin (az_origin (abs_zone z)) (liter (lower_from target)) then
                  match rec (lower_from target) out with
                  | Some (ReferralTo cut, out) => Some (ReferralTo cut, out)
                  | Some (_, out) => Some (Found, out)
                  | None => None
                  end
                else Some (Found, out)
            | _ => Some (Found, out)
            end
        end
    end.
Proof.
  intros Hu Hf. pose proof (find_node_elem _ _ _ Hf) as Hin.
  unfold resolve_step. rewrite contains_under. apply under_origin_spec in Hu. cbn [az_origin abs_zone].
  rewrite Hu. cbn [negb]. rewrite exact_node_get by done. rewrite Hf. cbn [fmap option_fmap option_map snd].
  destruct (is_none (nd_cut nd)); [|done]. cbn [negb]. destruct (is_any t); [done|].
  pose proof (rrsets_of_first z Hwf nd t Hin) as Ht.
  pose proof (rrsets_of_values z Hwf nd t Hin) as Hvt.
  pose proof (rrsets_of_first z Hwf nd RT_CNAME Hin) as Hc.
  pose proof (rrsets_of_values z Hwf nd RT_CNAME Hin) as Hvc.
  rewrite (node_is_wildcard nd _ _ Hf).
  destruct (rrsets_of z nd t) as [|r run] eqn:Er.
  2:{ rewrite bool_decide_false by done. cbn [negb]. rewrite emit_spec, Hvt.
      destruct Ht as (ttl & v & vs & -> & _). done. }
  rewrite bool_decide_true by done. cbn [negb]. rewrite Ht.
  destruct (t =? RT_CNAME)%N; [done|]. cbn [negb andb orb].
  destruct (is_wildcard_name (liter name)); cbn [negb]; [by rewrite andb_false_r|]. rewrite andb_true_r.
  pose proof (wf_cname z Hwf nd Hin) as Hflag.
  destruct (rrsets_of z nd RT_CNAME) as [|c cs] eqn:Ecn.
  { rewrite Hc. by destruct (flags_contains _ _). }
  rewrite Hflag by done. rewrite bool_decide_false by done. cbn [negb].
  destruct Hc as (ttl & v & vs & Hval & Hfirst). rewrite Hval. rewrite emit_spec, Hvc, Hval.
  destruct (_ <=? _)%nat; [done|]. rewrite Hfirst. destruct v; try done. by rewrite contains_under.
Qed.

(** Away from any node: the closest encloser, its cut, and the source of synthesis. *)
Lemma resolve_step_miss name t depth out rec :
  labels_under (liter (lower_origin z)) (liter name) ->
  find_node z (liter name) = None ->
  resolve_step z name t depth out rec =
    match climb (az_node (abs_zone z)) (liter name) with
    | None => Some (ResNxDomain, out)
    | Some ce =>
        let cut := match az_node (abs_zone z) ce with Some nd => an_cut nd | None => NODE_NONE end in
        if negb (is_none cut) then Some (ReferralTo cut, out)
        else match az_node (abs_zone z) (WILDCARD_LABEL :: ce) with
        | None => Some (ResNxDomain, out)
        | Some w =>
            if is_any t then Some (ResNoData, out)
            else match an_values w t with
            | [] => Some (ResNoData, out)
            | _ :: _ => Some (Found, out ++ records_at (name_from name) (an_values w t))
            end
        end
    end.
Proof.
  intros Hu Hf. unfold resolve_step. rewrite contains_under.
  pose proof Hu as Hu'. apply under_origin_spec in Hu'. cbn [az_origin abs_zone]. rewrite Hu'. cbn [negb].
  rewrite exact_node_get by done. rewrite Hf. cbn [fmap option_fmap option_map].
  destruct (closest_encloser_spec z Hwf name Hu Hf) as (d & i & ce & -> & Hd & Hfind & ->).
  cbn [az_node abs_zone]. rewrite node_get_of_nat, Hfind.
  pose proof Hfind as Hget. apply find_node_some in Hget as [-> _]; [|done]. cbn.
  destruct (is_none (nd_cut ce)); [|done]. cbn [negb].
  rewrite wildcard_node_spec by (done || lia).
  destruct (find_node z (WILDCARD_LABEL :: _)) as [[w wn]|] eqn:Ew; [|done]. cbn.
  destruct (is_any t); [done|]. rewrite node_get_of_nat.
  pose proof (find_node_elem _ _ _ Ew) as Hin.
  apply find_node_some in Ew as [-> _]; [|done].
  pose proof (rrsets_of_first z Hwf wn t Hin) as Ht. pose proof (rrsets_of_values z Hwf wn t Hin) as Hv.
  destruct (rrsets_of z wn t) as [|r run] eqn:Er.
  - rewrite bool_decide_true by done. cbn [negb]. by rewrite Ht.
  - rewrite bool_decide_false by done. cbn [negb]. rewrite emit_spec, Hv.
    destruct Ht as (ttl & v & vs & -> & _). done.
Qed.

Lemma resolve_outside name t depth out rec :
  under_origin (liter (lower_origin z)) (liter name) = false ->
  resolve_step z name t depth out rec = Some (ResNxDomain, out).
Proof. intros Hu. unfold resolve_step. by rewrite contains_under; cbn; rewrite Hu. Qed.

Lemma resolve_spec fuel name t depth out :
  Zone_resolve fuel z name t depth out = spec_resolve fuel (abs_zone z) name t depth out.
Proof.
  revert name depth out; induction fuel as [|fuel IH]; intros name depth out; [done|].
  cbn [Zone_resolve spec_resolve]. destruct (under_origin (liter (lower_origin z)) (liter name)) eqn:Hu.
  2:{ rewrite resolve_outside by done. cbn [az_origin abs_zone]. by rewrite Hu. }
  cbn [az_origin abs_zone]. rewrite Hu. cbn [negb]. apply under_origin_spec in Hu.
  destruct (find_node z (liter name)) as [[i nd]|] eqn:Hf.
  - rewrite (resolve_step_exact name t depth out _ i nd) by done. cbn [az_node abs_zone]. rewrite Hf. cbn.
    destruct (node_values z nd t); [|done].
    destruct (node_values z nd RT_CNAME) as [|[ttl v] vs]; [done|]. destruct v; try done. by rewrite IH.
  - rewrite resolve_step_miss by done. cbn [az_node abs_zone]. rewrite Hf. done.
Qed.

End Refine.
