(* ===== verification/Build.v ===== *)
(** * Building a zone from its configuration (src/src/zone.rs, the build)

    [ZoneBuilder], the layout of the arenas, the zone cuts and the referrals, one
    definition per function.  Errors are values of [BuildError]; the messages of
    the source are their constructors' data.  Facts are in [BuildFacts.v]. *)

From S2P Require Import Prelude Names Rdata Hashing Zone.
Local Open Scope vega_scope.

(** ** The configuration of a zone (src/src/config.rs) *)

Record SoaSpec : Type := mkSoaSpec {
  soa_mname : string;
  soa_rname : string;
  soa_serial : N;
  soa_refresh : Z;
  soa_retry : Z;
  soa_expire : Z;
  soa_minimum : N;
}.

Record RecordSpec : Type := mkRecordSpec {
  rs_name : string;
  rs_type : string;
  rs_ttl : option N;
  rs_values : list string;
}.

Record ZoneConfig : Type := mkZoneConfig {
  zc_origin : string;
  zc_default_ttl : N;
  zc_builtins : bool;
  zc_soa : option SoaSpec;
  zc_records : list RecordSpec;
}.

(** ** Errors *)

Inductive Finding {HN : HickoryNames} : Type :=
| TwoTtls (owner : LowerName) (rtype : RecordType)
| SoaBelowApex (owner : LowerName)
| WildcardNs (owner : LowerName)
| CnameWithOthers (owner : LowerName) (others : list RecordType)
| ManyCnames (owner : LowerName) (count : nat)
| SoaTwice
| ManySoas (count : nat)
| MissingSoa
| MissingApexNs.

Inductive BuildError {HN : HickoryNames} : Type :=
| InvalidOrigin (input : string)
| InvalidName (input : string)
| UnknownRecordType (record_type : string)
| NoValues (name record_type : string)
| NotInZone (name : string)
| InvalidRecordName (name : string)
| InvalidValue (record_type value name : string)
| ValueTooLong (record_type : RecordType) (owner : string) (chars : N)
| CannotServe (findings : list Finding)
| NoSoa
| ArenaTooLarge (len : nat)
| LexerAborted. (** not an error value: the process is gone *)

Section Builder.
Context {HN : HickoryNames} {HR : HickoryRdata HN} {HT : HashTableApi} {HO : HashOrder}.

Abbreviation M := (result BuildError).

(** ** Scratch state *)

Record ScratchRrset : Type := mkScratchRrset {
  sr_type : RecordType;
  sr_ttl : N;
  sr_rdata : list RData;
}.

Record ScratchNode : Type := mkScratchNode {
  sn_name : Name;
  sn_wildcard : bool;
  sn_rrsets : list ScratchRrset;
}.

Record ZoneBuilder : Type := mkZoneBuilder {
  zb_origin : Name;
  zb_lower_origin : LowerName;
  zb_default_ttl : N;
  zb_nodes : gmap LowerName ScratchNode;
  zb_record_count : N;
}.

Definition ZoneBuilder_new (origin : Name) (lower : LowerName) (ttl : N) : ZoneBuilder :=
  mkZoneBuilder origin lower ttl ∅ 0.

Definition with_nodes (b : ZoneBuilder) (m : gmap LowerName ScratchNode) : ZoneBuilder :=
  mkZoneBuilder (zb_origin b) (zb_lower_origin b) (zb_default_ttl b) m (zb_record_count b).

(** ** Names *)

Definition parse_name (input : string) : M Name :=
  match name_from_str input with
  | Some name => Ok (set_fqdn name true)
  | None => Err (InvalidName input)
  end.

Definition qualify (b : ZoneBuilder) (text : string) : M Name :=
  let text := str_trim text in
  if String.eqb text "" || String.eqb text "@" then Ok (zb_origin b)
  else if str_ends_with_char char_dot text then
    let? name := parse_name text in
    if negb (zone_of (zb_lower_origin b) (lower_from name)) then Err (NotInZone text) else Ok name
  else ok_or (InvalidRecordName text) (name_parse text (zb_origin b)).

(** ** One [[[zone.records]]] block *)

Definition parse_spec_value (rtype : RecordType) (spec : RecordSpec) (value : string) : M RData :=
  match parse_value rtype (rs_name spec) value with
  | None => Err LexerAborted
  | Some (Ok rdata) => Ok rdata
  | Some (Err Unparsable) => Err (InvalidValue (rs_type spec) value (rs_name spec))
  | Some (Err (TooLong t o chars)) => Err (ValueTooLong t o chars)
  end.

(** Append to the most recent run of the type when the TTLs agree, else start one. *)
Definition append_run (runs : list ScratchRrset) (rtype : RecordType) (ttl : N) (rdata : list RData)
    : list ScratchRrset :=
  match rposition (fun r => (sr_type r =? rtype)%N) runs with
  | Some i =>
      match runs !! i with
      | Some run =>
          if (sr_ttl run =? ttl)%N
          then <[i := mkScratchRrset (sr_type run) (sr_ttl run) (sr_rdata run ++ rdata)]> runs
          else runs ++ [mkScratchRrset rtype ttl rdata]
      | None => runs ++ [mkScratchRrset rtype ttl rdata]
      end
  | None => runs ++ [mkScratchRrset rtype ttl rdata]
  end.

Definition owner_text (text : string) : string :=
  if is_wildcard_text text
  then trim_start_matches char_dot (default "" (str_strip_prefix "*" text))
  else text.

Definition insert_spec (b : ZoneBuilder) (spec : RecordSpec) : M ZoneBuilder :=
  let? rtype := ok_or (UnknownRecordType (rs_type spec))
                  (record_type_parse (str_to_uppercase (rs_type spec))) in
  match rs_values spec with
  | [] => Err (NoValues (rs_name spec) (rs_type spec))
  | _ :: _ =>
      let ttl := default (zb_default_ttl b) (rs_ttl spec) in
      let text := str_trim (rs_name spec) in
      let wildcard := is_wildcard_text text in
      let? owner := qualify b (owner_text text) in
      let? rdata := map_res (parse_spec_value rtype spec) (rs_values spec) in
      let count := (zb_record_count b + N.of_nat (length rdata))%N in
      let counted m := mkZoneBuilder (zb_origin b) (zb_lower_origin b) (zb_default_ttl b) m count in
      match (if wildcard then prepend_label WILDCARD_LABEL owner else Some owner) with
      | None => Ok (counted (zb_nodes b))
      | Some node_name =>
          let key := lower_from node_name in
          let node := default (mkScratchNode node_name wildcard []) (zb_nodes b !! key) in
          let node' := mkScratchNode (sn_name node) (sn_wildcard node)
                         (append_run (sn_rrsets node) rtype ttl rdata) in
          Ok (counted (<[key := node']> (zb_nodes b)))
      end
  end.

(** ** Ancestor closure *)

(** The walk up from one name; it stops at the first ancestor that exists. *)
Fixpoint climb_insert (fuel : nat) (origin_depth : nat) (m : gmap LowerName ScratchNode)
    (current : Name) : gmap LowerName ScratchNode :=
  match fuel with
  | O => m
  | S fuel' =>
      if (origin_depth + 1 <? length (iter current))%nat then
        let key := lower_from (base_name current) in
        match m !! key with
        | Some _ => m
        | None =>
            let parent := name_from key in
            let wildcard := bool_decide (head (iter parent) = Some WILDCARD_LABEL) in
            climb_insert fuel' origin_depth (<[key := mkScratchNode parent wildcard []]> m) parent
        end
      else m
  end.

Definition materialise_ancestors (b : ZoneBuilder) : ZoneBuilder :=
  let origin_depth := label_count (zb_lower_origin b) in
  let pending :=
    map sn_name (filter (fun n => origin_depth + 1 < length (iter (sn_name n)))%nat
      (map snd (hash_order (map_to_list (zb_nodes b))))) in
  with_nodes b (fold_left (fun m name => climb_insert MAX_LABELS origin_depth m name) pending (zb_nodes b)).

(** ** The invariants of a zone that can be served *)

Definition apex_soa_record (b : ZoneBuilder) : option DnsRecord :=
  nd ← zb_nodes b !! zb_lower_origin b;
  run ← List.find (fun r => (sr_type r =? RT_SOA)%N) (sn_rrsets nd);
  value ← head (sr_rdata run);
  Some (from_rdata (sn_name nd) (sr_ttl run) value).

(** The findings of one run, given the types seen before it at the same owner. *)
Definition run_findings (owner : LowerName) (wildcard at_apex : bool) (seen : list RecordType)
    (run : ScratchRrset) : list Finding :=
  (if bool_decide (sr_type run ∈ seen) then [TwoTtls owner (sr_type run)] else [])
  ++ (if (sr_type run =? RT_SOA)%N && negb at_apex then [SoaBelowApex owner] else [])
  ++ (if (sr_type run =? RT_NS)%N && negb at_apex && wildcard then [WildcardNs owner] else []).

Fixpoint runs_findings (owner : LowerName) (wildcard at_apex : bool) (seen : list RecordType)
    (runs : list ScratchRrset) : list Finding :=
  match runs with
  | [] => []
  | run :: runs' =>
      run_findings owner wildcard at_apex seen run
      ++ runs_findings owner wildcard at_apex (seen ++ [sr_type run]) runs'
  end.

Definition sum_rdata (runs : list ScratchRrset) : nat :=
  sum_list_with (fun r => length (sr_rdata r)) runs.

Definition of_type (t : RecordType) (runs : list ScratchRrset) : list ScratchRrset :=
  filter (fun r => sr_type r = t) runs.

Definition cname_findings (owner : LowerName) (runs : list ScratchRrset) : list Finding :=
  let cnames := sum_rdata (of_type RT_CNAME runs) in
  (if (0 <? cnames)%nat && (1 <? length runs)%nat
   then [CnameWithOthers owner (map sr_type (filter (fun r => sr_type r <> RT_CNAME) runs))] else [])
  ++ (if (1 <? cnames)%nat then [ManyCnames owner cnames] else []).

Definition node_findings (apex : LowerName) (entry : LowerName * ScratchNode) : list Finding :=
  let '(owner, nd) := entry in
  runs_findings owner (sn_wildcard nd) (bool_decide (owner = apex)) [] (sn_rrsets nd)
  ++ cname_findings owner (sn_rrsets nd).

Definition apex_runs (b : ZoneBuilder) (t : RecordType) : list ScratchRrset :=
  match zb_nodes b !! zb_lower_origin b with
  | Some nd => of_type t (sn_rrsets nd)
  | None => []
  end.

Definition soa_findings (soa_in_config : bool) (apex_soa_values : nat) : list Finding :=
  if soa_in_config && (0 <? apex_soa_values)%nat then [SoaTwice]
  else if (1 <? apex_soa_values)%nat then [ManySoas apex_soa_values]
  else if negb soa_in_config && (apex_soa_values =? 0)%nat then [MissingSoa]
  else [].

Definition check_findings (b : ZoneBuilder) (soa_in_config : bool) : list Finding :=
  flat_map (node_findings (zb_lower_origin b)) (hash_order (map_to_list (zb_nodes b)))
  ++ soa_findings soa_in_config (sum_rdata (apex_runs b RT_SOA))
  ++ match apex_runs b RT_NS with [] => [MissingApexNs] | _ => [] end.

Definition check_invariants (b : ZoneBuilder) (soa_in_config : bool) : M unit :=
  match check_findings b soa_in_config with
  | [] => Ok ()
  | findings => Err (CannotServe findings)
  end.

(** ** The layout *)

(** [u32::try_from(len)], with the build's error. *)
Definition arena_offset (len : nat) : M N :=
  if (N.of_nat len <=? u32_MAX)%N then Ok (N.of_nat len) else Err (ArenaTooLarge len).

Definition depth_byte (depth : nat) : N := N.of_nat (Nat.min depth MAX_LABELS).

Record Layout : Type := mkLayout {
  ly_order : list nat;
  ly_cut_of : list N;
  ly_delegations : gmap N (list LowerName);
}.

Definition ns_targets (nd : ScratchNode) : option (list LowerName) :=
  let runs := of_type RT_NS (sn_rrsets nd) in
  match runs with
  | [] => None
  | _ => Some (flat_map (fun run =>
             flat_map (fun value => match value with
                                    | RD_NS ns => [lower_from ns]
                                    | _ => []
                                    end) (sr_rdata run)) runs)
  end.

(** Every key in one buffer, with its span. *)
Definition write_keys (entries : list (LowerName * ScratchNode)) : M (list N * list Span) :=
  fold_res (fun acc e =>
      let '(keys, key_spans) := acc in
      let? start := arena_offset (length keys) in
      let keys := write_canonical_sort_key (fst e) keys in
      let? stop := arena_offset (length keys) in
      Ok (keys, key_spans ++ [(start, stop)]))
    ([], []) entries.

Definition key_of (keys : list N) (key_spans : list Span) (i : nat) : list N :=
  default [] (s ← key_spans !! i; get_span keys s).

Definition octets_leb (a b : list N) : bool :=
  match octets_compare a b with Gt => false | _ => true end.

(** [while ancestry.last() is not an ancestor, pop]: the stack's top is the head. *)
Fixpoint pop_ancestry (key_at : nat -> list N) (key : list N) (ancestry : list nat) : list nat :=
  match ancestry with
  | [] => []
  | a :: rest =>
      if negb (is_strict_prefix (key_at a) key) then pop_ancestry key_at key rest else ancestry
  end.

Record CutState : Type := mkCutState {
  cs_cut_of : list N;
  cs_ancestry : list nat;
  cs_delegations : gmap N (list LowerName);
}.

(** One rank of the cut pass.  [key_at a] is the key of the entry at rank [a]. *)
Definition cut_step (key_at : nat -> list N) (targets_at : nat -> option (list LowerName))
    (s : CutState) (rank : nat) : M CutState :=
  let ancestry := pop_ancestry key_at (key_at rank) (cs_ancestry s) in
  let inherited := default NODE_NONE (a ← head ancestry; cs_cut_of s !! a) in
  let targets := if (rank =? 0)%nat then None else targets_at rank in
  match targets with
  | Some ts =>
      let? here := arena_offset rank in
      Ok (mkCutState (cs_cut_of s ++ [here]) (rank :: ancestry) (<[here := ts]> (cs_delegations s)))
  | None => Ok (mkCutState (cs_cut_of s ++ [inherited]) (rank :: ancestry) (cs_delegations s))
  end.

Definition layout (entries : list (LowerName * ScratchNode)) : M Layout :=
  let? p := write_keys entries in
  let '(keys, key_spans) := p in
  let key_of := key_of keys key_spans in
  let order := sort_by (fun a b => octets_leb (key_of a) (key_of b)) (seq 0 (length entries)) in
  let key_at rank := match order !! rank with Some p => key_of p | None => [] end in
  let targets_at rank := p ← order !! rank; e ← entries !! p; ns_targets (snd e) in
  let? s := fold_res (cut_step key_at targets_at) (mkCutState [] [] ∅) (seq 0 (length order)) in
  Ok (mkLayout order (cs_cut_of s) (cs_delegations s)).

(** ** Occlusion *)

Definition keeps_run (at_the_cut is_glue_name : bool) (run : ScratchRrset) : bool :=
  (at_the_cut && (sr_type run =? RT_NS)%N)
  || (is_glue_name && ((sr_type run =? RT_A)%N || (sr_type run =? RT_AAAA)%N)).

(** The runs kept, the flags, the records dropped and the notes, for a node whose
    cut is [cut] and which sits at [here]. *)
Definition apply_cut (runs : list ScratchRrset) (owner : LowerName) (cut here : N)
    (delegations : gmap N (list LowerName)) : list ScratchRrset * NodeFlags * nat * list Diagnostic :=
  if (cut =? NODE_NONE)%N then (runs, FLAGS_NONE, 0%nat, [])
  else
    let at_the_cut := (cut =? here)%N in
    let targets := default [] (delegations !! cut) in
    let is_glue_name := bool_decide (owner ∈ targets) in
    let keep := keeps_run at_the_cut is_glue_name in
    let occluded := List.filter (fun r => negb (keep r)) runs in
    (List.filter keep runs,
     (if at_the_cut then DELEGATION else GLUE),
     sum_rdata occluded,
     map (fun r => Occluded owner (sr_type r)) occluded).

(** ** Laying the arenas out *)

Record Arena : Type := mkArena {
  ar_slots : list (option (LowerName * ScratchNode));
  ar_nodes : list Node;
  ar_rrsets : list Rrset;
  ar_rdata : list RData;
  ar_hashes : list N;
  ar_max_depth : nat;
  ar_dropped : nat;
  ar_diagnostics : list Diagnostic;
}.

(** Append one run to the RRset and RDATA arenas. *)
Definition push_run (acc : list Rrset * list RData * NodeFlags) (run : ScratchRrset)
    : M (list Rrset * list RData * NodeFlags) :=
  let '(rrs, rds, flags) := acc in
  let flags := if (sr_type run =? RT_CNAME)%N then flags_insert flags HAS_CNAME else flags in
  let? rdata_start := arena_offset (length rds) in
  let rds := rds ++ sr_rdata run in
  let? rdata_end := arena_offset (length rds) in
  Ok (rrs ++ [mkRrset (sr_type run) (sr_ttl run) (rdata_start, rdata_end)], rds, flags).

Definition place_node (hash_seed : N) (cut_of : list N) (delegations : gmap N (list LowerName))
    (s : Arena) (entry : nat * nat) : M Arena :=
  let '(rank, position) := entry in
  match ar_slots s !! position with
  | Some (Some (lower, scratch)) =>
      let runs := sort_by_key sr_type (sn_rrsets scratch) in
      let cut := default NODE_NONE (cut_of !! rank) in
      let? here := arena_offset rank in
      let '(runs, flags, dropped, notes) := apply_cut runs lower cut here delegations in
      let flags := if sn_wildcard scratch then flags_insert flags WILDCARD else flags in
      let? rrsets_start := arena_offset (length (ar_rrsets s)) in
      let? p := fold_res push_run (ar_rrsets s, ar_rdata s, flags) runs in
      let '(rrs, rds, flags) := p in
      let? rrsets_end := arena_offset (length rrs) in
      Ok (mkArena (<[position := None]> (ar_slots s))
            (ar_nodes s ++ [mkNode (sn_name scratch) (rrsets_start, rrsets_end) cut flags])
            rrs rds
            (ar_hashes s ++ [name_hash hash_seed lower])
            (Nat.max (ar_max_depth s) (length (iter (sn_name scratch))))
            (ar_dropped s + dropped)%nat
            (ar_diagnostics s ++ notes))
  | _ => Ok s
  end.

Definition build_index (hashes : list N) : M HashTable :=
  fold_res (fun index p => let? i := arena_offset (fst p) in Ok (ht_insert_unique (snd p) i index))
    (ht_with_capacity (length hashes)) (imap pair hashes).

(** ** Referrals *)

(** One NS target of a delegation: the glue it adds, or the note it leaves. *)
Definition referral_target (z : Zone) (cut_name : LowerName)
    (acc : list DnsRecord * list LowerName * list Diagnostic) (value : RData)
    : list DnsRecord * list LowerName * list Diagnostic :=
  let '(additional, seen, notes) := acc in
  match value with
  | RD_NS target =>
      let lower := lower_from target in
      if bool_decide (lower ∈ seen) then acc
      else
        let glue :=
          if Zone_contains z lower then
            (idx ← exact_node z lower (SuffixHashes_new (hash_seed z) lower); node_get z idx)
          else None in
        let additional' :=
          match glue with
          | Some g =>
              emit z (rrsets_of z g RT_AAAA) (nd_name g)
                (emit z (rrsets_of z g RT_A) (nd_name g) additional)
          | None => additional
          end in
        let notes' :=
          if (length additional' =? length additional)%nat && zone_of cut_name lower
          then notes ++ [MissingGlue cut_name lower] else notes in
        (additional', seen ++ [lower], notes')
  | _ => acc
  end.

Definition node_referral (z : Zone) (nd : Node) : Referral * list Diagnostic :=
  let ns := rrsets_of z nd RT_NS in
  let values := flat_map (fun r => default [] (get_span (rdata z) (rr_rdata r))) ns in
  let '(additional, _, notes) :=
    fold_left (referral_target z (lower_from (nd_name nd))) values ([], [], []) in
  (mkReferral (emit z ns (nd_name nd) []) additional, notes).

Definition build_referrals (z : Zone) (notes : list Diagnostic) : gmap N Referral * list Diagnostic :=
  fold_left (fun acc p =>
      let '(i, nd) := p in
      if negb (flags_contains (nd_flags nd) DELEGATION) then acc
      else
        match arena_offset i with
        | Err _ => acc
        | Ok i =>
            let '(r, notes) := node_referral z nd in
            (<[i := r]> (fst acc), snd acc ++ notes)
        end)
    (imap pair (nodes z)) (∅, notes).

(** ** The whole build *)

Definition finish (b : ZoneBuilder) (soa : option DnsRecord) (seed : N) : M Zone :=
  let apex := default (mkScratchNode (zb_origin b) false []) (zb_nodes b !! zb_lower_origin b) in
  let b := with_nodes b (<[zb_lower_origin b := apex]> (zb_nodes b)) in
  let b := materialise_ancestors b in
  let? _ := check_invariants b (match soa with Some _ => true | None => false end) in
  let? soa := ok_or NoSoa (match soa with Some r => Some r | None => apex_soa_record b end) in
  let entries := hash_order (map_to_list (zb_nodes b)) in
  let? ly := layout entries in
  let? ar := fold_res (place_node seed (ly_cut_of ly) (ly_delegations ly))
               (mkArena (map Some entries) [] [] [] [] 0 0 []) (imap pair (ly_order ly)) in
  let? index := build_index (ar_hashes ar) in
  let zone := @mkZone HN HT (zb_lower_origin b) (zb_default_ttl b) soa
      (ar_nodes ar) (ar_rrsets ar) (ar_rdata ar) index seed
      (depth_byte (label_count (zb_lower_origin b))) (depth_byte (ar_max_depth ar))
      ∅ [] (zb_record_count b - N.of_nat (ar_dropped ar))%N in
  let '(referrals, diagnostics) := build_referrals zone (ar_diagnostics ar) in
  Ok (@mkZone HN HT (lower_origin zone) (default_ttl zone) (soa)
      (nodes zone) (rrsets zone) (rdata zone) index seed (origin_depth zone) (max_depth zone)
      referrals diagnostics (record_count zone)).

Definition build_soa (origin : Name) (spec : SoaSpec) : M DnsRecord :=
  let? mname := parse_name (soa_mname spec) in
  let? rname := parse_name (soa_rname spec) in
  Ok (from_rdata origin (soa_minimum spec)
        (RD_SOA mname rname (soa_serial spec) (soa_refresh spec) (soa_retry spec)
           (soa_expire spec) (soa_minimum spec))).

(** [Zone::from_config]; [seed] is what the process drew from [RandomState]. *)
Definition from_config (seed : N) (cfg : ZoneConfig) : M Zone :=
  let? origin := map_err (fun _ => InvalidOrigin (zc_origin cfg)) (parse_name (zc_origin cfg)) in
  let lower := lower_from origin in
  let? soa := match zc_soa cfg with
              | Some spec => let? r := build_soa origin spec in Ok (Some r)
              | None => Ok None
              end in
  let? b := fold_res insert_spec (ZoneBuilder_new origin lower (zc_default_ttl cfg)) (zc_records cfg) in
  finish b soa seed.

End Builder.
