(* ===== verification/Checked.v ===== *)
(** * What the invariant check accepts (src/src/zone.rs, [ZoneBuilder::check_invariants])

    The check collects findings; here they are empty exactly when the scratch zone
    satisfies the rules the check is documented to enforce. *)

From S2P Require Import Prelude Names Rdata Hashing Zone Lookup Build.
Local Open Scope vega_scope.

(** Boolean form of "this finding is reported": none is when its test fails. *)
Lemma guard_nil {A} (c : bool) (x : A) : (if c then [x] else []) = [] <-> c = false.
Proof. by destruct c. Qed.

Lemma flat_map_nil {A B} (f : A -> list B) l : flat_map f l = [] <-> forall x, x ∈ l -> f x = [].
Proof.
  induction l as [|y l IH]; [split; [intros _ x Hx; by apply elem_of_nil in Hx|done]|]. cbn. split.
  - intros H. apply app_eq_nil in H as [H1 H2]. intros x [->|Hx]%elem_of_cons; [done|by apply IH].
  - intros H. rewrite (H y) by left. apply IH. intros x Hx. apply H. by right.
Qed.

Section Checked.
Context {HN : HickoryNames} {HR : HickoryRdata HN} {HO : HashOrder}.

(** What one owner may hold. *)
Record servable_node (apex owner : LowerName) (sn : ScratchNode) : Prop := {
  sn_one_ttl : NoDup (map sr_type (sn_rrsets sn));
  sn_soa_apex run : run ∈ sn_rrsets sn -> sr_type run = RT_SOA -> owner = apex;
  sn_ns_plain run : run ∈ sn_rrsets sn -> sr_type run = RT_NS -> owner = apex \/ sn_wildcard sn = false;
  sn_one_cname : (sum_rdata (of_type RT_CNAME (sn_rrsets sn)) <= 1)%nat;
  sn_cname_alone : (0 < sum_rdata (of_type RT_CNAME (sn_rrsets sn)))%nat -> (length (sn_rrsets sn) <= 1)%nat;
}.

(** What a zone that can be served is. *)
Record servable (b : ZoneBuilder) (soa_in_config : bool) : Prop := {
  sv_nodes k sn : zb_nodes b !! k = Some sn -> servable_node (zb_lower_origin b) k sn;
  sv_one_soa : sum_rdata (apex_runs b RT_SOA) = if soa_in_config then 0%nat else 1%nat;
  sv_apex_ns : apex_runs b RT_NS <> [];
}.

Lemma runs_findings_nil owner wildcard at_apex seen runs :
  runs_findings owner wildcard at_apex seen runs = [] <->
  NoDup (map sr_type runs) /\
  forall run, run ∈ runs ->
    (sr_type run ∉ seen) /\ (sr_type run = RT_SOA -> at_apex = true) /\
    (sr_type run = RT_NS -> at_apex = true \/ wildcard = false).
Proof.
  revert seen; induction runs as [|run runs IH]; intros seen; cbn [runs_findings map].
  { split; [intros _; split; [constructor|intros ? Hx; by apply elem_of_nil in Hx]|done]. }
  assert (Hone : run_findings owner wildcard at_apex seen run = [] <->
    (sr_type run ∉ seen) /\ (sr_type run = RT_SOA -> at_apex = true) /\
    (sr_type run = RT_NS -> at_apex = true \/ wildcard = false)).
  { unfold run_findings.
    rewrite !app_nil, !guard_nil, !andb_false_iff, bool_decide_eq_false, !N.eqb_neq, !negb_false_iff.
    destruct (decide (sr_type run = RT_SOA)), (decide (sr_type run = RT_NS)); tauto. }
  rewrite app_nil, Hone, IH, NoDup_cons. split.
  - intros (H1 & Hnd & Hrest). split.
    + split; [|done]. intros (r & Ht & Hr)%list_elem_of_fmap. destruct (Hrest r Hr) as [Hs _].
      apply Hs, elem_of_app. right. rewrite <- Ht. by left.
    + intros r [->|Hr]%elem_of_cons; [done|]. destruct (Hrest r Hr) as [Hs Hr2]. split; [|done].
      intros Hin. apply Hs, elem_of_app. by left.
  - intros [[Hnin Hnd] Hall]. split; [apply Hall; by left|]. split; [done|]. intros r Hr.
    destruct (Hall r) as [Hs Hr2]; [by right|]. split; [|done]. intros [Hin|Hin]%elem_of_app; [done|].
    apply list_elem_of_singleton in Hin. apply Hnin. rewrite <- Hin. apply list_elem_of_fmap. by exists r.
Qed.

Lemma cname_findings_nil owner runs :
  cname_findings owner runs = [] <->
  (sum_rdata (of_type RT_CNAME runs) <= 1)%nat /\
  ((0 < sum_rdata (of_type RT_CNAME runs))%nat -> (length runs <= 1)%nat).
Proof.
  unfold cname_findings. rewrite app_nil, !guard_nil, andb_false_iff, !Nat.ltb_ge. lia.
Qed.

Lemma node_findings_nil apex owner sn :
  node_findings apex (owner, sn) = [] <-> servable_node apex owner sn.
Proof.
  cbn. rewrite app_nil, runs_findings_nil, cname_findings_nil. split.
  - intros ((Hnd & Hall) & Hc1 & Hc2). constructor; try done.
    + intros run Hr Ht. apply (bool_decide_eq_true_1 (owner = apex)). by apply (Hall run Hr).
    + intros run Hr Ht. destruct (Hall run Hr) as (_ & _ & H). destruct (H Ht) as [H'|]; [left|by right].
      by apply bool_decide_eq_true in H'.
  - intros [H1 H2 H3 H4 H5]. split_and!; [done| |done|done]. intros run Hr. split_and!.
    + apply not_elem_of_nil.
    + intros Ht. apply bool_decide_eq_true. by eapply H2.
    + intros Ht. destruct (H3 run Hr Ht) as [H|]; [left|by right]. by apply bool_decide_eq_true.
Qed.

Lemma soa_findings_nil soa_in_config n :
  soa_findings soa_in_config n = [] <-> n = if soa_in_config then 0%nat else 1%nat.
Proof.
  unfold soa_findings. destruct soa_in_config; cbn [andb negb].
  - by destruct n.
  - by destruct n as [|[|n]].
Qed.

Lemma check_findings_nil b soa_in_config :
  check_findings b soa_in_config = [] <-> servable b soa_in_config.
Proof.
  unfold check_findings. rewrite !app_nil, flat_map_nil, soa_findings_nil. split.
  - intros (Hn & Hs & Ha). constructor; [|done|by destruct (apex_runs b RT_NS)].
    intros k sn Hk. apply node_findings_nil, Hn. rewrite hash_order_perm. by apply elem_of_map_to_list.
  - intros [Hn Hs Ha]. split_and!; [|done|by destruct (apex_runs b RT_NS)].
    intros [k sn] Hin. rewrite hash_order_perm in Hin. apply node_findings_nil, Hn. by apply elem_of_map_to_list.
Qed.

(** The build refuses a zone exactly when a rule is broken: one TTL per RRset, a
    SOA only at the apex and exactly one in all, NS never at a wildcard, a CNAME
    alone and single at its owner, and NS records at the apex.  An error is always
    the list of everything that is wrong. *)
Theorem check_invariants_exact b soa_in_config :
  (check_invariants b soa_in_config = Ok () <-> servable b soa_in_config) /\
  (forall e, check_invariants b soa_in_config = Err e ->
     exists f fs, e = CannotServe (f :: fs) /\ ~ servable b soa_in_config).
Proof.
  unfold check_invariants. pose proof (check_findings_nil b soa_in_config) as H.
  destruct (check_findings b soa_in_config) as [|f fs]; split.
  - by rewrite <- H.
  - done.
  - by rewrite <- H.
  - intros e [= <-]. exists f, fs. split; [done|]. by rewrite <- H.
Qed.

End Checked.
