(* ===== verification/BuildFacts.v ===== *)
(** * Facts about the scratch zone (src/src/zone.rs, [ZoneBuilder])

    What [insert_spec] and [materialise_ancestors] maintain: every node is filed
    under its own name, inside the zone, fully qualified, flagged by its name, with
    no empty run; and the node set they leave is closed under ancestry. *)

From S2P Require Import Prelude Names Rdata Hashing Zone Lookup Build.
Local Open Scope vega_scope.

(** ** Text *)

Lemma trim_start_by_idemp p s : trim_start_by p (trim_start_by p s) = trim_start_by p s.
Proof. induction s as [|c s IH]; simpl; [done|]. destruct (p c) eqn:E; [done|]. simpl. by rewrite E. Qed.

Lemma trim_end_by_idemp p s : trim_end_by p (trim_end_by p s) = trim_end_by p s.
Proof.
  induction s as [|c s IH]; [done|]. cbn [trim_end_by].
  destruct (trim_end_by p s) as [|d s'] eqn:E.
  - destruct (p c) eqn:Ep; [done|]. cbn. by rewrite Ep.
  - cbn [trim_end_by] in *. by rewrite IH.
Qed.

Lemma trim_end_by_head p s c s' :
  trim_end_by p s = String c s' -> exists r, s = String c r.
Proof.
  destruct s as [|d s]; [done|]. cbn [trim_end_by].
  destruct (trim_end_by p s); [destruct (p d)|]; intros; simplify_eq; eauto.
Qed.

Lemma str_trim_idemp s : str_trim (str_trim s) = str_trim s.
Proof.
  unfold str_trim. set (a := trim_start_by is_ascii_space s).
  assert (Ht : trim_start_by is_ascii_space (trim_end_by is_ascii_space a) = trim_end_by is_ascii_space a).
  { destruct (trim_end_by is_ascii_space a) as [|c r] eqn:E; [done|].
    apply trim_end_by_head in E as [r' E].
    assert (Hc : is_ascii_space c = false).
    { pose proof (trim_start_by_idemp is_ascii_space s) as H. fold a in H. rewrite E in H. simpl in H.
      destruct (is_ascii_space c) eqn:Ec; [|done]. exfalso.
      assert (Hl : forall s, (String.length (trim_start_by is_ascii_space s) <= String.length s)%nat).
      { clear. induction s as [|c s IH]; simpl; [lia|]. destruct (is_ascii_space c); simpl in *; lia. }
      specialize (Hl r'). rewrite H in Hl. simpl in Hl. lia. }
    simpl. by rewrite Hc. }
  by rewrite Ht, trim_end_by_idemp.
Qed.

Lemma backslash_free_trim s : backslash_free s = true -> backslash_free (str_trim s) = true.
Proof.
  intros H. unfold str_trim.
  assert (H1 : backslash_free (trim_start_by is_ascii_space s) = true).
  { induction s as [|c s IH]; [done|]. cbn in *. apply andb_true_iff in H as [Hc H].
    destruct (is_ascii_space c); [auto|]. cbn. by rewrite Hc, H. }
  revert H1. generalize (trim_start_by is_ascii_space s). clear. intros s.
  induction s as [|c s IH]; [done|]. cbn. intros H. apply andb_true_iff in H as [Hc H].
  specialize (IH H). destruct (trim_end_by _ s); [destruct (is_ascii_space c)|]; cbn in *; by rewrite ?Hc.
Qed.

(** ** The invariant of the scratch map *)

Section Nodes.
Context {HN : HickoryNames} {HL : HickoryNamesLaws HN}.

Abbreviation Nodes := (gmap LowerName ScratchNode).

Record NodeOk (origin : list label) (k : LowerName) (sn : ScratchNode) : Prop := {
  nk_key : lower_from (sn_name sn) = k;
  nk_fqdn : is_fqdn (sn_name sn) = true;
  nk_under : labels_under origin (liter k);
  nk_wildcard : sn_wildcard sn = is_wildcard_name (iter (sn_name sn));
  nk_runs : Forall (fun r => sr_rdata r <> []) (sn_rrsets sn);
}.

Definition NodesOk (origin : list label) (m : Nodes) : Prop := map_Forall (NodeOk origin) m.

Lemma key_labels origin k sn : NodeOk origin k sn -> liter k = map lc (iter (sn_name sn)).
Proof. intros H. by rewrite <- (nk_key _ _ _ H), liter_lower_from. Qed.

(** Keys of the scratch map are told apart by their labels. *)
Lemma key_ext origin m k1 k2 sn1 sn2 :
  NodesOk origin m -> m !! k1 = Some sn1 -> m !! k2 = Some sn2 -> liter k1 = liter k2 -> k1 = k2.
Proof.
  intros Hm H1 H2 Hl. apply Hm in H1, H2. apply lname_ext; [done|].
  by rewrite <- (nk_key _ _ _ H1), <- (nk_key _ _ _ H2), !fqdn_lower_from, (nk_fqdn _ _ _ H1), (nk_fqdn _ _ _ H2).
Qed.

Lemma labels_under_map_lc z n : labels_under z n -> labels_under (map lc z) (map lc n).
Proof. intros [p ->]. exists (map lc p). by rewrite map_app. Qed.

Lemma labels_under_refl z : labels_under z z.
Proof. by exists []. Qed.

Lemma labels_under_cons z l n : labels_under z n -> labels_under z (l :: n).
Proof. intros [p ->]. by exists (l :: p). Qed.

#[local] Hint Resolve labels_under_refl labels_under_cons : vega.

Lemma labels_under_tail z n : labels_under z n -> (length z < length n)%nat -> labels_under z (tail n).
Proof. intros [[|x p] ->]; simpl; [lia|]. intros _. by exists p. Qed.

Lemma labels_under_length z n : labels_under z n -> (length z <= length n)%nat.
Proof. intros [p ->]. len. Qed.

Lemma labels_under_eq z n : labels_under z n -> length n = length z -> n = z.
Proof. intros [[|x p] ->]; [done|]. rewrite length_app; simpl; lia. Qed.

(** ** Names the configuration gives *)

Context {HR : HickoryRdata HN} {HO : HashOrder}.

Record BuilderOk (b : ZoneBuilder) : Prop := {
  bo_lower : zb_lower_origin b = lower_from (zb_origin b);
  bo_fqdn : is_fqdn (zb_origin b) = true;
  bo_star : head (liter (zb_lower_origin b)) <> Some WILDCARD_LABEL;
  bo_nodes : NodesOk (liter (zb_lower_origin b)) (zb_nodes b);
}.

Lemma head_star_lower n :
  head (liter (lower_from n)) <> Some WILDCARD_LABEL -> head (iter n) <> Some WILDCARD_LABEL.
Proof.
  rewrite liter_lower_from. destruct (iter n) as [|l ls]; [done|]. cbn. intros H Hl. simplify_eq.
Qed.

Lemma qualify_ok b text owner :
  BuilderOk b -> qualify b text = Ok owner ->
  is_fqdn owner = true /\ labels_under (liter (zb_lower_origin b)) (liter (lower_from owner)) /\
  (backslash_free text = true -> is_wildcard_text (str_trim text) = false ->
     head (iter owner) <> Some WILDCARD_LABEL).
Proof.
  intros Hb H. unfold qualify in H.
  destruct (String.eqb (str_trim text) "" || String.eqb (str_trim text) "@") eqn:E0.
  { simplify_eq. split_and!; [apply Hb| |].
    - rewrite (bo_lower b Hb). apply labels_under_refl.
    - intros _ _. apply head_star_lower. rewrite <- (bo_lower b Hb). apply Hb. }
  apply orb_false_iff in E0 as [E0 _]. apply String.eqb_neq in E0.
  destruct (str_ends_with_char char_dot (str_trim text)).
  - apply rbind_ok in H as (name & Hn & H). destruct (negb _) eqn:Ez; [done|]. simplify_eq.
    apply negb_false_iff in Ez. apply zone_of_spec in Ez; [|apply Hb].
    unfold parse_name in Hn. destruct (name_from_str _) as [n|] eqn:En; [|done]. simplify_eq.
    split_and!; [apply set_fqdn_spec|done|]. intros Hf Hw Hh. rewrite set_fqdn_labels in Hh.
    rewrite (name_from_str_star (str_trim text) n) in Hw; try done. by apply backslash_free_trim.
  - apply ok_or_ok in H. pose proof (name_parse_under _ _ _ H (bo_fqdn b Hb)) as [Hu Hq].
    split_and!; [done| |].
    + rewrite (bo_lower b Hb), !liter_lower_from. by apply labels_under_map_lc.
    + intros Hf Hw Hh. rewrite (name_parse_star (str_trim text) (zb_origin b) owner) in Hw; try done.
      by apply backslash_free_trim.
Qed.

Lemma append_run_nonempty runs t ttl rd :
  Forall (fun r => sr_rdata r <> []) runs -> rd <> [] ->
  Forall (fun r => sr_rdata r <> []) (append_run runs t ttl rd).
Proof.
  intros Hr Hd. unfold append_run.
  assert (Hnew : Forall (fun r => sr_rdata r <> []) (runs ++ [mkScratchRrset t ttl rd]))
    by (apply Forall_app; by repeat constructor).
  destruct (rposition _ runs) as [i|]; [|done]. destruct (runs !! i) as [run|] eqn:Ei; [|done].
  destruct (_ =? _)%N; [|done]. apply Forall_insert; [done|]. simpl. by destruct (sr_rdata run).
Qed.

Lemma insert_spec_frame b spec b' :
  insert_spec b spec = Ok b' ->
  zb_origin b' = zb_origin b /\ zb_lower_origin b' = zb_lower_origin b /\ zb_default_ttl b' = zb_default_ttl b.
Proof.
  unfold insert_spec. intros H. apply rbind_ok in H as (t & _ & H).
  destruct (rs_values spec); [done|]. apply rbind_ok in H as (owner & _ & H).
  apply rbind_ok in H as (rd & _ & H). destruct (if is_wildcard_text _ then _ else _); by simplify_eq.
Qed.

Lemma insert_spec_ok b spec b' :
  backslash_free (rs_name spec) = true ->
  BuilderOk b -> insert_spec b spec = Ok b' -> BuilderOk b'.
Proof.
  intros Hfree Hb H. pose proof (insert_spec_frame _ _ _ H) as (Ho & Hl & _).
  destruct Hb as [Hb1 Hb2 Hb3 Hb4] eqn:EHb. constructor; rewrite ?Ho, ?Hl; try done.
  unfold insert_spec in H. apply rbind_ok in H as (t & _ & H).
  destruct (rs_values spec) as [|v vs]; [done|]. apply rbind_ok in H as (owner & Hq & H).
  apply rbind_ok in H as (rd & Hrd & H). apply map_res_length in Hrd.
  assert (Hne : rd <> []) by (by destruct rd).
  pose proof (qualify_ok b _ owner Hb Hq) as (Hf & Hu & Hstar).
  set (text := str_trim (rs_name spec)) in *.
  destruct (if is_wildcard_text text then _ else _) as [node_name|] eqn:En; [|by simplify_eq].
  assert (Hnode : NodeOk (liter (zb_lower_origin b)) (lower_from node_name)
            (mkScratchNode node_name (is_wildcard_text text) [])).
  { destruct (is_wildcard_text text) eqn:Ew.
    - apply prepend_label_spec in En as [Hi Hfq]. constructor; simpl; [done|congruence| | |done].
      + rewrite liter_lower_from, Hi. cbn. apply labels_under_cons. by rewrite liter_lower_from in Hu.
      + unfold is_wildcard_name. rewrite Hi. symmetry. by apply bool_decide_eq_true.
    - simplify_eq. constructor; simpl; [done|done|done| |done].
      symmetry. apply bool_decide_eq_false. unfold owner_text in Hstar. rewrite Ew in Hstar.
      apply Hstar; [by apply backslash_free_trim|]. unfold text. by rewrite str_trim_idemp. }
  simplify_eq; simpl. apply map_Forall_insert_2; [|done].
  destruct (zb_nodes b !! lower_from node_name) as [sn|] eqn:Esn; simpl.
  - pose proof (Hb4 _ _ Esn) as [K1 K2 K3 K4 K5]. constructor; simpl; try done. by apply append_run_nonempty.
  - destruct Hnode as [K1 K2 K3 K4 K5]. constructor; simpl in *; try done. by apply append_run_nonempty.
Qed.

End Nodes.

#[export] Hint Resolve labels_under_refl labels_under_cons : vega.

(** ** Ancestor closure *)

Section Closure.
Context {HN : HickoryNames} {HL : HickoryNamesLaws HN} {HR : HickoryRdata HN} {HO : HashOrder}.
Context (origin : list label).

Abbreviation Nodes := (gmap LowerName ScratchNode).

(** The parent of [k] is in the map. *)
Definition has_parent (m : Nodes) (k : LowerName) : Prop :=
  exists p, is_Some (m !! p) /\ liter p = tail (liter k).

(** Every node below the first level has its parent, but for those excused. *)
Definition closed_but (m : Nodes) (excused : LowerName -> Prop) : Prop :=
  forall k sn, m !! k = Some sn -> (length origin + 1 < length (liter k))%nat ->
    has_parent m k \/ excused k.

(** What materialisation may add: empty non-terminals, ancestors of what was there. *)
Definition extends (m m' : Nodes) : Prop :=
  m ⊆ m' /\
  forall k sn, m' !! k = Some sn -> m !! k = None ->
    sn = mkScratchNode (name_from k) (is_wildcard_name (liter k)) [] /\
    (length origin < length (liter k))%nat /\
    exists d, is_Some (m !! d) /\ labels_under (liter k) (liter d).

Lemma extends_refl m : extends m m.
Proof. split; [done|]. intros k sn H1 H2. congruence. Qed.

Lemma labels_under_trans a b c : labels_under a b -> labels_under b c -> labels_under a c.
Proof. intros [p ->] [q ->]. exists (q ++ p). by rewrite (assoc_L (++)). Qed.

Lemma extends_trans m1 m2 m3 : extends m1 m2 -> extends m2 m3 -> extends m1 m3.
Proof.
  intros [H1 H1'] [H2 H2']. split; [by etrans|]. intros k sn Hk Hn.
  destruct (m2 !! k) as [sn2|] eqn:E2.
  - assert (sn = sn2) as ->; [|by apply H1'].
    pose proof (lookup_weaken _ _ _ _ E2 H2). congruence.
  - destruct (H2' k sn Hk E2) as (Hs & Hl & d & [sd Hd] & Hu). split_and!; [done|done|].
    destruct (m1 !! d) as [s1|] eqn:E1; [by exists d; rewrite E1|].
    destruct (H1' d sd Hd E1) as (_ & _ & e & He & Hue). exists e. split; [done|]. by eapply labels_under_trans.
Qed.

Lemma has_parent_mono m m' k : m ⊆ m' -> has_parent m k -> has_parent m' k.
Proof. intros Hs (p & [sn Hp] & Hl). exists p. split; [|done]. exists sn. by eapply lookup_weaken. Qed.

Lemma parent_key_labels n :
  liter (lower_from (base_name n)) = tail (liter (lower_from n)).
Proof. rewrite !liter_lower_from, base_name_labels. by destruct (iter n). Qed.

Lemma climb_insert_spec fuel m current excused sn0 :
  NodesOk origin m -> is_fqdn current = true ->
  m !! lower_from current = Some sn0 ->
  (length (iter current) <= fuel)%nat ->
  closed_but m (fun k => k = lower_from current \/ excused k) ->
  let m' := climb_insert fuel (length origin) m current in
  NodesOk origin m' /\ extends m m' /\ closed_but m' excused.
Proof.
  revert m current sn0; induction fuel as [|fuel IH]; intros m current sn0 Hm Hf H0 Hlen Hc; cbn [climb_insert].
  { split_and!; [done|apply extends_refl|]. intros k sn Hk Hd. destruct (Hc k sn Hk Hd) as [|[->|]]; auto.
    rewrite liter_lower_from, length_map in Hd. lia. }
  assert (Hlc : length (liter (lower_from current)) = length (iter current)) by (by rewrite liter_lower_from, length_map).
  destruct (_ <? _)%nat eqn:Elt; bool_prop.
  2:{ split_and!; [done|apply extends_refl|]. intros k sn Hk Hd. destruct (Hc k sn Hk Hd) as [|[->|]]; auto. lia. }
  set (key := lower_from (base_name current)).
  assert (Hkey : liter key = tail (liter (lower_from current))) by apply parent_key_labels.
  destruct (m !! key) as [snk|] eqn:Ek.
  { split_and!; [done|apply extends_refl|]. intros k sn Hk Hd. destruct (Hc k sn Hk Hd) as [|[->|]]; auto.
    left. exists key. by rewrite Ek. }
  set (nk := mkScratchNode (name_from key) (bool_decide (head (iter (name_from key)) = Some WILDCARD_LABEL)) []).
  assert (Hfk : is_fqdn (name_from key) = true) by (unfold key; rewrite fqdn_lower_from; by apply base_name_fqdn).
  assert (Hlk : length (liter key) = (length (iter current) - 1)%nat).
  { rewrite Hkey, <- Hlc. by destruct (liter (lower_from current)); simpl; lia. }
  assert (Hok : NodeOk origin key nk).
  { constructor; simpl; [apply lower_from_name_from|done| |done|done].
    rewrite Hkey. apply labels_under_tail; [|lia]. apply (nk_under _ _ _ (Hm _ _ H0)). }
  destruct (IH (<[key := nk]> m) (name_from key) nk) as (Hm' & Hx & Hcl).
  - by apply map_Forall_insert_2.
  - done.
  - rewrite lower_from_name_from. apply lookup_insert_eq.
  - rewrite iter_name_from. lia.
  - intros k sn Hk Hd. rewrite lower_from_name_from. destruct (decide (k = key)) as [->|Hne]; [by right; left|].
    rewrite lookup_insert_ne in Hk by done.
    assert (Hsub : m ⊆ <[key := nk]> m) by (by apply insert_subseteq).
    destruct (Hc k sn Hk Hd) as [Hp|[->|He]]; [left; by eapply has_parent_mono| |by right; right].
    left. exists key. split; [|done]. rewrite lookup_insert_eq. eauto.
  - split_and!; [done| |done]. eapply extends_trans; [|exact Hx].
    split; [by apply insert_subseteq|]. intros k sn Hk Hn.
    destruct (decide (k = key)) as [->|Hne]; [|rewrite lookup_insert_ne in Hk; congruence].
    rewrite lookup_insert_eq in Hk. simplify_eq. rewrite iter_name_from. split_and!; [done|lia|].
    exists (lower_from current). split; [by rewrite H0|]. rewrite Hkey.
    destruct (liter (lower_from current)) as [|l ls]; auto with vega.
Qed.

Lemma climb_all_spec pending m (excused : LowerName -> Prop) :
  NodesOk origin m ->
  (forall n, n ∈ pending -> is_fqdn n = true /\ is_Some (m !! lower_from n)) ->
  closed_but m (fun k => exists n, n ∈ pending /\ k = lower_from n) ->
  let m' := fold_left (fun m name => climb_insert MAX_LABELS (length origin) m name) pending m in
  NodesOk origin m' /\ extends m m' /\ closed_but m' (fun _ => False).
Proof.
  revert m; induction pending as [|n pending IH]; intros m Hm Hp Hc; cbn [fold_left].
  { split_and!; [done|apply extends_refl|]. intros k sn Hk Hd. destruct (Hc k sn Hk Hd) as [|(n & Hn & _)]; [by left|].
    by apply elem_of_nil in Hn. }
  destruct (Hp n (list_elem_of_here _ _)) as [Hf [sn0 H0]].
  destruct (climb_insert_spec MAX_LABELS m n (fun k => exists n, n ∈ pending /\ k = lower_from n) sn0)
    as (Hm1 & Hx1 & Hc1); try done.
  - apply name_label_limit.
  - intros k sn Hk Hd. destruct (Hc k sn Hk Hd) as [|(n' & Hn' & ->)]; [by left|].
    apply elem_of_cons in Hn' as [->|Hn']; [by right; left|]. right; right. eauto.
  - destruct (IH (climb_insert MAX_LABELS (length origin) m n)) as (Hm2 & Hx2 & Hc2); try done.
    + intros n' Hn'. destruct (Hp n') as [Hf' [sn' Hs']]; [by right|]. split; [done|].
      exists sn'. eapply lookup_weaken; [exact Hs'|apply Hx1].
    + split_and!; [done|by eapply extends_trans|done].
Qed.

End Closure.

Section Materialise.
Context {HN : HickoryNames} {HL : HickoryNamesLaws HN} {HR : HickoryRdata HN} {HO : HashOrder}.

Lemma materialise_spec b :
  BuilderOk b ->
  let o := liter (zb_lower_origin b) in
  let b' := materialise_ancestors b in
  BuilderOk b' /\ zb_lower_origin b' = zb_lower_origin b /\ zb_origin b' = zb_origin b /\
  zb_record_count b' = zb_record_count b /\ zb_default_ttl b' = zb_default_ttl b /\
  extends o (zb_nodes b) (zb_nodes b') /\ closed_but o (zb_nodes b') (fun _ => False).
Proof.
  intros [H1 H2 H3 Hm]. cbn zeta. unfold materialise_ancestors, with_nodes, label_count. cbn [zb_nodes zb_lower_origin zb_origin zb_record_count zb_default_ttl].
  set (pending := map sn_name _).
  assert (Hpending : forall k sn, zb_nodes b !! k = Some sn ->
    (length (liter (zb_lower_origin b)) + 1 < length (liter k))%nat -> sn_name sn ∈ pending).
  { intros k sn Hk Hl. unfold pending. apply list_elem_of_fmap. exists sn. split; [done|].
    apply list_elem_of_filter. split.
    - pose proof (key_labels _ _ _ (Hm _ _ Hk)) as Hkl. rewrite Hkl, length_map in Hl. done.
    - apply list_elem_of_fmap. exists (k, sn). split; [done|]. rewrite hash_order_perm. by apply elem_of_map_to_list. }
  destruct (climb_all_spec (liter (zb_lower_origin b)) pending (zb_nodes b) (fun _ => False)) as (Hm' & Hx & Hc).
  - done.
  - intros n Hn. unfold pending in Hn. apply list_elem_of_fmap in Hn as (sn & -> & Hn).
    apply list_elem_of_filter in Hn as [_ Hn]. apply list_elem_of_fmap in Hn as ([k sn'] & -> & Hn).
    rewrite hash_order_perm in Hn. apply elem_of_map_to_list in Hn. cbn.
    pose proof (Hm _ _ Hn) as Hk. split; [apply (nk_fqdn _ _ _ Hk)|]. rewrite (nk_key _ _ _ Hk). by rewrite Hn.
  - intros k sn Hk Hd. right. exists (sn_name sn). split; [by eapply Hpending|]. symmetry. apply (nk_key _ _ _ (Hm _ _ Hk)).
  - split_and!; try done.
Qed.

End Materialise.
