(* ===== verification/LayoutFacts.v ===== *)
(** * The canonical layout and the cut pass (src/src/zone.rs, [layout])

    The order the arenas are laid out in is the RFC 4034 one, strictly; and the one
    pass with a stack of ancestors gives every rank its nearest delegation. *)

From S2P Require Import Prelude Names Rdata Hashing Zone Lookup Build BuildFacts.
Local Open Scope vega_scope.

(** ** Octet strings as keys *)

Definition is_key_prefix (p k : list N) : Prop := exists s, k = p ++ s.

Lemma octets_leb_total a b : octets_leb a b = false -> octets_leb b a = true.
Proof. unfold octets_leb. rewrite (octets_compare_antisym a b). by destruct (octets_compare a b). Qed.

Lemma octets_leb_spec a b : octets_leb a b = true <-> octets_compare a b = Lt \/ a = b.
Proof.
  unfold octets_leb. rewrite <- octets_compare_eq.
  destruct (octets_compare a b); split; first [done | tauto | by intros [|]].
Qed.

Lemma octets_leb_trans a b c : octets_leb a b = true -> octets_leb b c = true -> octets_leb a c = true.
Proof.
  rewrite !octets_leb_spec. intros [H1| ->] [H2| ->]; auto. left. by eapply octets_compare_trans.
Qed.

Lemma key_prefix_refl k : is_key_prefix k k.
Proof. exists []. by rewrite app_nil_r. Qed.

Lemma key_prefix_trans a b c : is_key_prefix a b -> is_key_prefix b c -> is_key_prefix a c.
Proof. intros [s ->] [s' ->]. exists (s ++ s'). by rewrite (assoc_L (++)). Qed.

Lemma key_prefix_total a b c : is_key_prefix a c -> is_key_prefix b c -> is_key_prefix a b \/ is_key_prefix b a.
Proof.
  intros [s Hs] [s' Hs']. rewrite Hs in Hs'. apply app_eq_app in Hs' as (k & [[-> _]|[-> _]]).
  - right. by exists k.
  - left. by exists k.
Qed.

Lemma key_prefix_strict a b : is_strict_prefix a b = true <-> is_key_prefix a b /\ a <> b.
Proof.
  rewrite is_strict_prefix_spec. split.
  - intros (s & Hs & ->). split; [by exists s|]. intros H. apply Hs.
    apply (app_inv_head a). by rewrite app_nil_r.
  - intros [[s ->] H]. exists s. split; [|done]. intros ->. by rewrite app_nil_r in H.
Qed.

Lemma key_prefix_le a b : is_key_prefix a b -> octets_compare a b <> Gt.
Proof.
  intros [s ->]. destruct s; [by rewrite app_nil_r, octets_compare_refl|].
  by rewrite octets_compare_prefix.
Qed.

(** ** The stack of ancestors *)

Section CutPass.
Context {HN : HickoryNames}.
Context (n : nat) (K : nat -> list N) (T : nat -> option (list LowerName)).
Hypothesis K_sorted : forall i j, (i < j < n)%nat -> octets_compare (K i) (K j) = Lt.

Lemma pop_ancestry_filter key l :
  StronglySorted (fun a b => is_key_prefix (K b) (K a) /\ K b <> K a) l ->
  pop_ancestry K key l = filter (fun a => is_strict_prefix (K a) key = true) l.
Proof.
  induction 1 as [|a l Hs IH Hf]; [done|]. cbn [pop_ancestry]. rewrite filter_cons.
  destruct (is_strict_prefix (K a) key) eqn:E; cbn [negb].
  - rewrite decide_True by done. f_equal. symmetry. apply filter_all.
    eapply Forall_impl; [exact Hf|]. cbn. intros b [Hb Hne].
    apply key_prefix_strict in E as [E Hne']. apply key_prefix_strict. split; [by eapply key_prefix_trans|].
    intros Hk. subst key. destruct E as [s E]. destruct Hb as [s' Hb]. rewrite Hb in E.
    apply (f_equal length) in E. rewrite !length_app in E.
    destruct s; [|simpl in E; lia]. destruct s'; [|simpl in E; lia].
    rewrite app_nil_r in Hb. congruence.
  - by rewrite decide_False.
Qed.

(** [a] was seen no later than [r], and its key begins [r]'s. *)
Definition on_path (r a : nat) : Prop := (a <= r)%nat /\ is_key_prefix (K a) (K r).

(** The delegation [c] is the nearest one at or above [r], the apex apart. *)
Definition is_delegation (a : nat) : Prop := (0 < a)%nat /\ is_Some (T a).

Definition nearest_cut (r : nat) (c : N) : Prop :=
  (c = NODE_NONE /\ forall a, on_path r a -> ~ is_delegation a) \/
  (exists a, c = N.of_nat a /\ on_path r a /\ is_delegation a /\
     forall b, on_path r b -> is_delegation b -> (b <= a)%nat).

Lemma sorted_between a r r' :
  (a <= r)%nat -> (r < r')%nat -> (r' < n)%nat -> is_key_prefix (K a) (K r') -> is_key_prefix (K a) (K r).
Proof.
  intros H1 H2 H3 [s Hs]. destruct (decide (a = r)) as [->|]; [apply key_prefix_refl|].
  destruct (octets_between_prefix (K a) (K r) s) as [t Ht].
  - rewrite octets_compare_antisym, K_sorted by lia. done.
  - rewrite <- Hs, K_sorted by lia. done.
  - by exists t.
Qed.

Lemma K_inj i j : (i < n)%nat -> (j < n)%nat -> K i = K j -> i = j.
Proof.
  intros Hi Hj H. destruct (lt_eq_lt_dec i j) as [[Hl|]|Hl]; [|done|].
  - pose proof (K_sorted i j) as Hk. rewrite H, octets_compare_refl in Hk. discriminate Hk; lia.
  - pose proof (K_sorted j i) as Hk. rewrite H, octets_compare_refl in Hk. discriminate Hk; lia.
Qed.

(** What the pass holds before rank [r]. *)
Record CutInv (r : nat) (s : CutState) : Prop := {
  ci_len : length (cs_cut_of s) = r;
  ci_cuts i : (i < r)%nat -> exists c, cs_cut_of s !! i = Some c /\ nearest_cut i c;
  ci_sorted : StronglySorted (fun a b => (b < a)%nat) (cs_ancestry s);
  ci_path a : a ∈ cs_ancestry s <-> (0 < r)%nat /\ on_path (r - 1) a;
  ci_targets i : (0 < i < r)%nat -> cs_delegations s !! N.of_nat i = T i;
  ci_later i : (i < r)%nat \/ cs_delegations s !! N.of_nat i = None;
  ci_apex : cs_delegations s !! 0%N = None;
}.

Lemma cut_inv_init : CutInv 0 (mkCutState [] [] ∅).
Proof.
  constructor; cbn; try done; try lia.
  - constructor.
  - intros a. split; [intros H; by apply elem_of_nil in H|lia].
  - intros i. right. apply lookup_empty.
Qed.

Lemma ancestry_chain l r :
  (r < n)%nat -> StronglySorted (fun a b => (b < a)%nat) l -> (forall a, a ∈ l -> on_path r a) ->
  StronglySorted (fun a b => is_key_prefix (K b) (K a) /\ K b <> K a) l.
Proof.
  intros Hr Hs. induction Hs as [|a l Hs IH Hf]; intros Hp; constructor.
  - apply IH. intros b Hb. apply Hp. by right.
  - rewrite Forall_forall in *. intros b Hb. specialize (Hf b Hb).
    destruct (Hp a) as [Ha1 Ha2]; [by left|]. destruct (Hp b) as [Hb1 Hb2]; [by right|].
    assert (Hne : K b <> K a) by (intros H; apply K_inj in H; lia).
    split; [|done]. destruct (key_prefix_total _ _ _ Ha2 Hb2) as [H|H]; [|done].
    exfalso. apply key_prefix_le in H. rewrite octets_compare_antisym, K_sorted in H by lia. done.
Qed.

Lemma nearest_cut_inherit r a c :
  (r < n)%nat -> (a < r)%nat -> is_key_prefix (K a) (K r) -> ~ is_delegation r ->
  (forall b, (b < r)%nat -> is_key_prefix (K b) (K r) -> (b <= a)%nat) ->
  nearest_cut a c -> nearest_cut r c.
Proof.
  intros Hr Ha Hp Hd Hmax Hc.
  assert (Hpath : forall b, on_path r b -> is_delegation b -> on_path a b).
  { intros b [Hb1 Hb2] Hb3. destruct (decide (b = r)) as [->|]; [done|].
    split; [apply Hmax; [lia|done]|]. eapply sorted_between; [| | |exact Hb2]; [apply Hmax; [lia|done]|lia|lia]. }
  destruct Hc as [[-> H]|(d & -> & [Hd1 Hd2] & Hd3 & H)].
  - left. split; [done|]. intros b Hb1 Hb2. by apply (H b); [apply Hpath|].
  - right. exists d. split_and!; [done| |done|].
    + split; [lia|]. by eapply key_prefix_trans.
    + intros b Hb1 Hb2. apply H; [by apply Hpath|done].
Qed.

(** What the pass keeps of its ancestry at [r]: the ranks before it whose keys
    begin [r]'s, the deepest first. *)
Lemma ancestry_above r s :
  (r < n)%nat -> CutInv r s ->
  let anc := pop_ancestry K (K r) (cs_ancestry s) in
  (forall a, a ∈ anc <-> (a < r)%nat /\ is_key_prefix (K a) (K r)) /\
  StronglySorted (fun a b => (b < a)%nat) anc.
Proof.
  intros Hr [_ _ H3 H4 _ _ _].
  assert (Hanc : pop_ancestry K (K r) (cs_ancestry s)
                 = filter (fun a => is_strict_prefix (K a) (K r) = true) (cs_ancestry s)).
  { apply pop_ancestry_filter. apply (ancestry_chain _ (r - 1)); [lia|done|]. intros a Ha. by apply H4. }
  cbn. rewrite Hanc. split; [|by apply sorted_filter].
  intros a. rewrite list_elem_of_filter, key_prefix_strict, H4. split.
  - intros [[Hp _] [Hr0 [Ha _]]]. split; [lia|done].
  - intros [Ha Hp]. split; [split; [done|intros HK; apply K_inj in HK; lia]|].
    split; [lia|]. split; [lia|]. eapply sorted_between; [| | |exact Hp]; lia.
Qed.

(** A rank that is no delegation takes the cut of the rank above it. *)
Lemma inherited_cut r s :
  (r < n)%nat -> CutInv r s -> ~ is_delegation r ->
  nearest_cut r (default NODE_NONE
    (head (pop_ancestry K (K r) (cs_ancestry s)) ≫= fun parent => cs_cut_of s !! parent)).
Proof.
  intros Hr HI Hnd. destruct (ancestry_above r s Hr HI) as [Hmem Hsorted].
  destruct (pop_ancestry _ _ _) as [|a anc]; cbn.
  - left. split; [done|]. intros a [Ha1 Ha2] Ha3. destruct (decide (a = r)) as [->|]; [done|].
    assert (Hin : a ∈ ([] : list nat)) by (apply Hmem; split; [lia|done]). by apply elem_of_nil in Hin.
  - assert (Ha : (a < r)%nat /\ is_key_prefix (K a) (K r)) by (apply Hmem; by left).
    destruct (ci_cuts _ _ HI a) as (c & Hc & Hn); [lia|]. rewrite Hc. cbn.
    eapply (nearest_cut_inherit r a); try done; try lia; [tauto|].
    intros b Hb1 Hb2. assert (Hin : b ∈ a :: anc) by (by apply Hmem).
    apply StronglySorted_inv in Hsorted as [_ Hf]. apply elem_of_cons in Hin as [->|Hin]; [lia|].
    rewrite Forall_forall in Hf. specialize (Hf b Hin). cbn in Hf. lia.
Qed.

(** Adding [r]'s cut and [r] itself to its ancestry keeps the invariant, given the
    delegations after the step. *)
Lemma cut_inv_push r s c D :
  (r < n)%nat -> CutInv r s -> nearest_cut r c ->
  (forall i : nat, i <> r -> D !! N.of_nat i = cs_delegations s !! N.of_nat i) ->
  D !! N.of_nat r = (if (r =? 0)%nat then None else T r) ->
  CutInv (S r) (mkCutState (cs_cut_of s ++ [c]) (r :: pop_ancestry K (K r) (cs_ancestry s)) D).
Proof.
  intros Hr HI Hc Hother Hhere. destruct (ancestry_above r s Hr HI) as [Hmem Hsorted].
  destruct HI as [H1 H2 _ _ H5 H6 H7].
  constructor; cbn [cs_cut_of cs_ancestry cs_delegations].
  - len.
  - intros i Hi. destruct (decide (i = r)) as [->|].
    + exists c. split; [|done]. rewrite lookup_app_r by lia. by rewrite H1, Nat.sub_diag.
    + destruct (H2 i) as (c' & Hc' & Hn); [lia|]. exists c'. split; [|done]. by apply lookup_app_l_Some.
  - constructor; [done|]. apply Forall_forall. intros b Hb. apply Hmem in Hb. lia.
  - intros a. rewrite elem_of_cons, Hmem. replace (S r - 1)%nat with r by lia. unfold on_path. split.
    + intros [->|[Ha Hp]]; split; try lia; split; try lia; [apply key_prefix_refl|done].
    + intros [_ [Ha Hp]]. destruct (decide (a = r)); [by left|right]. split; [lia|done].
  - intros i Hi. destruct (decide (i = r)) as [->|]; [|rewrite Hother by lia; apply H5; lia].
    rewrite Hhere. destruct (r =? 0)%nat eqn:E0; bool_prop; [lia|done].
  - intros i. destruct (H6 i) as [|Hn]; [left; lia|]. destruct (decide (i = r)) as [->|]; [left; lia|].
    right. by rewrite Hother by lia.
  - destruct (decide (r = 0%nat)) as [->|]; [exact Hhere|].
    change 0%N with (N.of_nat 0). by rewrite Hother by lia.
Qed.

Lemma cut_inv_step r s s' :
  (r < n)%nat -> CutInv r s -> cut_step K T s r = Ok s' -> CutInv (S r) s'.
Proof.
  intros Hr HI Hstep. unfold cut_step in Hstep.
  destruct (if (r =? 0)%nat then None else T r) as [ts|] eqn:ET.
  - apply rbind_ok in Hstep as (here & Hh & Hstep). unfold arena_offset in Hh.
    destruct (_ <=? _)%N eqn:El; [|done]. injection Hh as <-. injection Hstep as <-.
    apply cut_inv_push; [done|done| | |].
    + destruct (r =? 0)%nat eqn:E0; [done|]. bool_prop. right. exists r.
      split_and!; [done|split; [done|apply key_prefix_refl]|split; [lia|by rewrite ET]|].
      intros b [Hb _]. lia.
    + intros i Hi. by rewrite lookup_insert_ne by lia.
    + by rewrite ET, lookup_insert_eq.
  - injection Hstep as <-. apply cut_inv_push; [done|done| |done|].
    + apply inherited_cut; [done|done|].
      intros [Hd1 [ts Hd2]]. destruct (r =? 0)%nat eqn:E0; bool_prop; [lia|congruence].
    + rewrite ET. destruct (ci_later _ _ HI r) as [|Hn]; [lia|done].
Qed.

Lemma cut_pass_spec s :
  fold_res (cut_step K T) (mkCutState [] [] ∅) (seq 0 n) = Ok s -> CutInv n s.
Proof.
  intros H.
  assert (HP : (fun pre s => CutInv (length pre) s) (seq 0 n) s).
  { revert H. apply (fold_res_prefix (fun pre s => CutInv (length pre) s)); [apply cut_inv_init|].
    intros pre a post s1 s2 Hl HI Hs.
    assert (Ha : a = length pre).
    { assert (Hk : seq 0 n !! length pre = Some a) by (rewrite Hl; apply list_lookup_middle; done).
      apply lookup_seq in Hk. lia. }
    assert (Hn : (length pre < n)%nat).
    { apply (f_equal length) in Hl. rewrite length_seq, length_app in Hl. cbn in Hl. lia. }
    subst a. rewrite length_app. replace (length pre + length [length pre])%nat with (S (length pre)) by (cbn; lia).
    by eapply cut_inv_step. }
  cbn in HP. by rewrite length_seq in HP.
Qed.

End CutPass.

(** ** Growing an arena *)

(** What an accepted offset says: it is the length, and fits in 32 bits. *)
Lemma arena_offset_ok {HN : HickoryNames} len i :
  arena_offset len = Ok i -> i = N.of_nat len /\ (i <= u32_MAX)%N.
Proof. unfold arena_offset. destruct (_ <=? _)%N eqn:E; [|done]. bool_prop. intros; by simplify_eq. Qed.

Lemma get_span_app {A} (l l' m : list A) s : get_span l s = Some m -> get_span (l ++ l') s = Some m.
Proof.
  unfold get_span. intros H. apply slice_get_inv in H as [Hb ->].
  rewrite slice_get_some by len.
  by rewrite drop_app_le, take_app_le by (rewrite ?length_drop; lia).
Qed.

(** The span written by an append reads back what was appended. *)
Lemma get_span_new {A} (l m : list A) :
  get_span (l ++ m) (N.of_nat (length l), N.of_nat (length (l ++ m))) = Some m.
Proof.
  unfold get_span, span. cbn [fst snd]. rewrite !Nat2N.id, length_app.
  rewrite <- (app_nil_r (l ++ m)), <- (assoc_L (++)). apply slice_get_app.
Qed.

(** ** The layout of a list of entries *)

Section Layout.
Context {HN : HickoryNames} {HL : HickoryNamesLaws HN}.

Abbreviation Entry := (LowerName * ScratchNode)%type.

(** The keys written one after another read back through their spans. *)
Lemma write_keys_spec (entries : list Entry) keys spans :
  write_keys entries = Ok (keys, spans) ->
  length spans = length entries /\
    forall i e, entries !! i = Some e -> key_of keys spans i = sort_key (fst e).
Proof.
  intros H. unfold write_keys in H.
  set (P := fun (pre : list Entry) (acc : list N * list Span) =>
    length acc.2 = length pre /\
    forall i e, pre !! i = Some e ->
      exists s, acc.2 !! i = Some s /\ get_span acc.1 s = Some (sort_key (fst e))).
  assert (HP : P entries (keys, spans)).
  { revert H. apply fold_res_prefix; unfold P; clear P; [by split|].
    intros pre a post [ks sp] s' _ [Hlen Hkeys] H. cbn [fst snd] in *.
    apply rbind_ok in H as (start & [-> _]%arena_offset_ok & H).
    apply rbind_ok in H as (stop & [-> _]%arena_offset_ok & H). simplify_eq. cbn [fst snd].
    rewrite write_key_enc, <- sort_key_enc, (length_app sp), (length_app pre), Hlen. split; [done|].
    intros i e Hi. apply lookup_app_Some in Hi as [Hi|[Hi Hx]].
    - destruct (Hkeys i e Hi) as (s & Hs & Hg). exists s. split; [by apply lookup_app_l_Some|].
      by apply get_span_app.
    - apply list_lookup_singleton_Some in Hx as [Hx ->]. eexists. split; [|apply get_span_new].
      rewrite lookup_app_r by lia. by replace (i - length sp)%nat with 0%nat by lia. }
  destruct HP as [Hlen Hk]. split; [done|]. intros i e Hi. unfold key_of.
  destruct (Hk i e Hi) as (s & Hs & Hg). cbn [fst snd] in *. rewrite Hs. cbn. by rewrite Hg.
Qed.

(** The entry at a rank of the layout. *)
Definition ranked (entries : list Entry) (ly : Layout) (r : nat) : option Entry :=
  p ← ly_order ly !! r; entries !! p.

(** [c] is the rank of the delegation nearest to the entry at [r], at it or above
    it, the apex apart; [NODE_NONE] when there is none. *)
Definition entry_above (entries : list Entry) (ly : Layout) (a r : nat) : Prop :=
  exists ea er, ranked entries ly a = Some ea /\ ranked entries ly r = Some er /\
    labels_under (liter ea.1) (liter er.1).

Definition delegates (entries : list Entry) (ly : Layout) (a : nat) : Prop :=
  (0 < a)%nat /\ exists ea ts, ranked entries ly a = Some ea /\ ns_targets ea.2 = Some ts.

Definition cut_is (entries : list Entry) (ly : Layout) (r : nat) (c : N) : Prop :=
  (c = NODE_NONE /\ forall a, entry_above entries ly a r -> ~ delegates entries ly a) \/
  (exists a, c = N.of_nat a /\ entry_above entries ly a r /\ delegates entries ly a /\
    forall b, entry_above entries ly b r -> delegates entries ly b -> (b <= a)%nat).

Record LayoutOk (entries : list Entry) (ly : Layout) : Prop := {
  lo_perm : ly_order ly ≡ₚ seq 0 (length entries);
  lo_sorted i j ei ej : (i < j)%nat -> ranked entries ly i = Some ei -> ranked entries ly j = Some ej ->
    canonical_compare ei.1 ej.1 = Lt;
  lo_cut r : (r < length entries)%nat -> exists c, ly_cut_of ly !! r = Some c /\ cut_is entries ly r c;
  lo_targets r : (0 < r < length entries)%nat ->
    ly_delegations ly !! N.of_nat r = (e ← ranked entries ly r; ns_targets e.2);
}.

Lemma ranked_total entries ly r :
  ly_order ly ≡ₚ seq 0 (length entries) -> (r < length entries)%nat -> is_Some (ranked entries ly r).
Proof.
  intros Hp Hr. unfold ranked.
  destruct (lookup_lt_is_Some_2 (ly_order ly) r) as [p Hpos].
  { by rewrite Hp, length_seq. }
  rewrite Hpos. cbn. apply lookup_lt_is_Some_2.
  apply list_elem_of_lookup_2 in Hpos. rewrite Hp in Hpos. apply elem_of_seq in Hpos. lia.
Qed.

Lemma ranked_lt entries ly r e :
  ly_order ly ≡ₚ seq 0 (length entries) -> ranked entries ly r = Some e -> (r < length entries)%nat.
Proof.
  intros Hp Hr. unfold ranked in Hr. destruct (ly_order ly !! r) as [p|] eqn:E; [|done].
  apply lookup_lt_Some in E. by rewrite Hp, length_seq in E.
Qed.

(** *** The ranks of the entries, their keys and their targets *)

Section Ranking.
Context (entries : list Entry) (keys : list N) (spans : list Span).
Hypothesis Hnodup : NoDup (map (fun e : Entry => liter e.1) entries).
Hypothesis Hkey : forall i e, entries !! i = Some e -> key_of keys spans i = sort_key (fst e).
Context (cuts : list N) (delegations : gmap N (list LowerName)).

Let order := sort_by (fun a b => octets_leb (key_of keys spans a) (key_of keys spans b)) (seq 0 (length entries)).
Let K rank := match order !! rank with Some p => key_of keys spans p | None => [] end.
Let T rank := p ← order !! rank; e ← entries !! p; ns_targets (snd e).
Let ly := mkLayout order cuts delegations.

Lemma ranks_perm : ly_order ly ≡ₚ seq 0 (length entries).
Proof. apply sort_by_perm. Qed.

Lemma ranks_length : length order = length entries.
Proof. change order with (ly_order ly). by rewrite ranks_perm, length_seq. Qed.

Lemma rank_key r e : ranked entries ly r = Some e -> K r = sort_key e.1.
Proof.
  unfold ranked, K. cbn. destruct (order !! r) as [p|]; [|done]. by apply Hkey.
Qed.

Lemma rank_targets r : T r = (e ← ranked entries ly r; ns_targets e.2).
Proof. unfold T, ranked. cbn. by destruct (order !! r). Qed.

Lemma rank_unique i j ei ej :
  ranked entries ly i = Some ei -> ranked entries ly j = Some ej -> liter ei.1 = liter ej.1 -> i = j.
Proof.
  unfold ranked. cbn. intros Hi Hj Hl.
  destruct (order !! i) as [p|] eqn:Ep; [|done]. destruct (order !! j) as [q|] eqn:Eq; [|done]. cbn in *.
  assert (p = q) as <-.
  { eapply (NoDup_lookup _ p q (liter ei.1) Hnodup);
      rewrite list_lookup_fmap; [by rewrite Hi|by rewrite Hj; cbn; congruence]. }
  assert (Hndo : NoDup order) by (change order with (ly_order ly); rewrite ranks_perm; apply NoDup_seq).
  by eapply NoDup_lookup.
Qed.

Lemma rank_sorted i j : (i < j < length order)%nat -> octets_compare (K i) (K j) = Lt.
Proof.
  intros Hij. pose proof ranks_length as Hn.
  destruct (ranked_total entries ly i ranks_perm) as [ei Hi]; [lia|].
  destruct (ranked_total entries ly j ranks_perm) as [ej Hj]; [lia|].
  assert (Hs : StronglySorted (fun a b => octets_leb (key_of keys spans a) (key_of keys spans b) = true) order).
  { apply sort_by_sorted; [intros a b; apply octets_leb_total|intros a b c; apply octets_leb_trans]. }
  destruct (lookup_lt_is_Some_2 order i) as [p Hp]; [lia|].
  destruct (lookup_lt_is_Some_2 order j) as [q Hq]; [lia|].
  assert (Hle : octets_leb (K i) (K j) = true).
  { unfold K. rewrite Hp, Hq. eapply (sorted_lookup _ _ i j p q Hs); [lia|done|done]. }
  apply octets_leb_spec in Hle as [|Heq]; [done|].
  rewrite (rank_key _ _ Hi), (rank_key _ _ Hj) in Heq. apply sort_key_inj in Heq.
  assert (i = j) by (by eapply rank_unique). lia.
Qed.

Lemma rank_path a r : (r < length entries)%nat -> on_path K r a <-> entry_above entries ly a r.
Proof.
  intros Hr. unfold on_path, entry_above. pose proof ranks_perm as Hperm.
  destruct (ranked_total entries ly r Hperm Hr) as [er Her]. split.
  - intros [Ha Hp]. destruct (ranked_total entries ly a Hperm) as [ea Hea]; [lia|].
    exists ea, er. split_and!; [done|done|].
    rewrite (rank_key _ _ Hea), (rank_key _ _ Her) in Hp. by apply sort_key_prefix.
  - intros (ea & er' & Hea & Her' & Hu). simplify_eq. apply sort_key_prefix in Hu.
    rewrite <- (rank_key _ _ Hea), <- (rank_key _ _ Her) in Hu. split; [|done].
    destruct (decide (a <= r)%nat) as [|Hgt]; [done|]. exfalso.
    pose proof (ranked_lt entries ly a ea Hperm Hea). pose proof ranks_length.
    apply key_prefix_le in Hu. rewrite octets_compare_antisym, rank_sorted in Hu by lia. done.
Qed.

Lemma rank_delegates a : is_delegation T a <-> delegates entries ly a.
Proof.
  unfold is_delegation, delegates. rewrite rank_targets. destruct (ranked entries ly a) as [ea|]; cbn.
  - split; [intros [? [ts ?]]; eauto|intros [? (? & ts & ? & ?)]; simplify_eq; eauto].
  - split; [intros [_ [? ?]]; done|intros [_ (? & ? & ? & _)]; done].
Qed.

Lemma nearest_cut_is r c : (r < length entries)%nat -> nearest_cut K T r c -> cut_is entries ly r c.
Proof.
  intros Hr [[-> Hno]|(a & -> & Ha & Hd & Hmax)].
  - left. split; [done|]. intros a Ha Hd. apply (Hno a); [by apply rank_path|by apply rank_delegates].
  - right. exists a. split_and!; [done|by apply rank_path|by apply rank_delegates|].
    intros b Hb Hbd. apply Hmax; [by apply rank_path|by apply rank_delegates].
Qed.

End Ranking.

Lemma layout_ok entries ly :
  NoDup (map (fun e : Entry => liter e.1) entries) -> layout entries = Ok ly -> LayoutOk entries ly.
Proof.
  intros Hnd H. unfold layout in H. apply rbind_ok in H as ([keys spans] & Hw & H).
  apply write_keys_spec in Hw as [_ Hkey]. apply rbind_ok in H as (s & Hcut & H). injection H as <-.
  pose proof (ranks_length entries keys spans (cs_cut_of s) (cs_delegations s)) as Hn.
  pose proof (ranks_perm entries keys spans (cs_cut_of s) (cs_delegations s)) as Hperm.
  apply cut_pass_spec in Hcut as [_ Hcuts _ _ Htargets _ _];
    [|by apply (rank_sorted entries keys spans Hnd Hkey (cs_cut_of s) (cs_delegations s))].
  constructor; [done| | |].
  - intros i j ei ej Hij Hi Hj. pose proof (ranked_lt _ _ _ _ Hperm Hj).
    rewrite <- sort_key_compare, <- (rank_key _ _ _ Hkey _ _ _ _ Hi), <- (rank_key _ _ _ Hkey _ _ _ _ Hj).
    apply (rank_sorted _ _ _ Hnd Hkey (cs_cut_of s) (cs_delegations s)). lia.
  - intros r Hr. destruct (Hcuts r) as (c & Hc & Hnear); [lia|]. exists c. split; [done|].
    by apply (nearest_cut_is _ _ _ Hnd Hkey).
  - intros r Hr. rewrite <- rank_targets. apply Htargets. lia.
Qed.

(** The layout puts every entry once, in strictly increasing canonical order, and
    its one pass gives every rank the delegation nearest to it, at it or above it
    and below the apex, or none when there is none. *)
Theorem layout_orders_and_cuts entries ly :
  NoDup (map (fun e : Entry => liter e.1) entries) -> layout entries = Ok ly -> LayoutOk entries ly.
Proof. apply layout_ok. Qed.

End Layout.
