(* ===== verification/ArenaFacts.v ===== *)
(** * Placing the nodes in the arenas (src/src/zone.rs, [ZoneBuilder::finish])

    What the loop of [finish] leaves: at every rank, the node of the entry that
    sorts there, its runs readable through their spans, its flags, and its hash. *)

From S2P Require Import Prelude Names Rdata Hashing Zone Lookup Build BuildFacts LayoutFacts.
Local Open Scope vega_scope.

Section Arena.
Context {HN : HickoryNames} {HL : HickoryNamesLaws HN}.

Abbreviation Entry := (LowerName * ScratchNode)%type.

(** ** One run *)

(** An RRset of the arena holds a run of the scratch zone. *)
Definition stored (rds : list RData) (r : Rrset) (run : ScratchRrset) : Prop :=
  rr_type r = sr_type run /\ rr_ttl r = sr_ttl run /\ get_span rds (rr_rdata r) = Some (sr_rdata run).

Lemma stored_app rds more r run : stored rds r run -> stored (rds ++ more) r run.
Proof. intros (? & ? & ?). split_and!; try done. by apply get_span_app. Qed.

Definition is_cname (run : ScratchRrset) : bool := (sr_type run =? RT_CNAME)%N.

Definition with_cname (flags : NodeFlags) (runs : list ScratchRrset) : NodeFlags :=
  if existsb is_cname runs then flags_insert flags HAS_CNAME else flags.

Lemma with_cname_snoc f runs run :
  with_cname f (runs ++ [run]) =
  if is_cname run then flags_insert (with_cname f runs) HAS_CNAME else with_cname f runs.
Proof.
  unfold with_cname. rewrite existsb_app. cbn. rewrite orb_false_r.
  destruct (existsb is_cname runs), (is_cname run); cbn; try done.
  unfold flags_insert. by rewrite <- N.lor_assoc, N.lor_diag.
Qed.

Lemma push_runs_spec rrs rds f runs rrs' rds' f' :
  fold_res push_run (rrs, rds, f) runs = Ok (rrs', rds', f') ->
  exists added more, rrs' = rrs ++ added /\ rds' = rds ++ more /\
    Forall2 (stored rds') added runs /\ f' = with_cname f runs.
Proof.
  intros H.
  set (P := fun (pre : list ScratchRrset) (acc : list Rrset * list RData * NodeFlags) =>
    exists added more, acc.1.1 = rrs ++ added /\ acc.1.2 = rds ++ more /\
      Forall2 (stored acc.1.2) added pre /\ acc.2 = with_cname f pre).
  change (P runs (rrs', rds', f')). revert H. apply fold_res_prefix; unfold P; clear P.
  { exists [], []. rewrite !app_nil_r. by split_and!. }
  intros pre run post [[a b] c] s' _ (added & more & Ha & Hb & Hs & Hc) H. cbn [fst snd] in *. subst a b c.
  unfold push_run in H. apply rbind_ok in H as (s & [-> _]%arena_offset_ok & H).
  apply rbind_ok in H as (e & [-> _]%arena_offset_ok & H). injection H as <-. cbn [fst snd].
  eexists (added ++ [_]), (more ++ sr_rdata run). rewrite !(assoc_L (++)). split_and!; [done|done| |].
  - apply Forall2_app; [by eapply Forall2_impl; [exact Hs|intros; by apply stored_app]|].
    repeat constructor; cbn. apply get_span_new.
  - by rewrite with_cname_snoc.
Qed.

(** ** One node *)

Context (seed : N) (entries : list Entry) (ly : Layout).

Definition rank_cut (r : nat) : N := default NODE_NONE (ly_cut_of ly !! r).

(** What [apply_cut] makes of the entry at a rank: runs, flags, drops, notes. *)
Definition laid_out (r : nat) (e : Entry) : list ScratchRrset * NodeFlags * nat * list Diagnostic :=
  apply_cut (sort_by_key sr_type (sn_rrsets e.2)) e.1 (rank_cut r) (N.of_nat r) (ly_delegations ly).

Definition kept_runs (r : nat) (e : Entry) : list ScratchRrset := (laid_out r e).1.1.1.

Definition placed_flags (r : nat) (e : Entry) : NodeFlags :=
  let base := (laid_out r e).1.1.2 in
  with_cname (if sn_wildcard e.2 then flags_insert base WILDCARD else base) (kept_runs r e).

(** The node [nd] is what the entry [e] becomes at rank [r]. *)
Record Placed (rrs : list Rrset) (rds : list RData) (r : nat) (e : Entry) (nd : Node) : Prop := {
  pl_name : nd_name nd = sn_name e.2;
  pl_cut : nd_cut nd = rank_cut r;
  pl_flags : nd_flags nd = placed_flags r e;
  pl_runs : exists all, get_span rrs (nd_rrsets nd) = Some all /\ Forall2 (stored rds) all (kept_runs r e);
}.

Lemma placed_app rrs rds rrs' rds' r e nd :
  Placed rrs rds r e nd -> Placed (rrs ++ rrs') (rds ++ rds') r e nd.
Proof.
  intros [H1 H2 H3 (all & H4 & H5)]. constructor; try done. exists all.
  split; [by apply get_span_app|]. eapply Forall2_impl; [exact H5|]. intros; by apply stored_app.
Qed.

(** ** The loop *)

Record ArenaInv (k : nat) (s : Arena) : Prop := {
  ai_len : length (ar_nodes s) = k;
  ai_hlen : length (ar_hashes s) = k;
  ai_placed r e : (r < k)%nat -> ranked entries ly r = Some e ->
    exists nd, ar_nodes s !! r = Some nd /\ Placed (ar_rrsets s) (ar_rdata s) r e nd;
  ai_hashes r e : (r < k)%nat -> ranked entries ly r = Some e ->
    ar_hashes s !! r = Some (name_hash seed e.1);
  ai_slots p e : p ∉ take k (ly_order ly) -> entries !! p = Some e -> ar_slots s !! p = Some (Some e);
  ai_depth r e : (r < k)%nat -> ranked entries ly r = Some e ->
    (length (iter (sn_name e.2)) <= ar_max_depth s)%nat;
  ai_limit : (ar_max_depth s <= MAX_LABELS)%nat;
  ai_rank r : (r < k)%nat -> (N.of_nat r <= u32_MAX)%N;
}.

Lemma arena_inv_init : ArenaInv 0 (mkArena (map Some entries) [] [] [] [] 0 0 []).
Proof.
  constructor; cbn; try done; try lia. intros p e _ He. by rewrite list_lookup_fmap, He.
Qed.

Lemma arena_inv_step k pos s s' :
  NoDup (ly_order ly) -> (forall p, p ∈ ly_order ly -> (p < length entries)%nat) ->
  ly_order ly !! k = Some pos -> ArenaInv k s ->
  place_node seed (ly_cut_of ly) (ly_delegations ly) s (k, pos) = Ok s' -> ArenaInv (S k) s'.
Proof.
  intros Hnd Hin Hpos [H1 H2 H3 H4 H5 H6 H7 H8] H.
  destruct (lookup_lt_is_Some_2 entries pos) as [[lower scratch] He].
  { apply Hin. by eapply list_elem_of_lookup_2. }
  assert (Hrk : ranked entries ly k = Some (lower, scratch)) by (unfold ranked; by rewrite Hpos).
  assert (Hfresh : pos ∉ take k (ly_order ly)).
  { intros Hx. apply list_elem_of_lookup in Hx as [i Hi]. apply lookup_take_Some in Hi as [Hi Hlt].
    assert (i = k) by (by eapply NoDup_lookup). lia. }
  unfold place_node in H. rewrite (H5 _ _ Hfresh He) in H.
  apply rbind_ok in H as (here & [-> Hk]%arena_offset_ok & H).
  destruct (apply_cut _ _ _ _ _) as [[[runs flags] dropped] notes] eqn:Elo in H.
  apply rbind_ok in H as (rstart & [-> _]%arena_offset_ok & H).
  apply rbind_ok in H as ([[rrs rds] flags'] & Hpush & H).
  apply rbind_ok in H as (rend & [-> _]%arena_offset_ok & H). injection H as <-.
  apply push_runs_spec in Hpush as (added & more & -> & -> & Hst & ->).
  assert (Hold : forall r, (r < S k)%nat -> r <> k -> (r < k)%nat) by lia.
  constructor; cbn [ar_nodes ar_hashes ar_rrsets ar_rdata ar_slots ar_max_depth].
  - len.
  - len.
  - intros r e Hr Hre. destruct (decide (r = k)) as [->|Hne].
    + assert (e = (lower, scratch)) as -> by congruence. eexists. split.
      { rewrite lookup_app_r by lia. by rewrite H1, Nat.sub_diag. }
      assert (Hkept : kept_runs k (lower, scratch) = runs) by (unfold kept_runs, laid_out, rank_cut; cbn; by rewrite Elo).
      constructor; cbn; try done.
      * unfold placed_flags. rewrite Hkept. unfold laid_out, rank_cut. cbn. by rewrite Elo.
      * exists added. rewrite Hkept. split; [apply get_span_new|done].
    + destruct (H3 r e) as (nd & Hnode & Hpl); [auto|done|]. exists nd.
      split; [by apply lookup_app_l_Some|by apply placed_app].
  - intros r e Hr Hre. destruct (decide (r = k)) as [->|Hne].
    + assert (e = (lower, scratch)) as -> by congruence. rewrite lookup_app_r by lia. by rewrite H2, Nat.sub_diag.
    + apply lookup_app_l_Some. auto.
  - intros p e Hp Hpe. erewrite take_S_r in Hp by done. rewrite not_elem_of_app in Hp. destruct Hp as [Hp Hp'].
    rewrite list_lookup_insert_ne by (intros ->; apply Hp'; by left). by apply H5.
  - intros r e Hr Hre. destruct (decide (r = k)) as [->|Hne]; [assert (e = (lower, scratch)) as -> by congruence; cbn; lia|].
    etrans; [apply (H6 r); [auto|done]|lia].
  - pose proof (name_label_limit (sn_name scratch)). lia.
  - intros r Hr. destruct (decide (r = k)) as [->|]; [done|auto].
Qed.

Lemma arena_spec s :
  NoDup (ly_order ly) -> (forall p, p ∈ ly_order ly -> (p < length entries)%nat) ->
  fold_res (place_node seed (ly_cut_of ly) (ly_delegations ly))
    (mkArena (map Some entries) [] [] [] [] 0 0 []) (imap pair (ly_order ly)) = Ok s ->
  ArenaInv (length (ly_order ly)) s.
Proof.
  intros Hnd Hin H.
  set (P := fun (pre : list (nat * nat)) (s : Arena) => ArenaInv (length pre) s).
  assert (HP : P (imap pair (ly_order ly)) s).
  { revert H. apply fold_res_prefix; unfold P; clear P; [apply arena_inv_init|].
    intros pre [r p] post s1 s2 Hl HI Hs.
    assert (Hk : imap pair (ly_order ly) !! length pre = Some (r, p)) by (rewrite Hl; by apply list_lookup_middle).
    rewrite list_lookup_imap in Hk. destruct (ly_order ly !! length pre) as [p'|] eqn:Ep; [|done].
    cbn in Hk. simplify_eq. rewrite length_app. replace (length pre + length _)%nat with (S (length pre)) by (cbn; lia).
    by eapply arena_inv_step. }
  unfold P in HP. by rewrite length_imap in HP.
Qed.

End Arena.
