(* ===== verification/Finish.v ===== *)
(** * A finished zone is well formed (src/src/zone.rs, [ZoneBuilder::finish])

    [finish_wf]: whatever [finish] accepts satisfies [ZoneWf], the hypothesis of the
    refinement in [Lookup]; and what each node of it holds, in terms of the scratch
    zone it was built from. *)

From S2P Require Import Prelude Names Rdata Hashing Zone Lookup Build Checked BuildFacts LayoutFacts ArenaFacts.
Local Open Scope vega_scope.

(** ** Flags *)

Lemma with_cname_contains {HN : HickoryNames} (f : NodeFlags) (runs : list ScratchRrset) :
  f ∈ ([0; 2; 4; 6; 16; 20]%N : list N) ->
  let g := with_cname f runs in
  flags_contains g HAS_CNAME = existsb is_cname runs /\
  flags_contains g WILDCARD = flags_contains f WILDCARD /\
  flags_contains g DELEGATION = flags_contains f DELEGATION /\
  flags_contains g GLUE = flags_contains f GLUE.
Proof.
  unfold with_cname. destruct (existsb is_cname runs); intros Hf;
    repeat (apply elem_of_cons in Hf as [->|Hf]; [by vm_compute|]); by apply elem_of_nil in Hf.
Qed.

Section Finish.
Context {HN : HickoryNames} {HL : HickoryNamesLaws HN} {HR : HickoryRdata HN} {HO : HashOrder}.
Context {HT : HashTableApi} {TL : HashTableLaws HT}.

Abbreviation Entry := (LowerName * ScratchNode)%type.

Lemma apply_cut_flags runs owner cut here dels :
  (apply_cut runs owner cut here dels).1.1.2 =
  if (cut =? NODE_NONE)%N then FLAGS_NONE else if (cut =? here)%N then DELEGATION else GLUE.
Proof. unfold apply_cut. by destruct (cut =? NODE_NONE)%N. Qed.

(** The four flags of a placed node. *)
Lemma placed_flags_contains ly r e :
  flags_contains (placed_flags ly r e) HAS_CNAME = existsb is_cname (kept_runs ly r e) /\
  flags_contains (placed_flags ly r e) WILDCARD = sn_wildcard e.2 /\
  flags_contains (placed_flags ly r e) DELEGATION =
    (negb (is_none (rank_cut ly r)) && (rank_cut ly r =? N.of_nat r)%N) /\
  flags_contains (placed_flags ly r e) GLUE =
    (negb (is_none (rank_cut ly r)) && negb (rank_cut ly r =? N.of_nat r)%N).
Proof.
  unfold placed_flags. unfold laid_out. rewrite apply_cut_flags. unfold is_none.
  set (f := if sn_wildcard e.2 then _ else _).
  destruct (with_cname_contains f (kept_runs ly r e)) as (-> & -> & -> & ->).
  - unfold f. destruct (sn_wildcard e.2), (rank_cut ly r =? NODE_NONE)%N, (rank_cut ly r =? N.of_nat r)%N;
      vm_compute; repeat first [apply list_elem_of_here | apply list_elem_of_further].
  - unfold f. by destruct (sn_wildcard e.2), (rank_cut ly r =? NODE_NONE)%N, (rank_cut ly r =? N.of_nat r)%N.
Qed.

Lemma apply_cut_subset runs owner cut here dels run :
  run ∈ (apply_cut runs owner cut here dels).1.1.1 -> run ∈ runs.
Proof.
  unfold apply_cut. destruct (cut =? NODE_NONE)%N; [done|]. cbn.
  intros H%list_elem_of_In. apply List.filter_In in H as [H _]. by apply list_elem_of_In.
Qed.

Lemma apply_cut_sizes runs owner cut here dels :
  let kept := (apply_cut runs owner cut here dels).1.1.1 in
  (length kept <= length runs)%nat /\ (sum_rdata kept <= sum_rdata runs)%nat.
Proof.
  unfold apply_cut. destruct (cut =? NODE_NONE)%N; [done|]. cbn.
  generalize (keeps_run (cut =? here)%N (bool_decide (owner ∈ default [] (dels !! cut)))). intros keep.
  unfold sum_rdata. induction runs as [|r runs IH]; cbn; [lia|]. destruct (keep r); cbn; lia.
Qed.

Lemma apply_cut_sorted {B} (R : B -> B -> Prop) (f : ScratchRrset -> B) runs owner cut here dels :
  StronglySorted (fun a b => R (f a) (f b)) runs ->
  StronglySorted (fun a b => R (f a) (f b)) (apply_cut runs owner cut here dels).1.1.1.
Proof.
  unfold apply_cut. destruct (cut =? NODE_NONE)%N; [done|]. cbn.
  generalize (keeps_run (cut =? here)%N (bool_decide (owner ∈ default [] (dels !! cut)))). intros keep.
  induction 1 as [|x l Hs IH Hf]; [constructor|]. cbn. destruct (keep x); [|done]. constructor; [done|].
  apply Forall_forall. intros y Hy. rewrite list_elem_of_In in Hy. apply List.filter_In in Hy as [Hy _].
  rewrite Forall_forall in Hf. apply Hf. by apply list_elem_of_In.
Qed.

(** ** The index *)

Lemma build_index_entries hashes t :
  build_index hashes = Ok t -> ht_entries t ≡ₚ imap (fun i h => (h, N.of_nat i)) hashes.
Proof.
  intros H. unfold build_index in H.
  set (P := fun (pre : list (nat * N)) (t : HashTable) =>
    ht_entries t ≡ₚ map (fun p => (p.2, N.of_nat p.1)) pre).
  assert (HP : P (imap pair hashes) t).
  { revert H. apply fold_res_prefix; unfold P; clear P; [by rewrite ht_entries_new|].
    intros pre [i h] post t1 t2 _ HI Hs. apply rbind_ok in Hs as (k & [-> _]%arena_offset_ok & Hs).
    simplify_eq. rewrite ht_entries_insert, HI, map_app. cbn. by rewrite Permutation_app_comm. }
  unfold P in HP. rewrite HP. clear.
  change (map (fun p : nat * N => (p.2, N.of_nat p.1))) with (fmap (M:=list) (fun p : nat * N => (p.2, N.of_nat p.1))).
  rewrite fmap_imap. done.
Qed.

(** ** Taking [finish] apart *)

Definition with_apex (b : ZoneBuilder) : ZoneBuilder :=
  with_nodes b (<[zb_lower_origin b :=
    default (mkScratchNode (zb_origin b) false []) (zb_nodes b !! zb_lower_origin b)]> (zb_nodes b)).

(** The builder [finish] lays out. *)
Definition closed_builder (b : ZoneBuilder) : ZoneBuilder := materialise_ancestors (with_apex b).

Definition entries_of (b : ZoneBuilder) : list Entry :=
  hash_order (map_to_list (zb_nodes (closed_builder b))).

(** What the run of [finish] went through. *)
Record Finished (b : ZoneBuilder) (soa_in : option DnsRecord) (seed : N) (z : Zone)
    (ly : Layout) (ar : Arena) : Prop := {
  fi_checked : check_findings (closed_builder b) (match soa_in with Some _ => true | None => false end) = [];
  fi_soa : Some (soa z) = match soa_in with Some r => Some r | None => apex_soa_record (closed_builder b) end;
  fi_layout : layout (entries_of b) = Ok ly;
  fi_arena : fold_res (place_node seed (ly_cut_of ly) (ly_delegations ly))
    (mkArena (map Some (entries_of b)) [] [] [] [] 0 0 []) (imap pair (ly_order ly)) = Ok ar;
  fi_index : build_index (ar_hashes ar) = Ok (index z);
  fi_origin : lower_origin z = zb_lower_origin b;
  fi_ttl : default_ttl z = zb_default_ttl b;
  fi_nodes : nodes z = ar_nodes ar;
  fi_rrsets : rrsets z = ar_rrsets ar;
  fi_rdata : rdata z = ar_rdata ar;
  fi_seed : hash_seed z = seed;
  fi_origin_depth : origin_depth z = depth_byte (label_count (zb_lower_origin b));
  fi_max_depth : max_depth z = depth_byte (ar_max_depth ar);
  fi_count : record_count z = (zb_record_count b - N.of_nat (ar_dropped ar))%N;
  fi_referrals : (referrals z, diagnostics z) =
    build_referrals (@mkZone HN HT (lower_origin z) (default_ttl z) (soa z) (nodes z) (rrsets z) (rdata z)
      (index z) (hash_seed z) (origin_depth z) (max_depth z) ∅ [] (record_count z)) (ar_diagnostics ar);
}.

Lemma finish_inv b soa_in seed z :
  finish b soa_in seed = Ok z -> exists ly ar, Finished b soa_in seed z ly ar.
Proof.
  intros H. unfold finish in H. fold (with_apex b) in H. fold (closed_builder b) in H.
  apply rbind_ok in H as (u & Hc & H). apply rbind_ok in H as (rec & Hsoa & H).
  apply rbind_ok in H as (ly & Hly & H). apply rbind_ok in H as (ar & Har & H).
  apply rbind_ok in H as (idx & Hidx & H). apply ok_or_ok in Hsoa.
  destruct (build_referrals _ _) as [refs diags] eqn:Er. injection H as <-.
  exists ly, ar. constructor; cbn; try done.
  unfold check_invariants in Hc. by destruct (check_findings _ _).
Qed.

Lemma closed_builder_ok b :
  BuilderOk b -> BuilderOk (closed_builder b) /\ zb_lower_origin (closed_builder b) = zb_lower_origin b /\
    zb_origin (closed_builder b) = zb_origin b /\
    extends (liter (zb_lower_origin b)) (zb_nodes (with_apex b)) (zb_nodes (closed_builder b)) /\
    closed_but (liter (zb_lower_origin b)) (zb_nodes (closed_builder b)) (fun _ => False).
Proof.
  intros Hb. assert (Ha : BuilderOk (with_apex b)).
  { destruct Hb as [H1 H2 H3 H4] eqn:E. constructor; cbn; try done. apply map_Forall_insert_2; [|done].
    destruct (zb_nodes b !! zb_lower_origin b) as [sn|] eqn:Es; cbn; [by apply H4|].
    constructor; cbn; try done.
    symmetry. apply bool_decide_eq_false. apply head_star_lower. by rewrite <- H1. }
  destruct (materialise_spec (with_apex b) Ha) as (H1 & H2 & H3 & _ & _ & H4 & H5). by split_and!.
Qed.

Lemma entries_perm b : entries_of b ≡ₚ map_to_list (zb_nodes (closed_builder b)).
Proof. apply hash_order_perm. Qed.

Lemma entries_elem b k sn :
  (k, sn) ∈ entries_of b <-> zb_nodes (closed_builder b) !! k = Some sn.
Proof. rewrite entries_perm. apply elem_of_map_to_list. Qed.

Lemma entries_nodup b : BuilderOk b -> NoDup (map (fun e : Entry => liter e.1) (entries_of b)).
Proof.
  intros Hb. destruct (closed_builder_ok b Hb) as (Hc & _). pose proof (bo_nodes _ Hc) as Hm.
  assert (Hn : NoDup (entries_of b)) by (rewrite entries_perm; apply NoDup_map_to_list).
  apply NoDup_fmap_2_strong; [|done]. intros [k1 s1] [k2 s2] H1 H2 Hl. cbn in Hl.
  apply entries_elem in H1, H2. pose proof (key_ext _ _ _ _ _ _ Hm H1 H2 Hl). congruence.
Qed.

(** ** What each rank holds *)

Section Ranks.
Context (b : ZoneBuilder) (Hb : BuilderOk b) (soa_in : option DnsRecord) (seed : N) (z : Zone).
Context (ly : Layout) (ar : Arena) (Hf : Finished b soa_in seed z ly ar).

Abbreviation entries := (entries_of b).
Abbreviation m := (zb_nodes (closed_builder b)).
Abbreviation origin := (liter (zb_lower_origin b)).

Lemma fin_layout : LayoutOk entries ly.
Proof. apply layout_ok; [by apply entries_nodup|apply (fi_layout _ _ _ _ _ _ Hf)]. Qed.

Lemma order_bound p : p ∈ ly_order ly -> (p < length entries)%nat.
Proof. rewrite (lo_perm _ _ fin_layout), elem_of_seq. lia. Qed.

Lemma order_nodup : NoDup (ly_order ly).
Proof. rewrite (lo_perm _ _ fin_layout). apply NoDup_seq. Qed.

Lemma order_length : length (ly_order ly) = length entries.
Proof. by rewrite (lo_perm _ _ fin_layout), length_seq. Qed.

Lemma fin_arena : ArenaInv seed entries ly (length entries) ar.
Proof.
  rewrite <- order_length. apply arena_spec; [apply order_nodup|apply order_bound|].
  apply (fi_arena _ _ _ _ _ _ Hf).
Qed.

Lemma nodes_length : length (nodes z) = length entries.
Proof. rewrite (fi_nodes _ _ _ _ _ _ Hf). apply (ai_len _ _ _ _ _ fin_arena). Qed.

Lemma node_ok k sn : m !! k = Some sn -> NodeOk origin k sn.
Proof.
  destruct (closed_builder_ok b Hb) as (Hc & Hl & _). rewrite <- Hl. apply (bo_nodes _ Hc).
Qed.

Lemma ranked_elem r k sn : ranked entries ly r = Some (k, sn) -> m !! k = Some sn.
Proof.
  unfold ranked. destruct (ly_order ly !! r) as [p|]; [|done]. intros H.
  rewrite <- entries_elem. by eapply list_elem_of_lookup_2.
Qed.

Lemma elem_ranked k sn : m !! k = Some sn -> exists r, ranked entries ly r = Some (k, sn).
Proof.
  intros H. apply entries_elem, list_elem_of_lookup in H as [p Hp].
  assert (Hin : p ∈ ly_order ly).
  { rewrite (lo_perm _ _ fin_layout). apply elem_of_seq. apply lookup_lt_Some in Hp. lia. }
  apply list_elem_of_lookup in Hin as [r Hr]. exists r. unfold ranked. by rewrite Hr.
Qed.

(** The node at a rank, with the entry it comes from. *)
Lemma node_at_rank r nd :
  nodes z !! r = Some nd ->
  exists k sn, ranked entries ly r = Some (k, sn) /\ m !! k = Some sn /\
    Placed ly (rrsets z) (rdata z) r (k, sn) nd.
Proof.
  intros Hn. assert (Hr : (r < length entries)%nat) by (rewrite <- nodes_length; by eapply lookup_lt_Some).
  destruct (ranked_total entries ly r (lo_perm _ _ fin_layout) Hr) as [[k sn] Hrk].
  exists k, sn. split; [done|]. split; [by eapply ranked_elem|].
  destruct (ai_placed _ _ _ _ _ fin_arena r _ Hr Hrk) as (nd' & Hn' & Hp).
  rewrite (fi_nodes _ _ _ _ _ _ Hf) in Hn. rewrite (fi_rrsets _ _ _ _ _ _ Hf), (fi_rdata _ _ _ _ _ _ Hf).
  congruence.
Qed.

Lemma rank_node r k sn :
  ranked entries ly r = Some (k, sn) ->
  exists nd, nodes z !! r = Some nd /\ Placed ly (rrsets z) (rdata z) r (k, sn) nd.
Proof.
  intros Hrk. pose proof (ranked_lt _ _ _ _ (lo_perm _ _ fin_layout) Hrk) as Hr.
  destruct (ai_placed _ _ _ _ _ fin_arena r _ Hr Hrk) as (nd & Hn & Hp). exists nd.
  by rewrite (fi_nodes _ _ _ _ _ _ Hf), (fi_rrsets _ _ _ _ _ _ Hf), (fi_rdata _ _ _ _ _ _ Hf).
Qed.

Lemma placed_labels rrs rds r k sn nd :
  m !! k = Some sn -> Placed ly rrs rds r (k, sn) nd -> node_labels nd = liter k.
Proof.
  intros Hk Hp. unfold node_labels. rewrite (pl_name _ _ _ _ _ _ Hp). cbn.
  symmetry. apply (key_labels origin). by apply node_ok.
Qed.

Lemma placed_lower rrs rds r k sn nd :
  m !! k = Some sn -> Placed ly rrs rds r (k, sn) nd -> lower_from (nd_name nd) = k.
Proof.
  intros Hk Hp. rewrite (pl_name _ _ _ _ _ _ Hp). cbn. apply (nk_key _ _ _ (node_ok _ _ Hk)).
Qed.

(** Two ranks with the same labels are one. *)
Lemma ranked_inj i j ei ej :
  ranked entries ly i = Some ei -> ranked entries ly j = Some ej -> liter ei.1 = liter ej.1 -> i = j.
Proof.
  intros Hi Hj Hl. pose proof (lo_sorted _ _ fin_layout) as Hs.
  assert (Hne : forall a b : LowerName, liter a = liter b -> canonical_compare a b <> Lt).
  { intros a c H. rewrite <- sort_key_compare, !sort_key_enc, H, octets_compare_refl. done. }
  destruct (lt_eq_lt_dec i j) as [[Hlt|]|Hlt]; [|done|].
  - destruct (Hne ei.1 ej.1 Hl). by apply (Hs i j).
  - destruct (Hne ej.1 ei.1); [done|]. by apply (Hs j i).
Qed.

Lemma apex_present : exists sn, m !! zb_lower_origin b = Some sn.
Proof.
  destruct (closed_builder_ok b Hb) as (_ & _ & _ & [Hs _] & _).
  eexists. eapply lookup_weaken; [|exact Hs]. apply lookup_insert_eq.
Qed.

(** The apex is laid out first. *)
Lemma apex_rank : exists sn, ranked entries ly 0 = Some (zb_lower_origin b, sn) /\ m !! zb_lower_origin b = Some sn.
Proof.
  destruct apex_present as [sn Hsn]. exists sn. split; [|done].
  destruct (elem_ranked _ _ Hsn) as [r Hr]. destruct (decide (r = 0%nat)) as [->|Hne]; [done|].
  pose proof (ranked_lt _ _ _ _ (lo_perm _ _ fin_layout) Hr) as Hlt.
  destruct (ranked_total entries ly 0 (lo_perm _ _ fin_layout)) as [[k0 s0] H0]; [lia|].
  pose proof (lo_sorted _ _ fin_layout 0 r _ _ ltac:(lia) H0 Hr) as Hs. cbn in Hs.
  pose proof (nk_under _ _ _ (node_ok _ _ (ranked_elem _ _ _ H0))) as Hu.
  apply sort_key_prefix, key_prefix_le in Hu.
  by rewrite octets_compare_antisym, sort_key_compare, Hs in Hu.
Qed.

(** Every node but the apex has its parent in the map. *)
Lemma parent_present k sn :
  m !! k = Some sn -> liter k <> origin -> exists p sp, m !! p = Some sp /\ liter p = tail (liter k).
Proof.
  intros Hk Hne. destruct (closed_builder_ok b Hb) as (_ & _ & _ & _ & Hc).
  pose proof (nk_under _ _ _ (node_ok _ _ Hk)) as Hu. pose proof (labels_under_length _ _ Hu) as Hl.
  destruct (decide (length (liter k) <= length origin + 1)%nat) as [Hle|Hgt].
  - destruct apex_present as [sa Ha]. exists (zb_lower_origin b), sa. split; [done|].
    assert (Hlt : (length origin < length (liter k))%nat).
    { destruct (decide (length (liter k) = length origin)) as [He|]; [|lia].
      by destruct Hne; apply labels_under_eq. }
    symmetry. apply labels_under_eq; [by apply labels_under_tail|]. rewrite length_tail. lia.
  - destruct (Hc k sn Hk) as [(p & [sp Hp] & Hl')|[]]; [lia|]. by exists p, sp.
Qed.

Lemma stored_runs all runs :
  Forall2 (stored (rdata z)) all runs -> map rr_type all = map sr_type runs.
Proof. induction 1 as [|r run all runs (H & _ & _) _ IH]; [done|]. cbn. by rewrite H, IH. Qed.

Lemma kept_sorted r e : StronglySorted (fun a c => (sr_type a <= sr_type c)%N) (kept_runs ly r e).
Proof.
  unfold kept_runs, laid_out. apply (apply_cut_sorted N.le sr_type). apply sort_by_key_sorted.
Qed.

Lemma kept_subset r e run : run ∈ kept_runs ly r e -> run ∈ sn_rrsets e.2.
Proof. unfold kept_runs, laid_out. intros H%apply_cut_subset. by rewrite sort_by_key_perm in H. Qed.

Lemma kept_length r e : (length (kept_runs ly r e) <= length (sn_rrsets e.2))%nat.
Proof.
  unfold kept_runs, laid_out. rewrite <- (Permutation_length (sort_by_key_perm sr_type (sn_rrsets e.2))). apply apply_cut_sizes.
Qed.

Lemma placed_runs_stored rrs rds r e nd all :
  Placed ly rrs rds r e nd -> get_span rrs (nd_rrsets nd) = Some all ->
  Forall2 (stored rds) all (kept_runs ly r e).
Proof. intros [_ _ _ (all' & Hg & Hst)] Hg'. congruence. Qed.

Lemma stored_sorted rds all runs :
  Forall2 (stored rds) all runs ->
  StronglySorted (fun a c => (sr_type a <= sr_type c)%N) runs -> key_sorted rr_type all.
Proof.
  induction 1 as [|r run all runs (Hr & _ & _) Hst IH]; intros Hs; [constructor|].
  apply StronglySorted_inv in Hs as [Hs Hall]. constructor; [by apply IH|].
  clear IH Hs. induction Hst as [|r' run' all runs (Hr' & _ & _) _ IH]; constructor.
  - rewrite Hr, Hr'. by inversion Hall.
  - apply IH. by inversion Hall.
Qed.

Lemma stored_nonempty rds all runs :
  Forall2 (stored rds) all runs -> Forall (fun r => sr_rdata r <> []) runs ->
  Forall (fun r => exists v vs, get_span rds (rr_rdata r) = Some (v :: vs)) all.
Proof.
  induction 1 as [|r run all runs (_ & _ & Hg) _ IH]; intros Hne; constructor;
    inversion Hne as [|x l Hx Hl]; subst; [|by apply IH].
  destruct (sr_rdata run) as [|v vs]; [done|]. by exists v, vs.
Qed.

(** A type's values, read through the arena, are the scratch runs' values. *)
Lemma stored_values rds all runs t :
  Forall2 (stored rds) all runs ->
  flat_map (fun r => map (pair (rr_ttl r)) (default [] (get_span rds (rr_rdata r))))
    (filter (fun r => rr_type r = t) all) =
  flat_map (fun run => map (pair (sr_ttl run)) (sr_rdata run)) (of_type t runs).
Proof.
  unfold of_type. induction 1 as [|r run all runs (H1 & H2 & H3) _ IH]; [done|].
  rewrite !filter_cons, H1. destruct (decide (sr_type run = t)); [|done]. cbn. by rewrite H2, H3, IH.
Qed.

Lemma placed_cname rrs rds r e nd all :
  Placed ly rrs rds r e nd -> get_span rrs (nd_rrsets nd) = Some all ->
  filter (fun x => rr_type x = RT_CNAME) all <> [] ->
  flags_contains (nd_flags nd) HAS_CNAME = true.
Proof.
  intros Hp Hg Hne. rewrite (pl_flags _ _ _ _ _ _ Hp).
  destruct (placed_flags_contains ly r e) as (-> & _).
  pose proof (placed_runs_stored _ _ _ _ _ _ Hp Hg) as Hst. clear Hp Hg.
  induction Hst as [|x run all runs (H1 & _ & _) _ IH]; [done|]. rewrite filter_cons in Hne. cbn.
  unfold is_cname at 1. destruct (decide (rr_type x = RT_CNAME)) as [Hx|Hx].
  - apply orb_true_iff. left. apply N.eqb_eq. congruence.
  - apply orb_true_iff. right. by apply IH.
Qed.

Lemma stored_in rds all runs r :
  Forall2 (stored rds) all runs -> r ∈ all -> exists run, run ∈ runs /\ rr_type r = sr_type run.
Proof.
  intros Hst [i Hi]%list_elem_of_lookup. destruct (Forall2_lookup_l _ _ _ _ _ Hst Hi) as (run & Hr & Ht & _).
  exists run. split; [by eapply list_elem_of_lookup_2|done].
Qed.

(** A CNAME is alone at its owner: the rule, as the arena has it. *)
Lemma placed_cname_alone rrs rds r k sn nd all x :
  m !! k = Some sn -> Placed ly rrs rds r (k, sn) nd -> get_span rrs (nd_rrsets nd) = Some all ->
  x ∈ all -> rr_type x = RT_CNAME -> all = [x].
Proof.
  intros Hk Hp Hg Hx Ht. pose proof (placed_runs_stored _ _ _ _ _ _ Hp Hg) as Hst.
  destruct (stored_in _ _ _ _ Hst Hx) as (run & Hrun%kept_subset & Hrt). cbn in Hrun.
  pose proof (proj1 (check_findings_nil _ _) (fi_checked _ _ _ _ _ _ Hf)) as Hsv.
  assert (Hone : (length (sn_rrsets sn) <= 1)%nat).
  { apply (sn_cname_alone _ _ _ (sv_nodes _ _ Hsv k sn Hk)). pose proof (nk_runs _ _ _ (node_ok _ _ Hk)) as Hne.
    rewrite Forall_forall in Hne. specialize (Hne run Hrun).
    assert (Hin : run ∈ of_type RT_CNAME (sn_rrsets sn)) by (apply list_elem_of_filter; split; [congruence|done]).
    unfold sum_rdata. apply list_elem_of_split in Hin as (l1 & l2 & ->). rewrite sum_list_with_app. cbn.
    destruct (sr_rdata run); [done|]. cbn. lia. }
  pose proof (kept_length r (k, sn)) as Hlen. cbn in Hlen. rewrite <- (Forall2_length _ _ _ Hst) in Hlen.
  destruct all as [|y [|? all]]; [by apply elem_of_nil in Hx| |cbn in Hlen; lia]. by apply list_elem_of_singleton in Hx as ->.
Qed.

Lemma apex_cut : rank_cut ly 0 = NODE_NONE.
Proof.
  destruct apex_rank as (sn & H0 & Hsn).
  pose proof (ranked_lt _ _ _ _ (lo_perm _ _ fin_layout) H0) as Hlt.
  destruct (lo_cut _ _ fin_layout 0 Hlt) as (c & Hc & Hcut). unfold rank_cut. rewrite Hc.
  destruct Hcut as [[-> _]|(a & _ & (ea & e0 & Ha & He0 & Hu) & [Hpos _] & _)]; [done|].
  rewrite H0 in He0. injection He0 as <-. cbn in Hu. destruct ea as [ka sa].
  pose proof (nk_under _ _ _ (node_ok _ _ (ranked_elem _ _ _ Ha))) as Hu'. cbn in Hu.
  assert (liter ka = origin) as He.
  { apply labels_under_eq; [done|]. apply labels_under_length in Hu, Hu'. lia. }
  pose proof (ranked_inj _ _ _ _ Ha H0 He). lia.
Qed.

(** Every node of the finished zone was placed at some rank. *)
Lemma node_placed nd :
  nd ∈ nodes z -> exists r k sn, ranked entries ly r = Some (k, sn) /\ m !! k = Some sn /\
    Placed ly (rrsets z) (rdata z) r (k, sn) nd.
Proof.
  intros [r Hr]%list_elem_of_lookup. destruct (node_at_rank r nd Hr) as (k & sn & ?). by exists r, k, sn.
Qed.

Lemma finished_unique : NoDup (map node_labels (nodes z)).
Proof.
  apply NoDup_alt. intros i j ls Hi Hj. rewrite list_lookup_fmap in Hi, Hj.
  destruct (nodes z !! i) as [ni|] eqn:Ei; [|done]. destruct (nodes z !! j) as [nj|] eqn:Ej; [|done].
  destruct (node_at_rank i ni Ei) as (ki & si & Hri & Hmi & Hpi).
  destruct (node_at_rank j nj Ej) as (kj & sj & Hrj & Hmj & Hpj).
  injection Hi as Hi. injection Hj as Hj. apply (ranked_inj _ _ _ _ Hri Hrj). cbn.
  rewrite <- (placed_labels _ _ _ _ _ _ Hmi Hpi), <- (placed_labels _ _ _ _ _ _ Hmj Hpj). congruence.
Qed.

Lemma finished_indexed i nd :
  nodes z !! i = Some nd -> (labels_hash (hash_seed z) (node_labels nd), N.of_nat i) ∈ ht_entries (index z).
Proof.
  intros Hn. destruct (node_at_rank i nd Hn) as (k & sn & Hrk & Hk & Hp).
  rewrite (build_index_entries _ _ (fi_index _ _ _ _ _ _ Hf)). apply list_elem_of_lookup. exists i.
  pose proof (ranked_lt _ _ _ _ (lo_perm _ _ fin_layout) Hrk) as Hlt.
  rewrite list_lookup_imap, (ai_hashes _ _ _ _ _ fin_arena i _ Hlt Hrk). cbn. unfold name_hash.
  by rewrite (placed_labels _ _ _ _ _ _ Hk Hp), (fi_seed _ _ _ _ _ _ Hf).
Qed.

Lemma finished_depth nd : nd ∈ nodes z -> (length (node_labels nd) <= N.to_nat (max_depth z))%nat.
Proof.
  intros Hnd. destruct (node_placed nd Hnd) as (r & k & sn & Hrk & Hk & Hp).
  rewrite (fi_max_depth _ _ _ _ _ _ Hf). unfold depth_byte. rewrite Nat2N.id.
  pose proof (ranked_lt _ _ _ _ (lo_perm _ _ fin_layout) Hrk) as Hlt.
  pose proof (ai_depth _ _ _ _ _ fin_arena r _ Hlt Hrk) as Hd. pose proof (ai_limit _ _ _ _ _ fin_arena) as Hl.
  unfold node_labels. rewrite (pl_name _ _ _ _ _ _ Hp), length_map. clear -Hd Hl. lia.
Qed.

Lemma finished_wf : ZoneWf z.
Proof.
  constructor.
  - rewrite (fi_origin _ _ _ _ _ _ Hf). apply Hb.
  - destruct apex_rank as (sn & H0 & Hsn). destruct (rank_node _ _ _ H0) as (nd & Hn & Hp). exists nd.
    split_and!; [by unfold node_get; rewrite getN_lookup| |].
    + rewrite (fi_origin _ _ _ _ _ _ Hf). by eapply placed_labels.
    + rewrite (pl_cut _ _ _ _ _ _ Hp). apply apex_cut.
  - apply finished_unique.
  - intros nd Hnd. destruct (node_placed nd Hnd) as (r & k & sn & _ & Hk & Hp).
    rewrite (placed_labels _ _ _ _ _ _ Hk Hp), (fi_origin _ _ _ _ _ _ Hf). by apply (nk_under _ _ _ (node_ok _ _ Hk)).
  - intros nd Hnd Hne. destruct (node_placed nd Hnd) as (r & k & sn & _ & Hk & Hp).
    rewrite (placed_labels _ _ _ _ _ _ Hk Hp), (fi_origin _ _ _ _ _ _ Hf) in *.
    destruct (parent_present k sn Hk Hne) as (p & sp & Hp' & Hl).
    destruct (elem_ranked _ _ Hp') as [rp Hrp]. destruct (rank_node _ _ _ Hrp) as (nd' & Hn' & Hpl').
    exists nd'. split; [by eapply list_elem_of_lookup_2|]. rewrite <- Hl. by eapply placed_labels.
  - apply finished_indexed.
  - intros nd Hnd. destruct (node_placed nd Hnd) as (r & k & sn & _ & Hk & Hp).
    destruct (pl_runs _ _ _ _ _ _ Hp) as (all & Hg & Hst). exists all. split; [done|]. split.
    + eapply stored_sorted; [exact Hst|apply kept_sorted].
    + eapply stored_nonempty; [exact Hst|]. apply Forall_forall. intros run Hrun%kept_subset.
      pose proof (nk_runs _ _ _ (node_ok _ _ Hk)) as Hruns. rewrite Forall_forall in Hruns. by apply Hruns.
  - split; [|apply Forall_forall, finished_depth].
    rewrite (fi_origin_depth _ _ _ _ _ _ Hf), (fi_origin _ _ _ _ _ _ Hf).
    unfold depth_byte. rewrite !Nat2N.id. unfold label_count. pose proof (liter_limit (zb_lower_origin b)). lia.
  - intros nd Hnd. destruct (node_placed nd Hnd) as (r & k & sn & _ & Hk & Hp).
    rewrite (pl_flags _ _ _ _ _ _ Hp). destruct (placed_flags_contains ly r (k, sn)) as (_ & -> & _).
    rewrite (pl_name _ _ _ _ _ _ Hp). apply (nk_wildcard _ _ _ (node_ok _ _ Hk)).
  - intros nd Hnd Hne. destruct (node_placed nd Hnd) as (r & k & sn & _ & Hk & Hp).
    destruct (pl_runs _ _ _ _ _ _ Hp) as (all & Hg & Hst).
    eapply placed_cname; [exact Hp|exact Hg|]. intros He. apply Hne.
    rewrite (rrsets_of_sorted z nd RT_CNAME all); [done|done|]. eapply stored_sorted; [exact Hst|apply kept_sorted].
  - intros nd all x Hnd. destruct (node_placed nd Hnd) as (r & k & sn & _ & Hk & Hp). by eapply placed_cname_alone.
Qed.

End Ranks.

End Finish.
