(* ===== verification/Totality.v ===== *)
(** * The build succeeds (src/src/zone.rs, [ZoneBuilder::finish])

    A scratch zone that passes the invariant check, and whose arenas fit their
    32-bit indices, is laid out without error; and the check that passes leaves no
    zone without a SOA record. *)

From S2P Require Import Prelude Names Rdata Hashing Zone Lookup Build Checked BuildFacts LayoutFacts ArenaFacts Finish.
Local Open Scope vega_scope.

Section Totality.
Context {HN : HickoryNames} {HL : HickoryNamesLaws HN} {HR : HickoryRdata HN} {HO : HashOrder}.
Context {HT : HashTableApi} {TL : HashTableLaws HT}.

Abbreviation Entry := (LowerName * ScratchNode)%type.

Lemma arena_offset_fits len : (N.of_nat len <= u32_MAX)%N -> arena_offset len = Ok (N.of_nat len).
Proof. unfold arena_offset. intros H. by rewrite (proj2 (N.leb_le _ _)). Qed.

Lemma sum_with_app {A} (f : A -> nat) l1 l2 :
  sum_list_with f (l1 ++ l2) = (sum_list_with f l1 + sum_list_with f l2)%nat.
Proof. induction l1 as [|x l1 IH]; cbn; [done|]. rewrite IH. lia. Qed.

Lemma sum_with_perm {A} (f : A -> nat) l1 l2 : l1 ≡ₚ l2 -> sum_list_with f l1 = sum_list_with f l2.
Proof. induction 1; cbn; lia. Qed.

Lemma sum_with_map {A B} (g : A -> B) (f : B -> nat) l : sum_list_with f (map g l) = sum_list_with (f ∘ g) l.
Proof. induction l as [|x l IH]; cbn; [done|]. by rewrite IH. Qed.

Lemma imap_same {A} (f : nat -> A -> A) l : (forall i x, f i x = x) -> imap f l = l.
Proof.
  revert f; induction l as [|x l IH]; intros f Hf; [done|]. rewrite imap_cons, Hf, IH; [done|].
  intros i y. apply Hf.
Qed.

(** The sizes of the arenas a list of entries needs. *)
Definition keys_size (es : list Entry) : nat := sum_list_with (fun e => length (sort_key e.1)) es.
Definition runs_size (es : list Entry) : nat := sum_list_with (fun e => length (sn_rrsets e.2)) es.
Definition rdata_size (es : list Entry) : nat := sum_list_with (fun e => sum_rdata (sn_rrsets e.2)) es.

Record arenas_fit (es : list Entry) : Prop := {
  fit_nodes : (N.of_nat (length es) <= u32_MAX)%N;
  fit_keys : (N.of_nat (keys_size es) <= u32_MAX)%N;
  fit_runs : (N.of_nat (runs_size es) <= u32_MAX)%N;
  fit_rdata : (N.of_nat (rdata_size es) <= u32_MAX)%N;
}.

Lemma write_keys_total es : (N.of_nat (keys_size es) <= u32_MAX)%N -> exists p, write_keys es = Ok p.
Proof.
  intros Hk. unfold write_keys.
  apply (fold_res_total (fun pre (acc : list N * list Span) => length acc.1 = keys_size pre)); [done|].
  intros pre e post [keys spans] -> Hlen. cbn [fst] in *. unfold keys_size in *.
  rewrite sum_with_app in Hk. cbn in Hk.
  rewrite arena_offset_fits by lia. cbn [rbind]. rewrite write_key_enc, <- sort_key_enc.
  rewrite arena_offset_fits by len. cbn [rbind]. eexists. split; [done|].
  cbn [fst]. rewrite length_app, sum_with_app. cbn. lia.
Qed.

Lemma layout_total es : arenas_fit es -> exists ly, layout es = Ok ly.
Proof.
  intros [Hn Hk _ _]. unfold layout. destruct (write_keys_total es Hk) as [[keys spans] ->]. cbn [rbind].
  set (order := sort_by _ _).
  assert (Hlen : length order = length es) by (unfold order; by rewrite sort_by_perm, length_seq).
  match goal with |- context [cut_step ?K0 ?T0] => set (K := K0); set (T := T0) end.
  destruct (fold_res_total (fun _ (_ : CutState) => True) (cut_step K T) (seq 0 (length order))
              (mkCutState [] [] ∅)) as [s Hs]; [done| |].
  - intros pre r post s Hl _. unfold cut_step. destruct (if (r =? 0)%nat then None else T r); [|by eexists].
    assert (Hr : (r < length es)%nat).
    { assert (Hin : r ∈ seq 0 (length order)) by (rewrite Hl; apply elem_of_app; right; by left).
      apply elem_of_seq in Hin. lia. }
    rewrite arena_offset_fits by lia. by eexists.
  - rewrite Hs. by eexists.
Qed.

Lemma push_runs_total rrs rds f runs :
  (N.of_nat (length rds + sum_rdata runs) <= u32_MAX)%N ->
  exists rrs' rds' f', fold_res push_run (rrs, rds, f) runs = Ok (rrs', rds', f') /\
    length rrs' = (length rrs + length runs)%nat /\ length rds' = (length rds + sum_rdata runs)%nat.
Proof.
  revert rrs rds f. unfold sum_rdata. induction runs as [|run runs IH]; intros rrs rds f Hfit; cbn in *.
  { exists rrs, rds, f. split_and!; [done|lia|lia]. }
  rewrite arena_offset_fits by lia. cbn [rbind]. rewrite arena_offset_fits by len. cbn [rbind].
  destruct (IH (rrs ++ [mkRrset (sr_type run) (sr_ttl run)
              (N.of_nat (length rds), N.of_nat (length (rds ++ sr_rdata run)))]) (rds ++ sr_rdata run)
              (if (sr_type run =? RT_CNAME)%N then flags_insert f HAS_CNAME else f))
    as (rrs' & rds' & f' & -> & H1 & H2); [rewrite length_app; lia|].
  exists rrs', rds', f'. rewrite length_app in H1, H2. cbn in H1. split_and!; [done|lia|lia].
Qed.

(** What an entry, by its position, adds to the arenas. *)
Definition runs_at (es : list Entry) (p : nat) : nat :=
  match es !! p with Some e => length (sn_rrsets e.2) | None => 0%nat end.
Definition rdata_at (es : list Entry) (p : nat) : nat :=
  match es !! p with Some e => sum_rdata (sn_rrsets e.2) | None => 0%nat end.

Lemma sum_by_position (es : list Entry) (f : Entry -> nat) :
  sum_list_with (fun p => match es !! p with Some e => f e | None => 0%nat end) (seq 0 (length es))
  = sum_list_with f es.
Proof.
  induction es as [|e es IH] using rev_ind; [done|].
  rewrite length_app, Nat.add_1_r, seq_S, !sum_with_app, <- IH. cbn.
  rewrite lookup_app_r, Nat.sub_diag by lia. cbn. f_equal.
  assert (Hin : forall p, p ∈ seq 0 (length es) -> (p < length es)%nat) by (intros p Hp; apply elem_of_seq in Hp; lia).
  revert Hin. generalize (seq 0 (length es)). intros ps Hin. induction ps as [|p ps IHp]; [done|]. cbn.
  rewrite lookup_app_l by (apply Hin; by left). rewrite IHp; [done|]. intros q Hq. apply Hin. by right.
Qed.

Lemma arena_total seed es ly :
  arenas_fit es -> ly_order ly ≡ₚ seq 0 (length es) ->
  exists ar, fold_res (place_node seed (ly_cut_of ly) (ly_delegations ly))
    (mkArena (map Some es) [] [] [] [] 0 0 []) (imap pair (ly_order ly)) = Ok ar.
Proof.
  intros [Hn _ Hr Hd] Hp.
  set (P := fun (pre : list (nat * nat)) (s : Arena) =>
    (forall p e, ar_slots s !! p = Some (Some e) -> es !! p = Some e) /\
    (length (ar_rrsets s) <= sum_list_with (runs_at es) (map snd pre))%nat /\
    (length (ar_rdata s) <= sum_list_with (rdata_at es) (map snd pre))%nat).
  apply (fold_res_total P).
  { unfold P. cbn. split_and!; [|lia|lia]. intros p e. rewrite list_lookup_fmap. by destruct (es !! p); intros; simplify_eq/=. }
  intros pre [rank pos] post s Hl (Hslots & Hrrs & Hrds).
  assert (Hall : map snd (imap pair (ly_order ly)) ≡ₚ seq 0 (length es)).
  { assert (map snd (imap pair (ly_order ly)) = ly_order ly) as ->; [|done].
    change (map snd) with (fmap (M:=list) (@snd nat nat)). rewrite fmap_imap. by apply imap_same. }
  rewrite Hl, map_app in Hall. cbn [map snd] in Hall.
  assert (Hruns : (sum_list_with (runs_at es) (map snd pre) + runs_at es pos <= runs_size es)%nat).
  { unfold runs_size. rewrite <- (sum_by_position es), <- (sum_with_perm _ _ _ Hall), sum_with_app. cbn. unfold runs_at. lia. }
  assert (Hrd : (sum_list_with (rdata_at es) (map snd pre) + rdata_at es pos <= rdata_size es)%nat).
  { unfold rdata_size. rewrite <- (sum_by_position es), <- (sum_with_perm _ _ _ Hall), sum_with_app. cbn. unfold rdata_at. lia. }
  unfold place_node, P. rewrite map_app, !sum_with_app. cbn [map snd sum_list_with].
  destruct (ar_slots s !! pos) as [[[lower scratch]|]|] eqn:Es.
  2, 3: eexists; split; [done|]; split_and!; [done|lia|lia].
  pose proof (Hslots _ _ Es) as He. unfold runs_at, rdata_at in *. rewrite He in *. cbn [snd] in *.
  assert (Hrank : (rank < length es)%nat).
  { assert (Hk : imap pair (ly_order ly) !! length pre = Some (rank, pos)) by (rewrite Hl; by apply list_lookup_middle).
    rewrite list_lookup_imap in Hk. destruct (ly_order ly !! length pre) as [p'|] eqn:Ep; [|done].
    cbn in Hk. injection Hk as <- <-. apply lookup_lt_Some in Ep. by rewrite Hp, length_seq in Ep. }
  rewrite arena_offset_fits by lia. cbn [rbind].
  pose proof (apply_cut_sizes (sort_by_key sr_type (sn_rrsets scratch)) lower
                (default NODE_NONE (ly_cut_of ly !! rank)) (N.of_nat rank) (ly_delegations ly)) as Hsz.
  destruct (apply_cut _ _ _ _ _) as [[[runs flags] dropped] notes]. cbn [fst snd] in Hsz.
  rewrite (Permutation_length (sort_by_key_perm sr_type _)) in Hsz. unfold sum_rdata in Hsz.
  rewrite (sum_with_perm _ _ _ (sort_by_key_perm sr_type (sn_rrsets scratch))) in Hsz. destruct Hsz as [Hs1 Hs2].
  rewrite arena_offset_fits by lia. cbn [rbind].
  destruct (push_runs_total (ar_rrsets s) (ar_rdata s)
    (if sn_wildcard scratch then flags_insert flags WILDCARD else flags) runs) as (rrs & rds & f' & -> & H1 & H2).
  { unfold sum_rdata in *. lia. }
  cbn [rbind]. rewrite arena_offset_fits by lia. cbn [rbind]. eexists. split; [done|].
  cbn [ar_slots ar_rrsets ar_rdata]. unfold sum_rdata in *. split_and!; [|lia|lia].
  intros p e Hpe. destruct (decide (p = pos)) as [->|Hne].
  - rewrite list_lookup_insert_eq in Hpe by (by eapply lookup_lt_Some). done.
  - rewrite list_lookup_insert_ne in Hpe by done. by apply Hslots.
Qed.

Lemma build_index_total hashes :
  (N.of_nat (length hashes) <= u32_MAX)%N -> exists t, build_index hashes = Ok t.
Proof.
  intros Hn. apply (fold_res_total (fun _ _ => True)); [done|].
  intros pre [i h] post t Hl _.
  assert (Hi : (i < length hashes)%nat).
  { assert (Hk : imap pair hashes !! length pre = Some (i, h)) by (rewrite Hl; by apply list_lookup_middle).
    rewrite list_lookup_imap in Hk. destruct (hashes !! length pre) as [h'|] eqn:E; [|done].
    cbn in Hk. injection Hk as <- <-. by apply lookup_lt_Some in E. }
  cbn [fst snd]. rewrite arena_offset_fits by lia. by eexists.
Qed.

(** A checked zone has its SOA, from the configuration or from the apex. *)
Lemma soa_present b soa_in :
  BuilderOk b -> servable (closed_builder b) (match soa_in with Some _ => true | None => false end) ->
  is_Some (match soa_in with Some r => Some r | None => apex_soa_record (closed_builder b) end).
Proof.
  intros Hb [_ Hsoa _]. destruct soa_in as [r|]; [by eexists|].
  destruct (closed_builder_ok b Hb) as (Hc & Hlo & _).
  unfold apex_runs in Hsoa. unfold apex_soa_record.
  destruct (zb_nodes (closed_builder b) !! zb_lower_origin (closed_builder b)) as [nd|] eqn:E; [|done].
  pose proof (nk_runs _ _ _ (bo_nodes _ Hc _ _ E)) as Hruns. cbn [mbind option_bind].
  unfold of_type in Hsoa. induction (sn_rrsets nd) as [|run runs IH]; [done|].
  rewrite filter_cons in Hsoa. cbn [List.find]. apply Forall_cons in Hruns as [Hrun Hruns].
  destruct (decide (sr_type run = RT_SOA)) as [Ht|Ht].
  - rewrite (proj2 (N.eqb_eq _ _) Ht). cbn [mbind option_bind]. destruct (sr_rdata run); [done|]. by eexists.
  - rewrite (proj2 (N.eqb_neq _ _) Ht). by apply IH.
Qed.

Lemma finish_total b soa_in seed :
  BuilderOk b -> servable (closed_builder b) (match soa_in with Some _ => true | None => false end) ->
  arenas_fit (entries_of b) -> exists z, finish b soa_in seed = Ok z.
Proof.
  intros Hb Hsv Hfit. unfold finish. fold (with_apex b). fold (closed_builder b).
  unfold check_invariants. rewrite (proj2 (check_findings_nil _ _) Hsv). cbn [rbind].
  destruct (soa_present b soa_in Hb Hsv) as [rec ->]. cbn [ok_or rbind]. fold (entries_of b).
  destruct (layout_total _ Hfit) as [ly Hly]. rewrite Hly. cbn [rbind].
  pose proof (layout_ok _ _ (entries_nodup b Hb) Hly) as Hlok. pose proof (lo_perm _ _ Hlok) as Hperm.
  destruct (arena_total seed _ ly Hfit Hperm) as [ar Har]. rewrite Har. cbn [rbind].
  assert (Hinv : ArenaInv seed (entries_of b) ly (length (ly_order ly)) ar).
  { apply arena_spec; [rewrite Hperm; apply NoDup_seq| |done]. intros p. rewrite Hperm, elem_of_seq. lia. }
  destruct (build_index_total (ar_hashes ar)) as [t ->].
  { rewrite (ai_hlen _ _ _ _ _ Hinv), Hperm, length_seq. apply Hfit. }
  cbn [rbind]. destruct (build_referrals _ _) as [refs diags]. by eexists.
Qed.

End Totality.
