(* ===== verification/Served.v ===== *)
(** * What a built zone serves (src/src/zone.rs, from the configuration to the answer)

    The arenas read back as the scratch zone they were built from: the values of
    every node, the delegation nearest to it, and the referral assembled for each
    delegation.  The last section states the answers in those terms. *)

From S2P Require Import Prelude Names Rdata Hashing Zone Lookup Build BuildFacts LayoutFacts ArenaFacts Finish.
Local Open Scope vega_scope.

(** ** Labels *)

Lemma labels_under_total a b c :
  labels_under a c -> labels_under b c -> labels_under a b \/ labels_under b a.
Proof.
  intros [p ->] [q H]. apply app_eq_app in H as (k & [[-> ->]|[-> ->]]); [left|right]; by exists k.
Qed.

Lemma labels_under_antisym a b : labels_under a b -> labels_under b a -> a = b.
Proof.
  intros H1 H2. apply labels_under_eq; [done|]. apply labels_under_length in H1, H2. lia.
Qed.

Lemma labels_under_proper z n : labels_under z n -> z <> n -> labels_under z (tail n).
Proof. intros [[|x p] ->] H; [done|]. by exists p. Qed.

Section Climb.
Context {HN : HickoryNames}.

Lemma climb_some f ls ce :
  climb f ls = Some ce ->
  f ce <> None /\ labels_under ce ls /\ ce <> ls /\
  forall x, labels_under x ls -> x <> ls -> f x <> None -> labels_under x ce.
Proof.
  induction ls as [|l ls IH]; [done|]. cbn. destruct (f ls) as [nd|] eqn:E.
  - intros [= <-]. split_and!; [congruence|by exists [l]| |].
    + intros H. apply (f_equal length) in H. cbn in H. lia.
    + intros x Hx Hne _. by apply labels_under_proper in Hx.
  - intros H. destruct (IH H) as (H1 & [p H2] & H3 & H4). split_and!; [done| | |].
    + exists (l :: p). by rewrite H2.
    + intros ->. apply (f_equal length) in H2. cbn in H2. rewrite length_app in H2. cbn in H2. lia.
    + intros x Hx Hne Hf. apply labels_under_proper in Hx; [|done]. apply H4; [done| |done].
      intros ->. by rewrite E in Hf.
Qed.

Lemma climb_found f ls x : labels_under x ls -> x <> ls -> f x <> None -> climb f ls <> None.
Proof.
  induction ls as [|l ls IH]; intros Hx Hne Hf; [by destruct Hx as [[|] ?]|]. cbn.
  destruct (f ls) eqn:E; [done|]. apply labels_under_proper in Hx; [|done]. apply IH; [done| |done].
  intros ->. by rewrite E in Hf.
Qed.

End Climb.

(** ** The zone the configuration describes *)

Section Scratch.
Context {HN : HickoryNames}.

Definition scratch_values (sn : ScratchNode) (t : RecordType) : list (N * RData) :=
  flat_map (fun run => map (pair (sr_ttl run)) (sr_rdata run)) (of_type t (sn_rrsets sn)).

(** Every target of the NS records of a node, in order. *)
Definition ns_values (sn : ScratchNode) : list LowerName :=
  flat_map (fun v => match v.2 with RD_NS ns => [lower_from ns] | _ => [] end) (scratch_values sn RT_NS).

Context (m : gmap LowerName ScratchNode) (origin : list label).

(** A list without the elements seen before: what [seen.contains] lets through. *)
Fixpoint firsts (seen l : list LowerName) : list LowerName :=
  match l with
  | [] => []
  | x :: l' => if bool_decide (x ∈ seen) then firsts seen l' else x :: firsts (seen ++ [x]) l'
  end.

(** A delegation: an owner below the apex with NS records. *)
Definition delegation (d : LowerName) (sd : ScratchNode) : Prop :=
  m !! d = Some sd /\ liter d <> origin /\ ns_targets sd <> None.

(** The delegation a name is at or below, the deepest one. *)
Definition nearest (ls : list label) (d : LowerName) (sd : ScratchNode) : Prop :=
  delegation d sd /\ labels_under (liter d) ls /\
  forall d' sd', delegation d' sd' -> labels_under (liter d') ls -> labels_under (liter d') (liter d).

Definition undelegated (ls : list label) : Prop :=
  forall d sd, delegation d sd -> ~ labels_under (liter d) ls.

End Scratch.

Section Served.
Context {HN : HickoryNames} {HL : HickoryNamesLaws HN} {HR : HickoryRdata HN} {HO : HashOrder}.
Context {HT : HashTableApi} {TL : HashTableLaws HT}.
Context (b : ZoneBuilder) (Hb : BuilderOk b) (soa_in : option DnsRecord) (seed : N) (z : Zone).
Context (ly : Layout) (ar : Arena) (Hf : Finished b soa_in seed z ly ar).

Abbreviation entries := (entries_of b).
Abbreviation m := (zb_nodes (closed_builder b)).
Abbreviation origin := (liter (zb_lower_origin b)).

(** Fewer nodes than the sentinel index. *)
Hypothesis Hsize : (N.of_nat (length entries) <= u32_MAX)%N.

Let Hlay := fin_layout b Hb soa_in seed z ly ar Hf.
Let Hwf := finished_wf b Hb soa_in seed z ly ar Hf.

Lemma rank_bound r e : ranked entries ly r = Some e -> (r < length entries)%nat.
Proof using Hlay. intros H. by eapply ranked_lt; [apply Hlay|]. Qed.

Lemma rank_not_none r e : ranked entries ly r = Some e -> is_none (N.of_nat r) = false.
Proof.
  intros H. apply rank_bound in H. unfold is_none, NODE_NONE. apply N.eqb_neq. lia.
Qed.

(** Ranks of delegations are the delegations of the map. *)
Lemma delegates_delegation a ka sa :
  ranked entries ly a = Some (ka, sa) -> delegates entries ly a <-> delegation m origin ka sa.
Proof.
  intros Ha. pose proof (ranked_elem b ly a ka sa Ha) as Hm.
  assert (Hpos : (0 < a)%nat <-> liter ka <> origin).
  { destruct (apex_rank b Hb soa_in seed z ly ar Hf) as (s0 & H0 & _). split.
    - intros Hp He. pose proof (ranked_inj b Hb soa_in seed z ly ar Hf _ _ _ _ Ha H0 He). lia.
    - intros Hne. destruct a; [|lia]. rewrite H0 in Ha. by injection Ha as <- _. }
  unfold delegates, delegation. rewrite Hpos. split.
  - intros [Hne (e & ts & He & Hts)]. rewrite Ha in He. injection He as <-. cbn in Hts. by rewrite Hts.
  - intros (_ & Hne & Hns). split; [done|]. destruct (ns_targets sa) as [ts|] eqn:E; [|done].
    by exists (ka, sa), ts.
Qed.

(** The cut of a node, by name. *)
Lemma rank_cut_spec r k sn :
  ranked entries ly r = Some (k, sn) ->
  (rank_cut ly r = NODE_NONE /\ undelegated m origin (liter k)) \/
  (exists a d sd, rank_cut ly r = N.of_nat a /\ ranked entries ly a = Some (d, sd) /\
     nearest m origin (liter k) d sd).
Proof.
  intros Hr. pose proof (rank_bound _ _ Hr) as Hlt. destruct (lo_cut _ _ Hlay r Hlt) as (c & Hc & Hcut).
  unfold rank_cut. rewrite Hc. cbn [default].
  assert (Habove : forall a ka sa, ranked entries ly a = Some (ka, sa) ->
            entry_above entries ly a r <-> labels_under (liter ka) (liter k)).
  { intros a ka sa Ha. split.
    - intros (ea & er & Hea & Her & Hu). rewrite Ha in Hea. rewrite Hr in Her. by injection Hea as <-; injection Her as <-.
    - intros Hu. by exists (ka, sa), (k, sn). }
  destruct Hcut as [[-> Hno]|(a & -> & Ha & Hd & Hmax)].
  - left. split; [done|]. intros d sd Hd Hu. destruct (elem_ranked b Hb soa_in seed z ly ar Hf d sd) as [a Ha]; [apply Hd|].
    apply (Hno a); [by apply (Habove a d sd)|by apply (delegates_delegation a d sd)].
  - right. destruct Ha as ([d sd] & er & Hea & Her & Hu). rewrite Hr in Her. injection Her as <-. cbn in Hu.
    exists a, d, sd. split_and!; [done|done|]. split_and!; [by apply (delegates_delegation a)|done|].
    intros d' sd' Hd' Hu'. destruct (elem_ranked b Hb soa_in seed z ly ar Hf d' sd') as [a' Ha']; [apply Hd'|].
    assert (Hle : (a' <= a)%nat).
    { apply Hmax; [by apply (Habove a' d' sd')|by apply (delegates_delegation a' d' sd')]. }
    destruct (labels_under_total _ _ _ Hu' Hu) as [|Hdeep]; [done|].
    destruct (decide (a' = a)) as [->|Hne]; [rewrite Ha' in Hea; injection Hea as <- <-; auto with vega|].
    exfalso. pose proof (lo_sorted _ _ Hlay a' a _ _ ltac:(lia) Ha' Hea) as Hs. cbn in Hs.
    apply sort_key_prefix, key_prefix_le in Hdeep. rewrite octets_compare_antisym, sort_key_compare, Hs in Hdeep. done.
Qed.

Lemma nearest_unique ls d1 s1 d2 s2 :
  nearest m origin ls d1 s1 -> nearest m origin ls d2 s2 -> d1 = d2 /\ s1 = s2.
Proof.
  intros (H1 & Hu1 & Hm1) (H2 & Hu2 & Hm2).
  assert (Hl : liter d1 = liter d2) by (apply labels_under_antisym; eauto).
  destruct (closed_builder_ok b Hb) as (Hc & _).
  destruct H1 as (E1 & _), H2 as (E2 & _).
  assert (d1 = d2) as -> by (by eapply key_ext; [apply (bo_nodes _ Hc)| | |]).
  split; [done|congruence].
Qed.

(** ** Nodes by name *)

Lemma find_key k sn :
  m !! k = Some sn ->
  exists r nd, find_node z (liter k) = Some (r, nd) /\ ranked entries ly r = Some (k, sn) /\
    Placed ly (rrsets z) (rdata z) r (k, sn) nd.
Proof.
  intros Hk. destruct (elem_ranked b Hb soa_in seed z ly ar Hf k sn Hk) as [r Hr].
  destruct (rank_node b Hb soa_in seed z ly ar Hf r k sn Hr) as (nd & Hn & Hp).
  exists r, nd. split_and!; [|done|done]. apply find_node_some; [done|]. split; [done|].
  by eapply placed_labels.
Qed.

Lemma find_absent ls : (forall k sn, m !! k = Some sn -> liter k <> ls) -> find_node z ls = None.
Proof.
  intros Hno. apply find_node_none. intros nd [r Hr]%list_elem_of_lookup.
  destruct (node_at_rank b Hb soa_in seed z ly ar Hf r nd Hr) as (k & sn & _ & Hk & Hp).
  rewrite (placed_labels b Hb ly _ _ _ _ _ _ Hk Hp). by eapply Hno.
Qed.

Lemma find_is_key ls r nd :
  find_node z ls = Some (r, nd) ->
  exists k sn, liter k = ls /\ m !! k = Some sn /\ ranked entries ly r = Some (k, sn) /\
    Placed ly (rrsets z) (rdata z) r (k, sn) nd.
Proof.
  intros H. apply find_node_some in H as [Hr Hl]; [|done].
  destruct (node_at_rank b Hb soa_in seed z ly ar Hf r nd Hr) as (k & sn & Hrk & Hk & Hp).
  exists k, sn. split_and!; try done. rewrite <- Hl. symmetry. by eapply placed_labels.
Qed.

(** ** Values *)

Lemma of_type_filter t (keep : ScratchRrset -> bool) runs :
  of_type t (List.filter keep runs) = List.filter keep (of_type t runs).
Proof using.
  unfold of_type. induction runs as [|r runs IH]; [done|]. cbn [List.filter]. rewrite filter_cons.
  destruct (decide (sr_type r = t)) as [Ht|Ht]; destruct (keep r) eqn:Ek; cbn [List.filter];
    rewrite ?filter_cons, ?Ek, ?IH; rewrite ?decide_True by done; rewrite ?decide_False by done; done.
Qed.

Lemma of_type_sorted t runs : of_type t (sort_by_key sr_type runs) = of_type t runs.
Proof using. apply (sort_by_key_stable sr_type). Qed.

Lemma list_filter_const (p : ScratchRrset -> bool) (v : bool) runs :
  (forall r, r ∈ runs -> p r = v) -> List.filter p runs = if v then runs else [].
Proof using.
  induction runs as [|r runs IH]; intros Hp; [by destruct v|]. cbn. rewrite (Hp r) by left.
  rewrite IH by (intros; apply Hp; by right). by destruct v.
Qed.

(** Which types of a node at or below a delegation survive occlusion. *)
Definition survives (k d : LowerName) (sd : ScratchNode) (t : RecordType) : bool :=
  (bool_decide (k = d) && (t =? RT_NS)%N)
  || (bool_decide (k ∈ ns_values sd) && ((t =? RT_A)%N || (t =? RT_AAAA)%N)).

(** The values a node is left with. *)
Definition served_values (k : LowerName) (sn : ScratchNode) (t : RecordType) (vs : list (N * RData)) : Prop :=
  (undelegated m origin (liter k) /\ vs = scratch_values sn t) \/
  (exists d sd, nearest m origin (liter k) d sd /\
     vs = if survives k d sd t then scratch_values sn t else []).

Lemma ns_targets_values sn ts : ns_targets sn = Some ts -> ns_values sn = ts.
Proof using.
  unfold ns_targets, ns_values, scratch_values.
  assert (Hl : forall l : list ScratchRrset,
    flat_map (fun v : N * RData => match v.2 with RD_NS ns => [lower_from ns] | _ => [] end)
      (flat_map (fun run => map (pair (sr_ttl run)) (sr_rdata run)) l)
    = flat_map (fun run => flat_map (fun v => match v with RD_NS ns => [lower_from ns] | _ => [] end) (sr_rdata run)) l).
  { clear. induction l as [|r l IH]; [done|]. cbn. rewrite flat_map_app, IH. f_equal.
    induction (sr_rdata r) as [|v vs IHv]; [done|]. cbn. by rewrite IHv. }
  rewrite Hl. destruct (of_type RT_NS _); [done|]. by intros [= <-].
Qed.

Lemma placed_values r k sn nd t :
  ranked entries ly r = Some (k, sn) -> Placed ly (rrsets z) (rdata z) r (k, sn) nd ->
  served_values k sn t (node_values z nd t).
Proof.
  intros Hr Hp. destruct (pl_runs _ _ _ _ _ _ Hp) as (all & Hg & Hst).
  unfold node_values. rewrite Hg. cbn [from_option id]. unfold run_values. rewrite (stored_values _ _ _ t Hst).
  unfold kept_runs, laid_out, apply_cut. cbn [fst snd].
  destruct (rank_cut_spec r k sn Hr) as [[Hc Hun]|(a & d & sd & Hc & Ha & Hn)].
  - left. split; [done|]. rewrite Hc, N.eqb_refl. cbn [fst]. by rewrite of_type_sorted.
  - right. exists d, sd. split; [done|]. rewrite Hc.
    pose proof (rank_not_none _ _ Ha) as Hnn. unfold is_none in Hnn. rewrite Hnn. cbn [fst].
    rewrite of_type_filter, of_type_sorted.
    rewrite (list_filter_const _ (survives k d sd t)); [by destruct (survives k d sd t)|].
    intros run [Ht _]%list_elem_of_filter. unfold keeps_run, survives. rewrite Ht. f_equal; f_equal.
    + apply eq_bool_prop_intro. rewrite !Is_true_true, N.eqb_eq, bool_decide_eq_true. split.
      * intros Heq%Nat2N.inj. subst a. rewrite Hr in Ha. by injection Ha.
      * intros ->. f_equal. by eapply (ranked_inj b Hb soa_in seed z ly ar Hf); [exact Ha|exact Hr|].
    + assert (Ht2 : ly_delegations ly !! N.of_nat a = ns_targets sd).
      { pose proof (proj2 (delegates_delegation a d sd Ha) (proj1 Hn)) as [Hpos _].
        rewrite (lo_targets _ _ Hlay) by (split; [done|by eapply rank_bound]). by rewrite Ha. }
      rewrite Ht2. destruct Hn as [(_ & _ & Hns) _]. destruct (ns_targets sd) as [ts|] eqn:Ets; [|done].
      cbn. by rewrite (ns_targets_values sd ts).
Qed.

(** The delegation a node is flagged with. *)
Lemma placed_cut r k sn nd :
  ranked entries ly r = Some (k, sn) -> Placed ly (rrsets z) (rdata z) r (k, sn) nd ->
  (nd_cut nd = NODE_NONE /\ undelegated m origin (liter k) /\ flags_contains (nd_flags nd) DELEGATION = false) \/
  (exists a d sd, nd_cut nd = N.of_nat a /\ ranked entries ly a = Some (d, sd) /\ nearest m origin (liter k) d sd /\
     flags_contains (nd_flags nd) DELEGATION = bool_decide (k = d)).
Proof.
  intros Hr Hp. rewrite (pl_cut _ _ _ _ _ _ Hp), (pl_flags _ _ _ _ _ _ Hp).
  destruct (placed_flags_contains ly r (k, sn)) as (_ & _ & -> & _).
  destruct (rank_cut_spec r k sn Hr) as [[Hc Hun]|(a & d & sd & Hc & Ha & Hn)]; rewrite Hc.
  - left. by split_and!.
  - right. exists a, d, sd. split_and!; [done..|]. rewrite (rank_not_none _ _ Ha). cbn.
    apply eq_bool_prop_intro. rewrite !Is_true_true, N.eqb_eq, bool_decide_eq_true. split.
    + intros Heq%Nat2N.inj. subst a. rewrite Hr in Ha. by injection Ha.
    + intros ->. f_equal. by eapply (ranked_inj b Hb soa_in seed z ly ar Hf); [exact Ha|exact Hr|].
Qed.

(** A delegation is flagged as one, and is its own cut. *)
Lemma delegation_placed d sd :
  delegation m origin d sd ->
  exists a nd, find_node z (liter d) = Some (a, nd) /\ ranked entries ly a = Some (d, sd) /\
    Placed ly (rrsets z) (rdata z) a (d, sd) nd /\ nd_cut nd = N.of_nat a /\
    flags_contains (nd_flags nd) DELEGATION = true.
Proof.
  intros Hd. destruct (find_key d sd) as (a & nd & Hfn & Ha & Hp); [apply Hd|].
  exists a, nd. split_and!; [done..| |].
  all: destruct (placed_cut a d sd nd Ha Hp) as [(_ & Hun & _)|(a' & d' & sd' & Hc & Ha' & Hn & Hfl)];
    [by destruct (Hun d sd Hd); auto with vega|].
  all: assert (d' = d /\ sd' = sd) as [-> ->].
  1, 3: apply (nearest_unique (liter d)); [done|]; split_and!; [done|auto with vega|by intros].
  - rewrite Hc. f_equal. by eapply (ranked_inj b Hb soa_in seed z ly ar Hf); [exact Ha'|exact Ha|].
  - rewrite Hfl. by apply bool_decide_eq_true.
Qed.

(** ** Referrals *)

Abbreviation base_zone := (@mkZone HN HT (lower_origin z) (default_ttl z) (soa z) (nodes z) (rrsets z) (rdata z)
  (index z) (hash_seed z) (origin_depth z) (max_depth z) ∅ [] (record_count z)).

Lemma base_wf : ZoneWf base_zone.
Proof. destruct Hwf. by constructor. Qed.

Lemma build_referrals_spec (zz : Zone) notes i nd :
  (N.of_nat (length (nodes zz)) <= u32_MAX)%N ->
  nodes zz !! i = Some nd -> flags_contains (nd_flags nd) DELEGATION = true ->
  (build_referrals zz notes).1 !! N.of_nat i = Some (node_referral zz nd).1.
Proof.
  intros Hlen Hi Hd. unfold build_referrals.
  set (P := fun (pre : list (nat * Node)) (acc : gmap N Referral * list Diagnostic) =>
    (i < length pre)%nat -> acc.1 !! N.of_nat i = Some (node_referral zz nd).1).
  enough (HP : P (imap pair (nodes zz)) (build_referrals zz notes)).
  { apply HP. rewrite length_imap. by eapply lookup_lt_Some. }
  unfold build_referrals. apply fold_left_prefix; unfold P; [cbn; lia|].
  intros pre [j ndj] post [acc diags] Hl IH Hlt. cbn [fst snd] in *.
  assert (Hj : imap pair (nodes zz) !! length pre = Some (j, ndj)) by (rewrite Hl; by apply list_lookup_middle).
  rewrite list_lookup_imap in Hj. destruct (nodes zz !! length pre) as [n'|] eqn:En; [|done].
  cbn in Hj. injection Hj as <- <-. rewrite length_app in Hlt. cbn in Hlt.
  pose proof (lookup_lt_Some _ _ _ En) as Hb'.
  destruct (decide (i = length pre)) as [->|Hne].
  - rewrite En in Hi. injection Hi as ->. rewrite Hd. cbn [negb]. unfold arena_offset.
    rewrite (proj2 (N.leb_le _ _)) by lia. destruct (node_referral zz nd) as [r ns]. cbn. apply lookup_insert_eq.
  - assert (Hacc : acc !! N.of_nat i = Some (node_referral zz nd).1) by (apply IH; lia).
    destruct (negb _); [done|]. unfold arena_offset. destruct (_ <=? _)%N; [|done].
    destruct (node_referral zz n') as [r ns]. cbn. rewrite lookup_insert_ne by lia. done.
Qed.

(** The glue of one target: its surviving addresses, if it is a node of the zone. *)
Definition glue_of (g : LowerName) : list DnsRecord :=
  match find_node z (liter g) with
  | Some (_, nd) => records_at (nd_name nd) (node_values z nd RT_A)
                    ++ records_at (nd_name nd) (node_values z nd RT_AAAA)
  | None => []
  end.

Lemma glue_fold cut_name values acc seen notes :
  let '(additional, _, _) := fold_left (referral_target base_zone cut_name) values (acc, seen, notes) in
  additional = acc ++ flat_map glue_of
    (firsts seen (flat_map (fun v => match v with RD_NS ns => [lower_from ns] | _ => [] end) values)).
Proof.
  revert acc seen notes. induction values as [|v values IH]; intros acc seen notes; cbn [fold_left flat_map].
  { by rewrite app_nil_r. }
  destruct v as [| |ns| | | | | | | |]; cbn [app]; try apply IH. cbn [referral_target firsts].
  destruct (bool_decide (lower_from ns ∈ seen)); [apply IH|].
  set (acc' := match (if Zone_contains _ _ then _ else None) with Some g => _ | None => acc end).
  assert (Hacc : acc' = acc ++ glue_of (lower_from ns)).
  { unfold acc', glue_of. pose proof base_wf as Hbw.
    rewrite (exact_node_get base_zone Hbw (lower_from ns)).
    unfold Zone_contains. cbn [lower_origin].
    assert (Hfn : find_node base_zone (liter (lower_from ns)) = find_node z (liter (lower_from ns))) by done.
    rewrite Hfn. destruct (find_node z (liter (lower_from ns))) as [[i nd]|] eqn:E.
    - assert (Hz : zone_of (lower_origin z) (lower_from ns) = true).
      { apply zone_of_spec; [apply (wf_origin z Hwf)|]. apply find_node_some in E as [Hi Hl]; [|done].
        rewrite <- Hl. apply (wf_under z Hwf). by eapply list_elem_of_lookup_2. }
      rewrite Hz. cbn [snd fmap option_fmap option_map].
      assert (Hin : nd ∈ nodes base_zone) by (by eapply find_node_elem).
      rewrite !emit_spec, !(rrsets_of_values base_zone Hbw) by done. by rewrite <- (assoc_L (++)).
    - cbn [snd fmap option_fmap option_map]. rewrite app_nil_r. by destruct (zone_of _ _). }
  rewrite Hacc. specialize (IH (acc ++ glue_of (lower_from ns)) (seen ++ [lower_from ns])).
  match goal with |- context [fold_left _ values (_, _, ?n)] => specialize (IH n) end.
  destruct (fold_left _ values _) as [[additional s'] n']. rewrite IH. cbn [flat_map]. by rewrite <- (assoc_L (++)).
Qed.

(** The referral at a delegation: its NS records, and its targets' glue. *)
Lemma referral_at a d sd nd :
  ranked entries ly a = Some (d, sd) -> nodes z !! a = Some nd ->
  Placed ly (rrsets z) (rdata z) a (d, sd) nd -> delegation m origin d sd ->
  flags_contains (nd_flags nd) DELEGATION = true ->
  referrals z !! N.of_nat a =
    Some (mkReferral (records_at (sn_name sd) (scratch_values sd RT_NS))
            (flat_map glue_of (firsts [] (ns_values sd)))).
Proof.
  intros Ha Hn Hp Hd Hfl. pose proof (fi_referrals _ _ _ _ _ _ Hf) as Hr. apply (f_equal fst) in Hr. cbn [fst] in Hr.
  rewrite Hr, (build_referrals_spec base_zone _ a nd); [|by cbn [nodes]; rewrite (nodes_length b Hb soa_in seed z ly ar Hf)|done|done].
  f_equal. unfold node_referral. pose proof base_wf as Hbw.
  assert (Hin : nd ∈ nodes base_zone) by (by eapply list_elem_of_lookup_2).
  assert (Hvals : node_values z nd RT_NS = scratch_values sd RT_NS).
  { destruct (placed_values a d sd nd RT_NS Ha Hp) as [[_ ->]|(d' & sd' & Hn' & ->)]; [done|].
    destruct (nearest_unique (liter d) d sd d' sd') as [<- <-]; [|done|].
    - split_and!; [done|auto with vega|by intros].
    - unfold survives. by rewrite bool_decide_eq_true_2. }
  assert (Hflat : flat_map (fun r => default [] (get_span (rdata base_zone) (rr_rdata r))) (rrsets_of base_zone nd RT_NS)
                  = map snd (node_values z nd RT_NS)).
  { change (node_values z nd RT_NS) with (node_values base_zone nd RT_NS).
    rewrite <- (rrsets_of_values base_zone Hbw) by done. unfold run_values.
    induction (rrsets_of base_zone nd RT_NS) as [|r run IH]; [done|]. cbn [flat_map]. rewrite map_app, IH. f_equal.
    rewrite map_map. symmetry. apply map_id. }
  rewrite Hflat, Hvals.
  pose proof (glue_fold (lower_from (nd_name nd)) (map snd (scratch_values sd RT_NS)) [] [] []) as Hg.
  destruct (fold_left _ _ _) as [[additional s'] n']. cbn [fst]. f_equal.
  - rewrite emit_spec, (rrsets_of_values base_zone Hbw) by done. cbn [app].
    change (node_values base_zone nd RT_NS) with (node_values z nd RT_NS). rewrite Hvals.
    by rewrite (pl_name _ _ _ _ _ _ Hp).
  - rewrite Hg. cbn [app]. do 2 f_equal. unfold ns_values. generalize (scratch_values sd RT_NS). clear.
    intros l. induction l as [|v l IH]; [done|]. cbn [map flat_map]. by rewrite IH.
Qed.

End Served.
