(* ===== verification/Asserts.v ===== *)
(** * The debug-build assertions hold (src/src/zone.rs, [Zone::debug_assert_invariants])

    Each check the debug build runs over a finished zone, evaluated by the model and
    shown to be true of every zone [finish] returns. *)

From S2P Require Import Prelude Names Rdata Hashing Zone Lookup Build Checked BuildFacts LayoutFacts ArenaFacts Finish.
From S2P Require Import Served.
Local Open Scope vega_scope.

Lemma windows2_all {A} (p : A -> A -> bool) (l : list A) :
  (forall i a b, l !! i = Some a -> l !! S i = Some b -> p a b = true) -> windows2 p l = true.
Proof.
  induction l as [|a [|b l] IH]; intros H; [done|done|].
  change (windows2 p (a :: b :: l)) with (p a b && windows2 p (b :: l)).
  rewrite (H 0%nat a b) by done. apply IH. intros i x y Hx Hy. by apply (H (S i)).
Qed.

Lemma forallb_all {A} (p : A -> bool) (l : list A) : (forall x, x ∈ l -> p x = true) -> forallb p l = true.
Proof. intros H. apply forallb_forall. intros x Hx. apply H. by apply list_elem_of_In. Qed.

Section Asserts.
Context {HN : HickoryNames} {HL : HickoryNamesLaws HN} {HR : HickoryRdata HN} {HO : HashOrder}.
Context {HT : HashTableApi} {TL : HashTableLaws HT}.
Context (b : ZoneBuilder) (Hb : BuilderOk b) (soa_in : option DnsRecord) (seed : N) (z : Zone).
Context (ly : Layout) (ar : Arena) (Hf : Finished b soa_in seed z ly ar).

Abbreviation entries := (entries_of b).
Abbreviation m := (zb_nodes (closed_builder b)).
Abbreviation origin := (liter (zb_lower_origin b)).

Hypothesis Hsize : (N.of_nat (length entries) <= u32_MAX)%N.

Let Hwf := finished_wf b Hb soa_in seed z ly ar Hf.

Lemma node_lower_key r nd :
  nodes z !! r = Some nd ->
  exists k sn, ranked entries ly r = Some (k, sn) /\ m !! k = Some sn /\ node_lower nd = k /\
    Placed ly (rrsets z) (rdata z) r (k, sn) nd.
Proof.
  intros Hn. destruct (node_at_rank b Hb soa_in seed z ly ar Hf r nd Hn) as (k & sn & Hr & Hk & Hp).
  exists k, sn. split_and!; [done|done| |done]. by eapply placed_lower.
Qed.

Lemma asserts_apex : assert_apex z = true.
Proof.
  unfold assert_apex. destruct (apex_rank b Hb soa_in seed z ly ar Hf) as (sn & H0 & Hsn).
  destruct (rank_node b Hb soa_in seed z ly ar Hf _ _ _ H0) as (nd & Hn & Hp).
  unfold node_get. rewrite getN_lookup. change (N.to_nat APEX) with 0%nat. rewrite Hn.
  apply bool_decide_eq_true. rewrite (fi_origin _ _ _ _ _ _ Hf). by eapply placed_lower.
Qed.

Lemma asserts_order : assert_order z = true.
Proof.
  apply windows2_all. intros i x y Hx Hy.
  destruct (node_lower_key i x Hx) as (kx & sx & Hrx & _ & -> & _).
  destruct (node_lower_key (S i) y Hy) as (ky & sy & Hry & _ & -> & _).
  pose proof (lo_sorted _ _ (fin_layout b Hb soa_in seed z ly ar Hf) i (S i) _ _ ltac:(lia) Hrx Hry) as Hs.
  cbn in Hs. by rewrite Hs.
Qed.

Lemma asserts_closed : assert_closed z = true.
Proof.
  unfold assert_closed. apply forallb_all. intros k Hk. apply list_elem_of_fmap in Hk as (nd & -> & Hnd).
  apply list_elem_of_lookup in Hnd as [r Hr]. destruct (node_lower_key r nd Hr) as (k & sn & Hrk & Hk & -> & _).
  apply orb_true_iff. rewrite !bool_decide_eq_true, (fi_origin _ _ _ _ _ _ Hf).
  pose proof (node_ok b Hb k sn Hk) as Hok. destruct (decide (liter k = origin)) as [He|Hne].
  - left. destruct (apex_present b Hb) as [sa Ha]. destruct (closed_builder_ok b Hb) as (Hc & _).
    by eapply key_ext; [apply (bo_nodes _ Hc)| | |].
  - right. destruct (parent_present b Hb k sn Hk Hne) as (p & sp & Hp & Hl).
    destruct (elem_ranked b Hb soa_in seed z ly ar Hf p sp Hp) as [rp Hrp].
    destruct (rank_node b Hb soa_in seed z ly ar Hf _ _ _ Hrp) as (ndp & Hnp & Hpl).
    apply list_elem_of_fmap. exists ndp. split; [|by eapply list_elem_of_lookup_2].
    unfold node_lower. rewrite (placed_lower b Hb ly _ _ _ _ _ _ Hp Hpl).
    pose proof (node_ok b Hb p sp Hp) as Hokp. apply lname_ext.
    + by rewrite parent_key_labels, lower_from_name_from.
    + rewrite <- (nk_key _ _ _ Hok), <- (nk_key _ _ _ Hokp), !fqdn_lower_from, (nk_fqdn _ _ _ Hokp).
      apply base_name_fqdn. by rewrite fqdn_lower_from, (nk_fqdn _ _ _ Hok).
Qed.

Lemma asserts_index : (ht_len (index z) =? length (nodes z))%nat = true.
Proof.
  apply Nat.eqb_eq. rewrite ht_len_entries, (build_index_entries _ _ (fi_index _ _ _ _ _ _ Hf)), length_imap.
  rewrite (ai_hlen _ _ _ _ _ (fin_arena b Hb soa_in seed z ly ar Hf)).
  by rewrite (nodes_length b Hb soa_in seed z ly ar Hf).
Qed.

Lemma asserts_rrsets : assert_rrsets z = true.
Proof.
  apply forallb_all. intros nd Hnd. destruct (wf_rrsets z Hwf nd Hnd) as (all & -> & Hs & Hv).
  apply andb_true_iff. split.
  - apply windows2_all. intros i x y Hx Hy. apply N.leb_le.
    apply (sorted_lookup _ _ i (S i) x y Hs); [lia|done|done].
  - apply forallb_all. intros r Hr. rewrite Forall_forall in Hv. by destruct (Hv r Hr) as (v & vs & ->).
Qed.

Lemma asserts_depths : assert_depths z = true.
Proof.
  destruct (wf_depths z Hwf) as [Hod Hmax]. rewrite Forall_forall in Hmax.
  apply forallb_all. intros nd Hnd. specialize (Hmax nd Hnd). rewrite Hod.
  pose proof (labels_under_length _ _ (wf_under z Hwf nd Hnd)) as Hu.
  unfold node_labels in *. rewrite length_map in *. unfold label_count.
  rewrite !andb_true_iff, !Nat.leb_le, Nat.eqb_eq. split_and!; [done|done|done].
Qed.

Lemma asserts_cut_flags : assert_cut_flags z = true.
Proof.
  apply forallb_all. intros [i nd] Hin. apply list_elem_of_lookup in Hin as [j Hj].
  rewrite list_lookup_imap in Hj. destruct (nodes z !! j) as [nd'|] eqn:Hn; [|done]. cbn in Hj. injection Hj as <- <-.
  destruct (node_at_rank b Hb soa_in seed z ly ar Hf j nd' Hn) as (k & sn & Hr & Hk & Hp).
  cbv beta iota zeta. rewrite (pl_flags _ _ _ _ _ _ Hp), (pl_cut _ _ _ _ _ _ Hp).
  destruct (placed_flags_contains ly j (k, sn)) as (_ & _ & -> & ->). rewrite !eqb_reflx. cbn [andb].
  destruct (placed_cut b Hb soa_in seed z ly ar Hf Hsize j k sn nd' Hr Hp)
    as [(Hc & _ & _)|(a & d & sd & Hc & Ha & Hnear & Hfl)]; rewrite (pl_cut _ _ _ _ _ _ Hp) in Hc; rewrite Hc; [done|].
  rewrite (rank_not_none b Hb soa_in seed z ly ar Hf Hsize _ _ Ha). cbn [negb andb orb].
  apply andb_true_iff. split.
  - destruct (N.of_nat a =? N.of_nat j)%N eqn:E; [|done]. bool_prop. apply Nat2N.inj in E. subst a. cbn [negb orb].
    apply bool_decide_eq_true. rewrite Hr in Ha. injection Ha as <- <-.
    rewrite (referral_at b Hb soa_in seed z ly ar Hf Hsize j k sn nd'); [by eexists|done|done|done|apply Hnear|].
    rewrite Hfl. by apply bool_decide_eq_true.
  - apply N.ltb_lt. pose proof (rank_bound b Hb soa_in seed z ly ar Hf _ _ Ha).
    rewrite (nodes_length b Hb soa_in seed z ly ar Hf). lia.
Qed.

(** No delegation is a wildcard: the check refuses NS records there. *)
Lemma delegation_not_star d sd :
  delegation m origin d sd -> head (liter d) <> Some WILDCARD_LABEL.
Proof.
  intros (Hd & Hne & Hns) Hstar. destruct (closed_builder_ok b Hb) as (_ & Hlo & _).
  pose proof (proj1 (check_findings_nil _ _) (fi_checked _ _ _ _ _ _ Hf)) as Hsv.
  pose proof (sv_nodes _ _ Hsv d sd Hd) as Hn. rewrite Hlo in Hn.
  pose proof (node_ok b Hb d sd Hd) as Hok.
  assert (Hw : sn_wildcard sd = true).
  { rewrite (nk_wildcard _ _ _ Hok), <- is_wildcard_map_lc, <- (key_labels _ _ _ Hok).
    by apply bool_decide_eq_true. }
  unfold ns_targets in Hns. destruct (of_type RT_NS (sn_rrsets sd)) as [|run runs] eqn:E; [done|].
  assert (Hrun : run ∈ of_type RT_NS (sn_rrsets sd)) by (rewrite E; by left).
  apply list_elem_of_filter in Hrun as [Ht Hrun].
  destruct (sn_ns_plain _ _ _ Hn run Hrun Ht) as [->|Hf']; [by apply Hne|congruence].
Qed.

Lemma asserts_cut_above : assert_cut_above z = true.
Proof.
  apply forallb_all. intros nd Hnd. apply list_elem_of_lookup in Hnd as [r Hr].
  destruct (node_lower_key r nd Hr) as (k & sn & Hrk & Hk & Hlow & Hp). rewrite Hlow.
  destruct (placed_cut b Hb soa_in seed z ly ar Hf Hsize r k sn nd Hrk Hp)
    as [(-> & _ & _)|(a & d & sd & -> & Ha & (Hd & Hu & _) & _)]; [done|].
  apply orb_true_iff. right. rewrite node_get_of_nat.
  destruct (rank_node b Hb soa_in seed z ly ar Hf _ _ _ Ha) as (nda & Hna & Hpa). rewrite Hna.
  unfold node_lower. rewrite (placed_lower b Hb ly _ _ _ _ _ _ (proj1 Hd) Hpa).
  apply zone_of_spec; [by apply (delegation_not_star d sd)|done].
Qed.

Lemma asserts_all : debug_assert_invariants z = true.
Proof.
  unfold debug_assert_invariants.
  by rewrite asserts_apex, asserts_order, asserts_closed, asserts_index, asserts_rrsets, asserts_depths,
    asserts_cut_flags, asserts_cut_above.
Qed.

End Asserts.
