(* ===== verification/Answers.v ===== *)
(** * From the configuration to the answers (src/src/zone.rs, [Zone::from_config], [Zone::lookup])

    What [from_config] builds is well formed; what the lookup's algorithm has to do with
    the standard's ([spec_lookup_served]); and what it answers, case by case. *)

From S2P Require Import Prelude Names Rdata Hashing Zone Lookup Build Checked BuildFacts LayoutFacts ArenaFacts Finish.
From S2P Require Import Totality Served Asserts.
Local Open Scope vega_scope.

(** ** The answer the algorithm gives *)

Section SpecLookup.
Context {HN : HickoryNames}.

(** [spec_resolve] from an empty answer, with the referral a cut stands for. *)
Definition spec_lookup (refs : NodeIdx -> option Referral) (z : AZone) (name : LowerName) (t : RecordType)
    : Answer :=
  match spec_resolve lookup_fuel z name t 0 [] with
  | Some (Found, answers) => Records answers
  | Some (ReferralTo cut, answers) =>
      match refs cut with
      | Some r => ReferralAnswer answers (ref_authority r) (ref_additional r)
      | None => ReferralAnswer answers [] []
      end
  | Some (ResNoData, _) => NoData
  | Some (ResNxDomain, _) => NxDomain
  | None => NxDomain
  end.

(** A zone as the standard sees it. *)
Definition az_cut (refs : NodeIdx -> option Referral) (z : AZone) (ls : list label) : option Referral :=
  let cut := match az_node z ls with
             | Some nd => an_cut nd
             | None => match climb (az_node z) ls ≫= az_node z with Some nd => an_cut nd | None => NODE_NONE end
             end in
  if is_none cut then None else Some (default (mkReferral [] []) (refs cut)).

Definition az_values (z : AZone) (ls : list label) (t : RecordType) : list (N * RData) :=
  match az_node z ls with Some nd => an_values nd t | None => [] end.

Definition az_view (refs : NodeIdx -> option Referral) (z : AZone) : View :=
  mkView (az_origin z) (fun ls => match az_node z ls with Some _ => true | None => false end) (az_cut refs z) (az_values z)
    (fun ls t => match az_node z ls with Some nd => records_at (an_name nd) (an_values nd t) | None => [] end).

(** A CNAME is alone at its owner (RFC 1034 section 3.6.2). *)
Definition cname_alone (z : AZone) : Prop :=
  forall ls t, az_values z ls RT_CNAME <> [] -> t <> RT_CNAME -> az_values z ls t = [].

End SpecLookup.

(** ** The program's algorithm is the standard's, but for its departures *)

Section Standard.
Context {HN : HickoryNames} (refs : NodeIdx -> option Referral) (z : AZone) (Halone : cname_alone z).

Abbreviation v := (az_view refs z).

Lemma encloser_climb ls : encloser (v_node v) ls = climb (az_node z) ls.
Proof using. induction ls as [|l ls IH]; [done|]. cbn [encloser climb]. rewrite IH. cbn. by destruct (az_node z ls). Qed.

(** One call of [resolve] is one step. *)
Lemma spec_step fuel name t depth out : is_any t = false -> exists i,
  (forall r, served_step v name t = Delegated r -> default (mkReferral [] []) (refs i) = r) /\
  (forall records next, served_step v name t = Alias records next -> records <> []) /\
  spec_resolve (S fuel) z name t depth out =
  match served_step v name t with
  | NoSuchName => Some (ResNxDomain, out)
  | NothingHere => Some (ResNoData, out)
  | Delegated _ => Some (ReferralTo i, out)
  | Answered records => Some (Found, out ++ records)
  | Alias records next =>
      if (MAX_CNAME_DEPTH <=? depth)%nat then Some (Found, out ++ records)
      else match next with
      | None => Some (Found, out ++ records)
      | Some target =>
          match spec_resolve fuel z target t (S depth) (out ++ records) with
          | Some (ReferralTo cut, o) => Some (ReferralTo cut, o)
          | Some (_, o) => Some (Found, o)
          | None => None
          end
      end
  end.
Proof using Halone.
  intros Hany. cbn [spec_resolve]. unfold served_step, wildcard_alias, standard_step, source, records_for. rewrite encloser_climb.
  cbn [v_origin v_node v_cut v_values v_records az_view]. unfold az_cut. rewrite Hany.
  destruct (under_origin _ (liter name)); cbn [negb]; [|by exists 0%N].
  destruct (az_node z (liter name)) as [nd|] eqn:En.
  - destruct (is_none (an_cut nd)); cbn [negb]; [|by exists (an_cut nd); split_and!; [intros r [= <-]| |]]. exists 0%N.
    pose proof (Halone (liter name) t) as Ha. unfold az_values in *. rewrite En in Ha |- *.
    destruct (t =? RT_CNAME)%N eqn:Et; cbn [orb]; bool_prop; [by destruct (an_values nd t)|].
    destruct (an_values nd RT_CNAME) as [|[ttl value] vs] eqn:Ec; [by destruct (an_values nd t), (is_wildcard_name (liter name))|].
    rewrite (Ha ltac:(done) ltac:(done)). destruct (is_wildcard_name (liter name)); [done|].
    split_and!; [done|by intros ? ? [= <- _]|]. destruct (_ <=? _)%nat; [done|]. destruct value; try done. by destruct (under_origin _ _).
  - destruct (climb (az_node z) (liter name)) as [ce|]; cbn [mbind option_bind]; [|by exists 0%N].
    destruct (is_none _); cbn [negb].
    2:{ match goal with |- context [ReferralTo ?c] => exists c end. split_and!; [by intros r [= <-]|done|done]. }
    exists 0%N. destruct (az_node z (WILDCARD_LABEL :: ce)) as [w|] eqn:Ew; [|done].
    pose proof (Halone (WILDCARD_LABEL :: ce) t) as Ha. unfold az_values in *. rewrite Ew in Ha |- *.
    destruct (t =? RT_CNAME)%N eqn:Et; bool_prop; [by destruct (an_values w t)|].
    destruct (an_values w RT_CNAME) as [|[ttl value] vs]; [by destruct (an_values w t)|].
    by rewrite (Ha ltac:(done) ltac:(done)).
Qed.

Lemma spec_chase hops name t depth out :
  is_any t = false -> (depth + hops = MAX_CNAME_DEPTH)%nat ->
  chase (served_step v) hops name t out =
  match spec_resolve (S hops) z name t depth out with
  | Some (Found, o) => Records o
  | Some (ReferralTo cut, o) =>
      let r := default (mkReferral [] []) (refs cut) in ReferralAnswer o (ref_authority r) (ref_additional r)
  | Some (ResNoData, o) => match out with [] => NoData | _ => Records o end
  | Some (ResNxDomain, o) => match out with [] => NxDomain | _ => Records o end
  | None => NxDomain
  end.
Proof using Halone.
  intros Hany. revert name depth out. induction hops as [|hops IH]; intros name depth out Hd;
    match goal with |- context [spec_resolve (S ?fuel) _ _ _ _ _] => destruct (spec_step fuel name t depth out Hany) as (i & Hi & Hne & ->) end;
    cbn [chase]; destruct (served_step v name t) as [| |r|rs|rs next] eqn:Es; try done; try by rewrite (Hi r).
  - replace (MAX_CNAME_DEPTH <=? depth)%nat with true by (symmetry; apply Nat.leb_le; lia). done.
  - replace (MAX_CNAME_DEPTH <=? depth)%nat with false by (symmetry; apply Nat.leb_gt; lia).
    destruct next as [target|]; [|done]. rewrite (IH target (S depth)) by lia.
    assert (Hout : out ++ rs <> []) by (intros [_ ?]%app_eq_nil; by eapply Hne).
    destruct (out ++ rs) as [|r o]; [done|]. by destruct (spec_resolve _ _ _ _ _ _) as [[[] o']|].
Qed.

Lemma spec_any name t : is_any t = true ->
  spec_lookup refs z name t = match standard_lookup v name RT_CNAME with Records _ => NoData | a => a end.
Proof using.
  intros Hany. unfold spec_lookup, standard_lookup. change MAX_CNAME_DEPTH with (S (pred MAX_CNAME_DEPTH)).
  cbn [lookup_fuel spec_resolve chase]. unfold standard_step, source, records_for. rewrite encloser_climb. rewrite Hany.
  cbn [v_origin v_node v_cut v_values v_records az_view]. unfold az_cut, az_values.
  destruct (under_origin _ (liter name)); cbn [negb]; [|done].
  destruct (az_node z (liter name)) as [nd|] eqn:En.
  - destruct (is_none (an_cut nd)); cbn [negb]; [|by destruct (refs _)]. rewrite En. cbn. by destruct (an_values nd RT_CNAME).
  - destruct (climb (az_node z) (liter name)) as [ce|]; cbn [mbind option_bind]; [|done].
    destruct (is_none _); cbn [negb]; [|by destruct (refs _)].
    destruct (az_node z (WILDCARD_LABEL :: ce)) as [w|] eqn:Ew; [|done]. rewrite Ew. cbn. by destruct (an_values w RT_CNAME).
Qed.

Lemma spec_lookup_served name t : spec_lookup refs z name t = served_lookup v name t.
Proof using Halone.
  unfold served_lookup. destruct (is_any t) eqn:Hany; [by apply spec_any|].
  rewrite (spec_chase _ _ _ 0) by done. unfold spec_lookup, lookup_fuel.
  destruct (spec_resolve _ _ _ _ _ _) as [[[|cut| |] o]|]; try done. by destruct (refs cut).
Qed.

End Standard.

(** ** Configurations *)

(** The text of the names is plain: no backslash in any of them (an escaped asterisk is an
    asterisk label that the code does not take for a wildcard), and the origin is
    neither empty nor a wildcard. *)
Record plain_config (cfg : ZoneConfig) : Prop := {
  pc_origin_free : backslash_free (zc_origin cfg) = true;
  pc_origin_nonempty : zc_origin cfg <> ""%string;
  pc_origin_star : is_wildcard_text (zc_origin cfg) = false;
  pc_records : Forall (fun r => backslash_free (rs_name r) = true) (zc_records cfg);
}.

Section FromConfig.
Context {HN : HickoryNames} {HL : HickoryNamesLaws HN} {HR : HickoryRdata HN} {HO : HashOrder}.
Context {HT : HashTableApi} {TL : HashTableLaws HT}.

(** The scratch zone a configuration amounts to, once its records are read. *)
Definition config_builder (cfg : ZoneConfig) : result BuildError ZoneBuilder :=
  let? origin := map_err (fun _ => InvalidOrigin (zc_origin cfg)) (parse_name (zc_origin cfg)) in
  fold_res insert_spec (ZoneBuilder_new origin (lower_from origin) (zc_default_ttl cfg)) (zc_records cfg).

Lemma config_builder_ok cfg b : plain_config cfg -> config_builder cfg = Ok b -> BuilderOk b.
Proof.
  intros [Hfree Hne Hstar Hrecs] H. unfold config_builder in H. apply rbind_ok in H as (origin & Ho & H).
  unfold parse_name in Ho. destruct (name_from_str (zc_origin cfg)) as [n|] eqn:En; [|done].
  cbn in Ho. injection Ho as <-. revert H. apply fold_res_ind.
  - intros b1 spec b2 Hin Hok Hs. eapply insert_spec_ok; [|exact Hok|exact Hs].
    rewrite Forall_forall in Hrecs. by apply Hrecs.
  - constructor; cbn; [done|apply set_fqdn_spec| |apply map_Forall_empty].
    rewrite liter_lower_from, set_fqdn_labels. intros Hh.
    assert (Hs : head (iter n) = Some WILDCARD_LABEL).
    { destruct (iter n) as [|l ls]; [done|]. cbn in Hh |- *. injection Hh as Hh. f_equal. by apply lc_wildcard. }
    rewrite (name_from_str_star _ _ Hfree Hne En Hs) in Hstar. done.
Qed.

Lemma config_builder_origin cfg b :
  config_builder cfg = Ok b -> map_err (fun _ => InvalidOrigin (zc_origin cfg)) (parse_name (zc_origin cfg)) = Ok (zb_origin b).
Proof using.
  intros H. unfold config_builder in H. apply rbind_ok in H as (origin & -> & H). f_equal. symmetry.
  revert H. apply (fold_res_ind (fun b => zb_origin b = origin)); [|done].
  intros b1 spec b2 _ Ho Hs. apply insert_spec_frame in Hs as (H & _ & _). congruence.
Qed.

(** [from_config] with its prefix evaluated. *)
Lemma from_config_unfold seed cfg b :
  config_builder cfg = Ok b ->
  from_config seed cfg =
    let? soa := match zc_soa cfg with
                | Some spec => let? r := build_soa (zb_origin b) spec in Ok (Some r)
                | None => Ok None
                end in
    finish b soa seed.
Proof using.
  intros Hb. pose proof (config_builder_origin _ _ Hb) as Ho. unfold from_config.
  unfold config_builder in Hb. rewrite Ho in *. cbn [rbind] in *. by rewrite Hb.
Qed.

Lemma from_config_inv seed cfg z :
  from_config seed cfg = Ok z ->
  exists b soa_in, config_builder cfg = Ok b /\ finish b soa_in seed = Ok z /\
    (soa_in = None <-> zc_soa cfg = None).
Proof.
  intros H. unfold from_config in H. apply rbind_ok in H as (origin & Ho & H).
  apply rbind_ok in H as (soa_in & Hsoa & H). apply rbind_ok in H as (b & Hb & H).
  exists b, soa_in. unfold config_builder. rewrite Ho. cbn. split_and!; [done|done|].
  destruct (zc_soa cfg) as [spec|]; [|by injection Hsoa as <-].
  apply rbind_ok in Hsoa as (r & _ & Hr). by injection Hr as <-.
Qed.

Lemma from_config_finished seed cfg z :
  plain_config cfg -> from_config seed cfg = Ok z ->
  exists b soa_in ly ar, config_builder cfg = Ok b /\ BuilderOk b /\ Finished b soa_in seed z ly ar.
Proof.
  intros Hp H. destruct (from_config_inv _ _ _ H) as (b & soa_in & Hb & Hfin & _).
  destruct (finish_inv _ _ _ _ Hfin) as (ly & ar & Hf). exists b, soa_in, ly, ar.
  split_and!; [done|by eapply config_builder_ok|done].
Qed.

Lemma from_config_wf seed cfg z : plain_config cfg -> from_config seed cfg = Ok z -> ZoneWf z.
Proof.
  intros Hp H. destruct (from_config_finished _ _ _ Hp H) as (b & soa_in & ly & ar & _ & Hb & Hf).
  by eapply finished_wf.
Qed.

Lemma lookup_spec z name t :
  ZoneWf z -> Zone_lookup z name t = spec_lookup (fun i => referrals z !! i) (abs_zone z) name t.
Proof. intros Hwf. unfold Zone_lookup, spec_lookup, Zone_referral. by rewrite resolve_spec. Qed.

(** In a well-formed zone a CNAME is alone. *)
Lemma wf_alone z : ZoneWf z -> cname_alone (abs_zone z).
Proof.
  intros Hwf ls t. unfold az_values. cbn [az_node abs_zone]. destruct (find_node z ls) as [[i nd]|] eqn:Hf; [|by cbn].
  cbn [fmap option_fmap option_map an_values abs_node compose snd].
  apply find_node_some in Hf as [Hi _]; [|done]. apply list_elem_of_lookup_2 in Hi.
  destruct (wf_rrsets _ Hwf nd Hi) as (all & Hg & _). unfold node_values, run_values. rewrite Hg. cbn [default id]. intros Hne Ht.
  destruct (filter (fun r => rr_type r = RT_CNAME) all) as [|r rs] eqn:E; [by destruct Hne|].
  assert (Hr : r ∈ filter (fun r => rr_type r = RT_CNAME) all) by (rewrite E; left).
  apply list_elem_of_filter in Hr as [Hrt Hr]. rewrite (wf_cname_alone _ Hwf nd all r Hi Hg Hr Hrt).
  rewrite filter_cons_False; [done|congruence].
Qed.

(** ** The algorithm, case by case *)

Section Cases.
Context (z : AZone) (name : LowerName) (t : RecordType) (refs : NodeIdx -> option Referral).

Lemma spec_lookup_outside :
  under_origin (az_origin z) (liter name) = false -> spec_lookup refs z name t = NxDomain.
Proof using. unfold spec_lookup. cbn [lookup_fuel spec_resolve]. by intros ->. Qed.

Lemma spec_lookup_cut_exact nd r :
  under_origin (az_origin z) (liter name) = true -> az_node z (liter name) = Some nd ->
  is_none (an_cut nd) = false -> refs (an_cut nd) = Some r ->
  spec_lookup refs z name t = ReferralAnswer [] (ref_authority r) (ref_additional r).
Proof using.
  unfold spec_lookup. cbn [lookup_fuel spec_resolve]. intros -> -> -> Hr. cbn [negb]. by rewrite Hr.
Qed.

Lemma spec_lookup_exact nd :
  under_origin (az_origin z) (liter name) = true -> az_node z (liter name) = Some nd ->
  is_none (an_cut nd) = true -> is_any t = false -> an_values nd t <> [] ->
  spec_lookup refs z name t = Records (records_at (an_name nd) (an_values nd t)).
Proof using.
  unfold spec_lookup. cbn [lookup_fuel spec_resolve]. intros -> -> -> -> Hv. cbn [negb].
  by destruct (an_values nd t).
Qed.

Lemma spec_lookup_nodata nd :
  under_origin (az_origin z) (liter name) = true -> az_node z (liter name) = Some nd ->
  is_none (an_cut nd) = true -> an_values nd t = [] ->
  (an_values nd RT_CNAME = [] \/ is_wildcard_name (liter name) = true) ->
  spec_lookup refs z name t = NoData.
Proof using.
  unfold spec_lookup. cbn [lookup_fuel spec_resolve]. intros -> -> -> -> Hc. cbn [negb].
  destruct (is_any t); [done|]. destruct Hc as [-> | ->]; [by destruct (_ || _)|by rewrite orb_true_r].
Qed.

Lemma spec_lookup_cut_above ce nd r :
  under_origin (az_origin z) (liter name) = true -> az_node z (liter name) = None ->
  climb (az_node z) (liter name) = Some ce -> az_node z ce = Some nd ->
  is_none (an_cut nd) = false -> refs (an_cut nd) = Some r ->
  spec_lookup refs z name t = ReferralAnswer [] (ref_authority r) (ref_additional r).
Proof using.
  unfold spec_lookup. cbn [lookup_fuel spec_resolve]. intros -> -> -> -> -> Hr. cbn [negb]. by rewrite Hr.
Qed.

Lemma spec_lookup_nxdomain ce nd :
  under_origin (az_origin z) (liter name) = true -> az_node z (liter name) = None ->
  climb (az_node z) (liter name) = Some ce -> az_node z ce = Some nd ->
  is_none (an_cut nd) = true -> az_node z (WILDCARD_LABEL :: ce) = None ->
  spec_lookup refs z name t = NxDomain.
Proof using.
  unfold spec_lookup. cbn [lookup_fuel spec_resolve]. intros -> -> -> -> -> Hr. cbn [negb]. by rewrite Hr.
Qed.

Lemma spec_lookup_synthesis ce nd w :
  under_origin (az_origin z) (liter name) = true -> az_node z (liter name) = None ->
  climb (az_node z) (liter name) = Some ce -> az_node z ce = Some nd ->
  is_none (an_cut nd) = true -> az_node z (WILDCARD_LABEL :: ce) = Some w ->
  is_any t = false ->
  spec_lookup refs z name t =
    match an_values w t with [] => NoData | vs => Records (records_at (name_from name) vs) end.
Proof using.
  unfold spec_lookup. cbn [lookup_fuel spec_resolve]. intros -> -> -> -> -> -> ->. cbn [negb].
  by destruct (an_values w t).
Qed.

(** NXDOMAIN is the answer exactly when there is no name and nothing stands for it. *)
Lemma spec_lookup_nx_inv :
  spec_lookup refs z name t = NxDomain ->
  under_origin (az_origin z) (liter name) = false \/
  (az_node z (liter name) = None /\
   match climb (az_node z) (liter name) with
   | None => True
   | Some ce => (is_none (match az_node z ce with Some nd => an_cut nd | None => NODE_NONE end) = true) /\
                az_node z (WILDCARD_LABEL :: ce) = None
   end).
Proof using.
  unfold spec_lookup. cbn [lookup_fuel spec_resolve].
  destruct (under_origin (az_origin z) (liter name)) eqn:Hu; [cbn [negb]|by left]. intros H. right.
  destruct (az_node z (liter name)) as [nd|] eqn:En.
  { exfalso. revert H. destruct (is_none (an_cut nd)); cbn [negb]; [|by destruct (refs (an_cut nd))].
    destruct (is_any t); [done|]. destruct (an_values nd t); [|done]. destruct (_ || _); [done|].
    destruct (an_values nd RT_CNAME) as [|[ttl v] vs]; [done|]. destruct (_ <=? _)%nat; [done|].
    destruct v as [| | |target| | | | | | |]; try done.
    destruct (under_origin (az_origin z) (liter (lower_from target))); [|done].
    destruct (spec_resolve _ _ _ _ _ _) as [[[|cut| |] ?]|] eqn:E; cbn.
    1, 3, 4: done.
    1: by destruct (refs cut).
    intros _. revert E. apply spec_resolve_total; unfold MAX_CNAME_DEPTH; lia. }
  split; [done|]. destruct (climb (az_node z) (liter name)) as [ce|]; [|done].
  destruct (is_none _); cbn [negb] in H; [|by destruct (refs _)].
  destruct (az_node z (WILDCARD_LABEL :: ce)) as [w|]; [|done]. exfalso. revert H.
  destruct (is_any t); [done|]. by destruct (an_values w t).
Qed.

Lemma spec_lookup_nx :
  az_node z (liter name) = None ->
  (forall ce, climb (az_node z) (liter name) = Some ce ->
     is_none (match az_node z ce with Some nd => an_cut nd | None => NODE_NONE end) = true /\
     az_node z (WILDCARD_LABEL :: ce) = None) ->
  spec_lookup refs z name t = NxDomain.
Proof using.
  unfold spec_lookup. cbn [lookup_fuel spec_resolve]. intros -> Hce.
  destruct (under_origin _ _); [cbn [negb]|done]. destruct (climb _ _) as [ce|]; [|done].
  destruct (Hce ce eq_refl) as [-> ->]. done.
Qed.

End Cases.

Lemma climb_skip (f : list label -> option ANode) ls p :
  (forall x, labels_under ls x -> labels_under x (p ++ ls) -> f x = None) ->
  p <> [] -> climb f (p ++ ls) = climb f ls.
Proof using.
  induction p as [|l p IH]; intros Hno Hp; [done|]. cbn [climb app].
  rewrite Hno by (first [by exists p | by exists [l]]).
  destruct p as [|l' p]; [done|]. apply IH; [|done]. intros x Hx Hx'. apply Hno; [done|].
  by apply labels_under_cons.
Qed.

Lemma node_ancestor z x y :
  ZoneWf z -> labels_under (liter (lower_origin z)) y -> labels_under y x ->
  find_node z y = None -> find_node z x = None.
Proof.
  intros Hwf Ho [p ->] Hn. pose proof (labels_under_length _ _ Ho) as Hl.
  rewrite <- (suffix_of_full (p ++ y)). apply (find_closed_le z Hwf (p ++ y) (length y)).
  - len.
  - done.
  - unfold suffix_of. by rewrite length_app, Nat.add_sub, drop_app_length.
Qed.
End FromConfig.

(** ** The node set *)

Section NodeSet.
Context {HN : HickoryNames} {HL : HickoryNamesLaws HN} {HR : HickoryRdata HN} {HO : HashOrder}.
Context (b : ZoneBuilder) (Hb : BuilderOk b).

Abbreviation m := (zb_nodes (closed_builder b)).
Abbreviation origin := (liter (zb_lower_origin b)).

(** Every ancestor of a node, down to the origin, is a node. *)
Lemma ancestors_present p ls k sn :
  m !! k = Some sn -> liter k = p ++ ls -> labels_under origin ls -> exists k' sn', m !! k' = Some sn' /\ liter k' = ls.
Proof.
  revert k sn; induction p as [|l p IH]; intros k sn Hk Hl Ho; [by exists k, sn|].
  destruct (parent_present b Hb k sn Hk) as (k1 & s1 & Hk1 & Hl1).
  - rewrite Hl. intros He. apply labels_under_length in Ho. apply (f_equal length) in He.
    cbn in He. rewrite length_app in He. lia.
  - apply (IH k1 s1 Hk1); [|done]. by rewrite Hl1, Hl.
Qed.

Lemma declared_kept k sn : zb_nodes b !! k = Some sn -> m !! k = Some sn.
Proof.
  intros Hk. destruct (closed_builder_ok b Hb) as (_ & _ & _ & [Hsub _] & _).
  eapply lookup_weaken; [|exact Hsub]. cbn. destruct (decide (k = zb_lower_origin b)) as [->|Hne].
  - by rewrite lookup_insert_eq, Hk.
  - by rewrite lookup_insert_ne.
Qed.

Lemma node_origin k sn :
  m !! k = Some sn -> zb_nodes b !! k = None ->
  sn_rrsets sn = [] /\
  (liter k = origin \/ exists d sd, zb_nodes b !! d = Some sd /\ labels_under (liter k) (liter d)).
Proof.
  intros Hk Hno. destruct (closed_builder_ok b Hb) as (_ & _ & _ & [_ Hnew] & _).
  destruct (zb_nodes (with_apex b) !! k) as [sa|] eqn:Ea.
  - cbn in Ea. destruct (decide (k = zb_lower_origin b)) as [->|Hne].
    + rewrite lookup_insert_eq, Hno in Ea. cbn in Ea. injection Ea as <-.
      assert (m !! zb_lower_origin b = Some (mkScratchNode (zb_origin b) false [])) as Hm.
      { destruct (closed_builder_ok b Hb) as (_ & _ & _ & [Hsub _] & _).
        eapply lookup_weaken; [|exact Hsub]. cbn. by rewrite lookup_insert_eq, Hno. }
      rewrite Hm in Hk. injection Hk as <-. split; [done|by left].
    + rewrite lookup_insert_ne in Ea by done. congruence.
  - destruct (Hnew k sn Hk Ea) as (-> & Hlen & d & [sd Hd] & Hu). split; [done|].
    cbn in Hd. destruct (decide (d = zb_lower_origin b)) as [->|Hne].
    + apply labels_under_length in Hu. lia.
    + rewrite lookup_insert_ne in Hd by done. right. by exists d, sd.
Qed.

End NodeSet.

(** ** Aborts

    The one error value that stands for the end of the process. *)

Section NoAbort.
Context {HN : HickoryNames} {HR : HickoryRdata HN} {RL : HickoryRdataLaws HN HR} {HO : HashOrder}.
Context {HT : HashTableApi}.

Lemma arena_offset_no_abort n : arena_offset n <> Err LexerAborted.
Proof using. unfold arena_offset. by case_match. Qed.

Lemma qualify_no_abort b text : qualify b text <> Err LexerAborted.
Proof using.
  unfold qualify. intros H. destruct (_ || _); [done|]. destruct (str_ends_with_char _ _).
  - apply rbind_err in H as [H|(n & _ & H)]; [|by destruct (negb _)]. unfold parse_name in H. by case_match.
  - unfold ok_or in H. by case_match.
Qed.

Lemma insert_spec_no_abort b spec : insert_spec b spec <> Err LexerAborted.
Proof.
  unfold insert_spec. intros H. apply rbind_err in H as [H|(t & _ & H)].
  { unfold ok_or in H. by case_match. }
  destruct (rs_values spec) as [|v vs]; [done|].
  apply rbind_err in H as [H|(owner & _ & H)]; [by apply qualify_no_abort in H|].
  apply rbind_err in H as [H|(rd & _ & H)].
  - apply map_res_err in H as (value & _ & H). unfold parse_spec_value in H.
    pose proof (parse_value_returns t (rs_name spec) value) as Hr.
    destruct (parse_value _ _ _) as [[|[]]|]; done.
  - by destruct (if is_wildcard_text _ then _ else _).
Qed.

Lemma layout_no_abort entries : layout entries <> Err LexerAborted.
Proof using.
  unfold layout. intros H. apply rbind_err in H as [H|([keys spans] & _ & H)].
  - apply fold_res_err in H as ([ks sp] & e & _ & H).
    apply rbind_err in H as [H|(s & _ & H)]; [by apply arena_offset_no_abort in H|].
    apply rbind_err in H as [H|(s' & _ & H)]; [by apply arena_offset_no_abort in H|done].
  - apply rbind_err in H as [H|(s & _ & H)]; [|done].
    apply fold_res_err in H as (cs & r & _ & H). unfold cut_step in H.
    destruct (if (r =? 0)%nat then _ else _); [|done].
    apply rbind_err in H as [H|(s & _ & H)]; [by apply arena_offset_no_abort in H|done].
Qed.

Lemma push_run_no_abort acc run : push_run acc run <> Err LexerAborted.
Proof using.
  destruct acc as [[rrs rds] flags]. unfold push_run. intros H.
  apply rbind_err in H as [H|(s & _ & H)]; [by apply arena_offset_no_abort in H|].
  apply rbind_err in H as [H|(s' & _ & H)]; [by apply arena_offset_no_abort in H|done].
Qed.

Lemma place_node_no_abort seed cuts dels s e : place_node seed cuts dels s e <> Err LexerAborted.
Proof using.
  destruct e as [rank pos]. unfold place_node. destruct (ar_slots s !! pos) as [[[lower scratch]|]|]; [|done..].
  intros H. apply rbind_err in H as [H|(here & _ & H)]; [by apply arena_offset_no_abort in H|].
  destruct (apply_cut _ _ _ _ _) as [[[runs flags] dropped] notes] in H.
  apply rbind_err in H as [H|(rs & _ & H)]; [by apply arena_offset_no_abort in H|].
  apply rbind_err in H as [H|([[rrs rds] fl] & _ & H)].
  { apply fold_res_err in H as (acc & run & _ & H). by apply push_run_no_abort in H. }
  apply rbind_err in H as [H|(re & _ & H)]; [by apply arena_offset_no_abort in H|done].
Qed.

Lemma finish_no_abort b soa_in seed : finish b soa_in seed <> Err LexerAborted.
Proof using.
  unfold finish. intros H. apply rbind_err in H as [H|(u & _ & H)].
  { unfold check_invariants in H. by destruct (check_findings _ _). }
  apply rbind_err in H as [H|(rec & _ & H)]; [unfold ok_or in H; by case_match|].
  apply rbind_err in H as [H|(ly & _ & H)]; [by apply layout_no_abort in H|].
  apply rbind_err in H as [H|(ar & _ & H)].
  { apply fold_res_err in H as (s & e & _ & H). by apply place_node_no_abort in H. }
  apply rbind_err in H as [H|(idx & _ & H)]; [|by destruct (build_referrals _ _)].
  apply fold_res_err in H as (t & e & _ & H).
  apply rbind_err in H as [H|(i & _ & H)]; [by apply arena_offset_no_abort in H|done].
Qed.

End NoAbort.

(** ** What the configuration's names get *)

Section Config.
Context {HN : HickoryNames} {HL : HickoryNamesLaws HN} {HR : HickoryRdata HN} {HO : HashOrder}.
Context {HT : HashTableApi} {TL : HashTableLaws HT}.

(** A zone served from a configuration: the text is plain, the build accepted it,
    and there are fewer nodes than the sentinel index. *)
Record serves (seed : N) (cfg : ZoneConfig) (b : ZoneBuilder) (z : Zone) : Prop := {
  sv_plain : plain_config cfg;
  sv_builder : config_builder cfg = Ok b;
  sv_built : from_config seed cfg = Ok z;
  sv_size : (N.of_nat (length (entries_of b)) <= u32_MAX)%N;
}.

Context (seed : N) (cfg : ZoneConfig) (b : ZoneBuilder) (z : Zone) (Hs : serves seed cfg b z).

Abbreviation m := (zb_nodes (closed_builder b)).
Abbreviation origin := (liter (zb_lower_origin b)).
Abbreviation refs := (fun i => referrals z !! i).

Lemma serves_finished : exists soa_in ly ar, BuilderOk b /\ Finished b soa_in seed z ly ar.
Proof.
  destruct (from_config_finished seed cfg z (sv_plain _ _ _ _ Hs) (sv_built _ _ _ _ Hs))
    as (b' & soa_in & ly & ar & Hb' & Hok & Hf).
  rewrite (sv_builder _ _ _ _ Hs) in Hb'. injection Hb' as <-. by exists soa_in, ly, ar.
Qed.

Lemma serves_wf : ZoneWf z.
Proof. eapply from_config_wf; [apply (sv_plain _ _ _ _ Hs)|apply (sv_built _ _ _ _ Hs)]. Qed.

Lemma serves_origin : az_origin (abs_zone z) = origin.
Proof.
  destruct serves_finished as (soa_in & ly & ar & Hb & Hf). cbn. by rewrite (fi_origin _ _ _ _ _ _ Hf).
Qed.

Lemma key_under k sn : m !! k = Some sn -> labels_under origin (liter k).
Proof.
  intros Hk. destruct serves_finished as (soa_in & ly & ar & Hb & Hf).
  apply (nk_under _ _ _ (node_ok b Hb k sn Hk)).
Qed.

(** The abstract node at a key that no delegation covers. *)
Lemma az_undelegated k sn :
  m !! k = Some sn -> undelegated m origin (liter k) ->
  exists nd, az_node (abs_zone z) (liter k) = Some nd /\ an_name nd = sn_name sn /\
    is_none (an_cut nd) = true /\ forall t, an_values nd t = scratch_values sn t.
Proof.
  intros Hk Hun. destruct serves_finished as (soa_in & ly & ar & Hb & Hf).
  pose proof (sv_size _ _ _ _ Hs) as Hsize.
  destruct (find_key b Hb soa_in seed z ly ar Hf k sn Hk) as (r & nd & Hfn & Hr & Hp).
  exists (abs_node z nd). cbn [az_node abs_zone]. rewrite Hfn. split_and!; [done|apply (pl_name _ _ _ _ _ _ Hp)| |].
  - destruct (placed_cut b Hb soa_in seed z ly ar Hf Hsize r k sn nd Hr Hp)
      as [(Hc & _)|(a & d & sd & _ & _ & Hn & _)]; [cbn; by rewrite Hc|].
    exfalso. destruct Hn as (Hd & Hu & _). by apply (Hun d sd).
  - intros t. destruct (placed_values b Hb soa_in seed z ly ar Hf Hsize r k sn nd t Hr Hp)
      as [[_ H]|(d & sd & Hn & _)]; [done|].
    exfalso. destruct Hn as (Hd & Hu & _). by apply (Hun d sd).
Qed.

Lemma az_absent ls : (forall k sn, m !! k = Some sn -> liter k <> ls) -> az_node (abs_zone z) ls = None.
Proof.
  intros Hno. destruct serves_finished as (soa_in & ly & ar & Hb & Hf). cbn [az_node abs_zone].
  by rewrite (find_absent b Hb soa_in seed z ly ar Hf ls Hno).
Qed.

Lemma az_is_key ls nd : az_node (abs_zone z) ls = Some nd -> exists k sn, m !! k = Some sn /\ liter k = ls.
Proof.
  intros H. destruct serves_finished as (soa_in & ly & ar & Hb & Hf). cbn [az_node abs_zone] in H.
  destruct (find_node z ls) as [[r nd']|] eqn:E; [|done].
  destruct (find_is_key b Hb soa_in seed z ly ar Hf ls r nd' E) as (k & sn & Hl & Hk & _). by exists k, sn.
Qed.

Lemma az_present k sn : m !! k = Some sn -> az_node (abs_zone z) (liter k) <> None.
Proof.
  intros Hk. destruct serves_finished as (soa_in & ly & ar & Hb & Hf).
  destruct (find_key b Hb soa_in seed z ly ar Hf k sn Hk) as (r & nd & Hfn & _).
  cbn [az_node abs_zone]. by rewrite Hfn.
Qed.

(** [kc] is the closest encloser of a name that is not in the zone. *)
Definition encloses (ls : list label) (kc : LowerName) : Prop :=
  (forall k sn, m !! k = Some sn -> liter k <> ls) /\
  is_Some (m !! kc) /\ labels_under (liter kc) ls /\
  forall k sn, m !! k = Some sn -> labels_under (liter k) ls -> labels_under (liter k) (liter kc).

Lemma climb_encloser ls kc : encloses ls kc -> climb (az_node (abs_zone z)) ls = Some (liter kc).
Proof.
  intros (Hno & [sc Hc] & Hu & Hdeep).
  destruct (climb (az_node (abs_zone z)) ls) as [ce|] eqn:E.
  - apply climb_some in E as (Hnode & Hce & Hne & Hmax).
    destruct (az_node (abs_zone z) ce) as [nd|] eqn:En; [|done].
    destruct (az_is_key ce nd En) as (k & sn & Hk & <-). f_equal. apply labels_under_antisym.
    + by eapply Hdeep.
    + apply Hmax; [done|by eapply Hno|by eapply az_present].
  - exfalso. revert E. apply (climb_found _ _ (liter kc)); [done|by eapply Hno|by eapply az_present].
Qed.

Lemma undelegated_above ls kc : undelegated m origin ls -> labels_under (liter kc) ls -> undelegated m origin (liter kc).
Proof. intros Hun Hu d sd Hd Hud. eapply (Hun d sd Hd), labels_under_trans; done. Qed.

Lemma under_true ls k sn : m !! k = Some sn -> labels_under (liter k) ls -> under_origin (az_origin (abs_zone z)) ls = true.
Proof.
  intros Hk Hu. rewrite serves_origin. apply under_origin_spec. eapply labels_under_trans; [by eapply key_under|done].
Qed.

(** A wildcard is never a delegation itself, so what covers it covers its parent. *)
Lemma undelegated_wildcard ls kc kw :
  encloses ls kc -> undelegated m origin ls -> liter kw = WILDCARD_LABEL :: liter kc ->
  undelegated m origin (liter kw).
Proof.
  intros (_ & _ & Hu & _) Hun Hl d sd Hd Hud.
  destruct serves_finished as (soa_in & ly & ar & Hb & Hf).
  pose proof (delegation_not_star b Hb soa_in seed z ly ar Hf d sd Hd) as Hstar.
  rewrite Hl in Hud. apply labels_under_proper in Hud; [|intros He; by rewrite He in Hstar].
  apply (Hun d sd Hd). by eapply labels_under_trans.
Qed.

(** The node a delegation is served from carries its referral. *)
Lemma cut_referral r k sn nd d sd :
  find_node z (liter k) = Some (r, nd) -> m !! k = Some sn -> nearest m origin (liter k) d sd ->
  is_none (nd_cut nd) = false /\
  referrals z !! nd_cut nd = Some (mkReferral (records_at (sn_name sd) (scratch_values sd RT_NS))
            (flat_map (glue_of z) (firsts [] (ns_values sd)))).
Proof.
  intros Hfn Hk Hn. destruct serves_finished as (soa_in & ly & ar & Hb & Hf). pose proof (sv_size _ _ _ _ Hs) as Hsize.
  destruct (find_key b Hb soa_in seed z ly ar Hf k sn Hk) as (r' & nd' & Hfn' & Hr & Hp).
  rewrite Hfn in Hfn'. injection Hfn' as <- <-.
  destruct (placed_cut b Hb soa_in seed z ly ar Hf Hsize r k sn nd Hr Hp)
    as [(_ & Hun & _)|(a & d' & sd' & Hc & Ha & Hn' & _)].
  { exfalso. destruct Hn as (Hd & Hu & _). by apply (Hun d sd). }
  destruct (nearest_unique b Hb _ _ _ _ _ Hn Hn') as [<- <-].
  rewrite Hc. split; [by eapply (rank_not_none b Hb soa_in seed z ly ar Hf Hsize)|].
  destruct (delegation_placed b Hb soa_in seed z ly ar Hf Hsize d sd (proj1 Hn)) as (a' & ndd & Hfd & Ha' & Hpd & Hcd & Hfl).
  pose proof (ranked_inj b Hb soa_in seed z ly ar Hf _ _ _ _ Ha Ha' eq_refl). subst a'.
  apply (referral_at b Hb soa_in seed z ly ar Hf Hsize a d sd ndd); [done| |done|apply Hn|done].
  apply find_node_some in Hfd as [Hfd _]; [done|apply serves_wf].
Qed.

End Config.

#[export] Hint Resolve serves_wf : vega.
