(* ===== verification/ZoneTheorems.v ===== *)
(** * The zone's promises (src/src/zone.rs)

    The properties of the build and of the lookup, each stated on its own; the
    lemmas behind them are in the files this one requires, and the concrete
    instances in [ZoneExamples]. *)

From S2P Require Import Prelude Names Rdata Hashing Zone Lookup Build Checked BuildFacts LayoutFacts ArenaFacts Finish.
From S2P Require Import Totality Served Asserts Answers.
Local Open Scope vega_scope.

Section Keys.
Context {HN : HickoryNames} {HL : HickoryNamesLaws HN}.

(** C39: the build sorts names by octet strings, and their order is the canonical one of
    RFC 4034 section 6.1: the labels compared from the rightmost outwards, each as
    octets in lower case, whatever octets it holds, NUL among them.  One key is a strict
    prefix of another exactly when the first name is a proper ancestor of the second,
    so the stack of the cut pass holds ancestors. *)
Theorem sort_key_is_canonical a b :
  octets_compare (sort_key a) (sort_key b) = canonical_compare a b /\
  (is_strict_prefix (sort_key a) (sort_key b) = true <-> labels_under (liter a) (liter b) /\ liter a <> liter b).
Proof. split; [apply sort_key_compare|apply sort_key_strict_prefix]. Qed.

End Keys.

(** ** The lookup, on any well-formed zone *)

Section AnyZone.
Context {HN : HickoryNames} {HT : HashTableApi}.

(** C37: [Zone::resolve] always returns: from the depth [lookup] starts at, the CNAME
    recursion ends within [MAX_CNAME_DEPTH] more calls, on any arena whatever. *)
Theorem resolve_returns (z : Zone) name t :
  Zone_resolve lookup_fuel z name t 0 [] <> None.
Proof.
  enough (H : forall fuel name depth out, (0 < fuel)%nat -> (MAX_CNAME_DEPTH < fuel + depth)%nat ->
    Zone_resolve fuel z name t depth out <> None).
  { apply H; unfold lookup_fuel, MAX_CNAME_DEPTH; lia. }
  induction fuel as [|fuel IH]; intros nm depth out H0 Hf; [lia|]. cbn [Zone_resolve]. unfold resolve_step.
  repeat (case_match; try done). bool_prop. exfalso. eapply IH; [| |eassumption]; lia.
Qed.

Context {HL : HickoryNamesLaws HN} {TL : HashTableLaws HT}.

(** C5: on any well-formed zone the lookup by hashed suffixes, table probes and bisection
    is the standard's algorithm ([standard_lookup]: RFC 1034 section 4.3.2, with RFC
    4592) on the zone read as a function from names to nodes: for every name and every
    type but ANY, along a chain of at most [MAX_CNAME_DEPTH] aliases, unless the chain
    reaches the alias of a wildcard.  The program never follows one of those, and says
    of ANY only whether the name is there; these departures apart ([served_lookup])
    there is none. *)
Theorem lookup_refines (z : Zone) (Hwf : ZoneWf z) name t :
  let v := az_view (fun i => referrals z !! i) (abs_zone z) in
  (is_any t = false -> departs v name t = false -> Zone_lookup z name t = standard_lookup v name t) /\
  Zone_lookup z name t = served_lookup v name t.
Proof.
  intros v. rewrite lookup_spec, spec_lookup_served by (done || by apply wf_alone). split; [apply served_standard|done].
Qed.

(** For a name of the zone that is not a node, the window and the bisection of
    [closest_encloser] find the encloser that climbing label by label finds, and
    seven passes of the loop are always enough. *)
Theorem closest_encloser_is_climb (z : Zone) (Hwf : ZoneWf z) name :
  labels_under (liter (lower_origin z)) (liter name) -> find_node z (liter name) = None ->
  let '(depth, idx) := closest_encloser z name (SuffixHashes_new (hash_seed z) name) in
  climb (az_node (abs_zone z)) (liter name) = Some (suffix_of (liter name) depth) /\
  (exists nd, node_get z idx = Some nd /\ node_labels nd = suffix_of (liter name) depth) /\
  forall s, (bs_high s <= MAX_LABELS)%nat ->
    bisect MAX_LABELS (fun mid => node_at z name mid (SuffixHashes_new (hash_seed z) name)) s =
    bisect 7 (fun mid => node_at z name mid (SuffixHashes_new (hash_seed z) name)) s.
Proof.
  intros Hu Hn. destruct (closest_encloser_spec z Hwf name Hu Hn) as (d & i & nd & -> & _ & Hf & Hc).
  apply find_node_some in Hf as [Hi Hl]; [|done]. split_and!; [done| |].
  - exists nd. by rewrite node_get_of_nat.
  - intros s Hs. apply bisect_more; [unfold MAX_LABELS; lia|]. apply bisect_done_after.
    unfold MAX_LABELS in Hs. cbn. lia.
Qed.

(** NXDOMAIN does not depend on the type asked for, and covers the subtree: a
    name below one that does not exist does not exist either (RFC 8020). *)
Theorem nxdomain_covers_subtree (z : Zone) (Hwf : ZoneWf z) name t name' t' :
  Zone_lookup z name t = NxDomain -> labels_under (liter name) (liter name') ->
  labels_under (liter (lower_origin z)) (liter name) ->
  Zone_lookup z name' t' = NxDomain.
Proof.
  rewrite !lookup_spec by done. intros Hnx [p Hp] Hu.
  apply spec_lookup_nx_inv in Hnx as [Hout|[Hn Hce]].
  { apply under_origin_spec in Hu. cbn in Hout. congruence. }
  assert (Hnone : forall x, labels_under (liter name) x -> az_node (abs_zone z) x = None).
  { intros x Hx. cbn [az_node abs_zone] in *. rewrite (node_ancestor z x (liter name)); try done.
    by destruct (find_node z (liter name)). }
  apply spec_lookup_nx; [apply Hnone; by exists p|]. intros ce Hc.
  assert (climb (az_node (abs_zone z)) (liter name') = climb (az_node (abs_zone z)) (liter name)) as Heq.
  { rewrite Hp. destruct p as [|l p]; [done|]. apply climb_skip; [|done]. intros; by apply Hnone. }
  by rewrite <- Heq, Hc in Hce.
Qed.

End AnyZone.

(** ** The answers of a zone built from a configuration *)

Section Built.
Context {HN : HickoryNames} {HL : HickoryNamesLaws HN} {HR : HickoryRdata HN} {HO : HashOrder}.
Context {HT : HashTableApi} {TL : HashTableLaws HT}.

(** C6: from a configuration no name of which holds a backslash, and whose origin is
    neither empty nor a wildcard, [Zone::from_config] builds only well-formed zones: the
    apex first and uncut, distinct names inside the zone and closed under ancestry,
    every node indexed under its own hash, non-empty sorted runs, flags that match, a
    CNAME alone at its owner.  (An escaped asterisk is what the first condition is for:
    the code gives such a name no wildcard flag, which is among the findings.) *)
Theorem from_config_builds_wf seed cfg z :
  plain_config cfg -> from_config seed cfg = Ok z -> ZoneWf z.
Proof. apply from_config_wf. Qed.

(** [from_config] returns a zone whenever the records read, the SOA's names parse,
    the scratch zone obeys the rules and its arenas fit their 32-bit indices; no
    other error stands in the way. *)
Theorem from_config_succeeds seed cfg b :
  plain_config cfg -> config_builder cfg = Ok b ->
  match zc_soa cfg with Some spec => exists r, build_soa (zb_origin b) spec = Ok r | None => True end ->
  servable (closed_builder b) (match zc_soa cfg with Some _ => true | None => false end) ->
  arenas_fit (entries_of b) ->
  exists z, from_config seed cfg = Ok z.
Proof.
  intros Hp Hb Hsoa Hsv Hfit. pose proof (config_builder_ok _ _ Hp Hb) as Hok.
  rewrite (from_config_unfold seed cfg b Hb). destruct (zc_soa cfg) as [spec|].
  - destruct Hsoa as [r ->]. cbn [rbind]. by apply finish_total.
  - cbn [rbind]. by apply finish_total.
Qed.

(** The nodes of a built zone are the apex, the names of the configuration and
    every name between the two; the ones added hold no records, and the ones
    declared keep theirs. *)
Theorem nodes_are_names_and_ancestors cfg b ls :
  plain_config cfg -> config_builder cfg = Ok b ->
  ((exists k sn, zb_nodes (closed_builder b) !! k = Some sn /\ liter k = ls) <->
   ls = liter (zb_lower_origin b) \/
   (labels_under (liter (zb_lower_origin b)) ls /\
    exists d sd, zb_nodes b !! d = Some sd /\ labels_under ls (liter d))) /\
  (forall k sn, zb_nodes b !! k = Some sn -> zb_nodes (closed_builder b) !! k = Some sn) /\
  (forall k sn, zb_nodes (closed_builder b) !! k = Some sn -> zb_nodes b !! k = None -> sn_rrsets sn = []).
Proof.
  intros Hp Hc. pose proof (config_builder_ok cfg b Hp Hc) as Hb. split_and!.
  - split.
    + intros (k & sn & Hk & <-). destruct (zb_nodes b !! k) as [sd|] eqn:Ek.
      * right. split; [apply (nk_under _ _ _ (node_ok b Hb k sn Hk))|]. exists k, sd. split; [done|auto with vega].
      * destruct (node_origin b Hb k sn Hk Ek) as [_ [H|H]]; [by left|right].
        split; [apply (nk_under _ _ _ (node_ok b Hb k sn Hk))|done].
    + intros [->|(Hu & d & sd & Hd & [p Hl])].
      * destruct (apex_present b Hb) as [sa Ha]. by exists (zb_lower_origin b), sa.
      * eapply (ancestors_present b Hb p ls d sd); [by apply declared_kept|done|done].
  - apply (declared_kept b Hb).
  - intros k sn Hk Hn. by apply (node_origin b Hb k sn Hk Hn).
Qed.

(** Every check the debug build runs over a finished zone succeeds on the zone of
    every accepted configuration. *)
Theorem from_config_passes_debug_asserts seed cfg b z :
  serves seed cfg b z -> debug_assert_invariants z = true.
Proof.
  intros Hs. destruct (serves_finished _ _ _ _ Hs) as (soa_in & ly & ar & Hb & Hf).
  apply (asserts_all b Hb soa_in seed z ly ar Hf). apply Hs.
Qed.

(** The lexer of the name library, which can end the process, never does so on
    behalf of a configuration. *)
Theorem from_config_never_aborts {RL : HickoryRdataLaws HN HR} seed cfg :
  from_config seed cfg <> Err LexerAborted.
Proof.
  intros H. unfold from_config in H. apply rbind_err in H as [H|(origin & _ & H)].
  { unfold map_err in H. by destruct (parse_name _). }
  assert (Hname : forall s, parse_name s <> Err LexerAborted) by (intros s Hp; unfold parse_name in Hp; destruct (name_from_str s); discriminate Hp).
  apply rbind_err in H as [H|(soa_in & _ & H)].
  { destruct (zc_soa cfg); [|done]. apply rbind_err in H as [H|(r & _ & H)]; [|done].
    unfold build_soa in H. apply rbind_err in H as [H|(mn & _ & H)]; [by apply Hname in H|].
    apply rbind_err in H as [H|(rn & _ & H)]; [by apply Hname in H|done]. }
  apply rbind_err in H as [H|(b & _ & H)].
  - apply fold_res_err in H as (b & spec & _ & H). by apply insert_spec_no_abort in H.
  - by apply finish_no_abort in H.
Qed.

Context (seed : N) (cfg : ZoneConfig) (b : ZoneBuilder) (z : Zone).

Abbreviation m := (zb_nodes (closed_builder b)).
Abbreviation origin := (liter (zb_lower_origin b)).

(** Shared with the theorems about whole requests. *)
Lemma serves_declared (Hs : serves seed cfg b z) name t k sn :
  m !! k = Some sn -> liter k = liter name -> undelegated m origin (liter name) ->
  is_any t = false -> scratch_values sn t <> [] ->
  Zone_lookup z name t = Records (records_at (sn_name sn) (scratch_values sn t)).
Proof.
  intros Hk Hl Hun Hany Hv. rewrite lookup_spec by (eauto with vega).
  rewrite <- Hl in Hun. destruct (az_undelegated _ _ _ _ Hs k sn Hk Hun) as (nd & Hn & Hname & Hc & Hvals).
  rewrite <- Hname, <- Hvals. apply spec_lookup_exact; rewrite <- ?Hl; try done.
  - eapply under_true; [done|exact Hk|auto with vega].
  - by rewrite Hvals.
Qed.

(** A name of the configuration that no delegation covers is answered with
    exactly the values it was given for the type, in order, each with its TTL,
    under the name as it was first written. *)
Theorem lookup_serves_declared (Hs : serves seed cfg b z) name t k sn :
  m !! k = Some sn -> liter k = liter name -> undelegated m origin (liter name) ->
  is_any t = false -> scratch_values sn t <> [] ->
  Zone_lookup z name t = Records (records_at (sn_name sn) (scratch_values sn t)).
Proof. by apply serves_declared. Qed.

(** A name that exists but has no values of the type, and no CNAME to follow, is
    NODATA and not NXDOMAIN; an empty non-terminal is such a name. *)
Theorem lookup_existing_is_nodata (Hs : serves seed cfg b z) name t k sn :
  m !! k = Some sn -> liter k = liter name -> undelegated m origin (liter name) ->
  scratch_values sn t = [] ->
  scratch_values sn RT_CNAME = [] \/ is_wildcard_name (liter name) = true ->
  Zone_lookup z name t = NoData.
Proof.
  intros Hk Hl Hun Hv Hc. rewrite lookup_spec by (eauto with vega).
  rewrite <- Hl in Hun. destruct (az_undelegated _ _ _ _ Hs k sn Hk Hun) as (nd & Hn & _ & Hcut & Hvals).
  apply (spec_lookup_nodata _ _ _ _ nd); rewrite <- ?Hl, ?Hvals; try done.
  - eapply under_true; [done|exact Hk|auto with vega].
  - by rewrite Hl.
Qed.

(** Every name at or below a delegation, in the zone or not and whatever the
    type, is answered with the delegation's NS records in the authority section and
    the glue of its targets, each target once, and with no answer records. *)
Theorem lookup_refers_below_delegation (Hs : serves seed cfg b z) name t d sd :
  nearest m origin (liter name) d sd ->
  Zone_lookup z name t =
    ReferralAnswer [] (records_at (sn_name sd) (scratch_values sd RT_NS))
      (flat_map (glue_of z) (firsts [] (ns_values sd))).
Proof.
  intros Hn. rewrite lookup_spec by (eauto with vega).
  destruct Hn as (Hd & Hu & Hdeep). pose proof (proj1 Hd) as Hm.
  assert (Hin : under_origin (az_origin (abs_zone z)) (liter name) = true) by (by eapply under_true).
  destruct (find_node z (liter name)) as [[r nd]|] eqn:Hf.
  - assert (Haz : az_node (abs_zone z) (liter name) = Some (abs_node z nd)) by (cbn; by rewrite Hf).
    destruct (az_is_key _ _ _ _ Hs (liter name) _ Haz) as (k & sn & Hk & Hl).
    rewrite <- Hl in Hf. destruct (cut_referral _ _ _ _ Hs r k sn nd d sd Hf Hk) as [Hc Hr]; [by rewrite Hl|].
    exact (spec_lookup_cut_exact _ _ _ (fun i => referrals z !! i) (abs_node z nd) _ Hin Haz Hc Hr).
  - assert (Haz : az_node (abs_zone z) (liter name) = None) by (cbn; by rewrite Hf).
    destruct (climb (az_node (abs_zone z)) (liter name)) as [ce|] eqn:Hce.
    2:{ exfalso. revert Hce. apply (climb_found _ _ (liter d)); [done| |by eapply az_present].
        intros He. apply (az_present _ _ _ _ Hs d sd Hm). by rewrite He. }
    pose proof Hce as Hce'. apply climb_some in Hce' as (Hnode & Hcu & Hne & Hmax).
    destruct (find_node z ce) as [[r nd]|] eqn:Hfc; [|cbn in Hnode; by rewrite Hfc in Hnode].
    assert (Hazc : az_node (abs_zone z) ce = Some (abs_node z nd)) by (cbn; by rewrite Hfc).
    destruct (az_is_key _ _ _ _ Hs ce _ Hazc) as (k & sn & Hk & Hl).
    rewrite <- Hl in Hfc. destruct (cut_referral _ _ _ _ Hs r k sn nd d sd Hfc Hk) as [Hc Hr].
    { rewrite Hl. split_and!; [done| |].
      - apply Hmax; [done| |by eapply az_present]. intros He.
        apply (az_present _ _ _ _ Hs d sd Hm). by rewrite He.
      - intros d' sd' Hd' Hu'. apply (Hdeep d' sd' Hd'). by eapply labels_under_trans. }
    exact (spec_lookup_cut_above _ _ _ (fun i => referrals z !! i) ce (abs_node z nd) _ Hin Haz Hce Hazc Hc Hr).
Qed.

(** A name that does not exist, below no delegation, whose closest encloser has a
    wildcard child, is answered from that wildcard under the name asked for: its
    values of the type, or NODATA when it has none (RFC 4592). *)
Theorem lookup_synthesises (Hs : serves seed cfg b z) name t kc kw sw :
  encloses b (liter name) kc -> undelegated m origin (liter name) ->
  m !! kw = Some sw -> liter kw = WILDCARD_LABEL :: liter kc ->
  is_any t = false ->
  Zone_lookup z name t =
    match scratch_values sw t with
    | [] => NoData
    | vs => Records (records_at (name_from name) vs)
    end.
Proof.
  intros He Hun Hw Hlw Hany.
  assert (Hunw : undelegated m origin (liter kw)) by (by eapply undelegated_wildcard).
  rewrite lookup_spec by (eauto with vega).
  pose proof (climb_encloser _ _ _ _ Hs _ _ He) as Hc. destruct He as (Hno & [sc Hsc] & Hu & _).
  destruct (az_undelegated _ _ _ _ Hs kc sc Hsc (undelegated_above _ _ _ Hun Hu)) as (nd & Hnd & _ & Hcut & _).
  destruct (az_undelegated _ _ _ _ Hs kw sw Hw Hunw) as (w & Hnw & _ & _ & Hvals). rewrite <- Hvals.
  apply (spec_lookup_synthesis _ _ _ _ (liter kc) nd w); try done.
  - apply (under_true _ _ _ _ Hs _ kc sc Hsc Hu).
  - by apply (az_absent _ _ _ _ Hs).
  - by rewrite <- Hlw.
Qed.

(** A name that does not exist, below no delegation, whose closest encloser has
    no wildcard child, is NXDOMAIN for every type. *)
Theorem lookup_missing_is_nxdomain (Hs : serves seed cfg b z) name t kc :
  encloses b (liter name) kc -> undelegated m origin (liter name) ->
  (forall kw sw, m !! kw = Some sw -> liter kw <> WILDCARD_LABEL :: liter kc) ->
  Zone_lookup z name t = NxDomain.
Proof.
  intros He Hun Hw. rewrite lookup_spec by (eauto with vega).
  pose proof (climb_encloser _ _ _ _ Hs _ _ He) as Hc. destruct He as (Hno & [sc Hsc] & Hu & _).
  destruct (az_undelegated _ _ _ _ Hs kc sc Hsc (undelegated_above _ _ _ Hun Hu)) as (nd & Hnd & _ & Hcut & _).
  apply spec_lookup_nx; [by apply (az_absent _ _ _ _ Hs)|]. intros ce Hce. rewrite Hc in Hce. injection Hce as <-.
  rewrite Hnd, Hcut. split; [done|]. by apply (az_absent _ _ _ _ Hs).
Qed.

End Built.
