(* ===== verification/Declared.v ===== *)
(** * Declared: what the record blocks of a configuration declare

    A reading of [zone.records] block by block, with no builder and no map: whose
    records they are, of which type, with which TTL and which values.  The builder
    holds exactly that, and so does the zone, and so do its answers. *)

From S2P Require Import Prelude Names Rdata Hashing Zone Lookup Build Checked BuildFacts LayoutFacts ArenaFacts Finish.
From S2P Require Import Totality Served Asserts Answers ZoneTheorems.
Local Open Scope vega_scope.

(** The last element that satisfies [p], and none after it does. *)
Lemma rposition_split {A} (p : A -> bool) l i :
  rposition p l = Some i ->
  exists l1 x l2, l = l1 ++ x :: l2 /\ length l1 = i /\ p x = true /\ Forall (fun y => p y = false) l2.
Proof.
  unfold rposition. destruct (list_find _ _) as [[j x]|] eqn:E; [|done]. intros [= <-].
  apply list_find_Some in E as (Hj & Hp & Hlast). apply reverse_lookup_Some in Hj as [Hj Hlt].
  set (i := (length l - S j)%nat) in *. exists (take i l), x, (drop (S i) l).
  split; [by rewrite take_drop_middle|]. split; [rewrite length_take; lia|]. split; [done|].
  apply Forall_lookup. intros k y Hk. rewrite lookup_drop in Hk. pose proof (lookup_lt_Some _ _ _ Hk) as Hkl.
  destruct (p y) eqn:Ey; [|done]. exfalso.
  apply (Hlast (length l - S (S i + k))%nat y); [|unfold i in *; lia|done].
  rewrite reverse_lookup by lia. rewrite <- Hk. f_equal. lia.
Qed.

Lemma map_res_snoc {E A B} (f : A -> result E B) l a bs b :
  map_res f l = Ok bs -> f a = Ok b -> map_res f (l ++ [a]) = Ok (bs ++ [b]).
Proof.
  revert bs. induction l as [|x l IH]; intros bs H Ha; cbn in *; [injection H as <-; by rewrite Ha|].
  destruct (f x); [|done]. destruct (map_res f l); [|done]. injection H as <-. by rewrite (IH _ eq_refl Ha).
Qed.

Section Declared.
Context {HN : HickoryNames} {HL : HickoryNamesLaws HN} {HR : HickoryRdata HN} {HO : HashOrder}.
Context {HT : HashTableApi} {TL : HashTableLaws HT}.

(** ** The reading *)

Record Declaration : Type := mkDeclaration {
  dc_owner : Name;
  dc_wildcard : bool;
  dc_type : RecordType;
  dc_ttl : N;
  dc_rdata : list RData;
}.

(** One block; a wildcard whose name would be too long declares nothing. *)
Definition read_block (origin : Name) (default_ttl : N) (spec : RecordSpec) : result BuildError (option Declaration) :=
  let? rtype := ok_or (UnknownRecordType (rs_type spec)) (record_type_parse (str_to_uppercase (rs_type spec))) in
  match rs_values spec with
  | [] => Err (NoValues (rs_name spec) (rs_type spec))
  | _ :: _ =>
      let text := str_trim (rs_name spec) in
      let? owner := qualify (ZoneBuilder_new origin (lower_from origin) default_ttl) (owner_text text) in
      let? rdata := map_res (parse_spec_value rtype spec) (rs_values spec) in
      Ok ((fun name => mkDeclaration name (is_wildcard_text text) rtype (default default_ttl (rs_ttl spec)) rdata) <$>
          (if is_wildcard_text text then prepend_label WILDCARD_LABEL owner else Some owner))
  end.

(** Every block of a configuration, in order. *)
Definition declarations (cfg : ZoneConfig) : result BuildError (list Declaration) :=
  let? origin := map_err (fun _ => InvalidOrigin (zc_origin cfg)) (parse_name (zc_origin cfg)) in
  let? blocks := map_res (read_block origin (zc_default_ttl cfg)) (zc_records cfg) in
  Ok (omap id blocks).

Definition owned_by (ls : list label) (d : Declaration) : Prop := liter (lower_from (dc_owner d)) = ls.

#[global] Instance owned_by_dec ls d : Decision (owned_by ls d).
Proof. unfold owned_by. apply _. Defined.
#[global] Typeclasses Opaque owned_by.

(** The values declared at a name for a type, each with its TTL, and the name as it
    was first written. *)
Definition declared_values (ds : list Declaration) (ls : list label) (t : RecordType) : list (N * RData) :=
  flat_map (fun d => if decide (owned_by ls d /\ dc_type d = t) then map (pair (dc_ttl d)) (dc_rdata d) else []) ds.

Definition declared_owner (ds : list Declaration) (ls : list label) : option Name :=
  dc_owner <$> head (filter (owned_by ls) ds).

Lemma declared_values_app ds ds' ls t :
  declared_values (ds ++ ds') ls t = declared_values ds ls t ++ declared_values ds' ls t.
Proof. apply flat_map_app. Qed.

Lemma declared_values_in ds ls t ttl v :
  (ttl, v) ∈ declared_values ds ls t <->
  exists d, d ∈ ds /\ owned_by ls d /\ dc_type d = t /\ dc_ttl d = ttl /\ v ∈ dc_rdata d.
Proof.
  unfold declared_values. rewrite list_elem_of_In, in_flat_map. split.
  - intros (d & Hd & Hv). apply list_elem_of_In in Hd. destruct (decide _) as [[Ho Ht]|]; [|done].
    apply in_map_iff in Hv as (v' & [= <- <-] & Hv). exists d. split_and!; try done. by apply list_elem_of_In.
  - intros (d & Hd & Ho & Ht & <- & Hv). exists d. split; [by apply list_elem_of_In|]. rewrite decide_True by done.
    apply in_map. by apply list_elem_of_In.
Qed.

(** ** The builder holds what was read *)

(** [insert_spec] after its block has been read. *)
Definition declare (od : option Declaration) (n : nat) (b : ZoneBuilder) : ZoneBuilder :=
  mkZoneBuilder (zb_origin b) (zb_lower_origin b) (zb_default_ttl b)
    (match od with
     | None => zb_nodes b
     | Some d =>
         let key := lower_from (dc_owner d) in
         let node := default (mkScratchNode (dc_owner d) (dc_wildcard d) []) (zb_nodes b !! key) in
         <[key := mkScratchNode (sn_name node) (sn_wildcard node) (append_run (sn_rrsets node) (dc_type d) (dc_ttl d) (dc_rdata d))]>
           (zb_nodes b)
     end)
    (zb_record_count b + N.of_nat n).

(** Appending to the last run of a type appends to the type's values, and to no other's. *)
Lemma append_run_values runs rtype ttl rd t :
  let values runs := flat_map (fun run => map (pair (sr_ttl run)) (sr_rdata run)) (of_type t runs) in
  values (append_run runs rtype ttl rd) = values runs ++ (if decide (rtype = t) then map (pair ttl) rd else []).
Proof.
  cbn zeta. unfold append_run, of_type.
  assert (Hnew : flat_map (fun run => map (pair (sr_ttl run)) (sr_rdata run)) (filter (fun r => sr_type r = t) (runs ++ [mkScratchRrset rtype ttl rd]))
    = flat_map (fun run => map (pair (sr_ttl run)) (sr_rdata run)) (filter (fun r => sr_type r = t) runs)
      ++ (if decide (rtype = t) then map (pair ttl) rd else [])).
  { rewrite filter_app, flat_map_app. f_equal. rewrite filter_cons. cbn.
    destruct (decide (rtype = t)); cbn; by rewrite ?app_nil_r. }
  destruct (rposition _ runs) as [i|] eqn:Ei; [|done]. destruct (runs !! i) as [run|] eqn:Erun; [|done].
  destruct (sr_ttl run =? ttl)%N eqn:Et; [|done]. bool_prop. subst ttl.
  apply rposition_split in Ei as (l1 & x & l2 & -> & <- & Hx & Hl2). bool_prop.
  rewrite list_lookup_middle in Erun by done. injection Erun as ->.
  rewrite insert_app_r_alt, Nat.sub_diag by done. cbn [insert list_insert].
  rewrite !filter_app, !filter_cons, !flat_map_app. cbn [sr_type]. rewrite Hx.
  assert (Hrest : rtype = t -> filter (fun r => sr_type r = t) l2 = []).
  { intros <-. clear -Hl2. induction Hl2 as [|y l2 Hy _ IH]; [done|].
    rewrite filter_cons, decide_False; [exact IH|]. by apply N.eqb_neq. }
  destruct (decide (rtype = t)) as [Ht|Ht]; [|by rewrite app_nil_r].
  rewrite Hrest by done. cbn [flat_map sr_rdata sr_ttl]. rewrite map_app, !app_nil_r. by rewrite (assoc_L (++)).
Qed.

Lemma insert_spec_reads b spec :
  zb_lower_origin b = lower_from (zb_origin b) ->
  insert_spec b spec =
    (let? od := read_block (zb_origin b) (zb_default_ttl b) spec in Ok (declare od (length (rs_values spec)) b)).
Proof.
  intros Hl. unfold insert_spec, read_block. destruct (ok_or _ _) as [rtype|e]; cbn [rbind]; [|done].
  destruct (rs_values spec) as [|v vs] eqn:Ev; [done|].
  assert (Hq : forall text, qualify (ZoneBuilder_new (zb_origin b) (lower_from (zb_origin b)) (zb_default_ttl b)) text = qualify b text).
  { intros text. unfold qualify. cbn [ZoneBuilder_new zb_origin zb_lower_origin]. by rewrite Hl. }
  rewrite Hq. destruct (qualify b _) as [owner|e]; cbn [rbind]; [|done].
  destruct (map_res _ _) as [rdata|e] eqn:Er; cbn [rbind]; [|done]. apply map_res_length in Er.
  rewrite Er. by destruct (if is_wildcard_text _ then _ else _).
Qed.

(** What the nodes of a builder say, against what has been read so far. *)
Definition holds_declared (nodes : gmap LowerName ScratchNode) (ds : list Declaration) : Prop :=
  (forall k sn, nodes !! k = Some sn ->
     declared_owner ds (liter k) = Some (sn_name sn) /\ forall t, scratch_values sn t = declared_values ds (liter k) t) /\
  (forall d, d ∈ ds -> is_fqdn (dc_owner d) = true /\ is_Some (nodes !! lower_from (dc_owner d))).

Lemma declared_owner_snoc ds d ls :
  declared_owner (ds ++ [d]) ls =
  match declared_owner ds ls with Some n => Some n | None => if decide (owned_by ls d) then Some (dc_owner d) else None end.
Proof.
  unfold declared_owner. rewrite filter_app, filter_cons. cbn. destruct (filter (owned_by ls) ds); [|done]. by destruct (decide _).
Qed.

Lemma owned_key n k : is_fqdn n = true -> is_fqdn (name_from k) = true -> liter (lower_from n) = liter k -> lower_from n = k.
Proof. intros Hn Hk Hl. apply lname_ext; [done|]. by rewrite fqdn_lower_from, Hk. Qed.

Lemma declared_nothing ds ls :
  (forall d, d ∈ ds -> ~ owned_by ls d) -> declared_owner ds ls = None /\ forall t, declared_values ds ls t = [].
Proof.
  intros H. split.
  - unfold declared_owner. destruct (filter (owned_by ls) ds) as [|d l] eqn:E; [done|]. exfalso.
    assert (Hd : d ∈ filter (owned_by ls) ds) by (rewrite E; left). apply list_elem_of_filter in Hd as [Ho Hd]. by apply (H d).
  - intros t. destruct (declared_values ds ls t) as [|[ttl v] l] eqn:E; [done|]. exfalso.
    assert (Hv : (ttl, v) ∈ declared_values ds ls t) by (rewrite E; left).
    apply declared_values_in in Hv as (d & Hd & Ho & _). by apply (H d).
Qed.

Lemma declare_holds od n b ds :
  holds_declared (zb_nodes b) ds ->
  (forall k sn, zb_nodes b !! k = Some sn -> is_fqdn (name_from k) = true) ->
  (forall d, od = Some d -> is_fqdn (dc_owner d) = true) ->
  holds_declared (zb_nodes (declare od n b)) (ds ++ omap id [od]).
Proof.
  intros [Hnodes Hds] Hk Hf. destruct od as [d|]; cbn [omap list_omap id]; [|by rewrite app_nil_r].
  cbn [declare zb_nodes]. specialize (Hf d eq_refl). set (key := lower_from (dc_owner d)). split.
  - intros k sn Hsn. destruct (decide (k = key)) as [->|Hne].
    + rewrite lookup_insert_eq in Hsn. injection Hsn as <-. cbn [sn_name]. rewrite declared_owner_snoc.
      rewrite decide_True by done. destruct (zb_nodes b !! key) as [sn0|] eqn:E0; cbn [default sn_name sn_rrsets].
      * destruct (Hnodes _ _ E0) as [-> Hv]. split; [done|]. intros t.
        unfold scratch_values. cbn [sn_rrsets]. rewrite append_run_values, declared_values_app. f_equal; [apply Hv|].
        cbn. rewrite app_nil_r. apply decide_ext. unfold owned_by. tauto.
      * assert (Hnone : declared_owner ds (liter key) = None /\ forall t, declared_values ds (liter key) t = []).
        { apply declared_nothing. intros d' Hd' Ho. destruct (Hds d' Hd') as [Hf' [sn' Hn]].
          assert (lower_from (dc_owner d') = key) as E.
          { apply owned_key; [done| |done]. unfold key. by rewrite fqdn_lower_from. }
          congruence. }
        destruct Hnone as [-> Hv]. split; [done|]. intros t.
        unfold scratch_values. cbn [sn_rrsets]. rewrite append_run_values, declared_values_app, Hv.
        cbn. rewrite app_nil_r. apply decide_ext. unfold owned_by. tauto.
    + rewrite lookup_insert_ne in Hsn by done. destruct (Hnodes _ _ Hsn) as [Ho Hv]. rewrite declared_owner_snoc, Ho. split; [done|].
      intros t. rewrite declared_values_app, Hv. cbn. rewrite decide_False; [by rewrite !app_nil_r|].
      intros [Hl _]. apply Hne. symmetry. apply owned_key; [done|by eapply Hk|done].
  - intros d' [Hd'|Hd']%elem_of_app.
    + destruct (decide (lower_from (dc_owner d') = key)) as [->|]; [rewrite lookup_insert_eq; split; [by apply Hds|by eexists]|].
      rewrite lookup_insert_ne by done. by apply Hds.
    + apply list_elem_of_singleton in Hd' as ->. rewrite lookup_insert_eq. split; [done|by eexists].
Qed.

Lemma read_block_fqdn b spec d :
  BuilderOk b -> read_block (zb_origin b) (zb_default_ttl b) spec = Ok (Some d) -> is_fqdn (dc_owner d) = true.
Proof.
  intros Hb H. unfold read_block in H. apply rbind_ok in H as (t & _ & H). destruct (rs_values spec); [done|].
  apply rbind_ok in H as (owner & Hq & H). apply rbind_ok in H as (rd & _ & H).
  assert (Hf : is_fqdn owner = true).
  { apply (qualify_ok b (owner_text (str_trim (rs_name spec)))); [done|]. rewrite <- Hq. unfold qualify. cbn.
    by rewrite (bo_lower b Hb). }
  destruct (is_wildcard_text _).
  - destruct (prepend_label _ _) as [n|] eqn:En; [|done]. injection H as <-. cbn. apply prepend_label_spec in En as [_ ->]. done.
  - by injection H as <-.
Qed.

(** The builder of a configuration holds what its blocks declare: every owner, under
    the name it was first given, with every value of every type in order. *)
Theorem builder_holds_declared cfg b :
  plain_config cfg -> config_builder cfg = Ok b ->
  exists ds, declarations cfg = Ok ds /\ holds_declared (zb_nodes b) ds.
Proof.
  intros Hp H. pose proof (config_builder_ok _ _ Hp H) as Hbok. unfold config_builder in H. unfold declarations.
  apply rbind_ok in H as (origin & Ho & H). rewrite Ho. cbn [rbind].
  assert (HP : exists ods, map_res (read_block origin (zc_default_ttl cfg)) (zc_records cfg) = Ok ods /\
    holds_declared (zb_nodes b) (omap id ods) /\ BuilderOk b /\ zb_origin b = origin /\ zb_default_ttl b = zc_default_ttl cfg).
  { revert H. apply (fold_res_prefix (fun pre b => exists ods, map_res (read_block origin (zc_default_ttl cfg)) pre = Ok ods /\
      holds_declared (zb_nodes b) (omap id ods) /\ BuilderOk b /\ zb_origin b = origin /\ zb_default_ttl b = zc_default_ttl cfg)).
    - exists []. split_and!; [done| | |done|done].
      + split; [intros k sn Hk; cbn in Hk; by rewrite lookup_empty in Hk|intros d Hd; by apply elem_of_nil in Hd].
      + apply (config_builder_ok (mkZoneConfig (zc_origin cfg) (zc_default_ttl cfg) (zc_builtins cfg) (zc_soa cfg) [])).
        * destruct Hp as [P1 P2 P3 _]. by constructor.
        * unfold config_builder. cbn [zc_origin zc_records zc_default_ttl]. by rewrite Ho.
    - intros pre spec post b1 b2 Hl (ods & Hods & Hh & Hb1 & Ho1 & Ht1) Hs.
      pose proof (insert_spec_frame _ _ _ Hs) as (Hf1 & Hf2 & Hf3).
      assert (Hfree : backslash_free (rs_name spec) = true).
      { pose proof (pc_records _ Hp) as Hr. rewrite Forall_forall in Hr. apply Hr. rewrite Hl. apply elem_of_app. right. left. }
      pose proof (insert_spec_ok _ _ _ Hfree Hb1 Hs) as Hb2.
      rewrite insert_spec_reads in Hs by apply Hb1. apply rbind_ok in Hs as (od & Hod & Hs). injection Hs as <-.
      exists (ods ++ [od]). split_and!; [| |done|congruence|congruence].
      + apply map_res_snoc; [done|]. congruence.
      + rewrite omap_app. apply declare_holds; [done| |].
        * intros k sn Hk. pose proof (bo_nodes _ Hb1 _ _ Hk) as Hn. rewrite <- (nk_key _ _ _ Hn), fqdn_lower_from. apply Hn.
        * intros d ->. by eapply read_block_fqdn. }
  destruct HP as (ods & -> & Hh & _). exists (omap id ods). by split.
Qed.

(** ** The zone answers what was declared *)

(** A delegation: NS values below the apex. *)
Definition delegates (ds : list Declaration) (origin ls : list label) : bool :=
  negb (bool_decide (ls = origin)) && match declared_values ds ls RT_NS with [] => false | _ :: _ => true end.

(** The deepest delegation at or above a name. *)
Fixpoint cut_of (ds : list Declaration) (origin ls : list label) : option (list label) :=
  if delegates ds origin ls then Some ls else match ls with [] => None | _ :: up => cut_of ds origin up end.

Lemma cut_of_some ds origin ls c :
  cut_of ds origin ls = Some c ->
  delegates ds origin c = true /\ labels_under c ls /\
  forall x, delegates ds origin x = true -> labels_under x ls -> labels_under x c.
Proof.
  induction ls as [|l up IH]; cbn; [destruct (delegates ds origin []) eqn:Ed|destruct (delegates ds origin (l :: up)) eqn:Ed]; intros H; try done.
  - injection H as <-. split_and!; auto with vega.
  - injection H as <-. split_and!; auto with vega.
  - destruct (IH H) as (H1 & [p ->] & H3). split_and!; [done|by exists (l :: p)|].
    intros x Hx Hu. apply H3; [done|]. apply labels_under_proper in Hu; [done|]. intros ->. congruence.
Qed.

Lemma cut_of_none ds origin ls x : cut_of ds origin ls = None -> labels_under x ls -> delegates ds origin x = false.
Proof.
  revert x. induction ls as [|l up IH]; intros x; cbn;
    [destruct (delegates ds origin []) eqn:Ed|destruct (delegates ds origin (l :: up)) eqn:Ed]; try done.
  - intros _ [[|] Hx]; [|done]. cbn in Hx. by subst x.
  - intros H Hu. destruct (decide (x = l :: up)) as [->|Hne]; [done|]. apply IH; [done|]. by apply labels_under_proper in Hu.
Qed.

(** What a configuration gives a name for a type: the owner as it was first written and
    the values with their TTLs.  Nothing, where a delegation covers the name. *)
Definition given (cfg : ZoneConfig) (name : LowerName) (t : RecordType) : option (Name * list (N * RData)) :=
  match parse_name (zc_origin cfg), declarations cfg with
  | Ok origin, Ok ds =>
      match cut_of ds (liter (lower_from origin)) (liter name), declared_owner ds (liter name), declared_values ds (liter name) t with
      | None, Some owner, (_ :: _) as values => Some (owner, values)
      | _, _, _ => None
      end
  | _, _ => None
  end.

Lemma given_spec cfg name t owner values :
  given cfg name t = Some (owner, values) <->
  exists origin ds, parse_name (zc_origin cfg) = Ok origin /\ declarations cfg = Ok ds /\
    cut_of ds (liter (lower_from origin)) (liter name) = None /\
    declared_owner ds (liter name) = Some owner /\ declared_values ds (liter name) t = values /\ values <> [].
Proof.
  unfold given. split.
  - destruct (parse_name _) as [origin|]; [|done]. destruct (declarations cfg) as [ds|]; [|done].
    destruct (cut_of _ _ _) eqn:Eb; [done|]. destruct (declared_owner _ _) as [n|] eqn:Eo; [|done].
    destruct (declared_values _ _ _) as [|v l] eqn:Ev; [done|]. intros [= <- <-]. exists origin, ds. rewrite Ev. by split_and!.
  - intros (origin & ds & -> & -> & -> & -> & -> & Hne). by destruct values.
Qed.

(** What the arenas must be able to index. *)
Definition fits (cfg : ZoneConfig) : Prop :=
  forall b, config_builder cfg = Ok b -> (N.of_nat (length (entries_of b)) <= u32_MAX)%N.

Lemma built_serves seed cfg z : plain_config cfg -> fits cfg -> from_config seed cfg = Ok z -> exists b, serves seed cfg b z.
Proof.
  intros Hp Hf Hz. destruct (from_config_finished seed cfg z Hp Hz) as (b & _ & _ & _ & Hb & _). exists b.
  constructor; auto.
Qed.

Section Blocks.
Context (cfg : ZoneConfig) (b : ZoneBuilder) (Hp : plain_config cfg) (Hcb : config_builder cfg = Ok b).
Context (ds : list Declaration) (Hds : declarations cfg = Ok ds).

Lemma serves_declares : holds_declared (zb_nodes b) ds.
Proof.
  destruct (builder_holds_declared cfg b Hp Hcb) as (ds' & H & Hh). congruence.
Qed.

Lemma served_origin origin : parse_name (zc_origin cfg) = Ok origin -> lower_from origin = zb_lower_origin b.
Proof.
  intros Ho. pose proof Hcb as Hb. unfold config_builder in Hb. rewrite Ho in Hb. cbn [rbind map_err] in Hb.
  revert Hb. apply (fold_res_ind (fun b => lower_from origin = zb_lower_origin b)); [|done].
  intros b1 spec b2 _ H1 H2. destruct (insert_spec_frame _ _ _ H2) as (_ & -> & _). done.
Qed.

Lemma declared_node d : d ∈ ds ->
  exists sn, zb_nodes (closed_builder b) !! lower_from (dc_owner d) = Some sn /\
    declared_owner ds (liter (lower_from (dc_owner d))) = Some (sn_name sn) /\
    forall t, scratch_values sn t = declared_values ds (liter (lower_from (dc_owner d))) t.
Proof.
  intros Hd. destruct serves_declares as [Hn Hi]. destruct (Hi d Hd) as [_ [sn Hsn]]. exists sn.
  split; [|by apply Hn]. apply declared_kept; [|done]. by eapply config_builder_ok.
Qed.

(** A node that was only added to close the scratch zone under ancestry. *)
Lemma undeclared_node k sn : zb_nodes (closed_builder b) !! k = Some sn -> zb_nodes b !! k = None ->
  declared_owner ds (liter k) = None /\ forall t, declared_values ds (liter k) t = [].
Proof.
  intros Hk Ek. pose proof (config_builder_ok _ _ Hp Hcb) as Hb.
  destruct serves_declares as [_ Hi]. apply declared_nothing. intros d Hd Ho. destruct (Hi d Hd) as [Hf [sn' Hsn']].
  rewrite (owned_key _ k) in Hsn'; [congruence|done| |done].
  pose proof (node_ok b Hb k sn Hk) as Hnk. rewrite <- (nk_key _ _ _ Hnk), fqdn_lower_from. apply Hnk.
Qed.

(** A node of the closed scratch zone, as the blocks describe it. *)
Lemma closed_values k sn t : zb_nodes (closed_builder b) !! k = Some sn -> scratch_values sn t = declared_values ds (liter k) t.
Proof.
  intros Hk. pose proof (config_builder_ok _ _ Hp Hcb) as Hb.
  destruct serves_declares as [Hn Hi]. destruct (zb_nodes b !! k) as [sn'|] eqn:Ek.
  - pose proof (declared_kept b Hb k sn' Ek) as Hk'. rewrite Hk in Hk'. injection Hk' as ->. by apply Hn.
  - destruct (node_origin b Hb k sn Hk Ek) as [Hnil _]. unfold scratch_values. rewrite Hnil. cbn. symmetry.
    by apply (undeclared_node k sn Hk Ek).
Qed.

Lemma closed_owner k sn : zb_nodes (closed_builder b) !! k = Some sn ->
  match declared_owner ds (liter k) with Some owner => owner = sn_name sn | None => sn_rrsets sn = [] end.
Proof.
  intros Hk. pose proof (config_builder_ok _ _ Hp Hcb) as Hb.
  destruct serves_declares as [Hn Hi]. destruct (zb_nodes b !! k) as [sn'|] eqn:Ek.
  - pose proof (declared_kept b Hb k sn' Ek) as Hk'. rewrite Hk in Hk'. injection Hk' as ->. by rewrite (proj1 (Hn k _ Ek)).
  - destruct (node_origin b Hb k sn Hk Ek) as [Hnil _]. destruct (undeclared_node k sn Hk Ek) as [-> _]. done.
Qed.

(** The names with a value are names of the zone. *)
Lemma value_node ls t : declared_values ds ls t <> [] ->
  exists k sn, zb_nodes (closed_builder b) !! k = Some sn /\ liter k = ls.
Proof.
  intros Hne. destruct (declared_values ds ls t) as [|[ttl v] l] eqn:E; [done|].
  assert (Hv : (ttl, v) ∈ declared_values ds ls t) by (rewrite E; left).
  apply declared_values_in in Hv as (d & Hd & Ho & _). destruct (declared_node d Hd) as (sn & Hk & _).
  by exists (lower_from (dc_owner d)), sn.
Qed.

Lemma delegates_spec ls :
  delegates ds (liter (zb_lower_origin b)) ls = true <->
  exists d sd, delegation (zb_nodes (closed_builder b)) (liter (zb_lower_origin b)) d sd /\ liter d = ls.
Proof.
  pose proof (config_builder_ok _ _ Hp Hcb) as Hb.
  unfold delegates. rewrite andb_true_iff, negb_true_iff, bool_decide_eq_false.
  assert (Hruns : forall k sn, zb_nodes (closed_builder b) !! k = Some sn -> ns_targets sn <> None <-> scratch_values sn RT_NS <> []).
  { intros k sn Hk. pose proof (nk_runs _ _ _ (node_ok b Hb k sn Hk)) as Hr. unfold ns_targets, scratch_values.
    destruct (of_type RT_NS (sn_rrsets sn)) as [|run runs] eqn:E; [done|]. split; [intros _|done].
    assert (Hin : run ∈ sn_rrsets sn).
    { assert (H : run ∈ of_type RT_NS (sn_rrsets sn)) by (rewrite E; left). apply list_elem_of_filter in H. tauto. }
    rewrite Forall_forall in Hr. specialize (Hr run Hin). cbn. by destruct (sr_rdata run). }
  split.
  - intros [Hne Hv]. destruct (value_node ls RT_NS) as (k & sn & Hk & <-); [by destruct (declared_values _ _ _)|].
    exists k, sn. split; [|done]. split; [done|]. split; [done|]. apply (Hruns k sn Hk). rewrite (closed_values k sn) by done. by destruct (declared_values _ _ _).
  - intros (d & sd & (Hd & Hne & Hns) & <-). split; [done|]. apply (Hruns d sd Hd) in Hns.
    rewrite (closed_values d sd) in Hns by done. by destruct (declared_values _ _ _).
Qed.

Lemma cut_of_undelegated ls :
  cut_of ds (liter (zb_lower_origin b)) ls = None ->
  undelegated (zb_nodes (closed_builder b)) (liter (zb_lower_origin b)) ls.
Proof.
  intros Hc d sd Hd Hu. pose proof (cut_of_none _ _ _ _ Hc Hu) as Hf. rewrite (proj2 (delegates_spec (liter d))) in Hf; [done|].
  by exists d, sd.
Qed.

Lemma cut_of_nearest ls c :
  cut_of ds (liter (zb_lower_origin b)) ls = Some c ->
  exists d sd, liter d = c /\ nearest (zb_nodes (closed_builder b)) (liter (zb_lower_origin b)) ls d sd.
Proof.
  intros (Hd & Hu & Hmax)%cut_of_some. apply delegates_spec in Hd as (d & sd & Hd & <-). exists d, sd.
  split; [done|]. split; [done|]. split; [done|]. intros d' sd' Hd' Hu'. apply Hmax; [|done]. apply delegates_spec. by exists d', sd'.
Qed.

(** Shared with the theorems about whole requests. *)
Lemma serves_given name t owner values :
  given cfg name t = Some (owner, values) ->
  exists k sn, zb_nodes (closed_builder b) !! k = Some sn /\ liter k = liter name /\
    undelegated (zb_nodes (closed_builder b)) (liter (zb_lower_origin b)) (liter name) /\
    sn_name sn = owner /\ scratch_values sn t = values /\ values <> [].
Proof.
  intros H. apply given_spec in H as (origin & ds' & Ho & Hds' & Hb & Hown & Hv & Hne). rewrite Hds in Hds'. injection Hds' as <-.
  rewrite (served_origin origin Ho) in Hb. unfold declared_owner in Hown.
  destruct (filter (owned_by (liter name)) ds) as [|d l] eqn:E; [done|].
  assert (Hd : d ∈ filter (owned_by (liter name)) ds) by (rewrite E; left). apply list_elem_of_filter in Hd as [Hod Hd].
  destruct (declared_node d Hd) as (sn & Hk & Hn & Hvals). unfold owned_by in Hod. rewrite Hod in Hn, Hvals.
  exists (lower_from (dc_owner d)), sn. split_and!; try done.
  - by apply cut_of_undelegated.
  - unfold declared_owner in Hn. rewrite E in Hn. congruence.
  - by rewrite Hvals.
Qed.

End Blocks.

Lemma serves_answers_given seed cfg b z name t owner values :
  serves seed cfg b z -> given cfg name t = Some (owner, values) -> is_any t = false ->
  Zone_lookup z name t = Records (records_at owner values) /\ Zone_contains z name = true /\ values <> [].
Proof.
  intros Hs Hg Hany. destruct (builder_holds_declared cfg b (sv_plain _ _ _ _ Hs) (sv_builder _ _ _ _ Hs)) as (ds & Hds & _).
  destruct (serves_given _ _ (sv_plain _ _ _ _ Hs) (sv_builder _ _ _ _ Hs) ds Hds _ _ _ _ Hg) as (k & sn & Hk & Hl & Hun & <- & <- & Hne). split_and!; [|  |done].
  - by eapply serves_declared.
  - rewrite contains_under by (eauto with vega). eapply under_true; [done|exact Hk|]. rewrite Hl. auto with vega.
Qed.

(** What the file says is what is answered: a name and a type some block of the
    configuration gives, outside the delegations the blocks make, is answered with the
    values of all the blocks that do, in the order of the file, each with its block's
    TTL or the default one, under the name as it was first written. *)
Theorem lookup_answers_the_blocks seed cfg z name t owner values :
  from_config seed cfg = Ok z -> plain_config cfg -> fits cfg ->
  given cfg name t = Some (owner, values) -> is_any t = false ->
  Zone_lookup z name t = Records (records_at owner values).
Proof.
  intros Hz Hp Hf Hg Hany. destruct (built_serves seed cfg z Hp Hf Hz) as [b Hs].
  by eapply serves_answers_given.
Qed.

End Declared.
