(* ===== verification/FileVerdict.v ===== *)
(** * FileVerdict: which configurations build, read off the configuration

    The rules of a zone that can be served, on the values its record blocks declare,
    and that [Zone::from_config] (src/src/zone.rs) - so [vega check], start-up and a
    reload - accepts exactly the configurations that read and keep them. *)

From S2P Require Import Prelude Names Rdata Hashing Zone Lookup Build Checked BuildFacts LayoutFacts ArenaFacts Finish.
From S2P Require Import Totality Served Asserts Answers ZoneTheorems Declared.
Local Open Scope vega_scope.

(** ** Lists in which no element follows itself *)

Definition no_stutter {A} (l : list A) : Prop := forall l1 a l2, l <> l1 ++ a :: a :: l2.

Lemma no_stutter_snoc {A} (l : list A) a : no_stutter l -> last l <> Some a -> no_stutter (l ++ [a]).
Proof.
  intros H Hl l1 x l2 E. destruct l2 as [|y l2] using rev_ind.
  - change (x :: [x]) with ([x] ++ [x]) in E. rewrite (assoc_L (++)) in E. apply app_inj_tail in E as [-> ->]. by rewrite last_snoc in Hl.
  - clear IHl2. rewrite !app_comm_cons, (assoc_L (++)) in E. apply app_inj_tail in E as [-> _]. by apply (H l1 x l2).
Qed.

Lemma no_stutter_const {A} (l : list A) : no_stutter l -> (forall x y, x ∈ l -> y ∈ l -> x = y) -> (length l <= 1)%nat.
Proof.
  intros H Hc. destruct l as [|x [|y l]]; cbn; [lia|lia|]. exfalso. apply (H [] x l).
  rewrite (Hc y x); [done|right; left|left].
Qed.

Lemma length_le_one_eq {A} (l : list A) x y : (length l <= 1)%nat -> x ∈ l -> y ∈ l -> x = y.
Proof.
  intros H. destruct l as [|z [|]]; cbn in H; [|intros ->%list_elem_of_singleton ->%list_elem_of_singleton; done|lia].
  intros Hx. by apply elem_of_nil in Hx.
Qed.

(** ** Runs and values *)

Section Runs.
Context {HN : HickoryNames}.

Definition run_ttls (t : RecordType) (runs : list ScratchRrset) : list N := map sr_ttl (of_type t runs).

Definition runs_values (t : RecordType) (runs : list ScratchRrset) : list (N * RData) :=
  flat_map (fun run => map (pair (sr_ttl run)) (sr_rdata run)) (of_type t runs).

Lemma runs_values_length t runs : length (runs_values t runs) = sum_rdata (of_type t runs).
Proof.
  unfold runs_values, sum_rdata. induction (of_type t runs) as [|r l IH]; [done|]. cbn. by rewrite length_app, length_map, IH.
Qed.

Lemma of_type_elem t runs run : run ∈ of_type t runs <-> run ∈ runs /\ sr_type run = t.
Proof. unfold of_type. rewrite list_elem_of_filter. tauto. Qed.

Lemma runs_values_nil t runs : Forall (fun r => sr_rdata r <> []) runs -> runs_values t runs = [] <-> of_type t runs = [].
Proof.
  intros Hne. unfold runs_values. destruct (of_type t runs) as [|run l] eqn:E; [done|]. split; [|done].
  assert (Hin : run ∈ of_type t runs) by (rewrite E; left). apply of_type_elem in Hin as [Hin _].
  rewrite Forall_forall in Hne. specialize (Hne run Hin). cbn. by destruct (sr_rdata run).
Qed.

Lemma nodup_types runs : NoDup (map sr_type runs) <-> forall t, (length (of_type t runs) <= 1)%nat.
Proof.
  induction runs as [|run runs IH]; [split; [cbn; lia|constructor]|]. cbn [map]. rewrite NoDup_cons, IH. unfold of_type.
  split.
  - intros [Hno H] t. rewrite filter_cons. destruct (decide (sr_type run = t)) as [<-|]; [|apply H]. cbn.
    enough (filter (fun r => sr_type r = sr_type run) runs = []) as -> by (cbn; lia).
    destruct (filter _ runs) as [|r l] eqn:E; [done|]. exfalso. apply Hno.
    assert (Hin : r ∈ filter (fun r => sr_type r = sr_type run) runs) by (rewrite E; left).
    apply list_elem_of_filter in Hin as [<- Hin]. by apply list_elem_of_fmap_2.
  - intros H. split.
    + intros (r & Ht & Hin)%list_elem_of_fmap. specialize (H (sr_type run)). rewrite filter_cons, decide_True in H by done. cbn in H.
      assert (Hr : r ∈ filter (fun r => sr_type r = sr_type run) runs) by (by apply list_elem_of_filter).
      destruct (filter _ runs); [by apply elem_of_nil in Hr|cbn in H; lia].
    + intros t. specialize (H t). rewrite filter_cons in H. destruct (decide _); cbn in H; lia.
Qed.

(** One run of a type is one TTL of its values. *)
Lemma one_ttl_one_run t runs : Forall (fun r => sr_rdata r <> []) runs -> no_stutter (run_ttls t runs) ->
  ((length (of_type t runs) <= 1)%nat <->
   forall v1 v2, v1 ∈ runs_values t runs -> v2 ∈ runs_values t runs -> v1.1 = v2.1).
Proof.
  intros Hne Hst. unfold runs_values. split.
  - intros Hone v1 v2 H1 H2. apply list_elem_of_In, in_flat_map in H1 as (r1 & Hr1 & H1). apply list_elem_of_In, in_flat_map in H2 as (r2 & Hr2 & H2).
    apply list_elem_of_In in Hr1, Hr2. rewrite (length_le_one_eq _ r2 r1 Hone Hr2 Hr1) in H2.
    apply in_map_iff in H1 as (? & <- & _), H2 as (? & <- & _). done.
  - intros Hv. rewrite <- (length_map sr_ttl). apply no_stutter_const; [done|].
    assert (Hin : forall x, x ∈ map sr_ttl (of_type t runs) -> exists v, v ∈ runs_values t runs /\ v.1 = x).
    { intros x (r & -> & Hr)%list_elem_of_fmap. pose proof (proj1 (of_type_elem t runs r) Hr) as [Hr' _].
      rewrite Forall_forall in Hne. specialize (Hne r Hr'). destruct (sr_rdata r) as [|v l] eqn:E; [done|].
      exists (sr_ttl r, v). split; [|done]. unfold runs_values. apply list_elem_of_In, in_flat_map. exists r.
      split; [by apply list_elem_of_In|]. rewrite E. by left. }
    intros x y (v1 & Hv1 & <-)%Hin (v2 & Hv2 & <-)%Hin. by apply Hv.
Qed.

(** Appending to the last run of a type, or after it. *)
Lemma append_run_ttls runs rtype ttl rd t :
  run_ttls t (append_run runs rtype ttl rd) = run_ttls t runs \/
  t = rtype /\ last (run_ttls t runs) <> Some ttl /\ run_ttls t (append_run runs rtype ttl rd) = run_ttls t runs ++ [ttl].
Proof.
  unfold append_run, run_ttls. set (new := mkScratchRrset rtype ttl rd).
  assert (Hsnoc : forall runs, (t = rtype -> last (map sr_ttl (of_type t runs)) <> Some ttl) ->
    let after := map sr_ttl (of_type t (runs ++ [new])) in let before := map sr_ttl (of_type t runs) in
    after = before \/ t = rtype /\ last before <> Some ttl /\ after = before ++ [ttl]).
  { intros rs Hl. cbn zeta. unfold of_type. rewrite filter_app, map_app, filter_cons. cbn [new sr_type].
    destruct (decide (rtype = t)) as [<-|]; [right; split_and!; [done|by apply Hl|done]|left; by rewrite app_nil_r]. }
  destruct (rposition _ runs) as [i|] eqn:Ei.
  2:{ apply Hsnoc. intros ->. enough (of_type rtype runs = []) as -> by done.
      destruct (of_type rtype runs) as [|r l] eqn:E; [done|]. exfalso.
      assert (Hin : r ∈ of_type rtype runs) by (rewrite E; left). apply of_type_elem in Hin as [Hin Ht].
      unfold rposition in Ei. destruct (list_find _ _) as [[j x]|] eqn:Ef; [done|]. apply list_find_None in Ef.
      rewrite Forall_forall in Ef. apply (Ef r); [by apply elem_of_reverse|]. rewrite Ht. by apply N.eqb_eq. }
  apply rposition_split in Ei as (l1 & x & l2 & -> & <- & Hx & Hl2). bool_prop. rewrite list_lookup_middle by done.
  assert (Hrest : of_type rtype l2 = []).
  { clear -Hl2. unfold of_type. induction Hl2 as [|y l2 Hy _ IH]; [done|].
    rewrite filter_cons, decide_False; [exact IH|]. by apply N.eqb_neq. }
  destruct (sr_ttl x =? ttl)%N eqn:Et; bool_prop.
  - left. rewrite insert_app_r_alt, Nat.sub_diag by done. cbn [insert list_insert]. unfold of_type.
    rewrite !filter_app, !map_app. f_equal. rewrite !filter_cons. cbn [sr_type]. rewrite Hx. by destruct (decide _).
  - apply Hsnoc. intros ->. unfold of_type in *. rewrite filter_app, filter_cons, decide_True, Hrest, map_app by done.
    cbn [map]. rewrite last_snoc. congruence.
Qed.

End Runs.

(** ** The rules, on what is declared *)

Section Verdict.
Context {HN : HickoryNames} {HL : HickoryNamesLaws HN} {HR : HickoryRdata HN} {HO : HashOrder}.
Context {HT : HashTableApi} {TL : HashTableLaws HT}.

(** What a configuration must say to be a zone that can be served. *)
Record file_servable (ds : list Declaration) (origin : list label) (soa_in_config : bool) : Prop := {
  fs_one_ttl ls t v1 v2 : v1 ∈ declared_values ds ls t -> v2 ∈ declared_values ds ls t -> v1.1 = v2.1;
  fs_soa_apex ls : declared_values ds ls RT_SOA <> [] -> ls = origin;
  fs_one_soa : length (declared_values ds origin RT_SOA) = if soa_in_config then 0%nat else 1%nat;
  fs_ns_plain ls : declared_values ds ls RT_NS <> [] -> head ls <> Some WILDCARD_LABEL;
  fs_one_cname ls : (length (declared_values ds ls RT_CNAME) <= 1)%nat;
  fs_cname_alone ls t : declared_values ds ls RT_CNAME <> [] -> t <> RT_CNAME -> declared_values ds ls t = [];
  fs_apex_ns : declared_values ds origin RT_NS <> [];
}.

(** No two runs of a type next to one another have one TTL. *)
Lemma builder_no_stutter cfg b : plain_config cfg -> config_builder cfg = Ok b ->
  forall k sn t, zb_nodes b !! k = Some sn -> no_stutter (run_ttls t (sn_rrsets sn)).
Proof.
  intros Hp H. unfold config_builder in H. apply rbind_ok in H as (origin & Ho & H).
  set (P := fun b : ZoneBuilder => zb_lower_origin b = lower_from (zb_origin b) /\
    forall k sn t, zb_nodes b !! k = Some sn -> no_stutter (run_ttls t (sn_rrsets sn))).
  enough (HP : P b) by apply HP. revert H. apply (fold_res_ind P); [|split; [done|]].
  2:{ intros k sn t Hk. cbn in Hk. by rewrite lookup_empty in Hk. }
  intros b1 spec b2 _ [Hl Hn] Hs. pose proof (insert_spec_frame _ _ _ Hs) as (F1 & F2 & _). split; [congruence|].
  rewrite insert_spec_reads in Hs by done. apply rbind_ok in Hs as (od & _ & Hs). injection Hs as <-.
  intros k sn t. destruct od as [d|]; [|apply Hn]. cbn [declare zb_nodes].
  destruct (decide (k = lower_from (dc_owner d))) as [->|Hne]; [|rewrite lookup_insert_ne by done; apply Hn].
  rewrite lookup_insert_eq. intros [= <-]. cbn [sn_rrsets].
  set (runs := sn_rrsets (default _ (zb_nodes b1 !! _))).
  assert (Hruns : no_stutter (run_ttls t runs)).
  { unfold runs. destruct (zb_nodes b1 !! lower_from (dc_owner d)) as [sn0|] eqn:E; [by eapply Hn|]. by intros [|] ? ?. }
  destruct (append_run_ttls runs (dc_type d) (dc_ttl d) (dc_rdata d) t) as [->|(_ & Hlast & ->)]; [done|].
  by apply no_stutter_snoc.
Qed.

(** Blocks that read are inserted. *)
Lemma declarations_build cfg ds : declarations cfg = Ok ds -> exists b, config_builder cfg = Ok b.
Proof.
  unfold declarations, config_builder. intros H. apply rbind_ok in H as (origin & -> & H). apply rbind_ok in H as (ods & Hods & _).
  cbn [rbind]. assert (Hb : forall b, zb_origin b = origin -> zb_lower_origin b = lower_from origin -> zb_default_ttl b = zc_default_ttl cfg ->
    exists b', fold_res insert_spec b (zc_records cfg) = Ok b'); [|by apply Hb].
  revert ods Hods. induction (zc_records cfg) as [|spec l IH]; intros ods Hods b H1 H2 H3; [by eexists|]. cbn in Hods |- *.
  destruct (read_block origin (zc_default_ttl cfg) spec) as [od|] eqn:Er; [|done]. destruct (map_res _ l) as [ods'|] eqn:El; [|done].
  rewrite insert_spec_reads, H1, H3, Er by congruence. cbn [rbind]. by apply (IH ods' eq_refl).
Qed.

Section Servable.
Context (cfg : ZoneConfig) (b : ZoneBuilder) (Hp : plain_config cfg) (Hcb : config_builder cfg = Ok b).
Context (ds : list Declaration) (Hds : declarations cfg = Ok ds).

Abbreviation m := (zb_nodes (closed_builder b)).
Abbreviation origin := (liter (zb_lower_origin b)).

Lemma node_values_declared k sn t : m !! k = Some sn -> runs_values t (sn_rrsets sn) = declared_values ds (liter k) t.
Proof. exact (closed_values cfg b Hp Hcb ds Hds k sn t). Qed.

Lemma node_runs k sn : m !! k = Some sn ->
  Forall (fun r => sr_rdata r <> []) (sn_rrsets sn) /\ forall t, no_stutter (run_ttls t (sn_rrsets sn)).
Proof.
  intros Hk. pose proof (config_builder_ok _ _ Hp Hcb) as Hb. split; [apply (nk_runs _ _ _ (node_ok b Hb k sn Hk))|]. intros t.
  destruct (zb_nodes b !! k) as [sn'|] eqn:Ek.
  - pose proof (declared_kept b Hb k sn' Ek) as Hk'. rewrite Hk in Hk'. injection Hk' as ->. by eapply builder_no_stutter.
  - destruct (node_origin b Hb k sn Hk Ek) as [-> _]. by intros [|] ? ?.
Qed.

Lemma node_has_run k sn t : m !! k = Some sn ->
  (exists run, run ∈ sn_rrsets sn /\ sr_type run = t) <-> declared_values ds (liter k) t <> [].
Proof.
  intros Hk. rewrite <- (node_values_declared k sn) by done. rewrite runs_values_nil by (by apply (node_runs k sn)).
  destruct (of_type t (sn_rrsets sn)) as [|run l] eqn:E; split; try done.
  - intros (run & Hrun). apply of_type_elem in Hrun. rewrite E in Hrun. by apply elem_of_nil in Hrun.
  - intros _. exists run. apply of_type_elem. rewrite E. left.
Qed.

(** A node is a wildcard when its key starts with an asterisk. *)
Lemma node_wildcard k sn : m !! k = Some sn -> sn_wildcard sn = false <-> head (liter k) <> Some WILDCARD_LABEL.
Proof.
  intros Hk. pose proof (config_builder_ok _ _ Hp Hcb) as Hb. pose proof (node_ok b Hb k sn Hk) as Hn.
  rewrite (nk_wildcard _ _ _ Hn), (key_labels _ _ _ Hn). unfold is_wildcard_name. rewrite bool_decide_eq_false.
  destruct (iter (sn_name sn)) as [|l ls]; [done|]. cbn. split; intros H [= Hl]; apply H; f_equal; [by apply lc_wildcard|].
  by rewrite Hl, lc_wildcard_label.
Qed.

Lemma apex_values t : exists sa, m !! zb_lower_origin b = Some sa /\ apex_runs (closed_builder b) t = of_type t (sn_rrsets sa) /\
  runs_values t (sn_rrsets sa) = declared_values ds origin t.
Proof.
  pose proof (config_builder_ok _ _ Hp Hcb) as Hb. destruct (apex_present b Hb) as [sa Ha]. exists sa.
  assert (Hlo : zb_lower_origin (closed_builder b) = zb_lower_origin b) by apply (closed_builder_ok b Hb).
  unfold apex_runs. rewrite Hlo, Ha. split_and!; [done|done|]. by apply node_values_declared.
Qed.

(** Every name with a value is a node, so a rule on nodes is one on names. *)
Lemma each_owner (P : list label -> Prop) ls t :
  (forall k sn, m !! k = Some sn -> P (liter k)) -> declared_values ds ls t <> [] -> P ls.
Proof. intros H Hne. destruct (value_node cfg b Hp Hcb ds Hds ls t Hne) as (k & sn & Hk & <-). by eapply H. Qed.

Lemma servable_declared flag : servable (closed_builder b) flag -> file_servable ds origin flag.
Proof.
  intros [Hnodes Hsoa Hns]. pose proof (config_builder_ok _ _ Hp Hcb) as Hb.
  assert (Hlo : zb_lower_origin (closed_builder b) = zb_lower_origin b) by apply (closed_builder_ok b Hb). rewrite Hlo in Hnodes.
  destruct (apex_values RT_SOA) as (sa & Ha & Hra & Hva). destruct (apex_values RT_NS) as (sa' & Ha' & Hra' & Hva').
  constructor.
  - intros ls t v1 v2 H1 H2. destruct (value_node cfg b Hp Hcb ds Hds ls t) as (k & sn & Hk & <-); [by intros E; rewrite E in H1; apply elem_of_nil in H1|].
    rewrite <- (node_values_declared k sn) in H1, H2 by done. destruct (node_runs k sn Hk) as [Hr Hst].
    by apply (proj1 (one_ttl_one_run t _ Hr (Hst t)) (proj1 (nodup_types _) (sn_one_ttl _ _ _ (Hnodes k sn Hk)) t)).
  - intros ls Hne. destruct (value_node cfg b Hp Hcb ds Hds ls _ Hne) as (k & sn & Hk & <-).
    destruct (proj2 (node_has_run k sn RT_SOA Hk) Hne) as (run & Hrun & Ht). by rewrite (sn_soa_apex _ _ _ (Hnodes k sn Hk) run Hrun Ht).
  - by rewrite <- Hva, runs_values_length, <- Hra.
  - intros ls Hne. destruct (value_node cfg b Hp Hcb ds Hds ls _ Hne) as (k & sn & Hk & <-).
    destruct (proj2 (node_has_run k sn RT_NS Hk) Hne) as (run & Hrun & Ht).
    destruct (sn_ns_plain _ _ _ (Hnodes k sn Hk) run Hrun Ht) as [->|Hw]; [apply (bo_star b Hb)|by apply (node_wildcard k sn)].
  - intros ls. destruct (declared_values ds ls RT_CNAME) as [|v l] eqn:E; [cbn; lia|]. rewrite <- E.
    destruct (value_node cfg b Hp Hcb ds Hds ls RT_CNAME) as (k & sn & Hk & <-); [by rewrite E|].
    rewrite <- (node_values_declared k sn), runs_values_length by done. apply (sn_one_cname _ _ _ (Hnodes k sn Hk)).
  - intros ls t Hne Ht. destruct (value_node cfg b Hp Hcb ds Hds ls _ Hne) as (k & sn & Hk & <-).
    destruct (declared_values ds (liter k) t) as [|v l] eqn:E; [done|]. exfalso.
    assert (Hother : declared_values ds (liter k) t <> []) by (by rewrite E).
    destruct (proj2 (node_has_run k sn _ Hk) Hother) as (r1 & Hr1 & Ht1).
    destruct (proj2 (node_has_run k sn _ Hk) Hne) as (r2 & Hr2 & Ht2). apply Ht. rewrite <- Ht1, <- Ht2. f_equal.
    apply (length_le_one_eq (sn_rrsets sn)); [|done|done]. apply (sn_cname_alone _ _ _ (Hnodes k sn Hk)).
    rewrite <- runs_values_length, (node_values_declared k sn) by done. by destruct (declared_values ds (liter k) RT_CNAME); [|cbn; lia].
  - rewrite <- Hva', runs_values_nil, <- Hra' by (by apply (node_runs _ _ Ha')). done.
Qed.

Lemma declared_servable flag : file_servable ds origin flag -> servable (closed_builder b) flag.
Proof.
  intros [Httl Hapex Hsoa Hns Hc Hcn Hans]. pose proof (config_builder_ok _ _ Hp Hcb) as Hb.
  assert (Hlo : zb_lower_origin (closed_builder b) = zb_lower_origin b) by apply (closed_builder_ok b Hb).
  destruct (apex_values RT_SOA) as (sa & Ha & Hra & Hva). destruct (apex_values RT_NS) as (sa' & Ha' & Hra' & Hva').
  constructor.
  - intros k sn Hk. rewrite Hlo. destruct (node_runs k sn Hk) as [Hr Hst].
    assert (Hnd : NoDup (map sr_type (sn_rrsets sn))).
    { apply nodup_types. intros t. apply (one_ttl_one_run t _ Hr (Hst t)). rewrite (node_values_declared k sn) by done. apply Httl. }
    constructor; [done| | | |].
    + intros run Hrun Ht. apply lname_ext; [apply Hapex, (proj1 (node_has_run k sn RT_SOA Hk)); by exists run|].
      pose proof (node_ok b Hb k sn Hk) as Hn. rewrite <- (nk_key _ _ _ Hn), fqdn_lower_from, (nk_fqdn _ _ _ Hn).
      by rewrite (bo_lower b Hb), fqdn_lower_from, (bo_fqdn b Hb).
    + intros run Hrun Ht. right. apply (node_wildcard k sn Hk), Hns, (proj1 (node_has_run k sn RT_NS Hk)). by exists run.
    + rewrite <- runs_values_length, (node_values_declared k sn) by done. apply Hc.
    + rewrite <- runs_values_length, (node_values_declared k sn) by done. intros Hpos.
      assert (Hne : declared_values ds (liter k) RT_CNAME <> []) by (by intros E; rewrite E in Hpos; cbn in Hpos; lia).
      rewrite <- (length_map sr_type). destruct (map sr_type (sn_rrsets sn)) as [|t1 [|t2 l]] eqn:E; cbn; [lia|lia|]. exfalso.
      assert (Hall : forall t, t ∈ map sr_type (sn_rrsets sn) -> t = RT_CNAME).
      { intros t (run & -> & Hrun)%list_elem_of_fmap. destruct (decide (sr_type run = RT_CNAME)) as [|Hne']; [done|]. exfalso.
        assert (Hhas : declared_values ds (liter k) (sr_type run) <> []) by (apply (proj1 (node_has_run k sn _ Hk)); by exists run).
        by rewrite (Hcn _ _ Hne Hne') in Hhas. }
      rewrite E in Hall. apply NoDup_cons in Hnd as [Hno _]. apply Hno.
      rewrite (Hall t1), (Hall t2); [left|right; left|left].
  - by rewrite Hra, <- runs_values_length, Hva.
  - rewrite Hra'. rewrite <- Hva', runs_values_nil in Hans by (by apply (node_runs _ _ Ha')). done.
Qed.

End Servable.

(** A configuration that reads, and whose blocks keep the rules. *)
Definition file_accepted (cfg : ZoneConfig) : Prop :=
  exists origin ds, parse_name (zc_origin cfg) = Ok origin /\ declarations cfg = Ok ds /\
    (forall spec, zc_soa cfg = Some spec -> exists r, build_soa origin spec = Ok r) /\
    file_servable ds (liter (lower_from origin)) (match zc_soa cfg with Some _ => true | None => false end).

(** Shared with the theorem on two processes. *)
Lemma from_config_accepts seed cfg :
  plain_config cfg -> (forall b, config_builder cfg = Ok b -> arenas_fit (entries_of b)) ->
  (exists z, from_config seed cfg = Ok z) <-> file_accepted cfg.
Proof.
  intros Hp Hfit. split.
  - intros [z Hz]. destruct (from_config_inv _ _ _ Hz) as (b & soa_in & Hcb & Hfin & Hsoa).
    destruct (finish_inv _ _ _ _ Hfin) as (ly & ar & Hf). destruct (builder_holds_declared cfg b Hp Hcb) as (ds & Hds & _).
    pose proof (config_builder_origin _ _ Hcb) as Ho. destruct (parse_name (zc_origin cfg)) as [origin|] eqn:Hor; [|done].
    exists origin, ds. split; [done|]. split; [done|]. rewrite (served_origin cfg b Hcb origin Hor). split.
    + intros spec Hspec. rewrite (from_config_unfold _ _ b Hcb), Hspec in Hz. injection Ho as ->.
      destruct (build_soa (zb_origin b) spec) as [r|]; [by exists r|done].
    + apply (servable_declared cfg b Hp Hcb ds Hds), check_findings_nil. pose proof (fi_checked _ _ _ _ _ _ Hf) as Hc.
      destruct Hsoa as [S1 S2].
      destruct soa_in, (zc_soa cfg); try done; [discriminate (S2 eq_refl)|discriminate (S1 eq_refl)].
  - intros (origin & ds & Hor & Hds & Hsoa & Hok). destruct (declarations_build cfg ds Hds) as [b Hcb].
    rewrite (served_origin cfg b Hcb origin Hor) in Hok. apply (from_config_succeeds seed cfg b Hp Hcb).
    + pose proof (config_builder_origin _ _ Hcb) as Ho. rewrite Hor in Ho. injection Ho as <-.
      destruct (zc_soa cfg) as [spec|]; [by apply Hsoa|done].
    + by apply (declared_servable cfg b Hp Hcb ds Hds).
    + by apply Hfit.
Qed.


End Verdict.
