(* ===== verification/FileZone.v ===== *)
(** * FileZone: the answers, read off the configuration

    A name server without a zone: the record blocks of the file as a [View], with no
    arena, hash, index or order of the table, so that [file_lookup] is the standard's
    algorithm (RFC 1034 section 4.3.2, RFC 4592) on the blocks themselves.
    [lookup_reads_the_file] is that [Zone::lookup] (src/src/zone.rs) on the zone built
    from a file is this, but for the two departures it names; nothing the build draws
    or leaves open can be seen in an answer ([builds_agree]). *)

From S2P Require Import Prelude Names Rdata Hashing Zone Lookup Build Checked BuildFacts LayoutFacts ArenaFacts Finish.
From S2P Require Import Totality Served Asserts Answers ZoneTheorems Declared FileVerdict.
Local Open Scope vega_scope.

(** ** The reading *)

Section Reading.
Context {HN : HickoryNames}.
Context (ds : list Declaration) (origin : list label).

(** The names of the zone: the apex, the owners and every name between. *)
Definition is_node (ls : list label) : bool :=
  bool_decide (ls = origin) ||
  under_origin origin ls && existsb (fun d => under_origin ls (liter (lower_from (dc_owner d)))) ds.

Definition file_records (ls : list label) (t : RecordType) : list DnsRecord :=
  match declared_owner ds ls with
  | Some owner => records_at owner (declared_values ds ls t)
  | None => []
  end.

Definition file_targets (cut : list label) : list LowerName :=
  flat_map (fun v => match v.2 with RD_NS ns => [lower_from ns] | _ => [] end) (declared_values ds cut RT_NS).

(** The addresses of a name server: below a delegation only where it is one of that
    delegation's own targets. *)
Definition file_glue (target : LowerName) : list DnsRecord :=
  match declared_owner ds (liter target) with
  | None => []
  | Some owner =>
      if match cut_of ds origin (liter target) with
         | None => true
         | Some cut => bool_decide (lower_from owner ∈ file_targets cut)
         end
      then file_records (liter target) RT_A ++ file_records (liter target) RT_AAAA else []
  end.

Definition file_referral (cut : list label) : Referral :=
  mkReferral (file_records cut RT_NS) (flat_map file_glue (firsts [] (file_targets cut))).

(** What is at or below a delegation is not the zone's, but for its glue. *)
Definition file_view : View :=
  mkView origin is_node (fun ls => file_referral <$> cut_of ds origin ls) (declared_values ds) file_records.

End Reading.

(** A question for one type, answered from a file by the standard; a file that does not
    read answers nothing. *)
Definition of_file {A} {HN : HickoryNames} {HR : HickoryRdata HN} (cfg : ZoneConfig) (default : A) (f : View -> A) : A :=
  match parse_name (zc_origin cfg), declarations cfg with
  | Ok origin, Ok ds => f (file_view ds (liter (lower_from origin)))
  | _, _ => default
  end.

Definition file_lookup {HN : HickoryNames} {HR : HickoryRdata HN} (cfg : ZoneConfig) (name : LowerName) (t : RecordType) : Answer :=
  of_file cfg NxDomain (fun v => standard_lookup v name t).

(** The question meets the alias of a wildcard, which the program does not follow. *)
Definition file_departs {HN : HickoryNames} {HR : HickoryRdata HN} (cfg : ZoneConfig) (name : LowerName) (t : RecordType) : bool :=
  of_file cfg false (fun v => departs v name t).

(** The same with the program's departures. *)
Definition file_served {HN : HickoryNames} {HR : HickoryRdata HN} (cfg : ZoneConfig) (name : LowerName) (t : RecordType) : Answer :=
  of_file cfg NxDomain (fun v => served_lookup v name t).

(** ** The zone agrees with the file *)

Section Agree.
Context {HN : HickoryNames} {HL : HickoryNamesLaws HN} {HR : HickoryRdata HN} {HO : HashOrder}.
Context {HT : HashTableApi} {TL : HashTableLaws HT}.
Context (seed : N) (cfg : ZoneConfig) (b : ZoneBuilder) (z : Zone) (Hs : serves seed cfg b z).
Context (ds : list Declaration) (Hds : declarations cfg = Ok ds).

Abbreviation m := (zb_nodes (closed_builder b)).
Abbreviation origin := (liter (zb_lower_origin b)).

Lemma is_node_spec ls : is_node ds origin ls = true <-> exists k sn, m !! k = Some sn /\ liter k = ls.
Proof.
  rewrite (proj1 (nodes_are_names_and_ancestors cfg b ls (sv_plain _ _ _ _ Hs) (sv_builder _ _ _ _ Hs))).
  unfold is_node. rewrite orb_true_iff, andb_true_iff, bool_decide_eq_true, under_origin_spec, existsb_exists.
  destruct (serves_declares _ _ (sv_plain _ _ _ _ Hs) (sv_builder _ _ _ _ Hs) ds Hds) as [Hn Hi].
  assert (E : (exists d, In d ds /\ under_origin ls (liter (lower_from (dc_owner d))) = true) <->
              (exists d sd, zb_nodes b !! d = Some sd /\ labels_under ls (liter d))); [|by rewrite E].
  split.
  - intros (d & Hd%list_elem_of_In & Hu). apply under_origin_spec in Hu. destruct (Hi d Hd) as [_ [sn Hsn]].
    by exists (lower_from (dc_owner d)), sn.
  - intros (k & sn & Hk & Hu). destruct (Hn k sn Hk) as [Ho _]. unfold declared_owner in Ho.
    destruct (filter (owned_by (liter k)) ds) as [|d l] eqn:E; [done|].
    assert (Hd : d ∈ filter (owned_by (liter k)) ds) by (rewrite E; left). apply list_elem_of_filter in Hd as [Hod Hd].
    exists d. split; [by apply list_elem_of_In|]. apply under_origin_spec. unfold owned_by in Hod. by rewrite Hod.
Qed.

Lemma is_node_az ls : is_node ds origin ls = true <-> az_node (abs_zone z) ls <> None.
Proof.
  rewrite is_node_spec. split.
  - intros (k & sn & Hk & <-). by eapply az_present.
  - intros H. destruct (az_node (abs_zone z) ls) as [nd|] eqn:E; [|done]. by eapply az_is_key.
Qed.

Lemma values_of k sn t : m !! k = Some sn -> scratch_values sn t = declared_values ds (liter k) t.
Proof. exact (closed_values _ _ (sv_plain _ _ _ _ Hs) (sv_builder _ _ _ _ Hs) ds Hds k sn t). Qed.

Lemma file_records_spec k sn t : m !! k = Some sn -> file_records ds (liter k) t = records_at (sn_name sn) (scratch_values sn t).
Proof.
  intros Hk. pose proof (closed_owner _ _ (sv_plain _ _ _ _ Hs) (sv_builder _ _ _ _ Hs) ds Hds k sn Hk) as Ho. unfold file_records.
  destruct (declared_owner _ _); [subst; by rewrite (values_of k sn)|]. unfold scratch_values. by rewrite Ho.
Qed.

Lemma file_targets_spec k sn : m !! k = Some sn -> file_targets ds (liter k) = ns_values sn.
Proof. intros Hk. unfold file_targets, ns_values. by rewrite (values_of k sn). Qed.

Lemma glue_reads g : glue_of z g = file_glue ds origin g.
Proof.
  destruct (serves_finished _ _ _ _ Hs) as (soa_in & ly & ar & Hb & Hf). pose proof (sv_size _ _ _ _ Hs) as Hsize.
  unfold glue_of, file_glue. destruct (find_node z (liter g)) as [[r nd]|] eqn:E.
  2:{ destruct (declared_owner ds (liter g)) as [owner|] eqn:Eo; [|done]. exfalso.
      unfold declared_owner in Eo. destruct (filter (owned_by (liter g)) ds) as [|d l] eqn:Ef; [done|].
      assert (Hd : d ∈ filter (owned_by (liter g)) ds) by (rewrite Ef; left). apply list_elem_of_filter in Hd as [Hod Hd].
      destruct (declared_node _ _ (sv_plain _ _ _ _ Hs) (sv_builder _ _ _ _ Hs) ds Hds d Hd) as (sn & Hk & _). unfold owned_by in Hod.
      destruct (find_key b Hb soa_in seed z ly ar Hf _ sn Hk) as (r & nd & Hfn & _). congruence. }
  destruct (find_is_key b Hb soa_in seed z ly ar Hf _ r nd E) as (k & sn & Hl & Hk & Hr & Hp).
  pose proof (closed_owner _ _ (sv_plain _ _ _ _ Hs) (sv_builder _ _ _ _ Hs) ds Hds k sn Hk) as Ho. rewrite (pl_name _ _ _ _ _ _ Hp). cbn [snd].
  assert (Hv : forall t, (t = RT_A \/ t = RT_AAAA) -> node_values z nd t =
    if match cut_of ds origin (liter k) with None => true | Some cut => bool_decide (k ∈ file_targets ds cut) end
    then scratch_values sn t else []).
  { intros t Ht. destruct (placed_values b Hb soa_in seed z ly ar Hf Hsize r k sn nd t Hr Hp) as [[Hun ->]|(d & sd & Hn & ->)].
    - destruct (cut_of ds origin (liter k)) as [c|] eqn:Ec; [|done]. exfalso.
      destruct (cut_of_nearest _ _ (sv_plain _ _ _ _ Hs) (sv_builder _ _ _ _ Hs) ds Hds _ _ Ec) as (d & sd & _ & Hd & Hu & _). by apply (Hun d sd).
    - destruct (cut_of ds origin (liter k)) as [c|] eqn:Ec.
      + destruct (cut_of_nearest _ _ (sv_plain _ _ _ _ Hs) (sv_builder _ _ _ _ Hs) ds Hds _ _ Ec) as (d' & sd' & <- & Hn').
        destruct (nearest_unique b Hb _ _ _ _ _ Hn Hn') as [-> ->]. rewrite (file_targets_spec d' sd') by apply Hn'.
        unfold survives. destruct Ht as [->| ->]; by rewrite andb_false_r, andb_true_r.
      + destruct Hn as (Hd & Hu & _). by destruct (cut_of_undelegated _ _ (sv_plain _ _ _ _ Hs) (sv_builder _ _ _ _ Hs) ds Hds _ Ec d sd Hd Hu). }
  rewrite !Hv by auto. rewrite Hl in *. destruct (declared_owner ds (liter g)) as [owner|].
  - subst owner. rewrite (nk_key _ _ _ (node_ok b Hb k sn Hk)). rewrite <- Hl, !(file_records_spec k sn) by done.
    match goal with |- context [if ?kept then _ else _] => by destruct kept end.
  - unfold scratch_values. rewrite Ho. match goal with |- context [if ?kept then _ else _] => by destruct kept end.
Qed.

Lemma file_referral_spec d sd : m !! d = Some sd ->
  mkReferral (records_at (sn_name sd) (scratch_values sd RT_NS)) (flat_map (glue_of z) (firsts [] (ns_values sd)))
  = file_referral ds origin (liter d).
Proof.
  intros Hd. unfold file_referral. rewrite (file_records_spec d sd), (file_targets_spec d sd) by done. f_equal.
  apply flat_map_ext, glue_reads.
Qed.

(** A name of the zone, as the lookup finds it. *)
Lemma node_reads ls : is_node ds origin ls = true ->
  exists nd, az_node (abs_zone z) ls = Some nd /\
    match cut_of ds origin ls with
    | None => is_none (an_cut nd) = true /\
        (forall t, an_values nd t = declared_values ds ls t /\ records_at (an_name nd) (an_values nd t) = file_records ds ls t)
    | Some cut => is_none (an_cut nd) = false /\ referrals z !! an_cut nd = Some (file_referral ds origin cut)
    end.
Proof.
  intros (k & sn & Hk & <-)%is_node_spec. destruct (cut_of ds origin (liter k)) as [cut|] eqn:Ec.
  - destruct (cut_of_nearest _ _ (sv_plain _ _ _ _ Hs) (sv_builder _ _ _ _ Hs) ds Hds _ _ Ec) as (d & sd & <- & Hn).
    destruct (find_node z (liter k)) as [[r nd]|] eqn:Hf.
    2:{ exfalso. apply (az_present _ _ _ _ Hs k sn Hk). cbn. by rewrite Hf. }
    destruct (cut_referral _ _ _ _ Hs r k sn nd d sd Hf Hk Hn) as [Hc Hr].
    exists (abs_node z nd). cbn. rewrite Hf. split_and!; [done|done|]. rewrite Hr. f_equal. by apply file_referral_spec, Hn.
  - destruct (az_undelegated _ _ _ _ Hs k sn Hk (cut_of_undelegated _ _ (sv_plain _ _ _ _ Hs) (sv_builder _ _ _ _ Hs) ds Hds _ Ec)) as (nd & Hn & Hname & Hc & Hv).
    exists nd. split_and!; [done|done|]. intros t. rewrite Hname, Hv. split; [by apply values_of|].
    symmetry. by apply file_records_spec.
Qed.

Lemma no_node_reads ls : is_node ds origin ls = false -> az_node (abs_zone z) ls = None.
Proof.
  intros H. destruct (az_node (abs_zone z) ls) eqn:E; [|done]. rewrite (proj2 (is_node_az ls)) in H; congruence.
Qed.

(** What covers a name that is not in the zone covers its closest encloser. *)
Lemma cut_of_encloser ls :
  is_node ds origin ls = false ->
  match encloser (is_node ds origin) ls with
  | Some ce => is_node ds origin ce = true /\ cut_of ds origin ce = cut_of ds origin ls
  | None => cut_of ds origin ls = None
  end.
Proof.
  assert (Hno : forall x, is_node ds origin x = false -> delegates ds origin x = false).
  { intros x Hx. destruct (delegates ds origin x) eqn:E; [|done].
    apply (delegates_spec _ _ (sv_plain _ _ _ _ Hs) (sv_builder _ _ _ _ Hs) ds Hds) in E as (d & sd & (Hd & _) & Hl).
    rewrite (proj2 (is_node_spec x)) in Hx; [done|]. by exists d, sd. }
  induction ls as [|l up IH]; intros Hx; cbn [encloser cut_of]; rewrite (Hno _ Hx); [done|].
  destruct (is_node ds origin up) eqn:Eu; [done|by apply IH].
Qed.

(** A wildcard is never a delegation, so what covers it covers its parent. *)
Lemma cut_of_wildcard ce : cut_of ds origin ce = None -> cut_of ds origin (WILDCARD_LABEL :: ce) = None.
Proof.
  intros Hc. cbn [cut_of]. destruct (delegates ds origin (WILDCARD_LABEL :: ce)) eqn:E; [|done]. exfalso.
  apply (delegates_spec _ _ (sv_plain _ _ _ _ Hs) (sv_builder _ _ _ _ Hs) ds Hds) in E as (d & sd & Hd & Hl).
  destruct (serves_finished _ _ _ _ Hs) as (soa_in & ly & ar & Hb & Hf).
  pose proof (delegation_not_star b Hb soa_in seed z ly ar Hf d sd Hd) as Hstar. by rewrite Hl in Hstar.
Qed.

(** ** Two views of one zone *)

Abbreviation fv := (file_view ds origin).
Abbreviation zv := (az_view (fun i => referrals z !! i) (abs_zone z)).

Lemma node_views ls : is_node ds origin ls = v_node zv ls.
Proof.
  cbn [v_node az_view]. pose proof (is_node_az ls) as H. destruct (az_node _ ls), (is_node ds origin ls); try done.
  - by destruct (proj2 H).
  - by destruct (proj1 H).
Qed.

Lemma source_views ls : source fv ls = source zv ls.
Proof.
  assert (He : encloser (v_node fv) ls = encloser (v_node zv) ls).
  { cbn [v_node file_view]. induction ls as [|l ls IH]; [done|]. cbn [encloser]. by rewrite IH, node_views. }
  unfold source. rewrite He. cbn [v_node file_view]. rewrite (node_views ls).
  destruct (v_node zv ls); [done|]. destruct (encloser (v_node zv) ls) as [ce|]; [|done]. by rewrite (node_views (WILDCARD_LABEL :: ce)).
Qed.

Lemma node_cut ls nd : is_node ds origin ls = true -> az_node (abs_zone z) ls = Some nd ->
  (if is_none (an_cut nd) then None else Some (default (mkReferral [] []) (referrals z !! an_cut nd)))
  = file_referral ds origin <$> cut_of ds origin ls.
Proof.
  intros H Haz. destruct (node_reads _ H) as (nd' & Haz' & Hc). rewrite Haz in Haz'. injection Haz' as <-.
  destruct (cut_of ds origin ls) as [cut|]; [|by destruct Hc as [-> _]]. by destruct Hc as [-> ->].
Qed.

Lemma cut_views ls : v_cut fv ls = v_cut zv ls.
Proof.
  cbn [v_cut file_view az_view]. unfold az_cut. destruct (is_node ds origin ls) eqn:En.
  - destruct (node_reads _ En) as (nd & Hnd & _). rewrite Hnd. symmetry. by apply node_cut.
  - rewrite (no_node_reads _ En), <- (encloser_climb (fun i => referrals z !! i)).
    pose proof (cut_of_encloser _ En) as Hce.
    assert (He : encloser (is_node ds origin) ls = encloser (v_node zv) ls).
    { clear En Hce. induction ls as [|l ls IH]; [done|]. cbn [encloser]. by rewrite IH, node_views. }
    rewrite <- He. destruct (encloser (is_node ds origin) ls) as [ce|]; [|by rewrite Hce]. destruct Hce as [Hce <-].
    cbn [mbind option_bind]. destruct (node_reads _ Hce) as (nd & Hnd & _). rewrite Hnd. symmetry. by apply node_cut.
Qed.

Lemma values_views ls t : is_node ds origin ls = true -> cut_of ds origin ls = None ->
  v_values fv ls t = v_values zv ls t /\ v_records fv ls t = v_records zv ls t.
Proof.
  intros Hn Hc. destruct (node_reads _ Hn) as (nd & Haz & Hv). rewrite Hc in Hv. destruct Hv as [_ Hv].
  destruct (Hv t) as [H1 H2]. cbn [v_values v_records file_view az_view]. unfold az_values. by rewrite Haz, H2, H1.
Qed.

(** Where a name is answered from is in the zone and not given away. *)
Lemma source_kept ls at_node : cut_of ds origin ls = None -> source fv ls = Some at_node ->
  is_node ds origin at_node = true /\ cut_of ds origin at_node = None.
Proof.
  intros Hc. unfold source. cbn [v_node file_view]. destruct (is_node ds origin ls) eqn:En; [by intros [= <-]|].
  pose proof (cut_of_encloser _ En) as Hce. destruct (encloser _ _) as [ce|]; [|done]. destruct Hce as [_ Hce].
  destruct (is_node ds origin (WILDCARD_LABEL :: ce)) eqn:Ew; [|done]. intros [= <-]. split; [done|].
  apply cut_of_wildcard. congruence.
Qed.

Lemma step_views name t : standard_step fv name t = standard_step zv name t.
Proof.
  assert (Ho : v_origin fv = v_origin zv) by (symmetry; apply (serves_origin _ _ _ _ Hs)).
  unfold standard_step. rewrite cut_views, source_views, <- Ho. destruct (negb _); [done|].
  destruct (v_cut zv (liter name)) eqn:Hc; [done|]. rewrite <- cut_views in Hc. cbn [v_cut file_view] in Hc.
  apply fmap_None in Hc. rewrite <- source_views. destruct (source fv (liter name)) as [at_node|] eqn:Hsrc; [|done].
  destruct (source_kept _ _ Hc Hsrc) as [Hn Hk]. unfold records_for.
  destruct (values_views at_node t Hn Hk) as [<- <-], (values_views at_node RT_CNAME Hn Hk) as [<- <-].
  replace (v_node zv (liter name)) with (v_node fv (liter name)) by apply node_views. done.
Qed.

Lemma alias_views name t : wildcard_alias fv name t = wildcard_alias zv name t.
Proof. unfold wildcard_alias. by rewrite step_views, source_views. Qed.

Lemma lookup_views name t :
  standard_lookup fv name t = standard_lookup zv name t /\ served_lookup fv name t = served_lookup zv name t.
Proof.
  assert (Hstd : forall t, standard_lookup fv name t = standard_lookup zv name t).
  { intros t'. apply chase_ext. intros; apply step_views. }
  split; [done|]. unfold served_lookup. rewrite Hstd. destruct (is_any t); [done|].
  apply chase_ext. intros n. unfold served_step. by rewrite alias_views, step_views.
Qed.

End Agree.

Section FileZone.
Context {HN : HickoryNames} {HL : HickoryNamesLaws HN} {HR : HickoryRdata HN} {HO : HashOrder}.
Context {HT : HashTableApi} {TL : HashTableLaws HT}.

(** Shared with the theorems on responses: every name and type, departures and all. *)
Lemma zone_reads_the_file seed cfg z name t :
  from_config seed cfg = Ok z -> plain_config cfg -> fits cfg ->
  Zone_lookup z name t = file_served cfg name t.
Proof.
  intros Hz Hp Hf. destruct (built_serves seed cfg z Hp Hf Hz) as [b Hs].
  destruct (builder_holds_declared cfg b Hp (sv_builder _ _ _ _ Hs)) as (ds & Hds & _).
  unfold file_served, of_file. rewrite Hds. pose proof (sv_builder _ _ _ _ Hs) as Hb. unfold config_builder in Hb.
  destruct (parse_name (zc_origin cfg)) as [origin|] eqn:Ho; [|done].
  rewrite (served_origin _ _ (sv_builder _ _ _ _ Hs) origin Ho), (proj2 (lookup_views _ _ _ _ Hs ds Hds name t)).
  rewrite lookup_spec by (eauto with vega). apply spec_lookup_served. apply wf_alone. eauto with vega.
Qed.

Lemma file_served_standard cfg name t :
  is_any t = false -> file_departs cfg name t = false -> file_served cfg name t = file_lookup cfg name t.
Proof.
  unfold file_served, file_departs, file_lookup, of_file. intros Hany. destruct (parse_name _), (declarations cfg); try done.
  by apply served_standard.
Qed.

Lemma file_served_any cfg name t :
  is_any t = true -> file_served cfg name t = match file_lookup cfg name RT_CNAME with Records _ => NoData | a => a end.
Proof.
  unfold file_served, file_lookup, of_file, served_lookup. intros ->. by destruct (parse_name _), (declarations cfg).
Qed.

(** C3: the answers are read off the file.  Take a configuration no name of which holds a
    backslash, whose origin is neither empty nor a wildcard, and with fewer nodes than
    a 32-bit index counts.  For every name, and every type but ANY, the lookup on the
    zone built from it - by hashed suffixes, over arenas, with referrals and glue built
    in advance - answers what RFC 1034 section 4.3.2, with RFC 4592, answers on the
    record blocks as they are written: owners, values and TTLs in the order of the
    file, delegations, glue, wildcards, and chains of at most [MAX_CNAME_DEPTH] aliases
    - unless the chain reaches the alias of a wildcard, which the program does not
    follow.  A question that is at one at once is told NODATA.  To ANY the lookup says
    only whether the name is there: the referral or the denial a question for a CNAME
    gets, and NODATA for its records. *)
Theorem lookup_reads_the_file seed cfg z name t :
  from_config seed cfg = Ok z -> plain_config cfg -> fits cfg ->
  (is_any t = false -> file_departs cfg name t = false -> Zone_lookup z name t = file_lookup cfg name t) /\
  (is_any t = false -> of_file cfg false (fun v => wildcard_alias v name t) = true -> Zone_lookup z name t = NoData) /\
  (is_any t = true -> Zone_lookup z name t = match file_lookup cfg name RT_CNAME with Records _ => NoData | a => a end).
Proof.
  intros Hz Hp Hf. rewrite (zone_reads_the_file seed cfg z) by done. split_and!.
  - apply file_served_standard.
  - intros Hany. unfold file_served, of_file. destruct (parse_name _), (declarations cfg); try done. by apply wildcard_alias_is_nodata.
  - apply file_served_any.
Qed.

End FileZone.

(** C4: nothing a process draws can be seen.  Take two processes, with whatever hash
    seeds, whatever orders their tables are walked in and whatever tables they use:
    they accept the same configurations, and on the zones of one configuration every
    lookup has the same answer. *)
Theorem builds_agree {HN : HickoryNames} {HL : HickoryNamesLaws HN} {HR : HickoryRdata HN}
    (HO1 HO2 : HashOrder) (HT1 HT2 : HashTableApi) {TL1 : HashTableLaws HT1} {TL2 : HashTableLaws HT2} s1 s2 cfg :
  plain_config cfg ->
  (forall b, config_builder cfg = Ok b -> arenas_fit (entries_of (HO := HO1) b)) ->
  (forall b, config_builder cfg = Ok b -> arenas_fit (entries_of (HO := HO2) b)) ->
  ((exists z, from_config (HO := HO1) (HT := HT1) s1 cfg = Ok z) <-> (exists z, from_config (HO := HO2) (HT := HT2) s2 cfg = Ok z)) /\
  forall z1 z2 name t, from_config (HO := HO1) (HT := HT1) s1 cfg = Ok z1 -> from_config (HO := HO2) (HT := HT2) s2 cfg = Ok z2 ->
    Zone_lookup z1 name t = Zone_lookup z2 name t.
Proof.
  intros Hp H1 H2. split.
  - rewrite (from_config_accepts (HO := HO1) s1 cfg Hp H1). by rewrite (from_config_accepts (HO := HO2) s2 cfg Hp H2).
  - intros z1 z2 name t Hz1 Hz2. rewrite (zone_reads_the_file (HO := HO1) s1 cfg z1); [|done|done|intros b Hb; apply H1, Hb].
    symmetry. apply (zone_reads_the_file (HO := HO2) s2 cfg z2); [done|done|intros b Hb; apply H2, Hb].
Qed.
