(* ===== verification/ZoneExamples.v ===== *)
(** * A zone, built and queried (src/src/zone.rs)

    A configuration with an apex, a host, a CNAME, an empty non-terminal, a
    wildcard and a delegation, on the concrete names of [Plain].  Every theorem of
    [ZoneTheorems] with a hypothesis is applied to it. *)

From S2P Require Import Prelude Names Rdata Plain Hashing Zone Lookup Build Checked BuildFacts LayoutFacts ArenaFacts.
From S2P Require Import Finish Totality Served Asserts Answers ZoneTheorems Declared FileVerdict FileZone.
Local Open Scope vega_scope.

(** ** Deciding the side conditions *)

Section Deciders.
Context {HN : HickoryNames}.
Context (m : gmap LowerName ScratchNode) (origin : list label).

Definition delegation_b (e : LowerName * ScratchNode) : bool :=
  negb (bool_decide (liter e.1 = origin)) && match ns_targets e.2 with Some _ => true | None => false end.

Lemma delegation_b_spec d sd : m !! d = Some sd -> delegation_b (d, sd) = true <-> delegation m origin d sd.
Proof.
  intros Hd. unfold delegation_b, delegation. cbn. rewrite andb_true_iff, negb_true_iff, bool_decide_eq_false.
  destruct (ns_targets sd); split; [intros [? _]|intros (_ & ? & _)|intros [_ ?]|intros (_ & _ & ?)]; by split_and!.
Qed.

Lemma undelegated_check ls :
  forallb (fun e => negb (delegation_b e && under_origin (liter e.1) ls)) (map_to_list m) = true ->
  undelegated m origin ls.
Proof.
  intros H d sd Hd Hu. rewrite forallb_forall in H. specialize (H (d, sd)). cbn in H.
  rewrite (proj2 (delegation_b_spec d sd (proj1 Hd)) Hd), (proj2 (under_origin_spec _ _) Hu) in H.
  discriminate H. apply list_elem_of_In, elem_of_map_to_list, Hd.
Qed.

Lemma nearest_check ls d sd :
  m !! d = Some sd -> delegation_b (d, sd) && under_origin (liter d) ls = true ->
  forallb (fun e => negb (delegation_b e && under_origin (liter e.1) ls) || under_origin (liter e.1) (liter d))
    (map_to_list m) = true ->
  nearest m origin ls d sd.
Proof.
  intros Hd Hb H. apply andb_true_iff in Hb as [Hb Hu]. split_and!.
  - by apply delegation_b_spec.
  - by apply under_origin_spec.
  - intros d' sd' Hd' Hu'. rewrite forallb_forall in H. specialize (H (d', sd')). cbn in H.
    rewrite (proj2 (delegation_b_spec d' sd' (proj1 Hd')) Hd'), (proj2 (under_origin_spec _ _) Hu') in H.
    apply under_origin_spec, H. apply list_elem_of_In, elem_of_map_to_list, Hd'.
Qed.

Lemma no_key_check ls :
  forallb (fun e => negb (bool_decide (liter e.1 = ls))) (map_to_list m) = true ->
  forall k sn, m !! k = Some sn -> liter k <> ls.
Proof using.
  intros H k sn Hk He. rewrite forallb_forall in H. specialize (H (k, sn)). cbn in H.
  rewrite bool_decide_eq_true_2 in H by done. discriminate H. apply list_elem_of_In, elem_of_map_to_list, Hk.
Qed.

End Deciders.

Lemma encloses_check {HN : HickoryNames} {HR : HickoryRdata HN} {HO : HashOrder} (b : ZoneBuilder) ls kc :
  is_Some (zb_nodes (closed_builder b) !! kc) -> under_origin (liter kc) ls = true ->
  forallb (fun e : LowerName * ScratchNode => negb (bool_decide (liter e.1 = ls)) &&
    (negb (under_origin (liter e.1) ls) || under_origin (liter e.1) (liter kc)))
    (map_to_list (zb_nodes (closed_builder b))) = true ->
  encloses b ls kc.
Proof.
  unfold encloses. generalize (zb_nodes (closed_builder b)). clear b. intros m Hc Hu H. rewrite forallb_forall in H.
  assert (Hall : forall k sn, m !! k = Some sn ->
    liter k <> ls /\ (labels_under (liter k) ls -> labels_under (liter k) (liter kc))).
  { intros k sn Hk. specialize (H (k, sn)). cbn in H.
    assert (Hin : In (k, sn) (map_to_list m)) by (by apply list_elem_of_In, elem_of_map_to_list).
    apply H, andb_true_iff in Hin as [H1 H2]. rewrite negb_true_iff, bool_decide_eq_false in H1. split; [done|].
    intros Hul. apply under_origin_spec. apply under_origin_spec in Hul. rewrite Hul in H2. done. }
  split_and!; [by intros; eapply Hall|done|by apply under_origin_spec|by intros; eapply Hall].
Qed.

(** ** Reading computed values

    Computations are evaluated to booleans, so that no type is normalised. *)

Definition is_nil {A} (l : list A) : bool := match l with [] => true | _ => false end.

Lemma is_nil_true {A} (l : list A) : is_nil l = true -> l = [].
Proof. by destruct l. Qed.

Lemma is_nil_false {A} (l : list A) : is_nil l = false -> l <> [].
Proof. by destruct l. Qed.

Lemma is_ok_true {E A} (r : result E A) : is_ok r = true -> exists a, r = Ok a.
Proof. destruct r; [eauto|done]. Qed.

Definition is_absent {A} (o : option A) : bool := match o with Some _ => false | None => true end.

Lemma is_absent_true {A} (o : option A) : is_absent o = true -> o = None.
Proof. by destruct o. Qed.

Definition is_nxdomain {HN : HickoryNames} (a : Answer) : bool := match a with NxDomain => true | _ => false end.

Lemma is_nxdomain_true {HN : HickoryNames} (a : Answer) : is_nxdomain a = true -> a = NxDomain.
Proof. by destruct a. Qed.

(** Evaluate a boolean. *)
Ltac evaluate := vm_compute; reflexivity.

(** ** The example *)

Definition low (s : string) : @LowerName plain_names := plower s.

Open Scope string_scope.

Definition ex_soa : SoaSpec := mkSoaSpec "n.z" "h.z" 1 3600 900 604800 60.

Definition rec (name type : string) (values : list string) : RecordSpec := mkRecordSpec name type None values.

Definition ex_cfg : ZoneConfig := mkZoneConfig "Z" 300 true (Some ex_soa)
  [rec "@" "NS" ["n.z."]; rec "n" "A" ["192.0.2.1"]; rec "w" "CNAME" ["a.b.z."];
   rec "a.b" "A" ["192.0.2.2"; "192.0.2.5"]; rec "*.d" "A" ["192.0.2.3"];
   rec "s" "NS" ["n.s.z."]; rec "n.s" "A" ["192.0.2.4"]; rec "x.s" "A" ["192.0.2.9"]].

Definition ex_seed : N := 12345.

Definition builder_or (r : result BuildError ZoneBuilder) : ZoneBuilder :=
  match r with Ok b => b | Err _ => ZoneBuilder_new (pname ".") (low ".") 0 end.

Definition ex_b : ZoneBuilder := builder_or (config_builder ex_cfg).

Definition zone_or (r : result BuildError Zone) : Zone :=
  match r with
  | Ok z => z
  | Err _ => @mkZone plain_names list_table (low ".") 0 (from_rdata (pname ".") 0 (RD_CNAME (pname ".")))
               [] [] [] [] 0 0 0 ∅ [] 0
  end.

Definition ex_z : Zone := zone_or (from_config ex_seed ex_cfg).

Lemma builder_or_ok r : is_ok r = true -> r = Ok (builder_or r).
Proof. by destruct r. Qed.

Lemma zone_or_ok r : is_ok r = true -> r = Ok (zone_or r).
Proof. by destruct r. Qed.

Lemma ex_plain : plain_config ex_cfg.
Proof. constructor; [reflexivity|discriminate|reflexivity|repeat constructor]. Qed.

Lemma ex_builder : config_builder ex_cfg = Ok ex_b.
Proof. apply builder_or_ok. evaluate. Qed.

Lemma ex_built : from_config ex_seed ex_cfg = Ok ex_z.
Proof. apply zone_or_ok. evaluate. Qed.

Lemma ex_serves : serves ex_seed ex_cfg ex_b ex_z.
Proof. constructor; [apply ex_plain|apply ex_builder|apply ex_built|apply N.leb_le; evaluate]. Qed.

Lemma ex_wf : ZoneWf ex_z.
Proof. exact (serves_wf _ _ _ _ ex_serves). Qed.

Abbreviation ex_m := (zb_nodes (closed_builder ex_b)).
Abbreviation ex_origin := (liter (zb_lower_origin ex_b)).

(** A node of the example, looked up. *)
Definition ex_node (s : string) : ScratchNode :=
  default (mkScratchNode (pname ".") false []) (ex_m !! low s).

Definition in_ex (s : string) : bool := match ex_m !! low s with Some _ => true | None => false end.

Lemma ex_node_found s : in_ex s = true -> ex_m !! low s = Some (ex_node s).
Proof. unfold in_ex, ex_node. by destruct (ex_m !! low s). Qed.

(** ** Keys, hashes and values *)

Lemma sort_key_is_canonical_witness :
  octets_compare (sort_key (low "w.z.")) (sort_key (low "z.a.z.")) = canonical_compare (low "w.z.") (low "z.a.z.") /\
  labels_under (liter (low "z.")) (liter (low "w.z.")) /\ liter (low "z.") <> liter (low "w.z.").
Proof.
  split; [exact (proj1 (sort_key_is_canonical (HL := plain_names_laws) (low "w.z.") (low "z.a.z.")))|].
  apply (proj2 (sort_key_is_canonical (HL := plain_names_laws) (low "z.") (low "w.z."))). evaluate.
Defined.

Lemma suffix_hashes_exact_witness :
  SuffixHashes_at (SuffixHashes_new 7 (low "w.x.z.")) 2 =
  Some (labels_hash 7 (suffix_of (liter (low "w.x.z.")) 2)).
Proof. exact (suffix_hashes_exact 7 (low "w.x.z.") 2). Defined.

Lemma parse_value_spec_witness :
  parse_value RT_A "n" "192.0.2.1" =
  Some (if (MAX_VALUE_CHARS <? chars_count "192.0.2.1")%N then Err (TooLong RT_A "n" (chars_count "192.0.2.1"))
        else match try_from_str RT_A "192.0.2.1" with LexOk d => Ok d | _ => Err Unparsable end).
Proof. exact (parse_value_spec (RL := plain_rdata_laws) RT_A "n" "192.0.2.1"). Defined.

(** ** The build *)

Lemma check_invariants_exact_witness : servable (closed_builder ex_b) true.
Proof.
  apply (proj1 (check_invariants_exact (closed_builder ex_b) true)). unfold check_invariants.
  assert (H : is_nil (check_findings (closed_builder ex_b) true) = true) by evaluate.
  destruct (check_findings (closed_builder ex_b) true); [reflexivity|discriminate H].
Defined.

Lemma layout_orders_and_cuts_witness :
  exists ly, layout (entries_of ex_b) = Ok ly /\ LayoutOk (entries_of ex_b) ly.
Proof.
  assert (Hok : is_ok (layout (entries_of ex_b)) = true) by evaluate.
  apply is_ok_true in Hok as [ly E].
  exists ly. split; [exact E|]. apply layout_orders_and_cuts; [|exact E].
  apply entries_nodup. exact (config_builder_ok _ _ ex_plain ex_builder).
Defined.

Lemma from_config_builds_wf_witness : ZoneWf ex_z.
Proof. exact (from_config_builds_wf ex_seed ex_cfg ex_z ex_plain ex_built). Defined.

Lemma ex_servable : servable (closed_builder ex_b) true.
Proof. apply check_findings_nil, is_nil_true. evaluate. Qed.

Lemma ex_arenas b : config_builder ex_cfg = Ok b -> arenas_fit (entries_of b).
Proof.
  assert (H : arenas_fit (entries_of ex_b)) by (constructor; apply N.leb_le; evaluate).
  rewrite ex_builder. revert H. generalize ex_b. intros b' H [= <-]. exact H.
Qed.

Lemma from_config_succeeds_witness : exists z, from_config ex_seed ex_cfg = Ok z.
Proof.
  apply (from_config_succeeds ex_seed ex_cfg ex_b ex_plain ex_builder).
  - apply (is_ok_true (build_soa (zb_origin ex_b) ex_soa)). evaluate.
  - exact ex_servable.
  - constructor; apply N.leb_le; evaluate.
Defined.


Lemma nodes_are_names_and_ancestors_witness :
  exists k sn, ex_m !! k = Some sn /\ liter k = liter (low "b.z.").
Proof.
  apply (proj1 (nodes_are_names_and_ancestors ex_cfg ex_b _ ex_plain ex_builder)). right. split.
  - apply under_origin_spec. evaluate.
  - assert (Hd : match zb_nodes ex_b !! low "a.b.z." with Some _ => true | None => false end = true) by evaluate.
    exists (low "a.b.z."). destruct (zb_nodes ex_b !! low "a.b.z.") as [sn|] eqn:E; [|discriminate Hd].
    exists sn. split; [reflexivity|]. apply under_origin_spec. evaluate.
Defined.

Lemma from_config_passes_debug_asserts_witness : debug_assert_invariants ex_z = true.
Proof. exact (from_config_passes_debug_asserts _ _ _ _ ex_serves). Defined.

Lemma from_config_never_aborts_witness : from_config ex_seed ex_cfg <> Err LexerAborted.
Proof. exact (from_config_never_aborts (RL := plain_rdata_laws) ex_seed ex_cfg). Defined.

(** ** The lookup *)

Lemma lookup_refines_witness :
  Zone_lookup ex_z (low "w.z.") RT_A =
  standard_lookup (az_view (fun i => referrals ex_z !! i) (abs_zone ex_z)) (low "w.z.") RT_A.
Proof. apply (proj1 (lookup_refines ex_z ex_wf (low "w.z.") RT_A)); evaluate. Defined.

Lemma closest_encloser_is_climb_witness :
  climb (az_node (abs_zone ex_z)) (liter (low "x.y.b.z.")) =
  Some (suffix_of (liter (low "x.y.b.z."))
    (closest_encloser ex_z (low "x.y.b.z.") (SuffixHashes_new (hash_seed ex_z) (low "x.y.b.z."))).1).
Proof.
  assert (Hn : find_node ex_z (liter (low "x.y.b.z.")) = None).
  { apply is_absent_true. evaluate. }
  assert (Hu : labels_under (liter (lower_origin ex_z)) (liter (low "x.y.b.z."))).
  { apply under_origin_spec. evaluate. }
  pose proof (closest_encloser_is_climb ex_z ex_wf (low "x.y.b.z.") Hu Hn) as H.
  revert H. generalize (closest_encloser ex_z (low "x.y.b.z.") (SuffixHashes_new (hash_seed ex_z) (low "x.y.b.z."))).
  intros [d i] H. exact (proj1 H).
Defined.

Lemma nxdomain_covers_subtree_witness : Zone_lookup ex_z (low "y.q.z.") RT_AAAA = NxDomain.
Proof.
  apply (nxdomain_covers_subtree ex_z ex_wf (low "q.z.") RT_A).
  - apply is_nxdomain_true. evaluate.
  - apply under_origin_spec. evaluate.
  - apply under_origin_spec. evaluate.
Defined.

Lemma lookup_serves_declared_witness :
  Zone_lookup ex_z (low "a.b.z.") RT_A =
  Records (records_at (sn_name (ex_node "a.b.z.")) (scratch_values (ex_node "a.b.z.") RT_A)).
Proof.
  apply (lookup_serves_declared _ _ _ _ ex_serves _ _ (low "a.b.z.")).
  - apply ex_node_found. evaluate.
  - reflexivity.
  - apply undelegated_check. evaluate.
  - reflexivity.
  - apply is_nil_false. evaluate.
Defined.

Lemma ex_fits : fits ex_cfg.
Proof.
  unfold fits. rewrite ex_builder. pose proof (sv_size _ _ _ _ ex_serves) as H. revert H.
  generalize ex_b. intros b H b' [= <-]. exact H.
Qed.

(** What the blocks of the example give a name. *)
Definition ex_given (s : string) (t : RecordType) : Name * list (N * RData) :=
  default (pname ".", []) (given ex_cfg (low s) t).

Definition gives_ex (s : string) (t : RecordType) : bool := match given ex_cfg (low s) t with Some _ => true | None => false end.

Lemma ex_given_found s t : gives_ex s t = true -> given ex_cfg (low s) t = Some ((ex_given s t).1, (ex_given s t).2).
Proof. unfold gives_ex, ex_given. generalize (given ex_cfg (low s) t). by intros [[n vs]|]. Qed.

(** Two addresses; nothing below the delegation, whatever is written there. *)
Example ex_given_counts :
  Nat.eqb (length (ex_given "a.b.z." RT_A).2) 2 && negb (gives_ex "x.s.z." RT_A) && negb (gives_ex "n.s.z." RT_A) = true.
Proof. evaluate. Qed.

Lemma lookup_answers_the_blocks_witness :
  Zone_lookup ex_z (low "a.b.z.") RT_A = Records (records_at (ex_given "a.b.z." RT_A).1 (ex_given "a.b.z." RT_A).2).
Proof.
  apply (lookup_answers_the_blocks ex_seed ex_cfg ex_z _ _ _ _ ex_built ex_plain ex_fits); [|reflexivity].
  apply ex_given_found. evaluate.
Defined.

Lemma lookup_reads_the_file_witness :
  Zone_lookup ex_z (low "w.z.") RT_A = file_lookup ex_cfg (low "w.z.") RT_A /\
  Zone_lookup ex_z (low "x.s.z.") RT_ANY = file_lookup ex_cfg (low "x.s.z.") RT_CNAME.
Proof.
  assert (Hr : match file_lookup ex_cfg (low "x.s.z.") RT_CNAME with Records _ => false | _ => true end = true) by evaluate.
  split.
  - apply (proj1 (lookup_reads_the_file ex_seed ex_cfg ex_z (low "w.z.") RT_A ex_built ex_plain ex_fits)); evaluate.
  - rewrite (proj2 (proj2 (lookup_reads_the_file ex_seed ex_cfg ex_z (low "x.s.z.") RT_ANY ex_built ex_plain ex_fits)) eq_refl).
    revert Hr. generalize (file_lookup ex_cfg (low "x.s.z.") RT_CNAME). intros [rs| | |] H; [discriminate H| | |]; reflexivity.
Defined.

(** Another order: backwards. *)
Definition backwards : HashOrder := {| hash_order A l := reverse l; hash_order_perm A l := reverse_Permutation l |}.

Lemma ex_arenas_backwards b : config_builder ex_cfg = Ok b -> arenas_fit (entries_of (HO := backwards) b).
Proof.
  assert (H : arenas_fit (entries_of (HO := backwards) ex_b)) by (constructor; apply N.leb_le; evaluate).
  rewrite ex_builder. revert H. generalize ex_b. intros b' H [= <-]. exact H.
Qed.

Lemma builds_agree_witness : exists z, from_config (HO := backwards) 7 ex_cfg = Ok z.
Proof.
  pose proof (proj1 (builds_agree plain_order backwards list_table list_table ex_seed 7 ex_cfg ex_plain ex_arenas ex_arenas_backwards)) as H.
  exact (proj1 H (ex_intro _ ex_z ex_built)).
Defined.

(** How many records an answer has, in the answer and authority sections, or how it
    denies. *)
Definition shape {HN : HickoryNames} (a : Answer) : nat * nat :=
  match a with
  | Records rs => (length rs, 0)
  | ReferralAnswer ans auth _ => (length ans, length auth)
  | NoData => (100, 0)
  | NxDomain => (200, 0)
  end%nat.

(** The file says: an alias and its two addresses; a synthesised address; a referral
    for a name below the delegation; NODATA at an empty non-terminal; NXDOMAIN. *)
Example ex_file_answers :
  bool_decide (map (fun s => shape (file_lookup ex_cfg (low s) RT_A)) ["w.z."; "q.d.z."; "x.s.z."; "b.z."; "nope.z."] =
    [(3, 0); (1, 0); (0, 1); (100, 0); (200, 0)]%nat) = true.
Proof. evaluate. Qed.

(** Aliases at wildcards: the standard follows the one of [*.e] to the address of [n], for
    the wildcard's own name, for a name it covers and for an alias that leads there; the
    program says that there is nothing, or stops at the alias it came by. *)
Definition star_cfg : ZoneConfig := mkZoneConfig "Z" 300 true (Some ex_soa)
  [rec "@" "NS" ["n.z."]; rec "n" "A" ["192.0.2.1"]; rec "*.e" "CNAME" ["n.z."]; rec "v" "CNAME" ["q.e.z."]].

Example ex_wildcard_aliases :
  bool_decide (map (fun s => (file_departs star_cfg (low s) RT_A, shape (file_lookup star_cfg (low s) RT_A), shape (file_served star_cfg (low s) RT_A)))
                 ["*.e.z."; "q.e.z."; "v.z."; "n.z."] =
    [(true, (2, 0), (100, 0)); (true, (2, 0), (100, 0)); (true, (3, 0), (1, 0)); (false, (1, 0), (1, 0))]%nat) = true.
Proof. evaluate. Qed.

Lemma lookup_existing_is_nodata_witness : Zone_lookup ex_z (low "b.z.") RT_A = NoData.
Proof.
  apply (lookup_existing_is_nodata _ _ _ _ ex_serves _ _ (low "b.z.") (ex_node "b.z.")).
  - apply ex_node_found. evaluate.
  - reflexivity.
  - apply undelegated_check. evaluate.
  - apply is_nil_true. evaluate.
  - left. apply is_nil_true. evaluate.
Defined.

Lemma lookup_refers_below_delegation_witness :
  Zone_lookup ex_z (low "e.x.s.z.") RT_AAAA =
  ReferralAnswer []
    (records_at (sn_name (ex_node "s.z.")) (scratch_values (ex_node "s.z.") RT_NS))
    (flat_map (glue_of ex_z) (firsts [] (ns_values (ex_node "s.z.")))).
Proof.
  apply (lookup_refers_below_delegation _ _ _ _ ex_serves _ _ (low "s.z.")).
  apply nearest_check; [apply ex_node_found| |]; evaluate.
Defined.

Lemma lookup_synthesises_witness :
  Zone_lookup ex_z (low "q.r.d.z.") RT_A =
  match scratch_values (ex_node "*.d.z.") RT_A with
  | [] => NoData
  | vs => Records (records_at (name_from (low "q.r.d.z.")) vs)
  end.
Proof.
  apply (lookup_synthesises _ _ _ _ ex_serves _ _ (low "d.z.") (low "*.d.z.")).
  - apply encloses_check; [eexists; apply (ex_node_found "d.z.")| |]; evaluate.
  - apply undelegated_check. evaluate.
  - apply ex_node_found. evaluate.
  - apply (bool_decide_eq_true_1 (liter (low "*.d.z.") = WILDCARD_LABEL :: liter (low "d.z."))). evaluate.
  - reflexivity.
Defined.

Lemma lookup_missing_is_nxdomain_witness : Zone_lookup ex_z (low "q.z.") RT_A = NxDomain.
Proof.
  apply (lookup_missing_is_nxdomain _ _ _ _ ex_serves _ _ (low "z.")).
  - apply encloses_check; [eexists; apply (ex_node_found "z.")| |]; evaluate.
  - apply undelegated_check. evaluate.
  - apply no_key_check. evaluate.
Defined.

Close Scope string_scope.
