(* ===== verification/Cas.v ===== *)
(** * Bounded compare-exchange loops

    The rate limiter and the lifecycle both change one atomic word through the same
    loop: load, decide, [compare_exchange_weak], and on failure decide again from
    what was found.  A call is a small state machine over the shared word, a run is
    an explicit schedule of the calls' steps, and [run_linear] says what any
    schedule amounts to: the calls that returned [true], once each, in some order. *)

From S2P Require Import Prelude.

(** What one call is doing.  [tries] counts failed exchanges. *)
Inductive Call : Type :=
| Fresh
| Trying (observed : N) (tries : nat)
| Returned (ok : bool).

#[global] Instance call_eq_dec : EqDecision Call.
Proof. solve_decision. Defined.

Definition exhausted (limit : option nat) (tries : nat) : bool :=
  match limit with Some n => (n <=? tries)%nat | None => false end.

(** One step of a call: [rule] gives the word to store, or refuses; a weak
    exchange may also fail without cause, which is [spurious]. *)
Definition call_next (rule : N -> option N) (limit : option nat) (spurious : bool) (word : N) (c : Call)
    : N * Call :=
  match c with
  | Fresh => (word, Trying word 0)
  | Returned ok => (word, Returned ok)
  | Trying observed tries =>
      if exhausted limit tries then (word, Returned false)
      else
        match rule observed with
        | None => (word, Returned false)
        | Some new =>
            if (word =? observed)%N && negb spurious then (new, Returned true)
            else (word, Trying word (S tries))
        end
  end.

(** A schedule names, step by step, the call that moves and whether its exchange
    fails spuriously. *)
Abbreviation Schedule := (list (nat * bool)).

Section Run.
Context (rules : list (N -> option N)) (limit : option nat).

Definition sys_next (s : N * list Call) (step : nat * bool) : N * list Call :=
  let '(i, spurious) := step in
  match rules !! i, s.2 !! i with
  | Some rule, Some c =>
      let '(word, c) := call_next rule limit spurious s.1 c in (word, <[i := c]> s.2)
  | _, _ => s
  end.

Definition run (sched : Schedule) (s : N * list Call) : N * list Call := fold_left sys_next sched s.

Definition fresh_calls : list Call := replicate (length rules) Fresh.

(** ** Linearisation *)

(** The word after the decisions of the calls [order], one after another. *)
Inductive Chain : N -> list nat -> N -> Prop :=
| chain_nil w : Chain w [] w
| chain_snoc w order w1 i rule w2 :
    Chain w order w1 -> rules !! i = Some rule -> rule w1 = Some w2 -> Chain w (order ++ [i]) w2.

(** What holds along any schedule from fresh calls. *)
Record Linear (w : N) (s : N * list Call) (order : list nat) : Prop := {
  ln_chain : Chain w order s.1;
  ln_nodup : NoDup order;
  ln_true i : i ∈ order <-> s.2 !! i = Some (Returned true);
}.

Lemma linear_init w : Linear w (w, fresh_calls) [].
Proof.
  constructor; cbn; [constructor|constructor|]. intros i. split; [intros H; by apply elem_of_nil in H|].
  intros H. apply lookup_replicate in H as [H _]. discriminate.
Qed.

Lemma linear_step w s order step :
  Linear w s order -> exists order', Linear w (sys_next s step) order' /\ order `prefix_of` order'.
Proof.
  intros [Hc Hn Ht]. destruct step as [i spurious]. unfold sys_next.
  destruct (rules !! i) as [rule|] eqn:Ed; [|by exists order].
  destruct (s.2 !! i) as [c|] eqn:Ec; [|by exists order].
  assert (Hkeep : forall c', c' <> Returned true -> c <> Returned true ->
    Linear w (s.1, <[i := c']> s.2) order).
  { intros c' Hc' Hne. constructor; cbn; [done|done|]. intros j. rewrite Ht.
    destruct (decide (j = i)) as [->|Hj].
    - rewrite list_lookup_insert_eq by (by eapply lookup_lt_Some). rewrite Ec. split; congruence.
    - by rewrite list_lookup_insert_ne. }
  destruct c as [|observed tries|ok]; cbn [call_next].
  - exists order. split; [by apply Hkeep|done].
  - destruct (exhausted limit tries); [exists order; split; [by apply Hkeep|done]|].
    destruct (rule observed) as [new|] eqn:En; [|exists order; split; [by apply Hkeep|done]].
    destruct ((s.1 =? observed)%N && negb spurious) eqn:Ew; [|exists order; split; [by apply Hkeep|done]].
    apply andb_true_iff in Ew as [Ew _]. apply N.eqb_eq in Ew. exists (order ++ [i]).
    assert (Hi : i ∉ order) by (rewrite Ht, Ec; congruence).
    split; [|by apply prefix_app_r]. constructor; cbn.
    + eapply chain_snoc; [exact Hc|exact Ed|by rewrite Ew].
    + apply NoDup_app. split_and!; [done| |apply NoDup_singleton].
      intros j Hj Hj'. apply list_elem_of_singleton in Hj'. by subst.
    + intros j. rewrite elem_of_app, list_elem_of_singleton, Ht. destruct (decide (j = i)) as [->|Hj].
      * rewrite list_lookup_insert_eq by (by eapply lookup_lt_Some). tauto.
      * rewrite list_lookup_insert_ne by done. tauto.
  - exists order. split; [|done].
    assert (<[i := Returned ok]> s.2 = s.2) as -> by (by apply list_insert_id).
    by constructor.
Qed.

Lemma run_linear sched w :
  exists order, Linear w (run sched (w, fresh_calls)) order.
Proof.
  cut (forall s order, Linear w s order -> exists order', Linear w (run sched s) order').
  { intros H. exact (H _ _ (linear_init w)). }
  induction sched as [|step sched IH]; intros s order Hl; [by exists order|].
  destruct (linear_step w s order step Hl) as (order' & Hl' & _). by apply (IH _ order').
Qed.

(** The calls that returned [true], counted. *)
Definition succeeded (c : Call) : bool := match c with Returned true => true | _ => false end.

Lemma linear_count w s order : Linear w s order -> length order = length (List.filter succeeded s.2).
Proof using.
  intros [_ Hn Ht].
  set (idxs := filter (fun i => s.2 !! i = Some (Returned true)) (seq 0 (length s.2))).
  assert (Hp : order ≡ₚ idxs).
  { apply NoDup_Permutation; [done|apply NoDup_filter, NoDup_seq|]. intros i.
    unfold idxs. rewrite list_elem_of_filter, elem_of_seq, Ht. split; [|tauto].
    intros H. split; [done|]. apply lookup_lt_Some in H. lia. }
  rewrite Hp. unfold idxs. generalize s.2. clear. intros l. induction l as [|c l IH] using rev_ind; [done|].
  rewrite length_app, Nat.add_1_r, seq_S, filter_app, List.filter_app, !length_app. f_equal.
  - rewrite <- IH. f_equal. apply filter_ext_in. intros i Hi. apply elem_of_seq in Hi.
    by rewrite lookup_app_l by lia.
  - rewrite filter_cons, filter_nil, Nat.add_0_l, lookup_app_r, Nat.sub_diag by lia.
    cbn [lookup list_lookup]. by destruct c as [| |[]].
Qed.

(** An invariant of the decisions is an invariant of the word. *)
Lemma chain_invariant (P : N -> Prop) w order w' :
  (forall i rule w w', rules !! i = Some rule -> P w -> rule w = Some w' -> P w') ->
  P w -> Chain w order w' -> P w'.
Proof. intros Hstep H0. induction 1; [done|]. eauto. Qed.

(** ** A bounded call returns *)

(** The steps a call may still take before it has returned. *)
Definition fuel_left (n : nat) (c : Call) : nat :=
  match c with Fresh => S (S n) | Trying _ tries => S (n - tries) | Returned _ => 0 end.

Lemma call_next_progress n rule spurious w c :
  limit = Some n -> (fuel_left n (call_next rule limit spurious w c).2 < fuel_left n c)%nat \/
    exists ok, c = Returned ok.
Proof using.
  intros ->. destruct c as [|observed tries|ok]; cbn; [left; lia| |right; eauto]. left.
  destruct (n <=? tries)%nat eqn:E; bool_prop; cbn; [lia|].
  destruct (rule observed); cbn; [|lia]. destruct (_ && _); cbn; lia.
Qed.

Definition moves (i : nat) (sched : Schedule) : nat := length (filter (fun step => step.1 = i) sched).

Lemma run_returns n sched s i :
  limit = Some n -> (i < length rules)%nat -> (i < length s.2)%nat ->
  (forall c, s.2 !! i = Some c -> fuel_left n c <= moves i sched)%nat ->
  exists ok, (run sched s).2 !! i = Some (Returned ok).
Proof.
  intros Hlim Hi. revert s. unfold moves.
  destruct (lookup_lt_is_Some_2 rules i Hi) as [d Hd].
  induction sched as [|[j spurious] sched IH]; intros s Hs Hfuel; cbn [run fold_left].
  - destruct (lookup_lt_is_Some_2 s.2 i Hs) as [c Hc]. specialize (Hfuel c Hc). cbn in *.
    destruct c; cbn in Hfuel; try lia. eauto.
  - apply IH.
    + unfold sys_next. destruct (rules !! j), (s.2 !! j); try done. destruct (call_next _ _ _ _ _). cbn.
      by rewrite length_insert.
    + intros c Hc. rewrite filter_cons in Hfuel. cbn [fst] in Hfuel. unfold sys_next in Hc.
      destruct (decide (j = i)) as [->|Hne].
      * destruct (lookup_lt_is_Some_2 s.2 i Hs) as [c0 Hc0]. specialize (Hfuel c0 Hc0). cbn in Hfuel.
        rewrite Hd, Hc0 in Hc. destruct (call_next d limit spurious s.1 c0) as [w' c'] eqn:E. cbn in Hc.
        rewrite list_lookup_insert_eq in Hc by done. injection Hc as <-.
        destruct (call_next_progress n d spurious s.1 c0 Hlim) as [H|[ok ->]]; [rewrite E in H; cbn in H; lia|].
        cbn in E. injection E as <- <-. cbn. lia.
      * apply Hfuel. destruct (rules !! j), (s.2 !! j); try done. destruct (call_next _ _ _ _ _). cbn in Hc.
        by rewrite list_lookup_insert_ne in Hc by done.
Qed.

End Run.

(** ** A call on its own

    Nothing else moves and no exchange fails spuriously: load, then exchange. *)
Definition call_alone (rule : N -> option N) (limit : option nat) (word : N) : N * bool :=
  let '(word, c) := call_next rule limit false word Fresh in
  let '(word, c) := call_next rule limit false word c in
  (word, match c with Returned ok => ok | _ => false end).

Lemma call_alone_spec rule limit word :
  exhausted limit 0 = false ->
  call_alone rule limit word =
    match rule word with Some new => (new, true) | None => (word, false) end.
Proof.
  intros H. unfold call_alone. cbn [call_next]. rewrite H.
  destruct (rule word); [|done]. by rewrite N.eqb_refl.
Qed.
