(* ===== verification/RateLimit.v ===== *)
(** * The rate limiter (src/src/ratelimit.rs)

    A fixed table of 64-bit slot words, each a token bucket packed as a milli-token
    deficit and a 32-bit millisecond stamp.  Words are [N]s at their width, with
    every mask, shift and wrap written out; the exchange loop is [Cas]'s. *)

From S2P Require Import Prelude Cas.

(** ** Constants *)

Definition SLOT_BITS : N := 18.
Definition SLOTS : N := N.shiftl 1 SLOT_BITS.
Definition SLOT_MASK : N := N.shiftl 1 SLOT_BITS - 1.
Definition IPV4_PREFIX_BITS : N := 24.
Definition IPV6_PREFIX_BITS : N := 56.
Definition KEY_TAG_V4 : N := 0.
Definition KEY_TAG_V6 : N := N.shiftl 1 62.
Definition MAX_RATE : N := 1000000.
Definition MILLI : N := 1000.
Definition DEFICIT_SHIFT : N := 32.
Definition DEFICIT_MASK : N := N.shiftl 1 30 - 1.
Definition WRAP_GUARD_MS : N := N.shiftl 1 31.
Definition STALE_MAX_MS : N := 60000.
Definition BACKWARDS_FLOOR_MS : N := u32_MAX - STALE_MAX_MS + 1.
Definition CAS_ATTEMPTS : nat := 8.

(** ** Addresses and keys *)

(** [std::net::IpAddr], each address as the integer [u32::from]/[u128::from] gives. *)
Inductive IpAddr : Type :=
| V4 (addr : N)
| V6 (addr : N).

Definition ip_ok (ip : IpAddr) : Prop :=
  match ip with V4 a => (a < 2 ^ 32)%N | V6 a => (a < 2 ^ 128)%N end.

(** [Ipv6Addr::to_ipv4_mapped]: the addresses [::ffff:a.b.c.d]. *)
Definition to_ipv4_mapped (v6 : N) : option N :=
  if (N.shiftr v6 32 =? 65535)%N then Some (v6 mod 2 ^ 32)%N else None.

Definition v4_key (v4 : N) : N := N.lor KEY_TAG_V4 (N.shiftr v4 (32 - IPV4_PREFIX_BITS)).

Definition v6_key (v6 : N) : N :=
  let prefix := (N.shiftr v6 (128 - IPV6_PREFIX_BITS) mod U64_MOD)%N in
  N.lor KEY_TAG_V6 prefix.

Definition canonical_key (ip : IpAddr) : N :=
  match ip with
  | V4 v4 => v4_key v4
  | V6 v6 => match to_ipv4_mapped v6 with Some v4 => v4_key v4 | None => v6_key v6 end
  end.

(** ** Slot words *)

Definition unpack (word : N) : N * N :=
  let last_ms := as_u32 word in
  (N.land (N.shiftr word DEFICIT_SHIFT) DEFICIT_MASK, last_ms).

Definition pack (deficit last_ms : N) : N :=
  N.lor (N.shiftl (N.land deficit DEFICIT_MASK) DEFICIT_SHIFT) last_ms.

Inductive Band : Type :=
| Ordinary (elapsed : N)
| Backwards
| LongIdle.

Definition band (now_ms last_ms : N) : Band :=
  let elapsed := u32_wrapping_sub now_ms last_ms in
  if (elapsed <? WRAP_GUARD_MS)%N then Ordinary elapsed
  else if (BACKWARDS_FLOOR_MS <=? elapsed)%N then Backwards
  else LongIdle.

(** The deficit at [now_ms] and the stamp a store would carry; [saturating_sub] is
    the subtraction of [N]. *)
Definition settle (word now_ms refill_per_ms : N) : N * N :=
  let '(deficit, last_ms) := unpack word in
  match band now_ms last_ms with
  | Ordinary elapsed => (deficit - elapsed * refill_per_ms, now_ms)%N
  | Backwards => (deficit, last_ms)
  | LongIdle => (0%N, now_ms)
  end.

(** ** The limiter *)

(** [slots] is sparse: an absent word is the zeroed one [new] allocates.  Instants
    are nanoseconds. *)
Record RateLimiter : Type := mkRateLimiter {
  slots : gmap N N;
  hash_one : N -> N;
  epoch : N;
  refill_per_ms : N;
  capacity_milli : N;
}.

Definition RateLimiter_new (hash_one : N -> N) (epoch qps burst : N) : RateLimiter :=
  mkRateLimiter ∅ hash_one epoch (clampN qps 1 MAX_RATE) (clampN burst 1 MAX_RATE * 1000).

Definition millis_since_epoch (rl : RateLimiter) (now : N) : N :=
  as_u32 ((now - epoch rl) / 1000000).

Definition slot_of (rl : RateLimiter) (ip : IpAddr) : N :=
  N.land (hash_one rl (canonical_key ip)) SLOT_MASK.

Definition slot_word (rl : RateLimiter) (idx : N) : N := default 0%N (slots rl !! idx).

(** One pass of the loop of [check_at]: the word to store, or a refusal. *)
Definition charge (refill_per_ms capacity now_ms word : N) : option N :=
  let '(refilled, stamp) := settle word now_ms refill_per_ms in
  let charged := (refilled + MILLI)%N in
  if (capacity <? charged)%N then None else Some (pack charged stamp).

(** [check_at] when no other call touches the slot. *)
Definition check_at (rl : RateLimiter) (ip : IpAddr) (now : N) : RateLimiter * bool :=
  let idx := slot_of rl ip in
  let now_ms := millis_since_epoch rl now in
  let '(word, ok) :=
    call_alone (charge (refill_per_ms rl) (capacity_milli rl) now_ms) (Some CAS_ATTEMPTS) (slot_word rl idx) in
  (mkRateLimiter (if ok then <[idx := word]> (slots rl) else slots rl)
     (hash_one rl) (epoch rl) (refill_per_ms rl) (capacity_milli rl), ok).

(** [check_at] of many callers on one slot, under a schedule of their steps. *)
Definition check_many (rl : RateLimiter) (now_mss : list N) (sched : Schedule) (word : N) : N * list Call :=
  let rules := map (charge (refill_per_ms rl) (capacity_milli rl)) now_mss in
  run rules (Some CAS_ATTEMPTS) sched (word, fresh_calls rules).

Definition active_at (rl : RateLimiter) (now : N) : nat :=
  let now_ms := millis_since_epoch rl now in
  length (filter (fun idx => 0 < (settle (slot_word rl idx) now_ms (refill_per_ms rl)).1)%N
    (map N.of_nat (seq 0 (N.to_nat SLOTS)))).

Definition memory_bytes (rl : RateLimiter) : N := SLOTS * 8.

(** Admitted calls, counted from the states a schedule leaves. *)
Definition admitted (calls : list Call) : nat := length (List.filter succeeded calls).

(** [check_at] called [n] times over, at one instant. *)
Fixpoint check_repeat (n : nat) (rl : RateLimiter) (ip : IpAddr) (now : N) : list bool :=
  match n with
  | O => []
  | S n' => let '(rl, ok) := check_at rl ip now in ok :: check_repeat n' rl ip now
  end.
