(* ===== verification/RateLimitFacts.v ===== *)
(** * Facts about the rate limiter (src/src/ratelimit.rs)

    Packing, the three bands of the wrapping clock, the deficit's bounds, and the
    rate any interleaving of callers is held to. *)

From S2P Require Import Prelude Cas RateLimit.

(** ** Bits *)

Lemma lor_shiftl_add x l k : (l < 2 ^ k)%N -> N.lor (N.shiftl x k) l = (x * 2 ^ k + l)%N.
Proof.
  intros Hl. rewrite <- N.shiftl_mul_pow2.
  assert (Hd : N.land (N.shiftl x k) l = 0%N).
  { apply N.bits_inj_0. intros n. rewrite N.land_spec. destruct (N.lt_ge_cases n k) as [Hn|Hn].
    - by rewrite N.shiftl_spec_low.
    - rewrite <- (N.mod_small l (2 ^ k)) by done. rewrite N.mod_pow2_bits_high by done. apply andb_false_r. }
  rewrite <- N.lxor_lor by done. symmetry. by apply N.add_nocarry_lxor.
Qed.

Lemma land_deficit_mask d : N.land d DEFICIT_MASK = (d mod 2 ^ 30)%N.
Proof. change DEFICIT_MASK with (N.ones 30). by rewrite N.land_ones. Qed.

Lemma pack_add d l : (l < 2 ^ 32)%N -> pack d l = (d mod 2 ^ 30 * 2 ^ 32 + l)%N.
Proof. intros Hl. unfold pack. rewrite land_deficit_mask. by apply lor_shiftl_add. Qed.

Lemma unpack_pack d l : (d < 2 ^ 30)%N -> (l < 2 ^ 32)%N -> unpack (pack d l) = (d, l).
Proof.
  intros Hd Hl. rewrite pack_add, N.mod_small by done. unfold unpack, as_u32, U32_MOD, DEFICIT_SHIFT.
  rewrite land_deficit_mask, N.shiftr_div_pow2, N.add_comm, N.div_add, N.Div0.mod_add by done.
  rewrite (N.div_small l), N.add_0_l, (N.mod_small d), (N.mod_small l) by done. done.
Qed.

Lemma pack_lt d l : (l < 2 ^ 32)%N -> (pack d l < 2 ^ 62)%N.
Proof.
  intros Hl. rewrite pack_add by done. pose proof (N.mod_upper_bound d (2 ^ 30) ltac:(done)).
  change (2 ^ 62)%N with (2 ^ 30 * 2 ^ 32)%N. nia.
Qed.

Lemma unpack_bounds w : ((unpack w).1 < 2 ^ 30 /\ (unpack w).2 < 2 ^ 32)%N.
Proof.
  unfold unpack. cbn [fst snd]. rewrite land_deficit_mask. split; [by apply N.mod_upper_bound|].
  unfold as_u32, U32_MOD. by apply N.mod_upper_bound.
Qed.

(** ** The clock *)

(** On unwrapped readings, the wrapped difference is the difference modulo 2^32. *)
Lemma wrapping_sub_mod a b :
  (b <= a)%N -> u32_wrapping_sub (a mod 2 ^ 32) (b mod 2 ^ 32) = ((a - b) mod 2 ^ 32)%N.
Proof.
  intros Hle. unfold u32_wrapping_sub, U32_MOD.
  pose proof (N.mod_upper_bound b (2 ^ 32) ltac:(done)) as Hb. pose proof (N.Div0.div_mod b (2 ^ 32)) as Eb.
  pose proof (N.Div0.div_mod a (2 ^ 32)) as Ea.
  rewrite <- (N.Div0.mod_add (a - b) (b / 2 ^ 32 + 1) (2 ^ 32)).
  rewrite <- (N.Div0.mod_add (a mod 2 ^ 32 + 2 ^ 32 - b mod 2 ^ 32) (a / 2 ^ 32) (2 ^ 32)). f_equal.
  change (2 ^ 32)%N with 4294967296%N in *. generalize dependent (a `div` 4294967296)%N. generalize dependent (a `mod` 4294967296)%N. generalize dependent (b `div` 4294967296)%N. generalize dependent (b `mod` 4294967296)%N. intros. lia.
Qed.

Lemma band_forward a b :
  (b <= a)%N -> band (a mod 2 ^ 32) (b mod 2 ^ 32) =
    let gap := ((a - b) mod 2 ^ 32)%N in
    if (gap <? WRAP_GUARD_MS)%N then Ordinary gap
    else if (BACKWARDS_FLOOR_MS <=? gap)%N then Backwards else LongIdle.
Proof. intros H. unfold band. by rewrite wrapping_sub_mod. Qed.

Lemma band_ordinary a b :
  (b <= a)%N -> (a - b < WRAP_GUARD_MS)%N -> band (a mod 2 ^ 32) (b mod 2 ^ 32) = Ordinary (a - b).
Proof.
  intros H Hg. rewrite band_forward by done. cbv zeta. change WRAP_GUARD_MS with 2147483648%N in *.
  rewrite N.mod_small by lia. by rewrite (proj2 (N.ltb_lt _ _)).
Qed.

(** A reading at most a minute behind the stamp is read as backwards. *)
Lemma band_backwards a b :
  (a < b)%N -> (b - a <= STALE_MAX_MS)%N -> band (a mod 2 ^ 32) (b mod 2 ^ 32) = Backwards.
Proof.
  intros H Hg. unfold STALE_MAX_MS in Hg. unfold band.
  assert (He : u32_wrapping_sub (a mod 2 ^ 32) (b mod 2 ^ 32) = (2 ^ 32 - (b - a))%N).
  { unfold u32_wrapping_sub, U32_MOD.
    pose proof (N.Div0.div_mod b (2 ^ 32)) as Eb. pose proof (N.Div0.div_mod a (2 ^ 32)) as Ea.
    pose proof (N.mod_upper_bound b (2 ^ 32) ltac:(done)) as Hb. pose proof (N.mod_upper_bound a (2 ^ 32) ltac:(done)) as Ha.
    set (qa := (a / 2 ^ 32)%N) in *. set (qb := (b / 2 ^ 32)%N) in *.
    set (ra := (a mod 2 ^ 32)%N) in *. set (rb := (b mod 2 ^ 32)%N) in *.
    change (2 ^ 32)%N with 4294967296%N in *.
    assert (qb = qa \/ qb = qa + 1)%N as [->| ->] by lia.
    - rewrite N.mod_small by lia. lia.
    - replace (ra + 4294967296 - rb)%N with (4294967296 - (b - a) + 1 * 4294967296)%N by lia.
      rewrite N.Div0.mod_add, N.mod_small by lia. done. }
  rewrite He. change WRAP_GUARD_MS with 2147483648%N. change BACKWARDS_FLOOR_MS with 4294907296%N.
  change (2 ^ 32)%N with 4294967296%N.
  rewrite (proj2 (N.ltb_ge _ _)) by lia. by rewrite (proj2 (N.leb_le _ _)) by lia.
Qed.

(** ** Limiters as built *)

(** What [new] guarantees, whatever it is given. *)
Definition rates_ok (refill capacity : N) : Prop :=
  (1 <= refill <= MAX_RATE /\ MILLI <= capacity < 2 ^ 30)%N.

Lemma new_rates h e qps burst :
  let rl := RateLimiter_new h e qps burst in rates_ok (refill_per_ms rl) (capacity_milli rl).
Proof.
  unfold rates_ok, RateLimiter_new, clampN, MAX_RATE, MILLI. cbn [refill_per_ms capacity_milli].
  change (2 ^ 30)%N with 1073741824%N. repeat case_match; bool_prop; lia.
Qed.

(** ** One admission *)

Section Admit.
Context (refill capacity : N) (Hrates : rates_ok refill capacity).

(** An admitted word: the deficit it holds and its stamp. *)
Lemma admit_spec now_ms w w' :
  (now_ms < 2 ^ 32)%N -> charge refill capacity now_ms w = Some w' ->
  let '(d, s) := settle w now_ms refill in
  unpack w' = (d + MILLI, s)%N /\ (d + MILLI <= capacity)%N.
Proof.
  intros Hnow H. unfold charge in H. pose proof (unpack_bounds w) as [Hd Hl].
  destruct (settle w now_ms refill) as [d s] eqn:E.
  assert (Hs : (s < 2 ^ 32)%N).
  { unfold settle in E. destruct (unpack w) as [d0 l0]. cbn in Hl. destruct (band now_ms l0); by simplify_eq. }
  destruct (capacity <? d + MILLI)%N eqn:Ec; [done|]. bool_prop. simplify_eq. destruct Hrates as [_ Hc].
  split; [|done]. apply unpack_pack; [|done]. lia.
Qed.

Definition deficit_of (w : N) : N := (unpack w).1.

(** The bucket never holds a deficit past its capacity, and bits 63..62 stay zero. *)
Definition word_ok (w : N) : Prop := (deficit_of w <= capacity /\ w < 2 ^ 62)%N.

Lemma admit_word_ok now_ms w w' :
  (now_ms < 2 ^ 32)%N -> charge refill capacity now_ms w = Some w' -> word_ok w'.
Proof.
  intros Hnow H. pose proof (admit_spec _ _ _ Hnow H) as Hspec.
  destruct (settle w now_ms refill) as [d s] eqn:E. destruct Hspec as [Hu Hc].
  split; [unfold deficit_of; by rewrite Hu|].
  unfold charge in H. rewrite E in H. destruct (capacity <? d + MILLI)%N; [done|]. simplify_eq.
  apply pack_lt. pose proof (unpack_bounds (pack (d + MILLI) s)) as [_ Hs]. by rewrite Hu in Hs.
Qed.

(** ** A bucket of known stamp

    [tracks w d t]: the word holds deficit [d], stamped at the unwrapped time [t]. *)
Definition tracks (w d t : N) : Prop := unpack w = (d, t mod 2 ^ 32)%N.

Lemma tracks_admit w d s t w' :
  tracks w d s -> (t <= s + WRAP_GUARD_MS - 1)%N -> (s <= t + STALE_MAX_MS)%N ->
  charge refill capacity (t mod 2 ^ 32) w = Some w' ->
  let s' := N.max s t in
  let d' := (d - (s' - s) * refill + MILLI)%N in
  tracks w' d' s' /\ (d' <= capacity)%N.
Proof.
  intros Hw H1 H2 Ha. assert (Hmod : (t mod 2 ^ 32 < 2 ^ 32)%N) by (by apply N.mod_upper_bound).
  pose proof (admit_spec _ _ _ Hmod Ha) as Hspec. unfold settle in Hspec. rewrite Hw in Hspec.
  destruct (N.le_gt_cases s t) as [Hle|Hgt].
  - rewrite band_ordinary in Hspec by (try done; change WRAP_GUARD_MS with 2147483648%N in *; lia).
    rewrite N.max_r by done. exact Hspec.
  - rewrite band_backwards in Hspec by lia. rewrite N.max_l by lia. cbv zeta.
    replace ((s - s) * refill)%N with 0%N by lia. rewrite N.sub_0_r. exact Hspec.
Qed.

End Admit.

(** ** The rate of any interleaving *)

Section Rate.
Context (refill capacity : N) (Hrates : rates_ok refill capacity).
Context (T L : N) (HL : (L <= STALE_MAX_MS)%N) (ts : list N).
Context (Hts : Forall (fun t => T <= t <= T + L)%N ts).

Abbreviation rules := (map (charge refill capacity) (map as_u32 ts)).

(** The word a window starts from: stamped no later than it, and less than a full
    turn of the clock, minus a minute, before its end. *)
Definition stamped_before (w : N) : Prop :=
  exists d s, tracks w d s /\ (s <= T)%N /\ (T + L - s < BACKWARDS_FLOOR_MS)%N.

Lemma rule_inv i rule : rules !! i = Some rule ->
  exists t, (T <= t <= T + L)%N /\ rule = charge refill capacity (t mod 2 ^ 32).
Proof.
  rewrite !list_lookup_fmap. destruct (ts !! i) as [t|] eqn:E; [|done]. intros [= <-]. exists t.
  split; [|done]. rewrite Forall_forall in Hts. apply Hts. by eapply list_elem_of_lookup_2.
Qed.

(** The first admission of a window stamps the slot inside it. *)
Lemma first_admission w t w' :
  stamped_before w -> (T <= t <= T + L)%N -> charge refill capacity (t mod 2 ^ 32) w = Some w' ->
  exists d, tracks w' d t /\ (MILLI <= d <= capacity)%N.
Proof.
  intros (d0 & s & Hw & Hs & Hgap) Ht Ha.
  assert (Hmod : (t mod 2 ^ 32 < 2 ^ 32)%N) by (by apply N.mod_upper_bound).
  pose proof (admit_spec _ _ Hrates _ _ _ Hmod Ha) as Hspec. unfold settle in Hspec. rewrite Hw in Hspec.
  rewrite band_forward in Hspec by lia. cbv zeta in Hspec.
  assert (Hmodgap : ((t - s) mod 2 ^ 32 = t - s)%N).
  { apply N.mod_small. change BACKWARDS_FLOOR_MS with 4294907296%N in Hgap. change (2 ^ 32)%N with 4294967296%N. lia. }
  rewrite Hmodgap in Hspec. destruct (t - s <? WRAP_GUARD_MS)%N.
  - destruct Hspec as [Hu Hc]. eexists. split; [exact Hu|]. unfold MILLI in *. lia.
  - rewrite (proj2 (N.leb_gt _ _)) in Hspec by lia. destruct Hspec as [Hu Hc].
    eexists. split; [exact Hu|]. unfold MILLI in *. lia.
Qed.

Lemma chain_rate w order w' :
  stamped_before w -> Chain rules w order w' ->
  (order = [] /\ w' = w) \/
  exists d s, tracks w' d s /\ (T <= s <= T + L)%N /\ (d <= capacity)%N /\
    (N.of_nat (length order) * MILLI <= d + refill * (s - T))%N.
Proof.
  intros Hw. induction 1 as [w|w order w1 i rule w2 Hc IH Hi Hr]; [by left|]. right.
  destruct (rule_inv i rule Hi) as (t & Ht & ->). rewrite length_app. cbn [length].
  destruct (IH Hw) as [[-> ->]|(d & s & Htr & Hs & Hd & Hn)].
  - destruct (first_admission w t w2 Hw Ht Hr) as (d & Htr & Hd). exists d, t.
    split_and!; [done|lia|lia|lia|]. change (N.of_nat (length [] + 1)) with 1%N. unfold MILLI in *.
    pose proof (N.le_0_l (refill * (t - T))). lia.
  - unfold STALE_MAX_MS in HL.
    destruct (tracks_admit _ _ Hrates w1 d s t w2 Htr) as [Htr' Hd']; [change WRAP_GUARD_MS with 2147483648%N; lia|unfold STALE_MAX_MS; lia|done|].
    exists (d - (N.max s t - s) * refill + MILLI)%N, (N.max s t). split_and!; [done|lia|lia|done|].
    unfold MILLI in *. rewrite (N.mul_comm _ refill).
    assert (refill * (N.max s t - T) = refill * (N.max s t - s) + refill * (s - T))%N by (rewrite <- N.mul_add_distr_l; f_equal; lia).
    lia.
Qed.

Lemma chain_bound w order w' :
  stamped_before w -> Chain rules w order w' -> (N.of_nat (length order) * MILLI <= capacity + refill * L)%N.
Proof.
  intros Hw Hc. destruct (chain_rate w order w' Hw Hc) as [[-> _]|(d & s & _ & Hs & Hd & Hn)]; [cbn; lia|].
  assert (refill * (s - T) <= refill * L)%N by (apply N.mul_le_mono_l; lia). lia.
Qed.

End Rate.

(** ** At one instant *)

Lemma settle_again refill now w d' :
  (now < 2 ^ 32)%N -> (d' < 2 ^ 30)%N ->
  let '(d, s) := settle w now refill in settle (pack d' s) now refill = (d', s).
Proof.
  intros Hnow Hd'. pose proof (unpack_bounds w) as [_ Hl]. unfold settle at 1.
  destruct (unpack w) as [d l]. cbn in Hl.
  assert (Hsame : settle (pack d' now) now refill = (d', now)).
  { unfold settle. rewrite unpack_pack by done. unfold band, u32_wrapping_sub, U32_MOD.
    replace ((now + 2 ^ 32 - now) mod 2 ^ 32)%N with 0%N.
    - change (0 <? WRAP_GUARD_MS)%N with true. cbv iota zeta. by rewrite N.mul_0_l, N.sub_0_r.
    - replace (now + 2 ^ 32 - now)%N with (0 + 1 * 2 ^ 32)%N by lia. by rewrite N.Div0.mod_add. }
  destruct (band now l) eqn:Eb; [exact Hsame| |exact Hsame].
  unfold settle. rewrite unpack_pack by done. by rewrite Eb.
Qed.

(** ** Keys *)

Lemma shiftr_lt a k n : (a < 2 ^ (n + k))%N -> (N.shiftr a k < 2 ^ n)%N.
Proof.
  intros Ha. rewrite N.shiftr_div_pow2. apply N.Div0.div_lt_upper_bound. by rewrite <- N.pow_add_r, N.add_comm.
Qed.

Lemma v4_key_val a : v4_key a = N.shiftr a 8.
Proof. unfold v4_key, KEY_TAG_V4. by rewrite N.lor_0_l. Qed.

Lemma v6_key_val a : (a < 2 ^ 128)%N -> v6_key a = (2 ^ 62 + N.shiftr a 72)%N.
Proof.
  intros Ha. unfold v6_key. change (128 - IPV6_PREFIX_BITS)%N with 72%N.
  assert (Hp : (N.shiftr a 72 < 2 ^ 56)%N) by (by apply shiftr_lt).
  rewrite N.mod_small by (etrans; [exact Hp|done]).
  unfold KEY_TAG_V6. rewrite lor_shiftl_add by (etrans; [exact Hp|done]). by rewrite N.mul_1_l.
Qed.

(** What a source is charged as: an IPv4 /24 or an IPv6 /56, the mapped form folded. *)
Inductive Prefix : Type :=
| Prefix4 (p : N)
| Prefix6 (p : N).

Definition prefix_of (ip : IpAddr) : Prefix :=
  match ip with
  | V4 a => Prefix4 (a / 2 ^ 8)
  | V6 a => match to_ipv4_mapped a with
            | Some v4 => Prefix4 (v4 / 2 ^ 8)
            | None => Prefix6 (a / 2 ^ 72)
            end
  end.

Definition prefix_key (p : Prefix) : N :=
  match p with Prefix4 p => p | Prefix6 p => (2 ^ 62 + p)%N end.

Lemma canonical_key_prefix ip : ip_ok ip -> canonical_key ip = prefix_key (prefix_of ip).
Proof.
  destruct ip as [a|a]; cbn [ip_ok canonical_key prefix_of]; intros Ha.
  - rewrite v4_key_val. cbn. by rewrite N.shiftr_div_pow2.
  - destruct (to_ipv4_mapped a); cbn.
    + by rewrite v4_key_val, N.shiftr_div_pow2.
    + rewrite v6_key_val, N.shiftr_div_pow2 by done. done.
Qed.

Lemma prefix_of_bound ip :
  ip_ok ip -> match prefix_of ip with Prefix4 p => (p < 2 ^ 24)%N | Prefix6 p => (p < 2 ^ 56)%N end.
Proof.
  destruct ip as [a|a]; cbn [ip_ok prefix_of]; intros Ha.
  - by apply N.Div0.div_lt_upper_bound.
  - unfold to_ipv4_mapped. destruct (_ =? _)%N.
    + apply N.Div0.div_lt_upper_bound. apply (N.mod_upper_bound a (2 ^ 32)). done.
    + by apply N.Div0.div_lt_upper_bound.
Qed.
