(* ===== verification/RateLimitTheorems.v ===== *)
(** * The rate limiter's promises (src/src/ratelimit.rs)

    Stated of limiters as [RateLimiter_new] builds them, so over every [qps] and
    [burst] an operator can write; each followed by a concrete instance. *)

From S2P Require Import Prelude Cas RateLimit RateLimitFacts.

(** ** Words *)

(** A slot word gives back the deficit and the stamp it was packed from, and
    leaves bits 63 and 62 zero, for every deficit a limiter can charge. *)
Theorem slot_word_roundtrip h e qps burst d last_ms :
  let rl := RateLimiter_new h e qps burst in
  (d <= capacity_milli rl)%N -> (last_ms < U32_MOD)%N ->
  unpack (pack d last_ms) = (d, last_ms) /\ (pack d last_ms < 2 ^ 62)%N.
Proof.
  intros rl Hd Hl. destruct (new_rates h e qps burst) as [_ Hc]. fold rl in Hc.
  split; [apply unpack_pack; [lia|done]|by apply pack_lt].
Qed.

Lemma slot_word_roundtrip_witness : unpack (pack 5000 17) = (5000%N, 17%N) /\ (pack 5000 17 < 2 ^ 62)%N.
Proof.
  apply (slot_word_roundtrip (fun k => k) 0 10 5 5000 17); [apply N.leb_le; vm_compute; reflexivity|reflexivity].
Defined.

(** ** The deficit *)

(** Whatever the callers and however their steps interleave, a slot that starts
    within its capacity never holds a deficit past it. *)
Theorem deficit_never_exceeds_capacity h e qps burst now_mss sched w :
  let rl := RateLimiter_new h e qps burst in
  Forall (fun now_ms => now_ms < U32_MOD)%N now_mss ->
  word_ok (capacity_milli rl) w -> word_ok (capacity_milli rl) (check_many rl now_mss sched w).1.
Proof.
  intros rl Hnow Hw. pose proof (new_rates h e qps burst) as Hr. fold rl in Hr.
  unfold check_many. set (rules := map _ now_mss).
  destruct (run_linear rules (Some CAS_ATTEMPTS) sched w) as (order & [Hc _ _]).
  eapply (chain_invariant rules (word_ok (capacity_milli rl))); [|exact Hw|exact Hc].
  intros i rule w1 w2 Hi _ H. unfold rules in Hi. rewrite list_lookup_fmap in Hi.
  destruct (now_mss !! i) as [now_ms|] eqn:E; [|done]. injection Hi as <-.
  eapply admit_word_ok; [exact Hr| |exact H]. rewrite Forall_forall in Hnow. apply Hnow.
  by eapply list_elem_of_lookup_2.
Qed.

Lemma deficit_never_exceeds_capacity_witness :
  word_ok 5000 (check_many (RateLimiter_new (fun k => k) 0 10 5) [3; 4]%N
    [(0, false); (1, false); (0, false); (1, false); (1, false)]%nat 0).1.
Proof.
  apply (deficit_never_exceeds_capacity (fun k => k) 0 10 5).
  - repeat constructor.
  - split; apply N.leb_le || apply N.ltb_lt; vm_compute; reflexivity.
Defined.

(** C35: no interleaving beats the rate.  In any window of up to a minute, however
    many callers race on one slot and whatever order their stale readings land in,
    the queries admitted cost at most the bucket plus what the window refills:
    [admitted * 1000 <= burst * 1000 + qps * L]. *)
Theorem rate_is_bounded h e qps burst T L ts sched w :
  let rl := RateLimiter_new h e qps burst in
  (L <= STALE_MAX_MS)%N -> Forall (fun t => T <= t <= T + L)%N ts -> stamped_before T L w ->
  (N.of_nat (admitted (check_many rl (map as_u32 ts) sched w).2) * MILLI
   <= capacity_milli rl + refill_per_ms rl * L)%N.
Proof.
  intros rl HL Hts Hw. pose proof (new_rates h e qps burst) as Hr. fold rl in Hr.
  unfold check_many, admitted.
  destruct (run_linear (map (charge (refill_per_ms rl) (capacity_milli rl)) (map as_u32 ts))
              (Some CAS_ATTEMPTS) sched w) as (order & Hlin).
  rewrite <- (linear_count _ _ _ _ Hlin).
  eapply chain_bound; [exact Hr|exact HL|exact Hts|exact Hw|apply (ln_chain _ _ _ _ Hlin)].
Qed.

Lemma rate_is_bounded_witness :
  (N.of_nat (admitted (check_many (RateLimiter_new (fun k => k) 0 1 2) (map as_u32 [7; 9; 8]%N)
     [(0, false); (1, false); (2, false); (0, false); (2, false); (1, true); (1, false); (2, false)]%nat 0).2) * MILLI
   <= 2000 + 1 * 2)%N.
Proof.
  apply (rate_is_bounded (fun k => k) 0 1 2 7 2).
  - apply N.leb_le. vm_compute. reflexivity.
  - repeat constructor; apply N.leb_le; vm_compute; reflexivity.
  - exists 0%N, 0%N. split_and!; [reflexivity|apply N.leb_le; reflexivity|apply N.ltb_lt; vm_compute; reflexivity].
Defined.

(** Every call returns within its eight exchanges, whatever the other callers do:
    ten steps of its own are enough under any schedule. *)
Theorem check_always_returns h e qps burst now_mss sched w i :
  let rl := RateLimiter_new h e qps burst in
  (i < length now_mss)%nat -> (CAS_ATTEMPTS + 2 <= moves i sched)%nat ->
  exists ok, (check_many rl now_mss sched w).2 !! i = Some (Returned ok).
Proof.
  intros rl Hi Hm. unfold check_many. set (rules := map _ now_mss).
  assert (Hlen : length rules = length now_mss) by apply length_map.
  apply (run_returns rules (Some CAS_ATTEMPTS) CAS_ATTEMPTS); [done|lia| |].
  - cbn. unfold fresh_calls. rewrite length_replicate. lia.
  - cbn. intros c Hc. apply lookup_replicate in Hc as [-> _]. cbn. unfold CAS_ATTEMPTS in *. lia.
Qed.

Lemma check_always_returns_witness :
  exists ok, (check_many (RateLimiter_new (fun k => k) 0 10 5) [3]%N (replicate 10 (0, true)%nat) 0).2 !! 0%nat
    = Some (Returned ok).
Proof. apply (check_always_returns (fun k => k) 0 10 5); vm_compute; lia. Defined.

(** ** A bucket, over time *)

Section Burst.
Context (rl : RateLimiter) (ip : IpAddr) (now : N).

Lemma check_at_unfold (s : RateLimiter) :
  check_at s ip now =
    let idx := slot_of s ip in
    match charge (refill_per_ms s) (capacity_milli s) (millis_since_epoch s now) (slot_word s idx) with
    | Some word => (mkRateLimiter (<[idx := word]> (slots s)) (hash_one s) (epoch s) (refill_per_ms s) (capacity_milli s), true)
    | None => (s, false)
    end.
Proof.
  unfold check_at. rewrite call_alone_spec by done. cbv zeta.
  destruct (charge _ _ _ _); [done|]. by destruct s.
Qed.

(** After [k] admissions at one instant the slot holds [k] tokens' deficit. *)
Lemma check_repeat_from n s k d st :
  rates_ok (refill_per_ms s) (capacity_milli s) -> capacity_milli s = (k * MILLI + d)%N ->
  settle (slot_word s (slot_of s ip)) (millis_since_epoch s now) (refill_per_ms s) = (d, st) ->
  check_repeat n s ip now =
    replicate (Nat.min n (N.to_nat k)) true ++ replicate (n - N.to_nat k) false.
Proof.
  revert s k d. induction n as [|n IH]; intros s k d Hr Hcap Hset; [done|]. cbn [check_repeat].
  rewrite check_at_unfold. cbv zeta. unfold charge. rewrite Hset.
  destruct (capacity_milli s <? d + MILLI)%N eqn:E; bool_prop.
  - assert (k = 0%N) as -> by (unfold MILLI in *; lia). cbn [N.to_nat]. rewrite Nat.min_0_r, Nat.sub_0_r.
    rewrite (IH s 0%N d Hr Hcap Hset). cbn [N.to_nat]. by rewrite Nat.min_0_r, Nat.sub_0_r.
  - assert (Hk : (1 <= k)%N) by (destruct (N.eq_0_gt_0_cases k) as [->|]; unfold MILLI in *; lia).
    rewrite (IH _ (k - 1)%N (d + MILLI)%N).
    + replace (N.to_nat k) with (S (N.to_nat (k - 1))) by lia. cbn [Nat.min replicate app Nat.sub]. done.
    + done.
    + cbn [capacity_milli]. unfold MILLI in *. lia.
    + cbn [slots hash_one epoch refill_per_ms capacity_milli].
      unfold slot_word, slot_of, millis_since_epoch. cbn [slots hash_one epoch]. rewrite lookup_insert_eq. cbn [default].
      pose proof (settle_again (refill_per_ms s) (millis_since_epoch s now) (slot_word s (slot_of s ip)) (d + MILLI)) as Hs.
      rewrite Hset in Hs. apply Hs.
      * unfold millis_since_epoch, as_u32. by apply N.mod_upper_bound.
      * destruct Hr as [_ Hc]. unfold MILLI in *. lia.
Qed.

End Burst.

(** An untouched source gets exactly its burst: of [n] queries at one instant the
    first [burst] are admitted and every later one is refused. *)
Theorem burst_is_exact h e qps burst n ip now :
  let rl := RateLimiter_new h e qps burst in
  let b := N.to_nat (clampN burst 1 MAX_RATE) in
  check_repeat n rl ip now = replicate (Nat.min n b) true ++ replicate (n - b) false.
Proof.
  intros rl b. unfold b.
  assert (Hset : exists st, settle (slot_word rl (slot_of rl ip)) (millis_since_epoch rl now) (refill_per_ms rl) = (0%N, st)).
  { replace (slot_word rl (slot_of rl ip)) with 0%N by (unfold slot_word, rl; cbn [slots RateLimiter_new]; by rewrite lookup_empty).
    unfold settle. replace (unpack 0) with (0%N, 0%N) by reflexivity. cbv beta iota.
    match goal with |- context [band ?a ?c] => destruct (band a c) end; eexists; [by rewrite N.sub_0_l|done|done]. }
  destruct Hset as [st Hset].
  apply (check_repeat_from ip now n rl _ 0%N st (new_rates h e qps burst)); [|exact Hset].
  unfold rl. cbn. unfold MILLI. lia.
Qed.

(** A bucket refills.  Once the gap since its stamp is worth the whole bucket,
    the settled deficit is zero and the next query is admitted, up to the last
    minute of the clock's turn, which is read as a backwards reading. *)
Theorem bucket_refills h e qps burst now_ms w :
  let rl := RateLimiter_new h e qps burst in
  let gap := u32_wrapping_sub now_ms (unpack w).2 in
  word_ok (capacity_milli rl) w -> (capacity_milli rl <= gap * refill_per_ms rl)%N ->
  (gap < BACKWARDS_FLOOR_MS)%N ->
  (settle w now_ms (refill_per_ms rl)).1 = 0%N /\
  exists w', charge (refill_per_ms rl) (capacity_milli rl) now_ms w = Some w'.
Proof.
  intros rl gap [Hd _] Hgap Hfloor. destruct (new_rates h e qps burst) as [_ [Hc _]]. fold rl in Hc. clearbody rl.
  assert (Hs : settle w now_ms (refill_per_ms rl) = (0%N, now_ms)).
  { unfold settle, deficit_of in *. destruct (unpack w) as [d l] eqn:E. cbn [fst snd] in *. unfold band. fold gap.
    destruct (gap <? WRAP_GUARD_MS)%N; [f_equal; lia|]. by rewrite (proj2 (N.leb_gt _ _)). }
  unfold charge. rewrite Hs. split; [done|]. rewrite (proj2 (N.ltb_ge _ _)) by (unfold MILLI in *; lia). by eexists.
Qed.

Lemma bucket_refills_witness :
  (settle (pack 5000 100) 1100 10).1 = 0%N /\ exists w', charge 10 5000 1100 (pack 5000 100) = Some w'.
Proof.
  apply (bucket_refills (fun k => k) 0 10 5 1100 (pack 5000 100)).
  - split; apply N.leb_le || apply N.ltb_lt; vm_compute; reflexivity.
  - apply N.leb_le. vm_compute. reflexivity.
  - apply N.ltb_lt. vm_compute. reflexivity.
Defined.

(** ** Keys and slots *)

(** Two sources share a key exactly when they share an IPv4 /24 or an IPv6 /56,
    an IPv4-mapped address counting as the IPv4 address it carries. *)
Theorem key_is_prefix ip1 ip2 :
  ip_ok ip1 -> ip_ok ip2 -> canonical_key ip1 = canonical_key ip2 <-> prefix_of ip1 = prefix_of ip2.
Proof.
  intros H1 H2. rewrite !canonical_key_prefix by done. split; [|by intros ->].
  pose proof (prefix_of_bound ip1 H1) as B1. pose proof (prefix_of_bound ip2 H2) as B2.
  destruct (prefix_of ip1) as [p|p], (prefix_of ip2) as [q|q]; cbn; intros H.
  - by subst.
  - exfalso. change (2 ^ 24)%N with 16777216%N in B1. change (2 ^ 62)%N with 4611686018427387904%N in H. lia.
  - exfalso. change (2 ^ 24)%N with 16777216%N in B2. change (2 ^ 62)%N with 4611686018427387904%N in H. lia.
  - f_equal. lia.
Qed.

Lemma key_is_prefix_witness :
  canonical_key (V4 3221225985) = canonical_key (V6 (65535 * 2 ^ 32 + 3221226000)).
Proof. apply key_is_prefix; vm_compute; reflexivity. Defined.

(** A check touches one slot, inside the table, and nothing else: memory is the
    same after any query, and a refused query stores nothing at all. *)
Theorem check_touches_one_slot rl ip now :
  let '(rl', ok) := check_at rl ip now in
  (slot_of rl ip < SLOTS)%N /\ memory_bytes rl' = memory_bytes rl /\
  (forall idx, idx <> slot_of rl ip -> slot_word rl' idx = slot_word rl idx) /\
  (ok = false -> rl' = rl).
Proof.
  rewrite check_at_unfold. cbv zeta.
  assert (Hidx : (slot_of rl ip < SLOTS)%N).
  { unfold slot_of. change SLOT_MASK with (N.ones 18). rewrite N.land_ones. by apply N.mod_upper_bound. }
  destruct (charge _ _ _ _) as [w|]; split_and!; try done.
  intros idx Hne. unfold slot_word. cbn [slots]. by rewrite lookup_insert_ne.
Qed.
