(* ===== verification/Lifecycle.v ===== *)
(** * The process lifecycle (src/src/lifecycle.rs)

    One monotonic word holding the phase, advanced by a compare-exchange loop, and a
    deadline that is set once. *)

From S2P Require Import Prelude Cas.

(** ** Phases *)

Inductive Phase : Type := Starting | Serving | Draining | Stopping | Closing.

Definition bits (p : Phase) : N :=
  match p with Starting => 0 | Serving => 1 | Draining => 2 | Stopping => 3 | Closing => 4 end.

Definition from_bits (b : N) : Phase :=
  match b with 0 => Starting | 1 => Serving | 2 => Draining | 3 => Stopping | _ => Closing end%N.

Definition as_str (p : Phase) : string :=
  match p with
  | Starting => "starting" | Serving => "serving" | Draining => "draining"
  | Stopping => "stopping" | Closing => "closing"
  end.

(** ** The lifecycle *)

Record Lifecycle : Type := mkLifecycle {
  phase_word : N;
  deadline : option N;
}.

Definition Lifecycle_new : Lifecycle := mkLifecycle (bits Starting) None.

Definition phase (l : Lifecycle) : Phase := from_bits (phase_word l).

(** What [enter] does with the phase it observed: nothing, or the exchange. *)
Definition enter_rule (next : Phase) (current : N) : option N :=
  if (bits next <=? current)%N then None else Some (bits next).

Definition enter (l : Lifecycle) (next : Phase) : Lifecycle * bool :=
  let '(word, ok) := call_alone (enter_rule next) None (phase_word l) in
  (mkLifecycle word (deadline l), ok).

(** [enter] from many tasks at once, under a schedule of their steps. *)
Definition enter_many (nexts : list Phase) (sched : Schedule) (word : N) : N * list Call :=
  let rules := map enter_rule nexts in run rules None sched (word, fresh_calls rules).

Definition is_ready (l : Lifecycle) : bool := (bits (phase l) =? bits Serving)%N.
Definition is_draining (l : Lifecycle) : bool := (bits Draining <=? bits (phase l))%N.

(** [OnceLock::set]: the first value stays. *)
Definition arm_deadline (l : Lifecycle) (at_ : N) : Lifecycle :=
  mkLifecycle (phase_word l) (match deadline l with Some d => Some d | None => Some at_ end).

(** [saturating_duration_since] is the subtraction of [N]. *)
Definition deadline_in (l : Lifecycle) (now : N) : option N := (fun at_ => at_ - now)%N <$> deadline l.

(** ** Facts *)

Lemma from_bits_bits p : from_bits (bits p) = p.
Proof. by destruct p. Qed.

Lemma bits_from_bits b : (b <= 4)%N -> bits (from_bits b) = b.
Proof.
  intros H. destruct (decide (b = 0 \/ b = 1 \/ b = 2 \/ b = 3 \/ b = 4)%N) as [E|E]; [|lia].
  by destruct E as [->|[->|[->|[->| ->]]]].
Qed.

Section Enter.
Context (nexts : list Phase).

Abbreviation rules := (map enter_rule nexts).

(** What holds of the word and of every call, along any schedule. *)
Record EnterInv (w : N) (s : N * list Call) : Prop := {
  ei_mono : (w <= s.1)%N;
  ei_bound : s.1 = w \/ exists i p, nexts !! i = Some p /\ s.1 = bits p;
  ei_len : length s.2 = length nexts;
  ei_seen i observed tries : s.2 !! i = Some (Trying observed tries) -> (observed <= s.1)%N;
  ei_done i p ok : nexts !! i = Some p -> s.2 !! i = Some (Returned ok) -> (bits p <= s.1)%N;
}.

Lemma enter_inv_init w : EnterInv w (w, fresh_calls rules).
Proof.
  constructor; cbn; [lia|by left|unfold fresh_calls; by rewrite length_replicate, length_map| |].
  - intros i o t H. apply lookup_replicate in H as [H _]. discriminate.
  - intros i p ok _ H. apply lookup_replicate in H as [H _]. discriminate.
Qed.

(** The step a call takes: what it leaves the word at, and where it ends. *)
Lemma enter_next next spurious word c :
  let '(word', c') := call_next (enter_rule next) None spurious word c in
  (word <= word' \/ exists o t, c = Trying o t /\ ~ (o <= word))%N /\
  (word' = word \/ word' = bits next) /\
  match c' with
  | Trying o _ => o = word /\ word' = word
  | Returned _ => c' = c \/ (exists o t, c = Trying o t /\ ((bits next <= o)%N \/ word' = bits next))
  | Fresh => False
  end.
Proof.
  destruct c as [|o t|ok]; cbn.
  - split_and!; [left; lia|by left|done|done].
  - unfold enter_rule. destruct (bits next <=? o)%N eqn:E; bool_prop; cbn.
    + split_and!; [left; lia|by left|]. right. eauto.
    + destruct ((word =? o)%N && negb spurious) eqn:Ew.
      * apply andb_true_iff in Ew as [Ew _]. bool_prop. subst. split_and!; [left; lia|by right|]. right. eauto.
      * split_and!; [left; lia|by left|done|done].
  - split_and!; [left; lia|by left|by left].
Qed.

Lemma enter_inv_step w s step : EnterInv w s -> EnterInv w (sys_next rules None s step).
Proof.
  intros [H1 H2 H3 H4 H5]. destruct step as [i spurious]. unfold sys_next. rewrite list_lookup_fmap.
  destruct (nexts !! i) as [next|] eqn:En; [|by constructor]. cbn [fmap option_fmap option_map].
  destruct (s.2 !! i) as [c|] eqn:Ec; [|by constructor].
  pose proof (enter_next next spurious s.1 c) as Hn.
  destruct (call_next (enter_rule next) None spurious s.1 c) as [word' c']. destruct Hn as (Hmono & Hword & Hc').
  assert (Hle : (s.1 <= word')%N).
  { destruct Hmono as [|(o & t & -> & Ho)]; [done|]. exfalso. apply Ho. by apply (H4 i o t). }
  assert (Hlt : (i < length s.2)%nat) by (by eapply lookup_lt_Some).
  constructor; cbn.
  - lia.
  - destruct Hword as [->| ->]; [done|]. right. by exists i, next.
  - by rewrite length_insert.
  - intros j o t Hj. destruct (decide (j = i)) as [->|Hne].
    + rewrite list_lookup_insert_eq in Hj by done. injection Hj as ->. destruct Hc' as [-> ->]. lia.
    + rewrite list_lookup_insert_ne in Hj by done. etrans; [by eapply H4|done].
  - intros j p ok Hp Hj. destruct (decide (j = i)) as [->|Hne].
    + rewrite list_lookup_insert_eq in Hj by done. injection Hj as ->. rewrite En in Hp. injection Hp as <-.
      destruct Hc' as [<-|(o & t & -> & [Ho| ->])]; [|pose proof (H4 i o t Ec); lia|lia].
      etrans; [by eapply (H5 i)|done].
    + rewrite list_lookup_insert_ne in Hj by done. etrans; [by eapply H5|done].
Qed.

Lemma enter_inv_run w sched s : EnterInv w s -> EnterInv w (run rules None sched s).
Proof.
  revert s; induction sched as [|step sched IH]; intros s H; [done|]. apply IH. by apply enter_inv_step.
Qed.

Lemma enter_many_inv sched w : EnterInv w (enter_many nexts sched w).
Proof. apply enter_inv_run, enter_inv_init. Qed.

End Enter.

(** ** The promises *)

(** C36: a phase never goes backwards, under any interleaving of tasks: the word only
    grows, it only ever holds a discriminant, and once the process is draining no
    late [Serving] makes it ready again. *)
Theorem phase_never_goes_back nexts sched1 sched2 w d :
  (w <= 4)%N ->
  let before := (enter_many nexts sched1 w).1 in
  let after := (enter_many nexts (sched1 ++ sched2) w).1 in
  (before <= after <= 4)%N /\
  (is_draining (mkLifecycle before d) = true ->
   is_draining (mkLifecycle after d) = true /\ is_ready (mkLifecycle after d) = false).
Proof.
  intros Hw before after.
  assert (Hb4 : forall p, (bits p <= 4)%N) by (intros []; cbn; lia).
  assert (Hle4 : forall sched, ((enter_many nexts sched w).1 <= 4)%N).
  { intros sched. destruct (ei_bound _ _ _ (enter_many_inv nexts sched w)) as [->|(i & p & _ & ->)]; [done|apply Hb4]. }
  assert (Hle : (before <= after)%N).
  { unfold after, enter_many, run. rewrite fold_left_app.
    assert (Hmono : forall sched s, EnterInv nexts w s ->
      (s.1 <= (fold_left (sys_next (map enter_rule nexts) None) sched s).1)%N).
    { induction sched as [|step sched IH]; intros s Hs; [cbn; lia|]. cbn [fold_left].
      etrans; [|apply IH; by apply enter_inv_step].
      destruct Hs as [_ _ _ H4 _]. destruct step as [i sp]. unfold sys_next. rewrite list_lookup_fmap.
      destruct (nexts !! i) as [next|]; [|cbn; lia]. cbn [fmap option_fmap option_map].
      destruct (s.2 !! i) as [c|] eqn:Ec; [|lia]. pose proof (enter_next next sp s.1 c) as Hn.
      destruct (call_next (enter_rule next) None sp s.1 c). cbn.
      destruct Hn as ([|(o & t & -> & Ho)] & _); [done|]. exfalso. apply Ho. by apply (H4 i o t). }
    apply Hmono. apply (enter_many_inv nexts sched1 w). }
  split; [split; [done|apply Hle4]|]. unfold is_draining, is_ready, phase. cbn [phase_word].
  rewrite !bits_from_bits by apply Hle4. cbn. intros Hd. bool_prop.
  split; [apply N.leb_le; lia|apply N.eqb_neq; lia].
Qed.

Lemma phase_never_goes_back_witness :
  is_ready (mkLifecycle (enter_many [Draining; Serving] [(0, false); (0, false); (1, false); (1, false)]%nat 0).1 None) = false.
Proof.
  apply (phase_never_goes_back [Draining; Serving] [(0, false); (0, false)]%nat [(1, false); (1, false)]%nat 0 None);
    [apply N.leb_le; reflexivity|reflexivity].
Defined.

(** Exactly one task wins each phase.  Two calls that both returned [true] asked
    for different phases, and once every call has returned the phase is the furthest
    anyone asked for. *)
Theorem one_winner_per_phase nexts sched w :
  let '(word, calls) := enter_many nexts sched w in
  (forall i j p, nexts !! i = Some p -> nexts !! j = Some p ->
     calls !! i = Some (Returned true) -> calls !! j = Some (Returned true) -> i = j) /\
  ((forall i p, nexts !! i = Some p -> exists ok, calls !! i = Some (Returned ok)) ->
     Forall (fun p => bits p <= word)%N nexts /\ (word = w \/ exists p, p ∈ nexts /\ word = bits p)).
Proof.
  pose proof (enter_many_inv nexts sched w) as [_ H2 _ _ H5].
  destruct (run_linear (map enter_rule nexts) None sched w) as (order & [Hc Hn Ht]).
  fold (enter_many nexts sched w) in Hc, Ht.
  destruct (enter_many nexts sched w) as [word calls]. cbn [fst snd] in *. split.
  - intros i j p Hi Hj Hti Htj. apply Ht in Hti, Htj. clear H2 H5 Ht.
    assert (Hone : forall w w' order, Chain (map enter_rule nexts) w order w' ->
      (forall i q, i ∈ order -> nexts !! i = Some q -> (bits q <= w')%N) /\ 
      (forall i j p, nexts !! i = Some p -> nexts !! j = Some p -> i ∈ order -> j ∈ order -> i = j)).
    { clear. induction 1 as [w|w order w1 k rule w2 Hc [IH1 IH2] Hk Hr].
      - split; [intros i q Hi|intros i j p _ _ Hi]; by apply elem_of_nil in Hi.
      - rewrite list_lookup_fmap in Hk. destruct (nexts !! k) as [q|] eqn:Eq; [|done]. injection Hk as <-.
        unfold enter_rule in Hr. destruct (bits q <=? w1)%N eqn:E; [done|]. bool_prop. injection Hr as <-.
        assert (Hnew : forall i p, i ∈ order -> nexts !! i = Some p -> (bits p < bits q)%N).
        { intros i p Hi Hp. pose proof (IH1 i p Hi Hp). lia. }
        split.
        + intros i p [Hi|Hi%list_elem_of_singleton]%elem_of_app Hp; [pose proof (Hnew i p Hi Hp); lia|].
          subst. rewrite Eq in Hp. injection Hp as <-. lia.
        + intros i j p Hi Hj [Hio|Hio%list_elem_of_singleton]%elem_of_app [Hjo|Hjo%list_elem_of_singleton]%elem_of_app.
          * by eapply IH2.
          * subst j. rewrite Eq in Hj. injection Hj as <-. pose proof (Hnew i q Hio Hi). lia.
          * subst i. rewrite Eq in Hi. injection Hi as <-. pose proof (Hnew j q Hjo Hj). lia.
          * by subst. }
    destruct (Hone _ _ _ Hc) as [_ H]. by eapply H.
  - intros Hall. split.
    + apply Forall_forall. intros p [i Hi]%list_elem_of_lookup. destruct (Hall i p Hi) as [ok Hok]. by eapply H5.
    + destruct H2 as [->|(i & p & Hi & ->)]; [by left|right]. exists p. split; [by eapply list_elem_of_lookup_2|done].
Qed.

(** C: [enter] alone advances exactly when the phase is ahead, and a deadline once
    armed is never moved. *)
Theorem enter_and_arm l next at1 at2 now :
  enter l next =
    (if (bits next <=? phase_word l)%N then (l, false) else (mkLifecycle (bits next) (deadline l), true)) /\
  deadline_in (arm_deadline (arm_deadline l at1) at2) now = deadline_in (arm_deadline l at1) now.
Proof.
  split.
  - unfold enter. rewrite call_alone_spec by done. unfold enter_rule.
    destruct (bits next <=? phase_word l)%N; [by destruct l|done].
  - unfold deadline_in, arm_deadline. cbn. by destruct (deadline l).
Qed.
