(* ===== verification/Shutdown.v ===== *)
(** * Signals and the shutdown sequence (src/src/shutdown.rs, src/src/main.rs)

    The main task from the moment its listeners are bound, one definition per stretch
    between two awaits or two effects another task can see, in a world where time
    passes, signals are delivered, requests come and go, and the DNS and admin
    servers end when they end.  Instants are nanoseconds. *)

From S2P Require Import Prelude Cas Lifecycle.
Local Open Scope N_scope.

(** ** Signals (shutdown.rs) *)

Inductive Cause : Type := Term | Int | Abort.

#[global] Instance cause_eq_dec : EqDecision Cause.
Proof. solve_decision. Defined.

Definition cause_as_str (c : Cause) : string :=
  match c with Term => "SIGTERM" | Int => "SIGINT" | Abort => "internal abort" end%string.

Definition drain_window (c : Cause) (configured : N) : N :=
  match c with Term => configured | Int | Abort => 0 end.

(** [count] is the watch channel's value, [cause] the [OnceLock]. *)
Record Signals : Type := mkSignals { count : N; cause : option Cause }.

(** [watch]; the listening task is the world's [Mark] and [Bump] below. *)
Definition watch : Signals := mkSignals 0 None.

(** [self.cause.set(cause)]: the first one stays. *)
Definition set_cause (s : Signals) (c : Cause) : Signals :=
  mkSignals (count s) (match cause s with Some c' => Some c' | None => Some c end).

Definition bump (s : Signals) : Signals := mkSignals (N.min (count s + 1) u32_MAX) (cause s).

(** [deliver] and, with [Abort], [abort]: both effects, when nothing comes between. *)
Definition deliver (s : Signals) (c : Cause) : Signals := bump (set_cause s c).
Definition abort (s : Signals) : Signals := deliver s Abort.

(** [listen]: what is heard of the signals sent to the process, through the handlers
    that could be installed.  A hangup is heard and ignored; a signal with no handler
    is the operating system's, and not the loop's. *)
Inductive Signal : Type := SIGTERM | SIGINT | SIGHUP.

Record Streams : Type := mkStreams { sigterm : bool; sigint : bool; sighup : bool }.

Definition heard (st : Streams) (s : Signal) : option (option Cause) :=
  match s with
  | SIGTERM => if sigterm st then Some (Some Term) else None
  | SIGINT => if sigint st then Some (Some Int) else None
  | SIGHUP => if sighup st then Some None else None
  end.

Definition listen_one (st : Streams) (signals : Signals) (s : Signal) : Signals :=
  match heard st s with Some (Some c) => deliver signals c | _ => signals end.

Definition listen (st : Streams) (signals : Signals) (sent : list Signal) : Signals :=
  fold_left (listen_one st) sent signals.

(** [first], polled: ready once the count is not zero. *)
Definition first (s : Signals) : option Cause :=
  if count s =? 0 then None else Some (match cause s with Some c => c | None => Term end).

(** [again], polled; [baseline] is the count its first poll saw. *)
Definition again (s : Signals) (baseline : N) : bool := baseline <? count s.

(** ** The sequence (main.rs) *)

Definition SECOND : N := 1000000000.
Definition MILLISECOND : N := 1000000.

Definition QUIESCE_CAP : N := 1 * SECOND.
Definition QUIESCE_POLL : N := 5 * MILLISECOND.
Definition STOP_BUDGET : N := 5 * SECOND.
Definition ADMIN_CLOSE_BUDGET : N := 1 * SECOND.
Definition WATCHDOG_GRACE : N := 2 * SECOND.

Definition SUCCESS : N := 0.
Definition FAILURE : N := 1.
Definition OVERRUN_EXIT_CODE : N := 3.

(** Where the main task is, from [lifecycle.enter(Phase::Serving)] on. *)
Inductive Pc : Type :=
| AtReady
| AtSteady                                  (* the select of [serve] *)
| AtChosen (c : Cause)
| AtRun                                     (* the start of [Shutdown::run] *)
| AtDraining
| AtSleep
| AtWindow (wake baseline : N)              (* the select on the window *)
| AtStopping
| AtQuiesce
| AtCheck (cap : N)                         (* the top of the loop of [quiesce] *)
| AtPoll (cap wake baseline : N)            (* its select *)
| AtCancel (abandoned : N)
| AtJoin                                    (* [block_until_done] *)
| AtClosing
| AtAdmin
| AtLinger
| AtAdminWait (wake : N)                    (* the timeout on the admin task *)
| AtDone.

(** A token is the instant it was cancelled at; so is the end of the listeners. *)
Record Sys : Type := mkSys {
  now : N;
  life : Lifecycle;
  signals : Signals;
  marked : N;
  in_flight : N;
  drain_start : option N;
  dns : option N;
  admin : option N;
  dns_ended : option N;
  admin_ended : bool;
  window : N;
  due : option N;
  watchdog : option N;
  pc : Pc;
  exited : option N;
}.

Definition goto (p : Pc) (s : Sys) : Sys :=
  mkSys (now s) (life s) (signals s) (marked s) (in_flight s) (drain_start s) (dns s) (admin s) (dns_ended s)
    (admin_ended s) (window s) (due s) (watchdog s) p (exited s).

Definition exit_with (code : N) (s : Sys) : Sys :=
  mkSys (now s) (life s) (signals s) (marked s) (in_flight s) (drain_start s) (dns s) (admin s) (dns_ended s)
    (admin_ended s) (window s) (due s) (watchdog s) (pc s) (Some code).

Definition entering (p : Phase) (s : Sys) : Sys :=
  mkSys (now s) (enter (life s) p).1 (signals s) (marked s) (in_flight s) (drain_start s) (dns s) (admin s)
    (dns_ended s) (admin_ended s) (window s) (due s) (watchdog s) (pc s) (exited s).

(** [token.cancel()]: cancelling again changes nothing. *)
Definition cancelled_at (at_ : N) (token : option N) : option N :=
  match token with Some t => Some t | None => Some at_ end.

Definition cancel_tokens (f_drain f_dns f_admin : bool) (s : Sys) : Sys :=
  let at_ (f : bool) token := if f then cancelled_at (now s) token else token in
  mkSys (now s) (life s) (signals s) (marked s) (in_flight s) (at_ f_drain (drain_start s)) (at_ f_dns (dns s))
    (at_ f_admin (admin s)) (dns_ended s) (admin_ended s) (window s) (due s) (watchdog s) (pc s) (exited s).

Definition cancel_drain : Sys -> Sys := cancel_tokens true false false.
Definition cancel_dns : Sys -> Sys := cancel_tokens false true false.
Definition cancel_admin : Sys -> Sys := cancel_tokens false false true.

Section Machine.
Context (configured : N) (has_admin : bool).

(** [serve] between the signal and [execute]: the window, the deadline, the watchdog. *)
Definition arm (c : Cause) (s : Sys) : Sys :=
  let window := drain_window c configured in
  let deadline := now s + window + STOP_BUDGET in
  mkSys (now s) (arm_deadline (life s) deadline) (signals s) (marked s) (in_flight s) (drain_start s) (dns s)
    (admin s) (dns_ended s) (admin_ended s) window (Some deadline) (Some (deadline + WATCHDOG_GRACE)) (pc s) (exited s).

(** [timeout_at], its inner future pending: the deadline ends the sequence. *)
Definition pending (s : Sys) : Sys :=
  match due s with
  | Some deadline => if deadline <=? now s then exit_with OVERRUN_EXIT_CODE s else s
  | None => s
  end.

(** One turn of the main task.  [coin] is [select!]'s choice when both branches are
    ready. *)
Definition turn (coin : bool) (s : Sys) : Sys :=
  match pc s with
  | AtReady => goto AtSteady (entering Serving s)
  | AtSteady =>
      match first (signals s), dns_ended s with
      | Some c, None => goto (AtChosen c) s
      | Some c, Some _ => if coin then goto (AtChosen c) s else exit_with FAILURE (cancel_admin s)
      | None, Some _ => exit_with FAILURE (cancel_admin s)
      | None, None => s
      end
  | AtChosen c => goto AtRun (arm c s)
  | AtRun => goto AtDraining (cancel_drain s)
  | AtDraining => goto AtSleep (entering Draining s)
  | AtSleep => goto (AtWindow (now s + window s) (count (signals s))) s
  | AtWindow wake baseline =>
      if (wake <=? now s) || again (signals s) baseline then goto AtStopping s else pending s
  | AtStopping => goto AtQuiesce (entering Stopping s)
  | AtQuiesce => goto (AtCheck (now s + QUIESCE_CAP)) s
  | AtCheck cap =>
      if in_flight s =? 0 then goto (AtCancel 0) s
      else if cap <=? now s then goto (AtCancel (in_flight s)) s
      else goto (AtPoll cap (now s + N.min QUIESCE_POLL (cap - now s)) (count (signals s))) s
  | AtPoll cap wake baseline =>
      let slept := wake <=? now s in
      if again (signals s) baseline && (negb slept || coin) then goto (AtCancel (in_flight s)) s
      else if slept then goto (AtCheck cap) s
      else pending s
  | AtCancel _ => goto AtJoin (cancel_dns s)
  | AtJoin => match dns_ended s with Some _ => goto AtClosing s | None => pending s end
  | AtClosing => goto AtAdmin (entering Closing s)
  | AtAdmin => goto (if has_admin then AtLinger else AtDone) (cancel_admin s)
  | AtLinger => goto (AtAdminWait (now s + ADMIN_CLOSE_BUDGET)) s
  | AtAdminWait wake => if admin_ended s || (wake <=? now s) then goto AtDone s else pending s
  | AtDone => exit_with SUCCESS s
  end.

(** ** The world *)

Inductive Event : Type :=
| Turn (coin : bool)
| Tick (d : N)
| Mark (c : Cause)          (* a delivery records its cause, *)
| Bump                      (* and publishes the signal *)
| Arrive
| Depart
| DnsEnds
| AdminEnds
| Watchdog.

Definition world (now' : N) (signals' : Signals) (marked' in_flight' : N) (dns_ended' : option N) (admin_ended' : bool)
    (s : Sys) : Sys :=
  mkSys now' (life s) signals' marked' in_flight' (drain_start s) (dns s) (admin s) dns_ended' admin_ended' (window s)
    (due s) (watchdog s) (pc s) (exited s).

(** [None] when it cannot happen; nothing happens to a process that has exited. *)
Definition happens (e : Event) (s : Sys) : option Sys :=
  match exited s with
  | Some _ => None
  | None =>
      match e with
      | Turn coin => Some (turn coin s)
      | Tick d => Some (world (now s + d) (signals s) (marked s) (in_flight s) (dns_ended s) (admin_ended s) s)
      | Mark c => Some (world (now s) (set_cause (signals s) c) (marked s + 1) (in_flight s) (dns_ended s) (admin_ended s) s)
      | Bump =>
          if marked s =? 0 then None
          else Some (world (now s) (bump (signals s)) (marked s - 1) (in_flight s) (dns_ended s) (admin_ended s) s)
      | Arrive =>
          match dns_ended s with
          | Some _ => None
          | None => Some (world (now s) (signals s) (marked s) (in_flight s + 1) (dns_ended s) (admin_ended s) s)
          end
      | Depart =>
          if in_flight s =? 0 then None
          else Some (world (now s) (signals s) (marked s) (in_flight s - 1) (dns_ended s) (admin_ended s) s)
      | DnsEnds => Some (world (now s) (signals s) (marked s) (in_flight s) (cancelled_at (now s) (dns_ended s)) (admin_ended s) s)
      | AdminEnds => Some (world (now s) (signals s) (marked s) (in_flight s) (dns_ended s) true s)
      | Watchdog =>
          match watchdog s with
          | Some at_ => if at_ <=? now s then Some (exit_with OVERRUN_EXIT_CODE s) else None
          | None => None
          end
      end
  end.

(** The listeners are bound and the signal handlers are listening. *)
Definition started : Sys :=
  mkSys 0 Lifecycle_new watch 0 0 None None None None false 0 None None AtReady None.

(** Reachable under an assumption on what may happen when. *)
Inductive reachable (allowed : Sys -> Event -> Prop) : Sys -> Prop :=
| reach_start : reachable allowed started
| reach_next s e s' : reachable allowed s -> allowed s e -> happens e s = Some s' -> reachable allowed s'.

Definition anything (s : Sys) (e : Event) : Prop := True.

(** The main task runs as soon as it can: time passes only while it waits, and not
    beyond what it waits for. *)
Definition ready (s : Sys) : bool :=
  match pc s with
  | AtSteady => match first (signals s), dns_ended s with None, None => false | _, _ => true end
  | AtWindow wake baseline => (wake <=? now s) || again (signals s) baseline
  | AtPoll _ wake baseline => (wake <=? now s) || again (signals s) baseline
  | AtJoin => match dns_ended s with Some _ => true | None => false end
  | AtAdminWait wake => admin_ended s || (wake <=? now s)
  | _ => true
  end.

Definition overdue (s : Sys) : bool := match due s with Some deadline => deadline <=? now s | None => false end.

Definition wakes (s : Sys) : option N :=
  match pc s with AtWindow wake _ | AtPoll _ wake _ | AtAdminWait wake => Some wake | _ => None end.

Definition punctual (s : Sys) (e : Event) : Prop :=
  match e with
  | Tick d => ready s = false /\ overdue s = false /\
      (forall wake, wakes s = Some wake -> now s + d <= wake) /\ (forall deadline, due s = Some deadline -> now s + d <= deadline)
  | _ => True
  end.

(** The same, decided. *)
Definition punctual_b (s : Sys) (e : Event) : bool :=
  match e with
  | Tick d => negb (ready s) && negb (overdue s) && match wakes s with Some wake => now s + d <=? wake | None => true end
              && match due s with Some deadline => now s + d <=? deadline | None => true end
  | _ => true
  end.

Lemma punctual_b_spec s e : punctual_b s e = true -> punctual s e.
Proof.
  destruct e as [|d| | | | | | |]; cbn; try done. intros [[[Hr Ho]%andb_true_iff Hw]%andb_true_iff Hd]%andb_true_iff.
  apply negb_true_iff in Hr, Ho. split_and!; try done.
  - intros wake E. rewrite E in Hw. by bool_prop.
  - intros dl E. rewrite E in Hd. by bool_prop.
Qed.

(** Executable runs: events each of which is allowed, and can happen. *)
Fixpoint run (check : Sys -> Event -> bool) (events : list Event) (s : Sys) : option Sys :=
  match events with
  | [] => Some s
  | e :: events => if check s e then s' ← happens e s; run check events s' else None
  end.

Lemma run_reachable allowed check events s s' :
  (forall s e, check s e = true -> allowed s e) -> reachable allowed s -> run check events s = Some s' -> reachable allowed s'.
Proof.
  intros Ha. revert s; induction events as [|e events IH]; intros s Hs; cbn; [by intros [= <-]|].
  destruct (check s e) eqn:Ec; [|done]. destruct (happens e s) as [s1|] eqn:E; [|done]. cbn. apply IH. eapply reach_next; eauto.
Qed.

End Machine.
