(* ===== verification/ShutdownTheorems.v ===== *)
(** * The shutdown, in order and on time (src/src/main.rs, src/src/shutdown.rs)

    Invariants of every reachable state, whatever the signals, the requests and the
    two servers do; then, for a main task that runs when it is ready, what an overrun
    of the deadline means. *)

From S2P Require Import Prelude Cas Lifecycle Shutdown.
Local Open Scope N_scope.

(** [enter], with nobody else about: the phase never goes back. *)
Lemma enter_alone l p : (enter l p).1 = mkLifecycle (N.max (phase_word l) (bits p)) (deadline l).
Proof.
  unfold enter. rewrite call_alone_spec by done. unfold enter_rule.
  destruct (bits p <=? phase_word l) eqn:E; bool_prop; cbn [fst]; f_equal; lia.
Qed.

Section Order.
Context (configured : N) (has_admin : bool).

Definition phase_at (p : Pc) : Phase :=
  match p with
  | AtReady => Starting
  | AtSteady | AtChosen _ | AtRun | AtDraining => Serving
  | AtSleep | AtWindow _ _ | AtStopping => Draining
  | AtQuiesce | AtCheck _ | AtPoll _ _ _ | AtCancel _ | AtJoin | AtClosing => Stopping
  | _ => Closing
  end.

Definition before_drain (p : Pc) : bool := match p with AtReady | AtSteady | AtChosen _ | AtRun => true | _ => false end.

(** What is known at each place of the sequence.  The drain began at [t], and it is
    [over] when its window has passed or another signal was sent. *)
Definition over (s : Sys) (t at_ : N) : Prop := t + window s <= at_ \/ 2 <= count (signals s).

Definition idle (s : Sys) : Prop :=
  due s = None /\ watchdog s = None /\ drain_start s = None /\ dns s = None /\ (admin s = None \/ exited s = Some FAILURE).

Definition armed (s : Sys) : Prop :=
  1 <= count (signals s) /\ exists c deadline, cause (signals s) = Some c /\
    window s = drain_window c configured /\ due s = Some deadline /\ watchdog s = Some (deadline + WATCHDOG_GRACE).

Definition untouched (s : Sys) : Prop := dns s = None /\ admin s = None.

Definition stopped (s : Sys) (t : N) : Prop := exists t2, dns s = Some t2 /\ t <= t2 <= now s /\ over s t t2.

Definition drained (s : Sys) (t : N) : Prop :=
  match pc s with
  | AtDraining | AtSleep => untouched s
  | AtWindow wake b => untouched s /\ t + window s <= wake /\ 1 <= b
  | AtStopping | AtQuiesce => untouched s /\ over s t (now s)
  | AtCheck cap => untouched s /\ over s t (now s) /\ over s (t + QUIESCE_CAP) cap
  | AtPoll cap _ b => untouched s /\ over s t (now s) /\ over s (t + QUIESCE_CAP) cap /\ 1 <= b
  | AtCancel n => untouched s /\ over s t (now s) /\ (n = 0 \/ over s (t + QUIESCE_CAP) (now s))
  | AtJoin => admin s = None /\ stopped s t
  | AtClosing | AtAdmin => admin s = None /\ stopped s t /\ dns_ended s <> None
  | _ => admin s <> None /\ stopped s t /\ dns_ended s <> None
  end.

Definition stage (s : Sys) : Prop :=
  match pc s with
  | AtReady | AtSteady => idle s
  | AtChosen c => idle s /\ cause (signals s) = Some c /\ 1 <= count (signals s)
  | AtRun => armed s /\ drain_start s = None /\ untouched s
  | _ => armed s /\ exists t, drain_start s = Some t /\ t <= now s /\ drained s t
  end.

Definition final (s : Sys) (code : N) : Prop :=
  code = SUCCESS /\ pc s = AtDone \/
  code = FAILURE /\ pc s = AtSteady /\ dns_ended s <> None \/
  code = OVERRUN_EXIT_CODE /\ exists deadline, due s = Some deadline /\ deadline <= now s.

Record Inv (s : Sys) : Prop := {
  inv_phase : phase_word (life s) = bits (phase_at (pc s));
  inv_bound : count (signals s) <= u32_MAX;
  inv_cause : 0 < marked s \/ 0 < count (signals s) -> cause (signals s) <> None;
  inv_stage : stage s;
  inv_exit code : exited s = Some code -> final s code;
}.

Lemma inv_started : Inv started.
Proof. constructor; cbn; try done; [by intros []; lia|]. split_and!; try done. by left. Qed.

(** What the world may change, and in which direction. *)
Record later (s s' : Sys) : Prop := {
  lt_now : now s <= now s';
  lt_count : count (signals s) <= count (signals s') <= u32_MAX;
  lt_cause c : cause (signals s) = Some c -> cause (signals s') = Some c;
  lt_known : 0 < marked s' \/ 0 < count (signals s') -> cause (signals s') <> None;
  lt_dns t : dns_ended s = Some t -> dns_ended s' = Some t;
  lt_same : life s' = life s /\ drain_start s' = drain_start s /\ dns s' = dns s /\ admin s' = admin s /\
    window s' = window s /\ due s' = due s /\ watchdog s' = watchdog s /\ pc s' = pc s;
}.

Lemma world_later s now' sg m fl de ae :
  now s <= now' -> count (signals s) <= count sg <= u32_MAX -> (forall c, cause (signals s) = Some c -> cause sg = Some c) ->
  (0 < m \/ 0 < count sg -> cause sg <> None) -> (forall t, dns_ended s = Some t -> de = Some t) ->
  later s (world now' sg m fl de ae s).
Proof. by constructor. Qed.

Lemma cancelled_at_keeps at_ token t : token = Some t -> cancelled_at at_ token = Some t.
Proof. by intros ->. Qed.

Lemma happens_later s e s' :
  (forall coin, e <> Turn coin) -> happens configured has_admin e s = Some s' -> Inv s ->
  later s s' /\ exited s' = None \/ e = Watchdog.
Proof.
  intros He Hs [_ H2 H3 _ _]. unfold happens in Hs. destruct (exited s) eqn:Ex; [done|].
  destruct e as [coin|d|c| | | | | |]; [by destruct (He coin)|..|by right]; left.
  - injection Hs as <-. split; [apply world_later; [lia|lia|done|done|done]|done].
  - injection Hs as <-. split; [apply world_later; cbn|done]; [done|lia|by intros ? ->| |done]. by destruct (cause (signals s)).
  - destruct (marked s =? 0) eqn:E; [done|]. injection Hs as <-. bool_prop.
    split; [apply world_later; cbn|done]; [done|lia|done|intros _; apply H3; lia|done].
  - destruct (dns_ended s) eqn:E; [done|]. injection Hs as <-. split; [apply world_later; rewrite ?E; [done|lia|done|done|done]|done].
  - destruct (in_flight s =? 0); [done|]. injection Hs as <-. split; [apply world_later; [done|lia|done|done|done]|done].
  - injection Hs as <-. split; [apply world_later; [done|lia|done|done|apply cancelled_at_keeps]|done].
  - injection Hs as <-. split; [apply world_later; [done|lia|done|done|done]|done].
Qed.

Lemma over_later s s' t at_ at_' : later s s' -> at_ <= at_' -> over s t at_ -> over s' t at_'.
Proof. intros [Hn Hc _ _ _ (_ & _ & _ & _ & Hw & _)] Hle. unfold over. rewrite Hw. intros [|]; [left|right]; lia. Qed.

Lemma drained_later s s' t : later s s' -> drained s t -> drained s' t.
Proof.
  intros Hl. pose proof (fun t a b => over_later s s' t a b Hl) as Ho.
  destruct Hl as [Hn Hc _ _ Hd (_ & _ & E3 & E4 & E5 & _ & _ & E8)].
  assert (Hde : dns_ended s <> None -> dns_ended s' <> None).
  { destruct (dns_ended s) as [t0|]; [|done]. by rewrite (Hd t0 eq_refl). }
  assert (Hst : stopped s t -> stopped s' t).
  { intros (t2 & ? & ? & ?). exists t2. rewrite E3. split_and!; [done|lia|lia|]. by apply (Ho t t2). }
  unfold drained, untouched. rewrite E3, E4, E5, E8.
  destruct (pc s); try tauto; intros; destruct_and?; split_and!; try done; eauto; try (by eapply Ho; eauto; lia).
  destruct_or?; [by left|right]. by eapply Ho; eauto.
Qed.

Lemma inv_later s s' : later s s' -> exited s = None -> exited s' = None -> Inv s -> Inv s'.
Proof.
  intros Hl Hex0 Hex [H1 H2 H3 H4 H5]. pose proof (fun t => drained_later s s' t Hl) as Hdr.
  pose proof Hl as [Hn Hc Hca Hk Hd (E1 & E2 & E3 & E4 & E5 & E6 & E7 & E8)].
  assert (Harm : armed s -> armed s').
  { intros (? & c & dl & ? & ?). split; [lia|]. exists c, dl. rewrite E5, E6, E7. auto. }
  constructor; rewrite ?E1, ?E8; try done; try lia; [|congruence]. revert H4. unfold stage, idle, untouched.
  rewrite E2, E3, E4, E6, E7, E8, Hex0, Hex. destruct (pc s); try tauto; try (intros [Ha (t & ? & ? & ?)]; split; [by apply Harm|]; exists t; split_and!; [done|lia|by apply Hdr]).
  intros (? & ? & ?). split_and!; try done; try tauto; [by apply Hca|lia].
Qed.

Lemma inv_overrun s : Inv s -> overdue s = true -> Inv (exit_with OVERRUN_EXIT_CODE s).
Proof.
  intros [H1 H2 H3 H4 H5] Hov. unfold overdue in Hov. destruct (due s) as [dl|] eqn:Ed; [|done]. bool_prop.
  constructor; cbn; try done.
  - revert H4. unfold stage, idle. cbn. destruct (pc s); rewrite ?Ed; try done; try (by intros [? _]); by intros [[? _] _].
  - intros code [= <-]. right. right. split; [done|]. by exists dl.
Qed.

Lemma inv_pending s : Inv s -> Inv (pending s).
Proof.
  intros H. pose proof (inv_overrun s H) as Ho. unfold pending. unfold overdue in Ho.
  destruct (due s) as [dl|]; [|done]. destruct (dl <=? now s); [by apply Ho|done].
Qed.

(** The main task moves on: what it leaves alone, the phase that goes with the place,
    and what is known there. *)
Lemma inv_move s s' :
  Inv s -> signals s' = signals s -> marked s' = marked s -> exited s' = None ->
  phase_word (life s') = bits (phase_at (pc s')) -> stage s' -> Inv s'.
Proof. intros [H1 H2 H3 H4 H5] E1 E2 Hex Hp Hs. constructor; rewrite ?E1, ?E2; try done. congruence. Qed.

Lemma phase_moves s p q : phase_word (life s) = bits p -> (bits p <= bits q) -> phase_word (life (entering q s)) = bits q.
Proof. intros H Hle. cbn. rewrite enter_alone. cbn. lia. Qed.

(** Up to the drain. *)
Lemma inv_turn_early coin s : exited s = None -> before_drain (pc s) = true -> Inv s -> Inv (turn configured has_admin coin s).
Proof.
  intros Hex Hb Hinv. pose proof Hinv as [H1 H2 H3 H4 H5]. unfold stage in H4.
  unfold turn. destruct (pc s) as [| |c| | | |wake b| | |cap|cap wake b|k| | | | |wake|] eqn:Hpc; try done.
  - apply (inv_move s); try done. by apply (phase_moves s Starting).
  - assert (Hfail : dns_ended s <> None -> Inv (exit_with FAILURE (cancel_admin s))).
    { intros Hde. constructor; cbn; rewrite ?Hpc; try done.
      - destruct H4 as (? & ? & ? & ? & _). unfold stage, idle; cbn; rewrite Hpc. split_and!; try done. by right.
      - intros code [= <-]. right. left. done. }
    destruct (first (signals s)) as [c|] eqn:Hf; cycle 1.
    { destruct (dns_ended s) eqn:Hde; [by apply Hfail|done]. }
    assert (Hgo : Inv (goto (AtChosen c) s)).
    { apply (inv_move s); try done. unfold first in Hf. destruct (count (signals s) =? 0) eqn:E; [done|]. bool_prop.
      unfold stage; cbn. split; [done|]. specialize (H3 ltac:(lia)). destruct (cause (signals s)); [|done]. split; [congruence|lia]. }
    destruct (dns_ended s) eqn:Hde; [|exact Hgo]. destruct coin; [exact Hgo|by apply Hfail].
  - destruct H4 as ((? & ? & ? & ? & Had) & Hc & Hn). apply (inv_move s); try done. unfold stage, armed, untouched; cbn.
    split_and!; try done; [|by destruct Had; congruence]. by exists c, (now s + drain_window c configured + STOP_BUDGET).
  - destruct H4 as (Ha & Hd & Hu). apply (inv_move s); try done. unfold stage; cbn. split; [done|].
    exists (now s). rewrite Hd. done.
Qed.

(** From the drain on: every move keeps the start of the drain. *)
Lemma inv_move_drained s s' t :
  Inv s -> armed s -> before_drain (pc s') = false -> signals s' = signals s -> marked s' = marked s -> exited s' = None ->
  due s' = due s -> watchdog s' = watchdog s -> window s' = window s -> drain_start s' = Some t -> t <= now s' ->
  phase_word (life s') = bits (phase_at (pc s')) -> drained s' t -> Inv s'.
Proof.
  intros Hinv Ha Hb E1 E2 Hex E3 E4 E5 Hd Ht Hp Hdr. apply (inv_move s); try done. unfold stage.
  assert (Ha' : armed s') by (unfold armed; by rewrite E1, E3, E4, E5).
  destruct (pc s'); try done; (split; [done|]; by exists t).
Qed.

Lemma inv_turn_late coin s : exited s = None -> before_drain (pc s) = false -> Inv s -> Inv (turn configured has_admin coin s).
Proof.
  intros Hex Hb Hinv. pose proof (inv_pending s Hinv) as Hpend. pose proof Hinv as [H1 H2 H3 H4 H5]. unfold stage in H4.
  assert (exists t, armed s /\ drain_start s = Some t /\ t <= now s /\ drained s t) as (t & Ha & Hd & Ht & Hdr).
  { destruct (pc s); try done; destruct H4 as [? (t & ? & ? & ?)]; by exists t. }
  clear H4. pose proof Ha as [Hcount _]. pose proof (inv_move_drained s) as Hmove.
  unfold drained in Hdr. unfold turn.
  destruct (pc s) as [| |c| | | |wake b| | |cap|cap wake b|k| | | | |wake|] eqn:Hpc; try done.
  - apply (Hmove _ t); try done. by apply (phase_moves s Serving).
  - apply (Hmove _ t); try done. unfold drained; cbn. split_and!; try apply Hdr; [lia|done].
  - destruct Hdr as (Hu & Hw & Hb1). destruct ((wake <=? now s) || again (signals s) b) eqn:E; [|exact Hpend].
    apply (Hmove _ t); try done. split; [done|]. unfold over, again in *. cbn. apply orb_true_iff in E as [E|E]; bool_prop; [left|right]; lia.
  - apply (Hmove _ t); try done. by apply (phase_moves s Draining).
  - destruct Hdr as (Hu & Ho). apply (Hmove _ t); try done. split_and!; [done|done|]. unfold over in *; cbn. destruct Ho; [left|right]; lia.
  - destruct Hdr as (Hu & Ho & Hq). destruct (in_flight s =? 0) eqn:Ei; [|destruct (cap <=? now s) eqn:Ec]; bool_prop.
    + apply (Hmove _ t); try done. split_and!; [done|done|by left].
    + apply (Hmove _ t); try done. split_and!; [done|done|right]. unfold over in *; cbn. destruct Hq; [left|right]; lia.
    + apply (Hmove _ t); try done.
  - destruct Hdr as (Hu & Ho & Hq & Hb1). destruct (again (signals s) b && _) eqn:E; [|destruct (wake <=? now s); [|exact Hpend]].
    + apply (Hmove _ t); try done. split_and!; [done|done|right]. apply andb_true_iff in E as [E _]. unfold again in E. bool_prop. right. cbn. lia.
    + apply (Hmove _ t); try done.
  - destruct Hdr as ([Hdn Had] & Ho & _). apply (Hmove _ t); try done. split; [done|]. exists (now s). cbn. rewrite Hdn. split_and!; try done; lia.
  - destruct Hdr as (Had & Hst). destruct (dns_ended s) eqn:Hde; [|exact Hpend]. apply (Hmove _ t); try done. split_and!; try done. cbn. congruence.
  - apply (Hmove _ t); try done. by apply (phase_moves s Stopping).
  - destruct Hdr as (Had & Hst & Hde). destruct has_admin; (apply (Hmove _ t); try done; split_and!; try done; cbn; by rewrite Had).
  - apply (Hmove _ t); try done.
  - destruct (admin_ended s || _); [|exact Hpend]. apply (Hmove _ t); try done.
  - constructor; cbn; rewrite ?Hpc; try done.
    + unfold stage; cbn; rewrite Hpc. split; [done|]. exists t. split_and!; try done. unfold drained; cbn. by rewrite Hpc.
    + intros code [= <-]. left. done.
Qed.

(** The facts of a stage, taken apart. *)
Ltac facts := unfold stage, idle, untouched, drained, stopped, armed in *; cbn in *;
  repeat match goal with H : ex _ |- _ => destruct H | H : _ /\ _ |- _ => destruct H end.

Lemma inv_watchdog s w : Inv s -> watchdog s = Some w -> exists dl, due s = Some dl /\ w = dl + WATCHDOG_GRACE.
Proof.
  intros [_ _ _ H4 _] Hw. destruct (pc s) eqn:Hp; facts; rewrite Hp in *; facts; try congruence; eexists; (split; [eassumption|congruence]).
Qed.

Lemma inv_drain s t : Inv s -> drain_start s = Some t -> armed s /\ bits Serving <= bits (phase_at (pc s)).
Proof. intros [_ _ _ H4 _] Hd. unfold stage in H4. destruct (pc s) eqn:Hp; cbn; try (split; [apply H4|done]); exfalso; facts; congruence. Qed.

Lemma inv_dns s t2 : Inv s -> dns s = Some t2 ->
  armed s /\ bits Stopping <= bits (phase_at (pc s)) /\ exists t, drain_start s = Some t /\ over s t t2.
Proof.
  intros [_ _ _ H4 _] Hd. unfold stage in H4.
  destruct (pc s) eqn:Hp; cbn; try (split; [apply H4|split; [done|]]); destruct H4; unfold drained in *; rewrite ?Hp in *; facts; try congruence;
    (eexists; split; [eassumption|congruence]).
Qed.

Lemma inv_admin s t3 : Inv s -> admin s = Some t3 ->
  exited s = Some FAILURE \/ dns s <> None /\ dns_ended s <> None /\ phase_at (pc s) = Closing.
Proof.
  intros [_ _ _ H4 _] Ha. unfold stage in H4.
  destruct (pc s) eqn:Hp; unfold idle, untouched in H4; rewrite ?Ha in H4; destruct H4; unfold drained in *; rewrite ?Hp in *; facts;
    destruct_or?; try congruence; try (by left); right; split_and!; congruence.
Qed.

Lemma inv_happens s e s' : happens configured has_admin e s = Some s' -> Inv s -> Inv s'.
Proof.
  intros Hs Hinv. assert (Hex : exited s = None) by (unfold happens in Hs; by destruct (exited s)).
  destruct (match e with Turn _ => true | _ => false end) eqn:He.
  - destruct e as [coin| | | | | | | |]; try done. unfold happens in Hs. rewrite Hex in Hs. injection Hs as <-.
    destruct (before_drain (pc s)) eqn:Hb; [by apply inv_turn_early|by apply inv_turn_late].
  - destruct (happens_later s e s') as [[Hl Hex']| ->]; [by intros coin ->|done|done|by eapply inv_later|].
    unfold happens in Hs. rewrite Hex in Hs. destruct (watchdog s) as [w|] eqn:Hw; [|done].
    destruct (w <=? now s) eqn:E; [|done]. injection Hs as <-. bool_prop. apply inv_overrun; [done|].
    unfold overdue.
    destruct (inv_watchdog s w Hinv Hw) as (dl & -> & ->). apply N.leb_le. lia.
Qed.

Lemma reachable_inv allowed s : reachable configured has_admin allowed s -> Inv s.
Proof. induction 1 as [|s e s' _ IH _ Hs]; [apply inv_started|by eapply inv_happens]. Qed.

(** C23: whatever happens, and however it interleaves: no phase after Serving is published
    before the drain token is cancelled; the DNS token is cancelled only after it, and
    once Stopping is published; and the admin token only after that, once the DNS
    listeners have ended and Closing is published - or as the process exits with a
    failure, which it does only where the DNS listeners ended by themselves, with nothing
    drained and no other token cancelled.  It exits with success only after all of it. *)
Theorem shutdown_is_ordered s :
  reachable configured has_admin anything s ->
  let ph := bits (phase (life s)) in
  (drain_start s = None -> ph <= bits Serving) /\
  (dns s <> None -> drain_start s <> None /\ bits Stopping <= ph) /\
  (admin s <> None -> exited s = Some FAILURE \/ dns s <> None /\ dns_ended s <> None /\ phase (life s) = Closing) /\
  (exited s = Some FAILURE -> dns_ended s <> None /\ drain_start s = None /\ dns s = None) /\
  (exited s = Some SUCCESS -> admin s <> None /\ dns_ended s <> None).
Proof.
  intros Hr. pose proof (reachable_inv _ _ Hr) as Hinv. pose proof Hinv as [H1 _ _ H4 H5]. unfold phase. rewrite H1, from_bits_bits.
  split_and!.
  - intros Hn. unfold stage in H4. destruct (pc s) eqn:Hp; cbn; try done; facts; congruence.
  - intros Hn. destruct (dns s) as [t2|] eqn:E; [|done]. destruct (inv_dns s t2) as (_ & Hle & t & -> & _); [done|done|done].
  - intros Hn. destruct (admin s) as [t3|] eqn:E; [|done]. by apply (inv_admin s t3).
  - intros Hx. destruct (H5 _ Hx) as [[? _]|[(_ & Hp & Hd)|[? _]]]; [done| |done]. unfold stage in H4. rewrite Hp in H4.
    destruct H4 as (_ & _ & ? & ? & _). done.
  - intros Hx. destruct (H5 _ Hx) as [[_ Hp]|[[? _]|[? _]]]; [|done|done]. unfold stage, drained in H4. rewrite Hp in H4. facts. done.
Qed.

(** C24: the DNS listeners are kept up for the whole window that the first signal asks
    for - the configured one for SIGTERM, none otherwise - unless another signal is
    sent; and requests in flight are abandoned only after a further second, or on
    another signal.  The first cause to be recorded is the one that counts. *)
Theorem drain_is_served s :
  reachable configured has_admin anything s ->
  (forall t2, dns s = Some t2 -> exists t c, drain_start s = Some t /\ cause (signals s) = Some c /\
     (t + drain_window c configured <= t2 \/ 2 <= count (signals s))) /\
  (forall n, pc s = AtCancel n -> n <> 0 -> exists t c, drain_start s = Some t /\ cause (signals s) = Some c /\
     (t + drain_window c configured + QUIESCE_CAP <= now s \/ 2 <= count (signals s))) /\
  (forall c e s', cause (signals s) = Some c -> happens configured has_admin e s = Some s' -> cause (signals s') = Some c).
Proof.
  intros Hr. pose proof (reachable_inv _ _ Hr) as Hinv. split_and!.
  - intros t2 Hd. destruct (inv_dns s t2 Hinv Hd) as ((_ & c & dl & Hc & Hw & _) & _ & t & Ht & Ho).
    exists t, c. rewrite <- Hw. done.
  - intros n Hp Hn. pose proof (inv_stage _ Hinv) as H4. unfold stage, drained in H4. rewrite Hp in H4.
    destruct H4 as ((_ & c & dl & Hc & Hw & _) & t & Hds & _ & _ & _ & [?|Ho]); [done|].
    exists t, c. rewrite <- Hw. split_and!; [done|done|]. destruct Ho; [left; lia|by right].
  - intros c e s' Hc Hs. assert (Hex : exited s = None) by (unfold happens in Hs; by destruct (exited s)).
    unfold happens in Hs. rewrite Hex in Hs. destruct e; repeat case_match; simplify_eq; cbn; try done.
    + unfold turn, pending, arm, exit_with, goto. repeat case_match; done.
    + by rewrite Hc.
Qed.
End Order.

(** ** The listening task *)

(** What a run of signals asks for: a termination or an interrupt that is heard. *)
Definition asked (st : Streams) (sent : list Signal) : list Cause := omap (fun s => c ← heard st s; c) sent.

Lemma listen_deliver st sent signals : listen st signals sent = fold_left deliver (asked st sent) signals.
Proof.
  revert signals. induction sent as [|s sent IH]; intros signals; [done|]. cbn [listen fold_left asked omap list_omap].
  unfold listen in IH. rewrite IH. unfold listen_one. by destruct (heard st s) as [[c|]|].
Qed.

(** The shutdown begins with the first signal that asks for it, and for its cause;
    every later one counts, and a hangup never does. *)
Theorem listen_reports_the_first st sent :
  first (listen st watch sent) = head (asked st sent) /\
  count (listen st watch sent) = N.min (N.of_nat (length (asked st sent))) u32_MAX /\
  (Forall (fun s => s = SIGHUP) sent -> listen st watch sent = watch).
Proof.
  rewrite listen_deliver.
  assert (Hcount : forall l s, count s <= u32_MAX ->
    count (fold_left deliver l s) = N.min (count s + N.of_nat (length l)) u32_MAX).
  { induction l as [|c l IH]; intros s Hs; cbn [fold_left length]; [lia|].
    assert (Hd : count (deliver s c) = N.min (count s + 1) u32_MAX) by done. rewrite IH, Hd by lia. lia. }
  assert (Hcause : forall l s c, cause s = Some c -> cause (fold_left deliver l s) = Some c).
  { induction l as [|c' l IH]; intros s c Hs; [done|]. cbn [fold_left]. apply IH. cbn. by rewrite Hs. }
  split_and!.
  - unfold first. rewrite Hcount by done. destruct (asked st sent) as [|c l]; [done|].
    cbn [fold_left]. rewrite (Hcause l _ c) by done. destruct (_ =? 0) eqn:E; [|done]. bool_prop.
    change (count watch) with 0 in E. cbn [length] in E. change u32_MAX with 4294967295 in E. lia.
  - rewrite Hcount by done. done.
  - intros Hh. assert (Ha : asked st sent = []); [|by rewrite Ha].
    unfold asked. induction Hh as [|s l -> _ IH]; [done|]. cbn. destruct (sighup st); exact IH.
Qed.
