(* ===== verification/ShutdownTiming.v ===== *)
(** * The shutdown, on time (src/src/main.rs)

    The hard deadline ends the sequence whatever it is waiting for; and for a main
    task that runs as soon as it is ready, only DNS listeners that will not stop can
    make the process overrun it - not a slow request, and not an admin client. *)

From S2P Require Import Prelude Cas Lifecycle Shutdown ShutdownTheorems.
Local Open Scope N_scope.

Section Timing.
Context (configured : N) (has_admin : bool).

(** ** Past the deadline *)

(** How many turns are left once the deadline has passed. *)
Definition turns_left (s : Sys) : nat :=
  match pc s with
  | AtRun => 16 | AtDraining => 15 | AtSleep => 14 | AtWindow _ _ => 13 | AtStopping => 12 | AtQuiesce => 11
  | AtPoll _ wake _ => if wake <=? now s then 10 else 8
  | AtCheck _ => 9 | AtCancel _ => 7 | AtJoin => 6 | AtClosing => 5 | AtAdmin => 4 | AtLinger => 3 | AtAdminWait _ => 2
  | AtDone => 1
  | _ => 0
  end.

Lemma pending_overdue s : overdue s = true -> pending s = exit_with OVERRUN_EXIT_CODE s.
Proof. unfold overdue, pending. destruct (due s); [|done]. by intros ->. Qed.

Definition sequencing (p : Pc) : bool := match p with AtReady | AtSteady | AtChosen _ => false | _ => true end.

Lemma turn_overdue coin s :
  overdue s = true -> sequencing (pc s) = true -> exited s = None ->
  let s' := turn configured has_admin coin s in
  exited s' = Some SUCCESS \/ exited s' = Some OVERRUN_EXIT_CODE \/
  exited s' = None /\ overdue s' = true /\ sequencing (pc s') = true /\ (turns_left s' < turns_left s)%nat.
Proof.
  intros Ho Hb Hex. pose proof (pending_overdue s Ho) as Hp. unfold turn, turns_left.
  destruct (pc s) as [| |c| | | |wake b| | |cap|cap wake b|k| | | | |wake|] eqn:Hpc; try done;
    try (right; right; split_and!; [done|exact Ho|done|cbn; lia]).
  - destruct (_ || _); [|rewrite Hp; by right; left]. right; right; split_and!; [done|exact Ho|done|cbn; lia].
  - destruct (in_flight s =? 0); [|destruct (cap <=? now s) eqn:Ec]; right; right; (split_and!; [done|exact Ho|done|cbn; try lia]).
    bool_prop. destruct (_ <=? now s) eqn:Ew; [|lia]. bool_prop. unfold QUIESCE_POLL, MILLISECOND in *. lia.
  - destruct (again (signals s) b && _); [|destruct (wake <=? now s) eqn:Ew].
    + right; right; split_and!; [done|exact Ho|done|]. cbn. destruct (wake <=? now s); lia.
    + right; right; split_and!; [done|exact Ho|done|cbn; lia].
    + rewrite Hp. by right; left.
  - destruct (dns_ended s); [|rewrite Hp; by right; left]. right; right; split_and!; [done|exact Ho|done|cbn; lia].
  - right; right; split_and!; [done|exact Ho|by destruct has_admin|]. cbn. destruct has_admin; cbn; lia.
  - destruct (admin_ended s || _); [|rewrite Hp; by right; left]. right; right; split_and!; [done|exact Ho|done|cbn; lia].
  - by left.
Qed.

(** The main task alone, with the choices [select!] makes. *)
Fixpoint turns (coins : list bool) (s : Sys) : Sys :=
  match coins with
  | [] => s
  | coin :: coins => match exited s with Some _ => s | None => turns coins (turn configured has_admin coin s) end
  end.

Lemma turns_exited coins s : exited s <> None -> turns coins s = s.
Proof. destruct coins; cbn; [done|]. by destruct (exited s). Qed.

Lemma turns_overdue coins s :
  overdue s = true -> sequencing (pc s) = true -> exited s = None -> (turns_left s <= length coins)%nat ->
  exited (turns coins s) = Some SUCCESS \/ exited (turns coins s) = Some OVERRUN_EXIT_CODE.
Proof.
  revert s; induction coins as [|coin coins IH]; intros s Ho Hs Hex Hl; cbn [length] in Hl.
  { unfold turns_left in Hl. destruct (pc s); try done; try lia. destruct (_ <=? _); lia. }
  cbn [turns]. rewrite Hex. destruct (turn_overdue coin s Ho Hs Hex) as [E|[E|(E & Ho' & Hs' & Hlt)]].
  - left. by rewrite turns_exited; rewrite E.
  - right. by rewrite turns_exited; rewrite E.
  - apply IH; try done. lia.
Qed.

(** C25: the hard deadline is armed at the signal, for the window and five seconds; once
    it has passed, sixteen turns of the main task end the process, whatever it was
    waiting for; and two seconds later the watchdog can, with no turn at all. *)
Theorem deadline_is_enforced s coins :
  reachable configured has_admin anything s -> exited s = None -> drain_start s <> None ->
  exists c deadline, cause (signals s) = Some c /\ due s = Some deadline /\ window s = drain_window c configured /\
    (deadline <= now s -> (16 <= length coins)%nat ->
       exited (turns coins s) = Some SUCCESS \/ exited (turns coins s) = Some OVERRUN_EXIT_CODE) /\
    (deadline + WATCHDOG_GRACE <= now s -> exists s', happens configured has_admin Watchdog s = Some s' /\ exited s' = Some OVERRUN_EXIT_CODE).
Proof.
  intros Hr Hex Hd. pose proof (reachable_inv _ _ _ _ Hr) as Hinv.
  destruct (drain_start s) as [t|] eqn:Et; [|done]. destruct (inv_drain _ s t Hinv Et) as [(_ & c & dl & Hc & Hw & Hdue & Hwd) _].
  exists c, dl. split_and!; try done.
  - intros Hle Hlen. apply turns_overdue; try done.
    + unfold overdue. rewrite Hdue. by apply N.leb_le.
    + pose proof (inv_stage _ _ Hinv) as H4. unfold stage, idle in H4. destruct (pc s); try done; destruct_and?; congruence.
    + etrans; [|exact Hlen]. unfold turns_left. destruct (pc s); try lia. destruct (_ <=? _); lia.
  - intros Hle. exists (exit_with OVERRUN_EXIT_CODE s). split; [|done]. unfold happens. rewrite Hex, Hwd.
    apply N.leb_le in Hle. by rewrite Hle.
Qed.

(** ** On time *)

(** The listeners were told to stop at [t2], no later than a second after the window,
    and the main task has moved on no later than they ended. *)
Definition told (s : Sys) (t0 t2 : N) : Prop := dns s = Some t2 /\ t2 <= t0 + window s + QUIESCE_CAP.

(** Where the clock can be, for a sequence armed at [t0]. *)
Definition clock (s : Sys) (t0 : N) : Prop :=
  match pc s with
  | AtRun | AtDraining | AtSleep => now s = t0
  | AtWindow wake _ => wake = t0 + window s /\ now s <= wake
  | AtStopping | AtQuiesce => now s <= t0 + window s
  | AtCheck cap => cap <= t0 + window s + QUIESCE_CAP /\ now s <= cap
  | AtPoll cap wake _ => cap <= t0 + window s + QUIESCE_CAP /\ wake <= cap /\ now s <= wake
  | AtCancel _ => now s <= t0 + window s + QUIESCE_CAP
  | AtJoin => exists t2, told s t0 t2 /\ forall t3, dns_ended s = Some t3 -> now s <= N.max t2 t3
  | AtClosing | AtAdmin | AtLinger =>
      exists t2 t3, told s t0 t2 /\ dns_ended s = Some t3 /\ now s <= N.max t2 t3
  | AtAdminWait wake =>
      exists t2 t3, told s t0 t2 /\ dns_ended s = Some t3 /\ wake <= N.max t2 t3 + ADMIN_CLOSE_BUDGET /\ now s <= wake
  | _ => True
  end.

Definition on_time (s : Sys) : Prop :=
  sequencing (pc s) = true -> exists t0, due s = Some (t0 + window s + STOP_BUDGET) /\ now s <= t0 + window s + STOP_BUDGET /\ clock s t0.

(** The listeners ended more than three seconds after they were told to, if at all. *)
Definition dns_hung (s : Sys) : Prop :=
  exists t2, dns s = Some t2 /\ t2 + 3 * SECOND < now s /\ forall t3, dns_ended s = Some t3 -> t2 + 3 * SECOND < t3.

Record Timely (s : Sys) : Prop := {
  tm_running : exited s = None -> on_time s;
  tm_overrun : exited s = Some OVERRUN_EXIT_CODE -> dns_hung s;
}.

Ltac seconds := unfold STOP_BUDGET, QUIESCE_CAP, QUIESCE_POLL, ADMIN_CLOSE_BUDGET, WATCHDOG_GRACE, SECOND, MILLISECOND in *; lia.

Lemma timely_pending s :
  exited s = None -> on_time s -> (overdue s = true -> dns_hung s) -> Timely (pending s).
Proof.
  intros Hex Hot Hov. unfold pending. unfold overdue in Hov. destruct (due s) as [dl|] eqn:Ed; [|by constructor; [|congruence]].
  destruct (dl <=? now s); [|by constructor; [|congruence]]. constructor; cbn; [done|]. intros _. by apply Hov.
Qed.

Lemma timely_goto p s s1 :
  exited s1 = None -> (sequencing p = true -> exists t0, due s1 = Some (t0 + window s1 + STOP_BUDGET) /\
    now s1 <= t0 + window s1 + STOP_BUDGET /\ clock (goto p s1) t0) -> s = goto p s1 -> Timely s.
Proof. intros Hex H ->. constructor; cbn; [intros _; exact H|congruence]. Qed.

(** The sequence moves on within the same deadline. *)
Lemma timely_move p s1 t0 :
  exited s1 = None -> due s1 = Some (t0 + window s1 + STOP_BUDGET) -> now s1 <= t0 + window s1 + STOP_BUDGET ->
  clock (goto p s1) t0 -> Timely (goto p s1).
Proof. intros Hex Hd Hn Hc. constructor; cbn; [|congruence]. intros _ _. by exists t0. Qed.

Lemma timely_exit code s : code <> OVERRUN_EXIT_CODE -> Timely (exit_with code s).
Proof. intros Hne. constructor; cbn; [done|]. by intros [= ->]. Qed.

Lemma timely_idle p s : exited s = None -> sequencing p = false -> Timely (goto p s).
Proof. intros Hex Hp. constructor; [|cbn; congruence]. intros _ H. cbn in H. congruence. Qed.

Lemma timely_turn coin s :
  Inv configured s -> exited s = None -> Timely s -> Timely (turn configured has_admin coin s).
Proof.
  intros Hinv Hex [Hot _]. specialize (Hot Hex). pose proof (timely_pending s Hex Hot) as Hpend.
  unfold turn. unfold on_time, clock in Hot. unfold overdue in Hpend.
  destruct (pc s) as [| |c| | | |wake b| | |cap|cap wake b|k| | | | |wake|] eqn:Hpc;
    try (destruct (Hot eq_refl) as (t0 & Hdue & Hnow & Hck); clear Hot; rewrite Hdue in Hpend; pose proof (timely_move) as Hgo).
  - by apply timely_idle.
  - assert (Hfail : Timely (exit_with FAILURE (cancel_admin s))) by (by apply timely_exit).
    destruct (first (signals s)), (dns_ended s); try done; try (by apply timely_idle); [|by constructor; [intros _ H; rewrite Hpc in H|congruence]].
    destruct coin; [by apply timely_idle|done].
  - apply (timely_move _ _ (now s)); cbn; try done; seconds.
  - by apply (Hgo _ _ t0).
  - by apply (Hgo _ _ t0).
  - apply (Hgo _ _ t0); try done. cbn. lia.
  - destruct Hck as [-> Hle]. destruct ((t0 + window s <=? now s) || again (signals s) b) eqn:E.
    + by apply (Hgo _ _ t0).
    + apply orb_false_iff in E as [E _]. apply Hpend. bool_prop. intros Hd. bool_prop. exfalso. seconds.
  - by apply (Hgo _ _ t0).
  - apply (Hgo _ _ t0); try done. cbn. seconds.
  - destruct (in_flight s =? 0); [|destruct (cap <=? now s) eqn:Ec]; apply (Hgo _ _ t0); try done; cbn; bool_prop; seconds.
  - destruct (again (signals s) b && _); [|destruct (wake <=? now s) eqn:Ew].
    + apply (Hgo _ _ t0); try done; cbn. lia.
    + apply (Hgo _ _ t0); try done; cbn. lia.
    + apply Hpend. bool_prop. intros Hd. bool_prop. exfalso. seconds.
  - apply (Hgo _ _ t0); try done. cbn. exists (now s). unfold told; cbn.
    pose proof (inv_stage _ _ Hinv) as H4. unfold stage, drained, untouched in H4. rewrite Hpc in H4.
    destruct H4 as (_ & t & _ & _ & [-> _] & _). split; [done|]. intros t3 _. lia.
  - destruct Hck as (t2 & Htold & Hck). destruct (dns_ended s) as [t3|] eqn:Hde.
    + apply (Hgo _ _ t0); try done. cbn. exists t2, t3. split_and!; [done|done|by apply Hck].
    + apply Hpend. intros Hd. bool_prop. exists t2. destruct Htold as [? ?]. split_and!; [done|seconds|congruence].
  - destruct Hck as (t2 & t3 & ? & ? & ?). apply (Hgo _ _ t0); try done. by exists t2, t3.
  - destruct Hck as (t2 & t3 & ? & ? & ?). apply (Hgo _ _ t0); try done. destruct has_admin; [by exists t2, t3|done].
  - destruct Hck as (t2 & t3 & ? & ? & ?). apply (Hgo _ _ t0); try done. exists t2, t3. split_and!; try done; cbn; seconds.
  - destruct Hck as (t2 & t3 & [? ?] & Hde & Hw & ?). destruct (admin_ended s || (wake <=? now s)) eqn:E; [by apply (Hgo _ _ t0)|].
    apply orb_false_iff in E as [_ E]. apply Hpend. intros Hd. bool_prop. exists t2. split_and!; [done|seconds|].
    rewrite Hde. intros t3' [= <-]. seconds.
  - by apply timely_exit.
Qed.

Lemma clock_tick s d t0 :
  ready s = false -> (forall wake, wakes s = Some wake -> now s + d <= wake) -> sequencing (pc s) = true ->
  clock s t0 -> clock (world (now s + d) (signals s) (marked s) (in_flight s) (dns_ended s) (admin_ended s) s) t0.
Proof.
  unfold ready, wakes, clock, told. cbn [pc world now window dns dns_ended]. destruct (pc s); try done; intros Hr Hw _.
  - intros [? _]. split; [done|]. by apply Hw.
  - intros (? & ? & _). split_and!; try done. by apply Hw.
  - destruct (dns_ended s); [done|]. intros (t2 & ? & _). by exists t2.
  - intros (t2 & t3 & Ht & ? & ? & _). exists t2, t3. split; [exact Ht|]. split_and!; [done|done|by apply Hw].
Qed.

Lemma clock_ends s t0 :
  clock s t0 -> clock (world (now s) (signals s) (marked s) (in_flight s) (cancelled_at (now s) (dns_ended s)) (admin_ended s) s) t0.
Proof.
  unfold clock, told. cbn [pc world now window dns dns_ended]. destruct (pc s); try done.
  - intros (t2 & ? & H). exists t2. split; [done|]. destruct (dns_ended s) as [t|]; cbn; [done|]. intros t3 [= <-]. lia.
  - intros (t2 & t3 & ? & -> & ?). by exists t2, t3.
  - intros (t2 & t3 & ? & -> & ?). by exists t2, t3.
  - intros (t2 & t3 & ? & -> & ?). by exists t2, t3.
  - intros (t2 & t3 & ? & -> & ?). by exists t2, t3.
Qed.

Lemma timely_happens s e s' :
  Inv configured s -> punctual s e -> happens configured has_admin e s = Some s' -> Timely s -> Timely s'.
Proof.
  intros Hinv Hp Hs Ht. assert (Hex : exited s = None) by (unfold happens in Hs; by destruct (exited s)).
  pose proof (tm_running _ Ht Hex) as Hot. unfold happens in Hs. rewrite Hex in Hs.
  assert (Hsame : forall sg m fl ae, Timely (world (now s) sg m fl (dns_ended s) ae s)).
  { intros sg m fl ae. constructor; cbn; [|congruence]. intros _ Hq. destruct (Hot Hq) as (t0 & ? & ? & ?). by exists t0. }
  destruct e as [coin|d|c| | | | | |]; cbn in Hp; repeat (case_match; try done); injection Hs as <-; try apply Hsame.
  - by apply timely_turn.
  - destruct Hp as (Hr & Ho & Hw & Hd). constructor; cbn; [|congruence]. intros _ Hq. destruct (Hot Hq) as (t0 & Hdue & ? & Hck).
    exists t0. split_and!; [done|by apply Hd|by apply clock_tick].
  - constructor; cbn; [|congruence]. intros _ Hq. destruct (Hot Hq) as (t0 & Hdue & ? & Hck). exists t0. split_and!; [done|done|by apply clock_ends].
  - destruct (inv_watchdog configured s n) as (dl & Hdl & ->); [done|done|]. exfalso. bool_prop.
    assert (Hq : sequencing (pc s) = true).
    { pose proof (inv_stage _ _ Hinv) as H4. unfold stage, idle in H4. destruct (pc s); try done; destruct_and?; congruence. }
    destruct (Hot Hq) as (t0 & Hdue & ? & _). rewrite Hdl in Hdue. injection Hdue as ->. seconds.
Qed.

(** When the main task runs as soon as it can, the process overruns its deadline
    only because the DNS listeners went on for more than three seconds after they were
    told to stop: neither requests in flight nor a client holding an admin connection
    open can make it exit 3. *)
Theorem overrun_means_dns_hung s :
  reachable configured has_admin punctual s -> exited s = Some OVERRUN_EXIT_CODE -> dns_hung s.
Proof.
  intros Hr. apply (tm_overrun s). induction Hr as [|s e s' Hr IH Hp Hs].
  - by constructor.
  - eapply timely_happens; try done. by apply (reachable_inv _ has_admin punctual).
Qed.
End Timing.
