(* ===== verification/ShutdownExamples.v ===== *)
(** * Two shutdowns, run (src/src/main.rs)

    A SIGTERM with a fifteen second window that ends well, and one whose DNS listeners
    never stop. *)

From S2P Require Import Prelude Cas Lifecycle Shutdown ShutdownTheorems ShutdownTiming.
Local Open Scope N_scope.

Definition ex_window : N := 15 * SECOND.

(** Up to the cancellation of the DNS token. *)
Definition ex_signal : list Event :=
  [Turn true; Mark Term; Bump; Turn true; Turn true; Turn true; Turn true; Turn true; Tick ex_window; Turn true; Turn true;
   Turn true; Turn true; Turn true].

Definition ex_good : list Event :=
  ex_signal ++ [DnsEnds; Turn true; Turn true; Turn true; Turn true; AdminEnds; Turn true; Turn true].

Definition ex_bad : list Event := ex_signal ++ [Tick (5 * SECOND)].

Definition sys_or (o : option Sys) : Sys := match o with Some s => s | None => started end.
Definition ran (o : option Sys) : bool := match o with Some _ => true | None => false end.

Definition ex_run (check : Sys -> Event -> bool) (events : list Event) : Sys := sys_or (run ex_window true check events started).

Lemma ex_reachable check allowed events :
  (forall s e, check s e = true -> allowed s e) -> ran (run ex_window true check events started) = true ->
  reachable ex_window true allowed (ex_run check events).
Proof.
  intros Ha Hr. unfold ex_run. destruct (run ex_window true check events started) as [s|] eqn:E; [|done].
  by apply (run_reachable _ _ allowed check events started); [|constructor|].
Qed.

Definition always (s : Sys) (e : Event) : bool := true.

Lemma shutdown_is_ordered_witness : admin (ex_run always ex_good) <> None /\ dns_ended (ex_run always ex_good) <> None.
Proof.
  assert (Hr : reachable ex_window true anything (ex_run always ex_good)) by (by apply ex_reachable).
  apply (proj2 (proj2 (proj2 (shutdown_is_ordered ex_window true _ Hr)))). reflexivity.
Defined.

Lemma drain_is_served_witness :
  exists t c, drain_start (ex_run always ex_good) = Some t /\ cause (signals (ex_run always ex_good)) = Some c /\
    (t + drain_window c ex_window <= ex_window \/ 2 <= count (signals (ex_run always ex_good))).
Proof.
  assert (Hr : reachable ex_window true anything (ex_run always ex_good)) by (by apply ex_reachable).
  apply (proj1 (drain_is_served ex_window true _ Hr)). reflexivity.
Defined.

Lemma deadline_is_enforced_witness :
  let s := ex_run always ex_bad in
  exited (turns ex_window true (repeat true 16) s) = Some SUCCESS \/
  exited (turns ex_window true (repeat true 16) s) = Some OVERRUN_EXIT_CODE.
Proof.
  intros s. assert (Hr : reachable ex_window true anything s) by (by apply ex_reachable).
  destruct (deadline_is_enforced ex_window true s (repeat true 16) Hr) as (c & dl & _ & Hdue & _ & Hturns & _); [reflexivity|discriminate|].
  injection Hdue as <-. apply Hturns; [apply N.leb_le; reflexivity|apply Nat.leb_le; reflexivity].
Defined.

Lemma overrun_means_dns_hung_witness : dns_hung (ex_run punctual_b (ex_bad ++ [Turn true])).
Proof.
  assert (Hr : reachable ex_window true punctual (ex_run punctual_b (ex_bad ++ [Turn true]))).
  { apply ex_reachable; [apply punctual_b_spec|reflexivity]. }
  apply (overrun_means_dns_hung ex_window true _ Hr). reflexivity.
Defined.
