(* ===== verification/Metrics.v ===== *)
(** * The counters (src/src/metrics.rs)

    Every counter is one 64-bit atomic word bumped by relaxed [fetch_add]s, which
    wrap.  An operation is the list of the adds it makes, in order, so that
    operations of many requests can be interleaved add by add. *)

From S2P Require Import Prelude RateLimit.

(** ** Response codes *)

Inductive ResponseCode : Type :=
| NoError | FormErr | ServFail | NXDomain | NotImp | Refused | BADVERS
| OtherCode (code : N).

#[global] Instance response_code_eq_dec : EqDecision ResponseCode.
Proof. solve_decision. Defined.

Definition TRACKED_RCODES : list (string * ResponseCode) :=
  [("noerror", NoError); ("nxdomain", NXDomain); ("refused", Refused);
   ("servfail", ServFail); ("formerr", FormErr); ("notimp", NotImp)]%string.

(** The bounds in nanoseconds.  A [Duration] is whole nanoseconds and these bounds
    are far from one another at that grain, so comparing [as_secs_f64] with the
    bound in seconds is comparing the nanoseconds. *)
Definition LATENCY_BUCKETS : list N :=
  [50000; 100000; 500000; 1000000; 5000000; 10000000; 50000000; 100000000; 500000000]%N.

Inductive Transport : Type := Udp | Tcp | Other.

#[global] Instance transport_eq_dec : EqDecision Transport.
Proof. solve_decision. Defined.

(** ** The counters *)

Record Metrics : Type := mkMetrics {
  started : N;
  zone_records : N;
  queries_total : N;
  queries_udp : N;
  queries_tcp : N;
  queries_other : N;
  responses : list N;
  rate_limited_total : N;
  send_errors_total : N;
  latency_buckets : list N;
  latency_count : N;
  latency_sum_micros : N;
  (** whether the limiter's table, which the handler shares, is published *)
  rate_limiter : bool;
}.

Definition Metrics_new (now : N) : Metrics :=
  mkMetrics now 0 0 0 0 0 (replicate (length TRACKED_RCODES + 1) 0%N) 0 0
    (replicate (length LATENCY_BUCKETS) 0%N) 0 0 false.

(** [started.elapsed()], which is zero for a clock that went back; in nanoseconds. *)
Definition uptime (m : Metrics) (now : N) : N := now - started m.

Definition with_rate_limiter (m : Metrics) (limiter : option RateLimiter) : Metrics :=
  mkMetrics (started m) (zone_records m) (queries_total m) (queries_udp m) (queries_tcp m) (queries_other m)
    (responses m) (rate_limited_total m) (send_errors_total m) (latency_buckets m) (latency_count m)
    (latency_sum_micros m) (match limiter with Some _ => true | None => false end).

Definition set_zone_records (m : Metrics) (count : N) : Metrics :=
  mkMetrics (started m) count (queries_total m) (queries_udp m) (queries_tcp m) (queries_other m)
    (responses m) (rate_limited_total m) (send_errors_total m) (latency_buckets m) (latency_count m)
    (latency_sum_micros m) (rate_limiter m).

(** Which atomic word. *)
Inductive Counter : Type :=
| QueriesTotal | QueriesUdp | QueriesTcp | QueriesOther
| Responses (i : nat)
| RateLimitedTotal | SendErrorsTotal
| LatencyBuckets (i : nat)
| LatencyCount | LatencySumMicros.

#[global] Instance counter_eq_dec : EqDecision Counter.
Proof. solve_decision. Defined.

Abbreviation Add := (Counter * N)%type.

Definition load (m : Metrics) (c : Counter) : N :=
  match c with
  | QueriesTotal => queries_total m
  | QueriesUdp => queries_udp m
  | QueriesTcp => queries_tcp m
  | QueriesOther => queries_other m
  | Responses i => default 0%N (responses m !! i)
  | RateLimitedTotal => rate_limited_total m
  | SendErrorsTotal => send_errors_total m
  | LatencyBuckets i => default 0%N (latency_buckets m !! i)
  | LatencyCount => latency_count m
  | LatencySumMicros => latency_sum_micros m
  end.

(** [AtomicU64::fetch_add]: wraps at 2^64. *)
Definition u64_add (n x : N) : N := ((x + n) mod U64_MOD)%N.

(** Apply [f c] to every word [c]. *)
Definition update (f : Counter -> N -> N) (m : Metrics) : Metrics :=
  mkMetrics (started m) (zone_records m) (f QueriesTotal (queries_total m)) (f QueriesUdp (queries_udp m))
    (f QueriesTcp (queries_tcp m)) (f QueriesOther (queries_other m))
    (imap (fun i => f (Responses i)) (responses m))
    (f RateLimitedTotal (rate_limited_total m)) (f SendErrorsTotal (send_errors_total m))
    (imap (fun i => f (LatencyBuckets i)) (latency_buckets m))
    (f LatencyCount (latency_count m)) (f LatencySumMicros (latency_sum_micros m)) (rate_limiter m).

Definition fetch_add (m : Metrics) (a : Add) : Metrics :=
  update (fun c x => if decide (c = a.1) then u64_add a.2 x else x) m.

(** ** The operations, as the adds they make *)

Definition query_adds (transport : Transport) : list Add :=
  [(QueriesTotal, 1%N);
   (match transport with Udp => QueriesUdp | Tcp => QueriesTcp | Other => QueriesOther end, 1%N)].

Definition response_index (code : ResponseCode) : nat :=
  match list_find (fun tracked => tracked.2 = code) TRACKED_RCODES with
  | Some (i, _) => i
  | None => length TRACKED_RCODES
  end.

Definition response_adds (code : ResponseCode) : list Add := [(Responses (response_index code), 1%N)].
Definition rate_limited_adds : list Add := [(RateLimitedTotal, 1%N)].
Definition send_error_adds : list Add := [(SendErrorsTotal, 1%N)].

(** [u64::try_from(elapsed.as_micros()).unwrap_or(u64::MAX)] *)
Definition saturated_micros (elapsed : N) : N := N.min (elapsed / 1000) u64_MAX.

Definition bucket_adds (elapsed : N) : list Add :=
  flat_map (fun '(i, upper) => if (elapsed <=? upper)%N then [(LatencyBuckets i, 1%N)] else [])
    (imap pair LATENCY_BUCKETS).

Definition observe_latency_adds (elapsed : N) : list Add :=
  (LatencyCount, 1%N) :: (LatencySumMicros, saturated_micros elapsed) :: bucket_adds elapsed.

Definition record (m : Metrics) (adds : list Add) : Metrics := fold_left fetch_add adds m.

Definition query (m : Metrics) (transport : Transport) : Metrics := record m (query_adds transport).
Definition response (m : Metrics) (code : ResponseCode) : Metrics := record m (response_adds code).
Definition rate_limited (m : Metrics) : Metrics := record m rate_limited_adds.
Definition send_error (m : Metrics) : Metrics := record m send_error_adds.
Definition observe_latency (m : Metrics) (elapsed : N) : Metrics := record m (observe_latency_adds elapsed).

Definition queries (m : Metrics) : N := queries_total m.

(** [saturating_sub] is the subtraction of [N]. *)
Definition in_flight (m : Metrics) : N := (queries_total m - latency_count m)%N.

(** ** Requests, interleaved

    What a request does to the counters, from its arrival to its end: it is counted
    in, perhaps refused by the limiter, timed, and - unless it was dropped - its
    outcome is counted. *)

Record RequestTrace : Type := mkRequest {
  rt_transport : Transport;
  rt_limited : bool;
  rt_elapsed : N;
  rt_outcome : option (ResponseCode * bool); (* [None]: dropped; the flag: the send failed *)
}.

Definition request_adds (r : RequestTrace) : list Add :=
  query_adds (rt_transport r)
  ++ (if rt_limited r then rate_limited_adds else [])
  ++ observe_latency_adds (rt_elapsed r)
  ++ match rt_outcome r with
     | None => []
     | Some (code, failed) => response_adds code ++ (if failed then send_error_adds else [])
     end.

(** One add of request [i], if it has one left; a schedule is the requests' turns. *)
Definition request_turn (s : Metrics * list (list Add)) (i : nat) : Metrics * list (list Add) :=
  match s.2 !! i with
  | Some (a :: rest) => (fetch_add s.1 a, <[i := rest]> s.2)
  | _ => s
  end.

Definition serve (rs : list RequestTrace) (sched : list nat) (m : Metrics) : Metrics * list (list Add) :=
  fold_left request_turn sched (m, map request_adds rs).

(** ** Facts *)

Definition tally (c : Counter) (adds : list Add) : N :=
  foldr (fun a n => ((if decide (c = a.1) then a.2 else 0) + n)%N) 0%N adds.

Definition tally_all (c : Counter) (progs : list (list Add)) : N := foldr (fun p n => (tally c p + n)%N) 0%N progs.

(** The words exist: seven response slots and nine buckets. *)
Definition shaped (m : Metrics) : Prop :=
  length (responses m) = (length TRACKED_RCODES + 1)%nat /\ length (latency_buckets m) = length LATENCY_BUCKETS.

Definition counter_ok (c : Counter) : Prop :=
  match c with
  | Responses i => (i <= length TRACKED_RCODES)%nat
  | LatencyBuckets i => (i < length LATENCY_BUCKETS)%nat
  | _ => True
  end.

Lemma fetch_add_shaped m a : shaped m -> shaped (fetch_add m a).
Proof. unfold shaped. cbn. by rewrite !length_imap. Qed.

Lemma load_update f m c : shaped m -> counter_ok c -> load (update f m) c = f c (load m c).
Proof.
  intros [H1 H2] Hc. destruct c as [| | | |i| | |i| |]; try done; cbn in *; rewrite list_lookup_imap.
  - destruct (lookup_lt_is_Some_2 (responses m) i) as [x ->]; [lia|done].
  - destruct (lookup_lt_is_Some_2 (latency_buckets m) i) as [x ->]; [lia|done].
Qed.

Lemma load_fetch_add m a c : shaped m -> counter_ok c ->
  load (fetch_add m a) c = if decide (c = a.1) then u64_add a.2 (load m c) else load m c.
Proof. apply load_update. Qed.

Lemma tally_app c l1 l2 : tally c (l1 ++ l2) = (tally c l1 + tally c l2)%N.
Proof. unfold tally. induction l1 as [|a l1 IH]; cbn; [done|]. rewrite IH. lia. Qed.

Lemma tally_all_split c progs i a rest :
  progs !! i = Some (a :: rest) ->
  tally_all c progs = ((if decide (c = a.1) then a.2 else 0) + tally_all c (<[i := rest]> progs))%N.
Proof.
  unfold tally_all. revert i; induction progs as [|p progs IH]; intros [|i] H; [done|done| |].
  - injection H as ->. simpl. fold (tally c rest). lia.
  - simpl in H. simpl. rewrite (IH i H). lia.
Qed.

(** Whatever the schedule, a word holds what has been added to it: what all the
    programs add, less what they have still to add. *)
Lemma serve_load rs sched m0 c :
  shaped m0 -> counter_ok c -> (load m0 c < U64_MOD)%N ->
  let s := serve rs sched m0 in
  shaped s.1 /\ (tally_all c s.2 <= tally_all c (map request_adds rs))%N /\
  load s.1 c = ((load m0 c + (tally_all c (map request_adds rs) - tally_all c s.2)) mod U64_MOD)%N.
Proof.
  intros Hm Hc Hlt. unfold serve. generalize (map request_adds rs) as progs. intros progs. pattern (fold_left request_turn sched (m0, progs)).
  apply (fold_left_prefix (fun _ s => shaped s.1 /\ (tally_all c s.2 <= tally_all c progs)%N /\
    load s.1 c = ((load m0 c + (tally_all c progs - tally_all c s.2)) mod U64_MOD)%N)).
  - split_and!; cbn [fst snd]; [done|lia|]. by rewrite N.sub_diag, N.add_0_r, N.mod_small.
  - intros pre i post [m ps] _. cbn [fst snd]. intros (Hs & Hle & Hl). unfold request_turn. cbn [fst snd].
    destruct (ps !! i) as [[|a rest]|] eqn:Ei; [done| |done]. cbn [fst snd].
    pose proof (tally_all_split c _ _ _ _ Ei) as Hsp. split_and!; [by apply fetch_add_shaped|lia|].
    rewrite load_fetch_add by done. destruct (decide (c = a.1)).
    + unfold u64_add. rewrite Hl, N.Div0.add_mod_idemp_l. f_equal. lia.
    + rewrite Hl. f_equal. lia.
Qed.

Lemma shaped_new now : shaped (Metrics_new now).
Proof. done. Qed.

Lemma load_new now c : load (Metrics_new now) c = 0%N.
Proof.
  destruct c as [| | | |i| | |i| |]; try done; cbn.
  - do 8 (destruct i as [|i]; [done|]). done.
  - do 10 (destruct i as [|i]; [done|]). done.
Qed.

(** From fresh counters, with room to count. *)
Lemma serve_fresh rs sched now c :
  counter_ok c -> (tally_all c (map request_adds rs) < U64_MOD)%N ->
  let s := serve rs sched (Metrics_new now) in
  (tally_all c s.2 <= tally_all c (map request_adds rs))%N /\
  load s.1 c = (tally_all c (map request_adds rs) - tally_all c s.2)%N.
Proof.
  intros Hc Hlt s. destruct (serve_load rs sched (Metrics_new now) c) as (_ & Hle & Hl); [apply shaped_new|done| |].
  { rewrite load_new. done. }
  split; [done|]. unfold s. rewrite Hl, load_new, N.add_0_l, N.mod_small; [done|]. lia.
Qed.

(** The requests that make an add that is counted by ones. *)
Lemma tally_all_count c rs (p : RequestTrace -> bool) :
  (forall r, tally c (request_adds r) = if p r then 1%N else 0%N) ->
  tally_all c (map request_adds rs) = N.of_nat (length (List.filter p rs)).
Proof.
  intros H. unfold tally_all. induction rs as [|r rs IH]; [done|]. cbn [map foldr List.filter].
  rewrite IH, H. destruct (p r); cbn [length]; lia.
Qed.

Lemma filter_le {A} (p : A -> bool) l : (length (List.filter p l) <= length l)%nat.
Proof. induction l as [|a l IH]; cbn; [done|]. destruct (p a); cbn; lia. Qed.

(** What a request adds to each word. *)
Definition transport_counter (t : Transport) : Counter :=
  match t with Udp => QueriesUdp | Tcp => QueriesTcp | Other => QueriesOther end.

Lemma tally_bucket e i upper :
  LATENCY_BUCKETS !! i = Some upper ->
  tally (LatencyBuckets i) (bucket_adds e) = if (e <=? upper)%N then 1%N else 0%N.
Proof.
  intros Hi. unfold bucket_adds. cbn [LATENCY_BUCKETS imap flat_map Init.Nat.pred compose]. rewrite !tally_app.
  assert (Hone : forall j u, tally (LatencyBuckets i) (if (e <=? u)%N then [(LatencyBuckets j, 1%N)] else []) =
    if (e <=? u)%N && bool_decide (i = j) then 1%N else 0%N).
  { intros j u. destruct (e <=? u)%N; [|done]. cbn. destruct (decide (i = j)) as [->|Hne].
    - by rewrite decide_True, bool_decide_eq_true_2.
    - rewrite decide_False, bool_decide_eq_false_2; [done|done|]. congruence. }
  unfold compose. rewrite !Hone.
  do 9 (destruct i as [|i]; [injection Hi as <-; cbn; by rewrite ?andb_false_r, ?andb_true_r; cbn;
    destruct (e <=? _)%N; cbn; rewrite ?andb_false_r|]). done.
Qed.

Lemma tally_bucket_other c e :
  (forall i, c <> LatencyBuckets i) -> tally c (bucket_adds e) = 0%N.
Proof.
  intros Hc. unfold bucket_adds. generalize (imap pair LATENCY_BUCKETS) as l.
  induction l as [|[i u] l IH]; [done|]. cbn [flat_map]. rewrite tally_app, IH, N.add_0_r.
  destruct (e <=? u)%N; [|done]. simpl. by rewrite decide_False.
Qed.

Lemma tally_observe c e : c <> LatencyCount -> c <> LatencySumMicros ->
  tally c (observe_latency_adds e) = tally c (bucket_adds e).
Proof. intros H1 H2. unfold observe_latency_adds. simpl. by rewrite !decide_False. Qed.

Lemma request_queries r : tally QueriesTotal (request_adds r) = 1%N.
Proof.
  unfold request_adds. rewrite !tally_app, tally_observe, tally_bucket_other by done.
  by destruct (rt_transport r), (rt_limited r), (rt_outcome r) as [[? []]|].
Qed.

Lemma request_transport r t :
  tally (transport_counter t) (request_adds r) = if bool_decide (rt_transport r = t) then 1%N else 0%N.
Proof.
  unfold request_adds. rewrite !tally_app, tally_observe, tally_bucket_other by (by destruct t).
  by destruct t, (rt_transport r), (rt_limited r), (rt_outcome r) as [[? []]|].
Qed.

Lemma request_latency r : tally LatencyCount (request_adds r) = 1%N.
Proof.
  unfold request_adds, observe_latency_adds. rewrite !tally_app. simpl. rewrite tally_bucket_other by done.
  by destruct (rt_transport r), (rt_limited r), (rt_outcome r) as [[? []]|].
Qed.

Lemma request_bucket r i upper : LATENCY_BUCKETS !! i = Some upper ->
  tally (LatencyBuckets i) (request_adds r) = if (rt_elapsed r <=? upper)%N then 1%N else 0%N.
Proof.
  intros Hi. unfold request_adds. rewrite !tally_app, tally_observe, (tally_bucket _ _ _ Hi) by done.
  destruct (rt_elapsed r <=? upper)%N; by destruct (rt_transport r), (rt_limited r), (rt_outcome r) as [[? []]|].
Qed.

Lemma request_response r i :
  tally (Responses i) (request_adds r) =
    if match rt_outcome r with Some (code, _) => bool_decide (response_index code = i) | None => false end
    then 1%N else 0%N.
Proof.
  unfold request_adds, response_adds. rewrite !tally_app, tally_observe, tally_bucket_other by done.
  destruct (rt_outcome r) as [[code failed]|]; [|by destruct (rt_transport r), (rt_limited r)].
  rewrite tally_app.
  assert (Hone : tally (Responses i) [(Responses (response_index code), 1%N)] =
    if bool_decide (response_index code = i) then 1%N else 0%N).
  { simpl. destruct (decide (response_index code = i)) as [<-|Hne].
    - by rewrite decide_True, bool_decide_eq_true_2.
    - rewrite decide_False by congruence. by rewrite bool_decide_eq_false_2. }
  rewrite Hone. destruct (bool_decide _); by destruct (rt_transport r), (rt_limited r), failed.
Qed.

Lemma response_index_le code : (response_index code <= length TRACKED_RCODES)%nat.
Proof. destruct code; vm_compute; lia. Qed.

(** A program in progress: what it has left counts it out whenever it counts it in. *)
Lemma suffix_tally r rem : rem `suffix_of` request_adds r ->
  (tally QueriesTotal rem <= tally LatencyCount rem <= 1)%N.
Proof.
  intros Hs. destruct (decide (rem = request_adds r)) as [->|Hne]; [rewrite request_queries, request_latency; lia|].
  assert (Hcons : exists a, request_adds r = (QueriesTotal, 1%N) :: a) by (eexists; reflexivity).
  destruct Hcons as [rest Hr]. pose proof (request_queries r) as Hq. pose proof (request_latency r) as Hl.
  rewrite Hr in Hs, Hne, Hq, Hl. destruct Hs as [[|x pre] Hs]; [done|]. injection Hs as <- ->.
  change ((QueriesTotal, 1%N) :: pre ++ rem) with ([(QueriesTotal, 1%N)] ++ pre ++ rem) in Hq, Hl.
  rewrite !tally_app in Hq, Hl. change (tally QueriesTotal [(QueriesTotal, 1%N)]) with 1%N in Hq.
  change (tally LatencyCount [(QueriesTotal, 1%N)]) with 0%N in Hl. lia.
Qed.

Lemma serve_suffixes rs sched m :
  Forall (fun rem => exists r, r ∈ rs /\ rem `suffix_of` request_adds r) (serve rs sched m).2.
Proof.
  apply (fold_left_prefix (fun _ s => Forall (fun rem => exists r, r ∈ rs /\ rem `suffix_of` request_adds r) s.2)).
  - cbn. apply Forall_fmap, Forall_forall. intros r Hr. by exists r.
  - intros pre i post [m' ps] _ H. unfold request_turn. cbn [fst snd] in *.
    destruct (ps !! i) as [[|a rest]|] eqn:Ei; [done| |done]. cbn [snd]. apply Forall_insert; [done|].
    pose proof (proj1 (Forall_lookup _ _) H i _ Ei) as (r & Hr & Hs). exists r. split; [done|].
    etrans; [|exact Hs]. by exists [a].
Qed.

(** ** The promises *)

(** Requests that have been counted in and not yet out. *)
Definition being_handled (rem : list Add) : bool :=
  ((tally QueriesTotal rem =? 0) && (tally LatencyCount rem =? 1))%N.

(** Whatever the interleaving of the requests' counter updates, and at every
    moment of it, [in_flight] is the number of requests that have been counted in
    by [query] and not yet out by [observe_latency]. *)
Theorem in_flight_exact rs sched now :
  (N.of_nat (length rs) < U64_MOD)%N ->
  let s := serve rs sched (Metrics_new now) in
  in_flight s.1 = N.of_nat (length (List.filter being_handled s.2)).
Proof.
  intros Hlen s.
  assert (Hq : tally_all QueriesTotal (map request_adds rs) = N.of_nat (length rs)).
  { rewrite (tally_all_count _ _ (fun _ => true)) by apply request_queries. by rewrite List.filter_true. }
  assert (Hl : tally_all LatencyCount (map request_adds rs) = N.of_nat (length rs)).
  { rewrite (tally_all_count _ _ (fun _ => true)) by apply request_latency. by rewrite List.filter_true. }
  destruct (serve_fresh rs sched now QueriesTotal) as [_ Hlq]; [done|by rewrite Hq|].
  destruct (serve_fresh rs sched now LatencyCount) as [Hle Hll]; [done|by rewrite Hl|].
  fold s in Hlq, Hle, Hll. cbn [load] in Hlq, Hll. unfold in_flight. rewrite Hlq, Hll, Hq, Hl. rewrite Hl in Hle.
  pose proof (serve_suffixes rs sched (Metrics_new now)) as Hsuf. fold s in Hsuf. clear Hlq Hll Hq Hl.
  enough (tally_all LatencyCount s.2 = tally_all QueriesTotal s.2 + N.of_nat (length (List.filter being_handled s.2)))%N by lia.
  clear Hle Hlen. induction Hsuf as [|rem ps (r & _ & Hr) _ IH]; [done|].
  unfold tally_all in *. cbn [foldr List.filter]. apply suffix_tally in Hr as [H1 H2]. unfold being_handled at 1.
  destruct (tally QueriesTotal rem =? 0)%N eqn:E1, (tally LatencyCount rem =? 1)%N eqn:E2; bool_prop; cbn [andb length]; lia.
Qed.

Definition ex_requests : list RequestTrace :=
  [mkRequest Udp false 60000 (Some (NoError, false)); mkRequest Tcp true 40000 (Some (Refused, true));
   mkRequest Udp true 1000 None].

Lemma in_flight_exact_witness :
  in_flight (serve ex_requests [0; 1; 2; 0; 1; 1; 2; 2; 0; 2]%nat (Metrics_new 0)).1 = 1%N.
Proof.
  rewrite (in_flight_exact ex_requests [0; 1; 2; 0; 1; 1; 2; 2; 0; 2]%nat 0); [vm_compute; reflexivity|].
  apply N.ltb_lt. vm_compute. reflexivity.
Defined.

(** Once every request has ended, and whatever the interleaving was, the scrape
    adds up: the transports to the queries, the response slots to the answers that
    were not dropped, and each bucket holds the requests within its bound. *)
Theorem scrape_adds_up rs sched now :
  (N.of_nat (length rs) < U64_MOD)%N ->
  let s := serve rs sched (Metrics_new now) in
  Forall (fun rem => rem = []) s.2 ->
  queries s.1 = N.of_nat (length rs) /\
  (queries_udp s.1 + queries_tcp s.1 + queries_other s.1 = queries s.1)%N /\
  (forall code, load s.1 (Responses (response_index code)) =
     N.of_nat (length (List.filter (fun r => match rt_outcome r with
       | Some (c, _) => bool_decide (response_index c = response_index code) | None => false end) rs))) /\
  latency_count s.1 = queries s.1 /\
  (forall i upper, LATENCY_BUCKETS !! i = Some upper ->
     load s.1 (LatencyBuckets i) = N.of_nat (length (List.filter (fun r => rt_elapsed r <=? upper)%N rs)) /\
     (load s.1 (LatencyBuckets i) <= latency_count s.1)%N).
Proof.
  intros Hlen s Hend.
  assert (Hall : forall c (p : RequestTrace -> bool), counter_ok c ->
    (forall r, tally c (request_adds r) = if p r then 1%N else 0%N) ->
    load s.1 c = N.of_nat (length (List.filter p rs))).
  { intros c p Hc Hp. rewrite <- (tally_all_count c rs p Hp).
    assert (Hsmall : (tally_all c (map request_adds rs) < U64_MOD)%N).
    { rewrite (tally_all_count c rs p Hp). pose proof (filter_le p rs). lia. }
    destruct (serve_fresh rs sched now c Hc Hsmall) as [_ Hload]. fold s in Hload. rewrite Hload.
    assert (Hz : forall ps, Forall (fun rem => rem = []) ps -> tally_all c ps = 0%N).
    { induction 1 as [|rem ps -> _ IH]; [done|]. unfold tally_all in *. cbn [foldr]. by rewrite IH. }
    rewrite (Hz _ Hend). lia. }
  assert (Hq : queries s.1 = N.of_nat (length rs)).
  { change (queries s.1) with (load s.1 QueriesTotal). rewrite (Hall QueriesTotal (fun _ => true)); [by rewrite List.filter_true|done|apply request_queries]. }
  assert (Hl : latency_count s.1 = N.of_nat (length rs)).
  { change (latency_count s.1) with (load s.1 LatencyCount). rewrite (Hall LatencyCount (fun _ => true)); [by rewrite List.filter_true|done|apply request_latency]. }
  split_and!; [done| | |by rewrite Hl, Hq|].
  - rewrite Hq. pose proof (fun t => Hall (transport_counter t) _ ltac:(by destruct t) (fun r => request_transport r t)) as Ht.
    pose proof (Ht Udp) as H1. pose proof (Ht Tcp) as H2. pose proof (Ht Other) as H3. cbn [load transport_counter] in H1, H2, H3.
    rewrite H1, H2, H3. clear. induction rs as [|r rs IH]; [done|].
    cbn [List.filter]. destruct (rt_transport r); simpl; lia.
  - intros code. apply Hall; [apply response_index_le|]. intros r. apply request_response.
  - intros i upper Hi. rewrite (Hall _ (fun r => rt_elapsed r <=? upper)%N); [|by eapply lookup_lt_Some|intros r; by apply request_bucket].
    split; [done|]. rewrite Hl. pose proof (filter_le (fun r => rt_elapsed r <=? upper)%N rs). lia.
Qed.

Definition ex_schedule : list nat := [0; 1; 2; 0; 1; 1; 2; 2]%nat ++ concat (replicate 14 [2; 0; 1]%nat).

Lemma scrape_adds_up_witness :
  load (serve ex_requests ex_schedule (Metrics_new 0)).1 (LatencyBuckets 0) = 2%N.
Proof.
  destruct (scrape_adds_up ex_requests ex_schedule 0) as (_ & _ & _ & _ & H).
  - apply N.ltb_lt. vm_compute. reflexivity.
  - apply Forall_forall. intros rem Hin. vm_compute in Hin.
    repeat (apply elem_of_cons in Hin as [->|Hin]; [reflexivity|]). by apply elem_of_nil in Hin.
  - destruct (H 0%nat 50000%N eq_refl) as [-> _]. vm_compute. reflexivity.
Defined.
