(* ===== verification/Handler.v ===== *)
(** * The request handler (src/src/handler.rs)

    Validation, rate limiting, the lookup, the diagnostic sub-zones, and the
    response: one definition per function.  Messages are the library's
    ([hickory_proto], [hickory_server]); what the handler reads and sets of them is
    a record, and the library functions it calls are the class [HickoryMessages]. *)

From stdpp Require Import pretty.
From S2P Require Import Prelude Names Rdata Hashing Zone Cas RateLimit Metrics.

(** ** Constants *)

Definition NO_RECORDS {HN : HickoryNames} : list DnsRecord := [].
Definition MIN_EDNS_PAYLOAD : N := 512.
Definition MAX_EDNS_PAYLOAD : N := 1232.
Definition MAX_UDP_NO_EDNS : N := 512.
Definition MAILB_QTYPE : RecordType := 253.
Definition MAILA_QTYPE : RecordType := 254.
Definition HEADER_SIZE : N := 12.
Definition QUESTION_FIXED : N := 4.
Definition RECORD_FIXED : N := 10.
Definition RDATA_BOUND_FALLBACK : N := U16_MOD - 1.

(** ** Messages *)

Inductive MessageType : Type := MsgQuery | MsgResponse.
Inductive OpCode : Type := OpQuery | OpOther (code : N).

#[global] Instance message_type_eq_dec : EqDecision MessageType.
Proof. solve_decision. Defined.
#[global] Instance op_code_eq_dec : EqDecision OpCode.
Proof. solve_decision. Defined.

(** [DNSClass], as the number on the wire. *)
Definition CLASS_IN : N := 1.

(** [hickory_server]'s [Protocol]. *)
Inductive Protocol : Type := ProtoUdp | ProtoTcp | ProtoOther (other : N).

#[global] Instance protocol_eq_dec : EqDecision Protocol.
Proof. solve_decision. Defined.

(** The fields of [Metadata] the handler reads or sets. *)
Record Metadata : Type := mkMetadata {
  id : N;
  message_type : MessageType;
  op_code : OpCode;
  authoritative : bool;
  truncation : bool;
  response_code : ResponseCode;
}.

Class HickoryMessages : Type := {
  Edns : Type;
  edns_new : Edns;
  set_max_payload : Edns -> N -> Edns;
  set_version : Edns -> N -> Edns;
  max_payload : Edns -> N;
  version : Edns -> N;
  (** [Metadata::response_from_request] *)
  response_from_request : Metadata -> Metadata;
}.

Class HickoryMessagesLaws (HM : HickoryMessages) : Prop := {
  max_payload_set e p : (512 <= p)%N -> max_payload (set_max_payload e p) = p;
  max_payload_set_version e v : max_payload (set_version e v) = max_payload e;
  version_set e v : version (set_version e v) = v;
}.

(** What the crate is called: [env!("CARGO_PKG_NAME")] and the version. *)
Class Crate : Type := { NAME : string; VERSION : string }.

Section Messages.
Context {HN : HickoryNames} {HM : HickoryMessages}.

Record LowerQuery : Type := mkQuery {
  query_name : LowerName;
  query_type : RecordType;
  query_class : N;
}.

Record Request : Type := mkRequestMsg {
  rq_src : IpAddr;
  rq_protocol : Protocol;
  rq_metadata : Metadata;
  rq_edns : option Edns;
  rq_queries : list LowerQuery;
}.

(** What [MessageResponseBuilder] is given: the request's queries are echoed. *)
Record Response : Type := mkResponse {
  rs_metadata : Metadata;
  rs_queries : list LowerQuery;
  rs_edns : option Edns;
  rs_answers : list DnsRecord;
  rs_name_servers : list DnsRecord;
  rs_soa : list DnsRecord;
  rs_additionals : list DnsRecord;
}.

(** The header [handle_request] returns, and its four counts. *)
Record ResponseInfo : Type := mkInfo {
  info_metadata : Metadata;
  info_queries : N;
  info_answers : N;
  info_authorities : N;
  info_additionals : N;
}.

(** ** Answers before they are serialised *)

Record Resolved : Type := mkResolved {
  code : ResponseCode;
  answers : list DnsRecord;
  authority : list DnsRecord;
  additional : list DnsRecord;
  res_authoritative : bool;
}.

Definition found (answers : list DnsRecord) : Resolved := mkResolved NoError answers [] [] true.
Definition negative (code : ResponseCode) (soa : DnsRecord) : Resolved := mkResolved code [] [soa] [] true.
Definition Resolved_referral (authoritative : bool) (answers authority additional : list DnsRecord) : Resolved :=
  mkResolved NoError answers authority additional authoritative.
Definition refused : Resolved := mkResolved Refused [] [] [] false.
Definition error (code : ResponseCode) : Resolved := mkResolved code [] [] [] false.

(** ** The diagnostic sub-zones *)

Record Builtins : Type := mkBuiltins {
  hello : LowerName;
  counter : LowerName;
  myip : LowerName;
  version_name : LowerName;
  ttl : N;
}.

Definition Builtins_new (origin : LowerName) (ttl : N) : option Builtins :=
  let origin := name_from origin in
  let sub (label : string) := lower_from <$> name_parse label origin in
  hello ← sub "hello"%string;
  counter ← sub "counter"%string;
  myip ← sub "myip"%string;
  version ← sub "version"%string;
  Some (mkBuiltins hello counter myip version ttl).

Definition minimal_any (owner : Name) (ttl : N) : DnsRecord :=
  from_rdata owner ttl (RD_HINFO (octets_of_string "RFC8482") []).

Definition txt_builtin (qname : Name) (qtype : RecordType) (ttl : N) (text : list N) (soa : DnsRecord)
    : Resolved :=
  if (qtype =? RT_TXT)%N || (qtype =? RT_ANY)%N then found [from_rdata qname ttl (RD_TXT [text])]
  else negative NoError soa.

(** ** The greeting *)

(** [String::from_utf8_lossy]: U+FFFD for each maximal ill-formed subsequence.
    [utf8_lead] is what a leading octet asks for: how many octets follow it, and the
    range of the next. *)
Definition utf8_lead (c : N) : option (nat * N * N) :=
  (if (194 <=? c) && (c <=? 223) then Some (1%nat, 128, 191)
   else if c =? 224 then Some (2%nat, 160, 191)
   else if c =? 237 then Some (2%nat, 128, 159)
   else if (225 <=? c) && (c <=? 239) then Some (2%nat, 128, 191)
   else if c =? 240 then Some (3%nat, 144, 191)
   else if (241 <=? c) && (c <=? 243) then Some (3%nat, 128, 191)
   else if c =? 244 then Some (3%nat, 128, 143)
   else None)%N.

Definition REPLACEMENT : list N := [239; 191; 189]%N.

(** [pending] holds the octets of a sequence [need] octets short of its end. *)
Fixpoint utf8_lossy (pending : list N) (need : nat) (lo hi : N) (l : list N) : list N :=
  match l with
  | [] => match need with O => [] | S _ => REPLACEMENT end
  | c :: l' =>
      let start :=
        if (c <? 128)%N then c :: utf8_lossy [] 0 0 0 l'
        else match utf8_lead c with
             | Some (n, lo', hi') => utf8_lossy [c] n lo' hi' l'
             | None => REPLACEMENT ++ utf8_lossy [] 0 0 0 l'
             end in
      match need with
      | O => start
      | S need' =>
          if (lo <=? c)%N && (c <=? hi)%N then
            match need' with
            | O => (pending ++ [c]) ++ utf8_lossy [] 0 0 0 l'
            | S _ => utf8_lossy (pending ++ [c]) need' 128 191 l'
            end
          else REPLACEMENT ++ start
      end
  end.

Definition from_utf8_lossy (l : label) : list N := utf8_lossy [] 0 0 0 l.

(** [join(" ")] *)
Fixpoint join_spaces (ls : list (list N)) : list N :=
  match ls with
  | [] => []
  | [l] => l
  | l :: ls' => l ++ 32%N :: join_spaces ls'
  end.

Definition greeting (qname : Name) (hello_zone : LowerName) : list N :=
  let extra := N.to_nat (num_labels qname - num_labels (name_from hello_zone)) in
  if (extra =? 0)%nat then octets_of_string "hello, world"
  else
    let labels := join_spaces (map from_utf8_lossy (take extra (iter qname))) in
    octets_of_string "hello, " ++ labels.

End Messages.

(** ** The handler *)

Section Handler.
Context {HN : HickoryNames} {HR : HickoryRdata HN} {HT : HashTableApi} {HM : HickoryMessages} {HC : Crate}.

Record Active : Type := mkActive {
  zone : Zone;
  builtins : option Builtins;
}.

Definition Active_new (zone : Zone) (builtins_enabled : bool) : Active :=
  mkActive zone (if builtins_enabled then Builtins_new (lower_origin zone) (default_ttl zone) else None).

(** [active] is the value behind the [ArcSwap]; [h_limiter] is the shared table. *)
Record DnsHandler : Type := mkHandler {
  h_active : Active;
  h_metrics : Metrics;
  h_limiter : option RateLimiter;
}.

Definition DnsHandler_new (zone : Zone) (cfg_builtins : bool) (metrics : Metrics) (limiter : option RateLimiter)
    : DnsHandler := mkHandler (Active_new zone cfg_builtins) metrics limiter.

Definition replace_zone (h : DnsHandler) (zone : Zone) (builtins_enabled : bool) : DnsHandler :=
  mkHandler (Active_new zone builtins_enabled) (h_metrics h) (h_limiter h).

Definition handler_zone (h : DnsHandler) : Zone := zone (h_active h).

(** [count] is [self.metrics.queries()], read when the answer is made. *)
Definition resolve_builtin (count : N) (active : Active) (name : LowerName) (qtype : RecordType) (src : IpAddr)
    : option Resolved :=
  b ← builtins active;
  let soa := soa (zone active) in
  let qname := name_from name in
  if zone_of (myip b) name then
    let '(rdata, wanted) := match src with
                            | V4 v4 => (RD_A v4, RT_A)
                            | V6 v6 => (RD_AAAA v6, RT_AAAA)
                            end in
    if (qtype =? wanted)%N || (qtype =? RT_ANY)%N
    then Some (found [from_rdata qname (ttl b) rdata])
    else Some (negative NoError soa)
  else if zone_of (counter b) name then
    Some (txt_builtin qname qtype (ttl b) (octets_of_string (pretty count)) soa)
  else if zone_of (version_name b) name then
    Some (txt_builtin qname qtype (ttl b) (octets_of_string (NAME +:+ " " +:+ VERSION)) soa)
  else if zone_of (hello b) name then
    Some (txt_builtin qname qtype (ttl b) (greeting qname (hello b)) soa)
  else None.

Definition resolve (count : N) (active : Active) (name : LowerName) (qtype : RecordType) (src : IpAddr)
    : Resolved :=
  let zone := zone active in
  if negb (Zone_contains zone name) then refused
  else match resolve_builtin count active name qtype src with
  | Some resolved => resolved
  | None =>
      if is_any qtype then
        if negb (Zone_exists zone name) then negative NXDomain (soa zone)
        else
          let answer := Zone_lookup zone name RT_CNAME in
          let authoritative := is_authoritative answer in
          match answer with
          | ReferralAnswer answers authority additional =>
              Resolved_referral authoritative answers authority additional
          | Records ((_ :: _) as cnames) => found cnames
          | _ => found [minimal_any (name_from name) (default_ttl zone)]
          end
      else if (qtype =? RT_SOA)%N && bool_decide (name = lower_origin zone) then found [soa zone]
      else
        let answer := Zone_lookup zone name qtype in
        let authoritative := is_authoritative answer in
        match answer with
        | Records [] => negative NoError (soa zone)
        | Records records => found records
        | ReferralAnswer answers authority additional =>
            Resolved_referral authoritative answers authority additional
        | NoData => negative NoError (soa zone)
        | NxDomain => negative NXDomain (soa zone)
        end
  end.

(** The [match] on the query type. *)
Definition meta_type (qtype : RecordType) : option Resolved :=
  (if (qtype =? RT_AXFR) || (qtype =? RT_IXFR) then Some refused
   else if (qtype =? RT_OPT) || (qtype =? RT_TSIG) || (qtype =? RT_ZERO) then Some (error FormErr)
   else if (qtype =? MAILB_QTYPE) || (qtype =? MAILA_QTYPE) then Some (error NotImp)
   else None)%N.

(** [dispatch] after the limiter. *)
Definition validate (h : DnsHandler) (request : Request) (src : IpAddr) : Resolved :=
  if negb (bool_decide (message_type (rq_metadata request) = MsgQuery)) then error FormErr
  else if negb (bool_decide (op_code (rq_metadata request) = OpQuery)) then error NotImp
  else if match rq_edns request with Some edns => (0 <? version edns)%N | None => false end then error BADVERS
  else match rq_queries request with
  | [query] =>
      if negb (query_class query =? CLASS_IN)%N then refused
      else match meta_type (query_type query) with
      | Some resolved => resolved
      | None => resolve (queries (h_metrics h)) (h_active h) (query_name query) (query_type query) src
      end
  | _ => error FormErr
  end.

(** [None] is to send nothing at all.  [now] is the instant [limiter.check] reads. *)
Definition dispatch (h : DnsHandler) (request : Request) (src : IpAddr) (now : N)
    : DnsHandler * option Resolved :=
  match h_limiter h with
  | Some limiter =>
      let '(limiter, ok) := check_at limiter src now in
      if ok then
        let h := mkHandler (h_active h) (h_metrics h) (Some limiter) in
        (h, Some (validate h request src))
      else
        let h := mkHandler (h_active h) (rate_limited (h_metrics h)) (Some limiter) in
        (h, if bool_decide (rq_protocol request = ProtoUdp) then None else Some refused)
  | None => (h, Some (validate h request src))
  end.

(** ** Sizes *)

Definition sumN {A} (f : A -> N) (l : list A) : N := foldr (fun a n => (f a + n)%N) 0%N l.

Definition rdata_size_bound (rdata : RData) : N :=
  match rdata with
  | RD_A _ => 4
  | RD_AAAA _ => 16
  | RD_NS ns => name_len ns + 1
  | RD_CNAME cname => name_len cname + 1
  | RD_PTR ptr => name_len ptr + 1
  | RD_MX _ exchange => 2 + name_len exchange + 1
  | RD_SRV _ _ _ target => 6 + name_len target + 1
  | RD_SOA mname rname _ _ _ _ _ => name_len mname + 1 + name_len rname + 1 + 20
  | RD_TXT txt_data => sumN (fun s => N.of_nat (length s) + 1) txt_data
  | RD_HINFO cpu os => N.of_nat (length cpu) + 1 + N.of_nat (length os) + 1
  | other => match to_bytes other with
             | Some bytes => N.of_nat (length bytes)
             | None => RDATA_BOUND_FALLBACK
             end
  end%N.

Definition record_size_bound (record : DnsRecord) : N :=
  (name_len (rec_name record) + 1 + RECORD_FIXED + rdata_size_bound (rec_data record))%N.

Definition response_size_bound (request : Request) (resolved : Resolved) : N :=
  let question := match rq_queries request with
                  | [] => 0%N
                  | q :: _ => (name_len (name_from (query_name q)) + 1 + QUESTION_FIXED)%N
                  end in
  (HEADER_SIZE + question
   + sumN record_size_bound (answers resolved ++ authority resolved ++ additional resolved))%N.

(** ** The request *)

Definition transport_of (protocol : Protocol) : Transport :=
  if bool_decide (protocol = ProtoUdp) then Udp
  else if bool_decide (protocol = ProtoTcp) then Tcp
  else Other.

Definition set_response_code (m : Metadata) (c : ResponseCode) : Metadata :=
  mkMetadata (id m) (message_type m) (op_code m) (authoritative m) (truncation m) c.

Definition dropped (request_meta : Metadata) : ResponseInfo :=
  mkInfo (set_response_code (response_from_request request_meta) Refused) 0 0 0 0.

Definition serve_failed (request_meta : Metadata) : ResponseInfo :=
  mkInfo (set_response_code (response_from_request request_meta) ServFail) 0 0 0 0.

(** The EDNS of the response: the request's payload, clamped. *)
Definition response_edns (req : Edns) : Edns :=
  let edns := set_max_payload edns_new (clampN (max_payload req) MIN_EDNS_PAYLOAD MAX_EDNS_PAYLOAD) in
  set_version edns 0.

(** The sections and the TC bit, once the 512-octet limit has been applied. *)
Definition truncate (request : Request) (resolved : Resolved) (resp_edns : option Edns) : Resolved * bool :=
  if bool_decide (rq_protocol request = ProtoUdp)
     && match resp_edns with None => true | Some _ => false end
     && (MAX_UDP_NO_EDNS <? response_size_bound request resolved)%N
  then (mkResolved (code resolved) [] [] [] (res_authoritative resolved), true)
  else (resolved, false).

Definition build_response (request : Request) (resolved : Resolved) : Response :=
  let resp_edns := response_edns <$> rq_edns request in
  let '(resolved, truncated) := truncate request resolved resp_edns in
  let meta := response_from_request (rq_metadata request) in
  let meta := mkMetadata (id meta) (message_type meta) (op_code meta) (res_authoritative resolved) truncated
                (code resolved) in
  mkResponse meta (rq_queries request) resp_edns (answers resolved) (authority resolved) NO_RECORDS
    (additional resolved).

(** [handle_request].  [send_response] is the network: the header that went out, or
    an error; [now] the limiter's instant and [elapsed] the time taken.  The second
    component is what was handed to it, [None] for silence. *)
Definition handle_request (h : DnsHandler) (request : Request) (now elapsed : N)
    (send_response : Response -> result string ResponseInfo)
    : DnsHandler * option Response * ResponseInfo :=
  let h := mkHandler (h_active h) (query (h_metrics h) (transport_of (rq_protocol request))) (h_limiter h) in
  let '(h, resolved) := dispatch h request (rq_src request) now in
  let observed m := observe_latency m elapsed in
  match resolved with
  | None =>
      (mkHandler (h_active h) (observed (h_metrics h)) (h_limiter h), None, dropped (rq_metadata request))
  | Some resolved =>
      let rsp := build_response request resolved in
      let outcome := send_response rsp in
      let metrics := response (observed (h_metrics h))
                       (match outcome with Ok info => response_code (info_metadata info) | Err _ => ServFail end) in
      match outcome with
      | Ok info => (mkHandler (h_active h) metrics (h_limiter h), Some rsp, info)
      | Err _ =>
          (mkHandler (h_active h) (send_error metrics) (h_limiter h), Some rsp,
           serve_failed (rq_metadata request))
      end
  end.

End Handler.
