(* ===== verification/HandlerFacts.v ===== *)
(** * Facts about the handler (src/src/handler.rs)

    Existence against its specification, the sizes of encoded messages, and the
    case analysis of [resolve] the theorems share. *)

From S2P Require Import Prelude Names Rdata Hashing Zone Lookup Cas RateLimit Metrics Handler.

(** ** Existence *)

Section Exists.
Context {HN : HickoryNames} {HT : HashTableApi} {HL : HickoryNamesLaws HN} {TL : HashTableLaws HT}.
Context (z : Zone) (Hwf : ZoneWf z).

(** [Zone::exists] is existence as the algorithm of RFC 4592 decides it, with no
    regard to zone cuts. *)
Lemma exists_spec name :
  labels_under (liter (lower_origin z)) (liter name) ->
  Zone_exists z name = spec_exists (abs_zone z) name.
Proof.
  intros Hu. unfold Zone_exists, exists_hashed, spec_exists. rewrite exact_node_spec by done.
  cbn [az_node abs_zone]. destruct (find_node z (liter name)) as [[i nd]|] eqn:Hf; [done|]. cbn [fmap option_fmap option_map].
  destruct (closest_encloser_spec z Hwf name Hu Hf) as (d & i & ce & Hc & Hd & Hfind & Hclimb).
  unfold source_of_synthesis. rewrite Hc, wildcard_node_spec by (done || lia).
  cbn [az_node abs_zone] in Hclimb. rewrite Hclimb. by destruct (find_node z (WILDCARD_LABEL :: _)).
Qed.

End Exists.

(** ** Sizes on the wire

    What an encoder that compresses no name writes: RFC 1035 sections 3.2.1, 3.3
    and 4.1, RFC 2782 for SRV and RFC 3596 for AAAA.  [None] when a value cannot be
    encoded at all. *)

Section Wire.
Context {HN : HickoryNames} {HR : HickoryRdata HN} {HM : HickoryMessages}.

Definition wire_name (n : Name) : N := N.of_nat (name_octets (iter n)).

Definition wire_rdata (d : RData) : option N :=
  match d with
  | RD_A _ => Some 4
  | RD_AAAA _ => Some 16
  | RD_NS n | RD_CNAME n | RD_PTR n => Some (wire_name n)
  | RD_MX _ n => Some (2 + wire_name n)
  | RD_SRV _ _ _ n => Some (6 + wire_name n)
  | RD_SOA m r _ _ _ _ _ => Some (wire_name m + wire_name r + 20)
  | RD_TXT ss => Some (sumN (fun s => 1 + N.of_nat (length s)) ss)
  | RD_HINFO c o => Some (1 + N.of_nat (length c) + (1 + N.of_nat (length o)))
  | RD_Other _ _ => N.of_nat ∘ length <$> to_bytes d
  end%N.

Definition wire_record (r : DnsRecord) : N :=
  (wire_name (rec_name r) + 10 + default 0 (wire_rdata (rec_data r)))%N.

Definition wire_query (q : LowerQuery) : N := (wire_name (name_from (query_name q)) + 4)%N.

(** A message without an OPT record. *)
Definition wire_response (r : Response) : N :=
  (12 + sumN wire_query (rs_queries r)
   + sumN wire_record (rs_answers r ++ rs_name_servers r ++ rs_soa r ++ rs_additionals r))%N.

Context {HL : HickoryNamesLaws HN}.

Lemma wire_name_le n : (wire_name n <= name_len n + 1)%N.
Proof using HL. apply name_len_octets. Qed.

Lemma wire_name_limit n : (wire_name n <= 255)%N.
Proof using HL. unfold wire_name. pose proof (name_octet_limit n). lia. Qed.

Lemma sumN_le {A} (f g : A -> N) l : (forall a, f a <= g a)%N -> (sumN f l <= sumN g l)%N.
Proof using. intros H. unfold sumN. induction l as [|a l IH]; cbn [foldr]; [done|]. by apply N.add_le_mono. Qed.

Lemma wire_rdata_le d w : wire_rdata d = Some w -> (w <= rdata_size_bound d)%N.
Proof using HL.
  pose proof wire_name_le as Hn.
  destruct d as [| |n|n|n|p n|p w' o n|m r s a b c e|ss|c o|t bs]; cbn [wire_rdata]; intros H.
  1-8, 10: injection H as <-; cbn; try lia.
  - specialize (Hn n); lia.
  - specialize (Hn n); lia.
  - specialize (Hn n); lia.
  - specialize (Hn n); lia.
  - specialize (Hn n); lia.
  - pose proof (Hn m); specialize (Hn r); lia.
  - injection H as <-. apply sumN_le. intros; lia.
  - cbn in H |- *. destruct (to_bytes _) as [bytes|]; [|done]. injection H as <-. lia.
Qed.

Lemma wire_record_le r : (wire_record r <= record_size_bound r)%N.
Proof using HL.
  unfold wire_record, record_size_bound, RECORD_FIXED. pose proof (wire_name_le (rec_name r)).
  destruct (wire_rdata (rec_data r)) as [w|] eqn:E; [apply wire_rdata_le in E|]; simpl; lia.
Qed.

End Wire.

(** ** What [resolve] can answer *)

Section Resolve.
Context {HN : HickoryNames} {HR : HickoryRdata HN} {HT : HashTableApi} {HM : HickoryMessages} {HC : Crate}.

Lemma txt_builtin_shape qname t ttl text soa :
  txt_builtin qname t ttl text soa = found [from_rdata qname ttl (RD_TXT [text])] \/
  txt_builtin qname t ttl text soa = negative NoError soa.
Proof. unfold txt_builtin. destruct (_ || _); auto. Qed.

(** A built-in answers with one record, or with the SOA. *)
Lemma builtin_shape count a name t src r :
  resolve_builtin count a name t src = Some r ->
  (exists rec, r = found [rec] /\ rec_name rec = name_from name) \/ r = negative NoError (soa (zone a)).
Proof.
  unfold resolve_builtin. destruct (builtins a) as [b|]; [cbn [mbind option_bind]|done].
  assert (Htxt : forall text, let r := txt_builtin (name_from name) t (ttl b) text (soa (zone a)) in
    (exists rec, r = found [rec] /\ rec_name rec = name_from name) \/ r = negative NoError (soa (zone a))).
  { intros text. cbn. destruct (txt_builtin_shape (name_from name) t (ttl b) text (soa (zone a))) as [-> | ->]; eauto. }
  destruct (zone_of (myip b) name); [|repeat (destruct (zone_of _ name); [intros [= <-]; apply Htxt|]); done].
  destruct src as [v4|v6]; destruct (_ || _); intros [= <-]; eauto.
Qed.

(** Every answer is a refusal, a positive answer, a negative one with its SOA, or
    what the zone refers to. *)
Inductive answer_shape (a : Active) (name : LowerName) : Resolved -> Prop :=
| Shape_refused : Zone_contains (zone a) name = false -> answer_shape a name refused
| Shape_found rs : rs <> [] -> answer_shape a name (found rs)
| Shape_negative c : c = NoError \/ c = NXDomain -> answer_shape a name (negative c (soa (zone a)))
| Shape_referral ans auth add t : Zone_lookup (zone a) name t = ReferralAnswer ans auth add ->
    answer_shape a name (Resolved_referral (is_authoritative (ReferralAnswer ans auth add)) ans auth add).

Lemma resolve_shape count a name t src : answer_shape a name (resolve count a name t src).
Proof.
  assert (Hf : forall r rs, answer_shape a name (found (r :: rs))) by (intros; by apply Shape_found).
  unfold resolve. destruct (Zone_contains _ _) eqn:Ez; cbn [negb]; [|by constructor].
  destruct (resolve_builtin count a name t src) as [r|] eqn:Eb.
  { apply builtin_shape in Eb as [(rec & -> & _)| ->]; [apply Hf|constructor; auto]. }
  destruct (is_any t).
  - destruct (negb (Zone_exists _ _)); [constructor; auto|].
    destruct (Zone_lookup (zone a) name RT_CNAME) as [[|r rs]|ans auth add| |] eqn:E; try apply Hf.
    by eapply Shape_referral.
  - destruct ((t =? RT_SOA)%N && _); [apply Hf|].
    destruct (Zone_lookup (zone a) name t) as [[|r rs]|ans auth add| |] eqn:E; try apply Hf; try (constructor; by auto).
    by eapply Shape_referral.
Qed.

Lemma resolve_refused count a name t src :
  code (resolve count a name t src) = Refused <-> Zone_contains (zone a) name = false.
Proof.
  split; [|by unfold resolve; intros ->].
  destruct (resolve_shape count a name t src) as [|rs|c [-> | ->]|]; done.
Qed.

(** What got past the checks of [dispatch]. *)
Record valid_query (request : Request) (q : LowerQuery) : Prop := {
  vq_message : message_type (rq_metadata request) = MsgQuery;
  vq_op : op_code (rq_metadata request) = OpQuery;
  vq_edns e : rq_edns request = Some e -> version e = 0%N;
  vq_one : rq_queries request = [q];
  vq_class : query_class q = CLASS_IN;
  vq_type : query_type q ∉ [RT_AXFR; RT_IXFR; RT_OPT; RT_TSIG; RT_ZERO; MAILB_QTYPE; MAILA_QTYPE];
}.

Definition empty_answer (r : Resolved) : Prop := answers r = [] /\ authority r = [] /\ additional r = [].

Lemma meta_type_none t :
  meta_type t = None -> t ∉ [RT_AXFR; RT_IXFR; RT_OPT; RT_TSIG; RT_ZERO; MAILB_QTYPE; MAILA_QTYPE].
Proof.
  unfold meta_type. destruct ((t =? RT_AXFR) || _)%N eqn:E1; [done|].
  destruct ((t =? RT_OPT) || _ || _)%N eqn:E2; [done|]. destruct ((t =? MAILB_QTYPE) || _)%N eqn:E3; [done|].
  intros _. bool_prop. rewrite !not_elem_of_cons, elem_of_nil. tauto.
Qed.

Lemma meta_type_empty t r : meta_type t = Some r -> empty_answer r /\ code r <> NoError.
Proof.
  unfold meta_type. destruct ((t =? RT_AXFR) || _)%N; [by intros [= <-]|].
  destruct ((t =? RT_OPT) || _ || _)%N; [by intros [= <-]|].
  destruct ((t =? MAILB_QTYPE) || _)%N; [by intros [= <-]|done].
Qed.

(** [validate]: a valid query is resolved; anything else gets an empty error. *)
Lemma validate_cases h request src :
  (exists q, valid_query request q /\
     validate h request src = resolve (queries (h_metrics h)) (h_active h) (query_name q) (query_type q) src) \/
  (empty_answer (validate h request src) /\ code (validate h request src) <> NoError).
Proof.
  unfold validate. case_bool_decide as Hm; [cbn [negb]|by right]. case_bool_decide as Ho; [cbn [negb]|by right].
  destruct (match rq_edns request with Some e => (0 <? version e)%N | None => false end) eqn:He; [by right|].
  destruct (rq_queries request) as [|q [|q' qs]] eqn:Eq; [by right| |by right].
  destruct (query_class q =? CLASS_IN)%N eqn:Ec; cbn [negb]; [|by right].
  destruct (meta_type (query_type q)) as [r|] eqn:Et; [right; by apply meta_type_empty in Et|].
  left. exists q. split; [|done]. bool_prop. constructor; try done.
  - intros e Hed. rewrite Hed in He. bool_prop. lia.
  - by apply meta_type_none.
Qed.

End Resolve.
