(* ===== verification/HandlerTheorems.v ===== *)
(** * The handler's promises (src/src/handler.rs)

    What goes on the wire for any request, any zone behind the handler and any
    network: silence, validation, sizes, sections, codes and counters. *)

From S2P Require Import Prelude Names Rdata Plain Hashing Zone Lookup Answers ZoneExamples.
From S2P Require Import Cas RateLimit Metrics Handler HandlerFacts.

Section Promises.
Context {HN : HickoryNames} {HR : HickoryRdata HN} {HT : HashTableApi} {HM : HickoryMessages} {HC : Crate}.

(** Whether the limiter, if there is one, refuses this request. *)
Definition limited (h : DnsHandler) (request : Request) (now : N) : bool :=
  match h_limiter h with
  | Some limiter => negb (check_at limiter (rq_src request) now).2
  | None => false
  end.

(** [dispatch] in two lines. *)
Lemma dispatch_cases h request src now :
  (dispatch h request src now).2 =
    if match h_limiter h with Some l => negb (check_at l src now).2 | None => false end
    then if bool_decide (rq_protocol request = ProtoUdp) then None else Some refused
    else Some (validate h request src).
Proof.
  unfold dispatch. destruct (h_limiter h) as [l|]; [|done].
  destruct (check_at l src now) as [l' ok]. by destruct ok.
Qed.

(** What [handle_request] hands to the network. *)
Lemma sent_cases h request now elapsed send :
  let h1 := mkHandler (h_active h) (query (h_metrics h) (transport_of (rq_protocol request))) (h_limiter h) in
  (handle_request h request now elapsed send).1.2 =
    if limited h request now
    then if bool_decide (rq_protocol request = ProtoUdp) then None else Some (build_response request refused)
    else Some (build_response request (validate h1 request (rq_src request))).
Proof.
  intros h1. unfold handle_request. fold h1. pose proof (dispatch_cases h1 request (rq_src request) now) as Hd.
  destruct (dispatch h1 request (rq_src request) now) as [h2 resolved]. cbn [snd] in Hd.
  unfold limited. cbn [h_limiter h1] in Hd.
  destruct (match h_limiter h with Some l => _ | None => _ end); [case_bool_decide|]; subst resolved; try done.
  - by destruct (send _).
  - by destruct (send _).
Qed.

(** C10: the server is silent exactly when its limiter refuses a query over UDP.  Over
    any other transport a refused query is answered REFUSED, with no records. *)
Theorem silence_is_only_the_limiter h request now elapsed send :
  let sent := (handle_request h request now elapsed send).1.2 in
  (sent = None <-> limited h request now = true /\ rq_protocol request = ProtoUdp) /\
  (limited h request now = true -> rq_protocol request <> ProtoUdp ->
   exists r, sent = Some r /\ response_code (rs_metadata r) = Refused /\
     rs_answers r = [] /\ rs_name_servers r = [] /\ rs_additionals r = []).
Proof.
  intros sent. unfold sent. rewrite sent_cases. destruct (limited h request now).
  - case_bool_decide as Hp; split.
    + done.
    + done.
    + split; [done|by intros [_ ?]].
    + intros _ _. eexists. split; [done|]. unfold build_response, truncate. rewrite bool_decide_false by done. done.
  - split; [split; [done|by intros [? _]]|done].
Qed.

(** ** Validation *)

(** The checks, in the order of [dispatch], and the code each failure is given. *)
Definition checks (request : Request) : list (bool * ResponseCode) :=
  let one p := match rq_queries request with [q] => p q | _ => false end in
  [(negb (bool_decide (message_type (rq_metadata request) = MsgQuery)), FormErr);
   (negb (bool_decide (op_code (rq_metadata request) = OpQuery)), NotImp);
   (match rq_edns request with Some e => negb (version e =? 0)%N | None => false end, BADVERS);
   (negb (length (rq_queries request) =? 1)%nat, FormErr);
   (one (fun q => negb (query_class q =? CLASS_IN)%N), Refused);
   (one (fun q => bool_decide (query_type q ∈ [RT_AXFR; RT_IXFR])), Refused);
   (one (fun q => bool_decide (query_type q ∈ [RT_OPT; RT_TSIG; RT_ZERO])), FormErr);
   (one (fun q => bool_decide (query_type q ∈ [MAILB_QTYPE; MAILA_QTYPE])), NotImp)].

Definition first_failure (request : Request) : option ResponseCode := snd <$> List.find fst (checks request).

Lemma orb_elem2 (t a b : N) : ((t =? a)%N || (t =? b)%N) = bool_decide (t ∈ [a; b]).
Proof.
  symmetry. destruct ((t =? a)%N || _) eqn:E.
  - apply bool_decide_eq_true. rewrite !elem_of_cons. apply orb_true_iff in E as [E|E]; bool_prop; auto.
  - apply bool_decide_eq_false. bool_prop. rewrite !not_elem_of_cons. split_and!; [done|done|apply not_elem_of_nil].
Qed.

Lemma orb_elem3 (t a b c : N) : ((t =? a)%N || (t =? b)%N || (t =? c)%N) = bool_decide (t ∈ [a; b; c]).
Proof.
  symmetry. destruct ((t =? a)%N || _ || _) eqn:E.
  - apply bool_decide_eq_true. rewrite !elem_of_cons. apply orb_true_iff in E as [E|E]; [|bool_prop; auto].
    apply orb_true_iff in E as [E|E]; bool_prop; auto.
  - apply bool_decide_eq_false. bool_prop. rewrite !not_elem_of_cons. split_and!; try done. apply not_elem_of_nil.
Qed.

Lemma ltb_zero n : (0 <? n)%N = negb (n =? 0)%N.
Proof. by destruct n. Qed.

(** C11: a request is answered with the code of the first check it fails, in the order
    message type, opcode, EDNS version, QDCOUNT, class, transfers, pseudo-types,
    mail types, and with no records; one that fails none is REFUSED exactly when
    its name is outside the zone. *)
Theorem errors_in_order h request src :
  let r := validate h request src in
  match first_failure request with
  | Some c => r = error c
  | None => exists q, rq_queries request = [q] /\
      r = resolve (queries (h_metrics h)) (h_active h) (query_name q) (query_type q) src /\
      (code r = Refused <-> Zone_contains (zone (h_active h)) (query_name q) = false)
  end.
Proof.
  intros r. unfold r, first_failure, validate, checks. cbn [List.find fst].
  case_bool_decide; cbn [negb fst]; [|done]. case_bool_decide; cbn [negb fst]; [|done].
  destruct (rq_edns request) as [e|]; [rewrite ltb_zero; destruct (version e =? 0)%N; cbn [negb fst]; [|done]|];
    (destruct (rq_queries request) as [|q [|q' qs]]; cbn [length Nat.eqb negb fst]; [done| |done];
     destruct (query_class q =? CLASS_IN)%N; cbn [negb fst]; [|done];
     unfold meta_type; rewrite orb_elem3, !orb_elem2;
     case_bool_decide; cbn [fst]; [done|]; case_bool_decide; cbn [fst]; [done|]; case_bool_decide; cbn [fst]; [done|];
     exists q; split_and!; [done|done|apply resolve_refused]).
Qed.

Lemma build_response_sections request r :
  let rsp := build_response request r in
  (rs_answers rsp = answers r /\ rs_name_servers rsp = authority r /\ rs_additionals rsp = additional r /\
   truncation (rs_metadata rsp) = false) \/
  (rs_answers rsp = [] /\ rs_name_servers rsp = [] /\ rs_additionals rsp = [] /\
   truncation (rs_metadata rsp) = true /\ rq_protocol request = ProtoUdp /\ rq_edns request = None /\
   (MAX_UDP_NO_EDNS < response_size_bound request r)%N).
Proof.
  intros rsp. unfold rsp, build_response, truncate. destruct (_ && _) eqn:E; [right|by left].
  apply andb_true_iff in E as [E Hs]. apply andb_true_iff in E as [Hp He]. apply bool_decide_eq_true in Hp.
  cbn. split_and!; try done; [by destruct (rq_edns request)|by bool_prop].
Qed.

(** Records leave the server only for a request that passed the limiter and every
    check - a query, of one IN question of an ordinary type, of EDNS version 0 - and
    only about a name of the zone. *)
Theorem data_only_for_valid_queries h request now elapsed send r :
  (handle_request h request now elapsed send).1.2 = Some r ->
  rs_answers r <> [] \/ rs_name_servers r <> [] \/ rs_additionals r <> [] ->
  limited h request now = false /\
  exists q, valid_query request q /\ rs_queries r = [q] /\ Zone_contains (zone (h_active h)) (query_name q) = true.
Proof.
  rewrite sent_cases. intros Hsent Hne.
  assert (Hsec : forall x, empty_answer x -> r <> build_response request x).
  { intros x (H1 & H2 & H3) ->. destruct (build_response_sections request x) as [(Ha & Hb & Hc & _)|(Ha & Hb & Hc & _)];
      rewrite Ha, Hb, Hc, ?H1, ?H2, ?H3 in Hne; by destruct Hne as [|[|]]. }
  destruct (limited h request now).
  { exfalso. case_bool_decide; [done|]. injection Hsent as <-. by apply (Hsec refused). }
  split; [done|]. injection Hsent as Hr. symmetry in Hr. revert Hr.
  destruct (validate_cases (mkHandler (h_active h) (query (h_metrics h) (transport_of (rq_protocol request))) (h_limiter h))
    request (rq_src request)) as [(q & Hq & ->)|[He _]]; intros Hr; [|by eapply Hsec in Hr].
  exists q. split; [done|]. split.
  - rewrite Hr. unfold build_response. destruct (truncate _ _ _). apply (vq_one _ _ Hq).
  - destruct (Zone_contains _ _) eqn:Ez; [done|]. exfalso. revert Hr. apply Hsec. unfold resolve. cbn [h_active]. by rewrite Ez.
Qed.

(** ** Sizes and sections *)

Context {HL : HickoryNamesLaws HN}.

(** What is sent to such a client fits, even if no name in it is compressed. *)
Lemma udp_response_fits request x q :
  rq_protocol request = ProtoUdp -> rq_edns request = None -> rq_queries request = [q] ->
  (wire_response (build_response request x) <= 512)%N.
Proof.
  intros Hp He Hq.
  assert (Hw : forall rsp, rs_queries rsp = [q] -> (wire_response rsp <=
    12 + wire_query q + sumN record_size_bound (rs_answers rsp ++ rs_name_servers rsp ++ rs_soa rsp ++ rs_additionals rsp))%N).
  { intros rsp Hr. unfold wire_response. rewrite Hr. pose proof (sumN_le wire_record record_size_bound
      (rs_answers rsp ++ rs_name_servers rsp ++ rs_soa rsp ++ rs_additionals rsp) wire_record_le).
    change (sumN wire_query [q]) with (wire_query q + 0)%N. lia. }
  assert (Hqs : rs_queries (build_response request x) = [q]) by (unfold build_response; by destruct (truncate _ _ _)).
  specialize (Hw _ Hqs). assert (Hsoa : rs_soa (build_response request x) = []) by (unfold build_response; by destruct (truncate _ _ _)).
  pose proof (wire_name_le (name_from (query_name q))) as Hn. pose proof (wire_name_limit (name_from (query_name q))) as Hl.
  unfold wire_query in Hw. rewrite Hsoa in Hw.
  destruct (build_response_sections request x) as [(Ha & Hb & Hc & Ht)|(Ha & Hb & Hc & Ht & _)]; rewrite Ha, Hb, Hc in Hw.
  - assert (Hfit : (response_size_bound request x <= MAX_UDP_NO_EDNS)%N).
    { unfold build_response, truncate in Ht. rewrite He, bool_decide_true in Ht by done. cbn [fmap option_fmap option_map] in Ht.
      destruct (MAX_UDP_NO_EDNS <? response_size_bound request x)%N eqn:E; [done|]. by bool_prop. }
    unfold response_size_bound, HEADER_SIZE, QUESTION_FIXED, MAX_UDP_NO_EDNS in Hfit. rewrite Hq in Hfit. cbn [app] in Hw. lia.
  - cbn [app] in Hw. change (sumN record_size_bound []) with 0%N in Hw. lia.
Qed.

(** The same request over a stream. *)
Definition over_tcp (request : Request) : Request :=
  mkRequestMsg (rq_src request) ProtoTcp (rq_metadata request) (rq_edns request) (rq_queries request).

(** A response holds the whole of an answer. *)
Definition in_full (x : Resolved) (r : Response) : Prop :=
  rs_answers r = answers x /\ rs_name_servers r = authority x /\ rs_soa r = [] /\ rs_additionals r = additional x /\
  response_code (rs_metadata r) = code x /\ authoritative (rs_metadata r) = res_authoritative x /\
  truncation (rs_metadata r) = false.

Lemma tcp_response request x : in_full x (build_response (over_tcp request) x).
Proof. done. Qed.

(** And the datagram beside it. *)
Lemma udp_response request x :
  rq_protocol request = ProtoUdp -> rq_edns request = None ->
  let whole := build_response (over_tcp request) x in
  let r := build_response request x in
  if (512 <? response_size_bound request x)%N
  then rs_metadata r = mkMetadata (id (rs_metadata whole)) (message_type (rs_metadata whole)) (op_code (rs_metadata whole))
                         (authoritative (rs_metadata whole)) true (response_code (rs_metadata whole)) /\
       rs_answers r ++ rs_name_servers r ++ rs_soa r ++ rs_additionals r = []
  else r = whole.
Proof.
  destruct request as [src protocol m edns qs]. cbn [rq_protocol rq_edns]. intros -> ->.
  unfold build_response, truncate, over_tcp, MAX_UDP_NO_EDNS.
  cbn [rq_protocol rq_edns rq_metadata rq_queries rq_src fmap option_fmap option_map].
  rewrite bool_decide_true, bool_decide_false by done. cbn [andb].
  by destruct (512 <? response_size_bound _ x)%N.
Qed.

(** C9: a UDP client that asks one question and offered no EDNS is never sent more than
    512 octets, and no OPT record.  The same request over TCP is answered in full, with
    every record of the answer; and what the UDP client is sent is that very response,
    to the last record and flag, or, when the bound on its size before compression is
    over 512 octets, the same header with TC set and no record at all. *)
Theorem udp_without_edns_fits h request now elapsed send r q :
  rq_protocol request = ProtoUdp -> rq_edns request = None -> rq_queries request = [q] ->
  (handle_request h request now elapsed send).1.2 = Some r ->
  let answer := validate (mkHandler (h_active h) (query (h_metrics h) Udp) (h_limiter h)) request (rq_src request) in
  rs_edns r = None /\ (wire_response r <= 512)%N /\
  exists whole, (handle_request h (over_tcp request) now elapsed send).1.2 = Some whole /\ in_full answer whole /\
    if (512 <? response_size_bound request answer)%N
    then rs_metadata r = mkMetadata (id (rs_metadata whole)) (message_type (rs_metadata whole)) (op_code (rs_metadata whole))
                           (authoritative (rs_metadata whole)) true (response_code (rs_metadata whole)) /\
         rs_answers r ++ rs_name_servers r ++ rs_soa r ++ rs_additionals r = []
    else r = whole.
Proof.
  intros Hp He Hq Hsent x. rewrite sent_cases in Hsent. rewrite Hp, bool_decide_true in Hsent by done.
  destruct (limited h request now) eqn:Hlim; [done|]. injection Hsent as <-.
  change (validate _ _ _) with x. assert (Hfits := udp_response_fits request x q Hp He Hq).
  split_and!; [unfold build_response; rewrite He; by destruct (truncate _ _ _)|done|].
  exists (build_response (over_tcp request) x). split; [|split; [apply tcp_response|]].
  - rewrite sent_cases. change (limited h (over_tcp request) now) with (limited h request now). by rewrite Hlim.
  - exact (udp_response request x Hp He).
Qed.

(** The response has an OPT record exactly when the request had one; the payload
    it advertises is the client's, kept between 512 and 1232, and its version 0. *)
Theorem edns_is_clamped {ML : HickoryMessagesLaws HM} h request now elapsed send r :
  (handle_request h request now elapsed send).1.2 = Some r ->
  match rq_edns request with
  | None => rs_edns r = None
  | Some e => exists e', rs_edns r = Some e' /\ version e' = 0%N /\
      max_payload e' = N.max 512 (N.min (max_payload e) 1232)
  end.
Proof.
  intros Hsent.
  assert (exists x, r = build_response request x) as [x ->].
  { rewrite sent_cases in Hsent. destruct (limited h request now); [case_bool_decide; [done|]|]; injection Hsent as <-; eauto. }
  unfold build_response. destruct (truncate _ _ _). cbn [rs_edns]. destruct (rq_edns request) as [e|]; [|done].
  eexists. split; [done|]. unfold response_edns. rewrite version_set, max_payload_set_version, max_payload_set.
  - split; [done|]. unfold clampN, MIN_EDNS_PAYLOAD, MAX_EDNS_PAYLOAD.
    destruct (_ <? 512)%N eqn:E1; [|destruct (1232 <? _)%N eqn:E2]; bool_prop; lia.
  - unfold clampN, MIN_EDNS_PAYLOAD, MAX_EDNS_PAYLOAD.
    destruct (_ <? 512)%N eqn:E1; [|destruct (1232 <? _)%N eqn:E2]; bool_prop; lia.
Qed.

(** C12: every negative answer is authoritative and carries the zone's SOA and nothing
    else; the AA bit is clear only on a refusal and on a referral with no answer
    records; and the only codes are NOERROR, NXDOMAIN and REFUSED. *)
Theorem negative_answers_carry_soa count active name t src :
  let r := resolve count active name t src in
  (code r = NXDomain -> r = negative NXDomain (soa (zone active))) /\
  (code r = NoError -> answers r = [] -> res_authoritative r = true -> r = negative NoError (soa (zone active))) /\
  (res_authoritative r = false -> answers r = [] /\ (r = refused \/
     exists u, Zone_lookup (zone active) name u = ReferralAnswer [] (authority r) (additional r))) /\
  code r ∈ [NoError; NXDomain; Refused].
Proof.
  intros r. unfold r.
  destruct (resolve_shape count active name t src) as [Hz|rs Hrs|c Hc|ans auth add u Hu].
  - split; [done|]. split; [done|]. split; [intros _; split; [done|by left]|]. cbn. rewrite !elem_of_cons. auto.
  - split; [done|]. split; [done|]. split; [done|]. cbn. rewrite !elem_of_cons. auto.
  - split; [by destruct Hc as [-> | ->]|]. split; [by destruct Hc as [-> | ->]|]. split; [done|].
    cbn. rewrite !elem_of_cons. destruct Hc as [-> | ->]; auto.
  - split; [done|]. split; [cbn; by intros _ ->|]. split; [|cbn; rewrite !elem_of_cons; auto].
    cbn. destruct ans; [|done]. intros _. split; [done|]. right. by exists u.
Qed.

(** ** Counters *)

(** The trace a request leaves, in the terms of [Metrics]. *)
Definition trace_of (h : DnsHandler) (request : Request) (now elapsed : N)
    (send : Response -> result string ResponseInfo) : RequestTrace :=
  mkRequest (transport_of (rq_protocol request)) (limited h request now) elapsed
    ((fun r => match send r with
               | Ok info => (response_code (info_metadata info), false)
               | Err _ => (ServFail, true)
               end) <$> (handle_request h request now elapsed send).1.2).


End Promises.
