(* ===== verification/HandlerAnswers.v ===== *)
(** * ANY queries and the diagnostic names (src/src/handler.rs)

    RFC 8482's minimal answer against the zone's own notion of existence, the zone
    cut it overlooks, and the length of the greeting. *)

From S2P Require Import Prelude Names Rdata Hashing Zone Lookup Answers.
From S2P Require Import Cas RateLimit Metrics Handler HandlerFacts.

Section Any.
Context {HN : HickoryNames} {HR : HickoryRdata HN} {HT : HashTableApi} {HM : HickoryMessages} {HC : Crate}.
Context {HL : HickoryNamesLaws HN} {TL : HashTableLaws HT}.
Context (count : N) (a : Active) (Hwf : ZoneWf (zone a)) (name : LowerName) (src : IpAddr).
Context (Hin : Zone_contains (zone a) name = true).

Abbreviation az := (abs_zone (zone a)).

Definition is_referral (x : Answer) : Prop := match x with ReferralAnswer _ _ _ => True | _ => False end.

Lemma in_zone : under_origin (az_origin az) (liter name) = true.
Proof using Hin Hwf HL. rewrite <- (contains_under _ Hwf). exact Hin. Qed.

(** A name that does not exist: NXDOMAIN when no cut is above it, and the same
    referral for every type when one is. *)
Lemma missing_lookup t :
  Zone_exists (zone a) name = false ->
  is_referral (Zone_lookup (zone a) name RT_CNAME) /\
    Zone_lookup (zone a) name t = Zone_lookup (zone a) name RT_CNAME /\
    (exists auth add, Zone_lookup (zone a) name t = ReferralAnswer [] auth add) \/
  ~ is_referral (Zone_lookup (zone a) name RT_CNAME) /\ Zone_lookup (zone a) name t = NxDomain.
Proof using Hin Hwf HL TL.
  rewrite exists_spec by (done || apply under_origin_spec, in_zone). unfold spec_exists.
  rewrite !lookup_spec by done. unfold spec_lookup. cbn [lookup_fuel spec_resolve]. rewrite in_zone. cbn [negb].
  destruct (az_node az (liter name)); [done|]. destruct (climb _ _) as [ce|]; [|intros _; right; split; [by intros []|done]].
  destruct (az_node az (WILDCARD_LABEL :: ce)); [done|]. intros _.
  destruct (is_none _); cbn [negb]; [right; split; [by intros []|done]|left].
  destruct (referrals _ !! _) as [r|]; (split; [done|]; split; [done|]; by do 2 eexists).
Qed.

Lemma existing_lookup t : Zone_exists (zone a) name = true -> Zone_lookup (zone a) name t <> NxDomain.
Proof using Hin Hwf HL TL.
  rewrite exists_spec by (done || apply under_origin_spec, in_zone). unfold spec_exists.
  rewrite lookup_spec by done. intros He [H|[Hn Hc]]%spec_lookup_nx_inv; [by rewrite in_zone in H|].
  rewrite Hn in He. destruct (climb _ _) as [ce|]; [|done]. destruct Hc as [_ Hw]. by rewrite Hw in He.
Qed.

(** The answer to ANY, outside the built-ins. *)
Lemma any_answer (Hb : resolve_builtin count a name RT_ANY src = None) :
  resolve count a name RT_ANY src =
    if Zone_exists (zone a) name then
      match Zone_lookup (zone a) name RT_CNAME with
      | ReferralAnswer ans auth add => Resolved_referral (is_authoritative (ReferralAnswer ans auth add)) ans auth add
      | Records ((_ :: _) as cnames) => found cnames
      | _ => found [minimal_any (name_from name) (default_ttl (zone a))]
      end
    else negative NXDomain (soa (zone a)).
Proof using Hin.
  unfold resolve. rewrite Hin, Hb. cbn [negb]. change (is_any RT_ANY) with true. cbv iota.
  destruct (Zone_exists (zone a) name); cbn [negb]; [|done].
  by destruct (Zone_lookup (zone a) name RT_CNAME) as [[|r rs]|ans auth add| |].
Qed.

(** C14: for a name of the zone no cut is above, and that is none of the diagnostic names
    (which answer ANY for themselves), ANY says the name exists exactly when every other
    type does, whatever a wildcard covers; and where it exists the answer is the CNAMEs
    at the name, or one synthetic HINFO - never the whole node. *)
Theorem any_agrees_and_is_minimal t :
  resolve_builtin count a name RT_ANY src = None ->
  ~ is_referral (Zone_lookup (zone a) name RT_CNAME) ->
  let r := resolve count a name RT_ANY src in
  (code r = NXDomain <-> Zone_lookup (zone a) name t = NxDomain) /\
  (code r <> NXDomain ->
     (exists cnames, Zone_lookup (zone a) name RT_CNAME = Records cnames /\ r = found cnames) \/
     r = found [minimal_any (name_from name) (default_ttl (zone a))]).
Proof.
  intros Hb Hr r. unfold r. rewrite any_answer by done.
  destruct (Zone_exists (zone a) name) eqn:He.
  - pose proof (existing_lookup t He) as Ht.
    destruct (Zone_lookup (zone a) name RT_CNAME) as [[|c cs]|ans auth add| |]; try (by exfalso; apply Hr);
      (split; [by split|]); eauto.
  - destruct (missing_lookup t He) as [[? _]|[_ ->]]; [done|]. by split.
Qed.

(** Below a zone cut the two part: for a name that is not in the zone's arena and
    that no wildcard covers, every other type is answered with the referral, and ANY
    with an authoritative NXDOMAIN. *)
Theorem any_below_cut_is_denied t ans auth add :
  builtins a = None -> is_any t = false ->
  Zone_exists (zone a) name = false -> Zone_lookup (zone a) name t = ReferralAnswer ans auth add ->
  resolve count a name t src = Resolved_referral false [] auth add /\
  resolve count a name RT_ANY src = negative NXDomain (soa (zone a)).
Proof.
  intros Hb Ht He Hl.
  assert (Hbi : forall u, resolve_builtin count a name u src = None) by (intros u; unfold resolve_builtin; by rewrite Hb).
  split; [|by rewrite any_answer, He by done].
  destruct (missing_lookup t He) as [(_ & _ & auth' & add' & Hl')|[_ Hl']]; rewrite Hl in Hl'; [|done]. injection Hl' as -> -> ->.
  unfold resolve. rewrite Hin, Hbi, Ht, Hl. cbn [negb]. case_bool_decide as Hapex; [|by rewrite andb_false_r].
  exfalso. destruct (find_apex _ Hwf) as (nd & Hf & _). rewrite <- Hapex in Hf. revert He.
  rewrite exists_spec by (done || apply under_origin_spec, in_zone). unfold spec_exists. cbn [az_node abs_zone]. by rewrite Hf.
Qed.

End Any.

(** ** The greeting *)

Section Greeting.
Context {HN : HickoryNames} {HL : HickoryNamesLaws HN}.

Lemma lossy_ascii l : Forall (fun c => c < 128)%N l -> from_utf8_lossy l = l.
Proof using.
  unfold from_utf8_lossy. induction 1 as [|c l Hc _ IH]; [done|]. cbn [utf8_lossy].
  apply N.ltb_lt in Hc. by rewrite Hc, IH.
Qed.

Lemma join_length ls : (length (join_spaces ls) <= sum_list_with (fun l => S (length l)) ls - 1)%nat.
Proof using.
  induction ls as [|l ls IH]; [done|]. destruct ls as [|l' ls']; [simpl; lia|].
  change (join_spaces (l :: l' :: ls')) with (l ++ 32%N :: join_spaces (l' :: ls')).
  rewrite length_app. cbn [length]. change (sum_list_with (fun l => S (length l)) (l :: l' :: ls'))
    with (S (length l) + sum_list_with (fun l => S (length l)) (l' :: ls'))%nat.
  assert (1 <= sum_list_with (fun l => S (length l)) (l' :: ls'))%nat by (simpl; lia). lia.
Qed.

Lemma sum_take (ls : list label) k :
  (sum_list_with (fun l => S (length l)) (take k ls) <= sum_list_with (fun l => S (length l)) ls)%nat.
Proof using. revert k. induction ls as [|l ls IH]; intros [|k]; simpl; [lia..|]. specialize (IH k). lia. Qed.

Definition HELLO : label := octets_of_string "hello".

Lemma hello_labels origin t b : Builtins_new origin t = Some b -> liter (hello b) = HELLO :: liter origin.
Proof using HL.
  unfold Builtins_new. destruct (name_parse "hello" (name_from origin)) as [n|] eqn:En; [|done]. cbn [fmap option_fmap option_map mbind option_bind].
  destruct (name_parse "counter" _); [|done]. destruct (name_parse "myip" _); [|done]. destruct (name_parse "version" _); [|done].
  intros [= <-]. cbn [hello]. rewrite liter_lower_from. apply name_parse_label in En; [|done|done].
  rewrite En. cbn [map]. rewrite iter_name_from, liter_lowercase. done.
Qed.

(** The labels the greeting takes are the ones in front of the zone's own. *)
Lemma greeting_extra origin t b name :
  Builtins_new origin t = Some b -> zone_of (hello b) name = true ->
  exists p, liter name = p ++ HELLO :: liter origin /\
    (N.to_nat (num_labels (name_from name) - num_labels (name_from (hello b))) <= length p)%nat.
Proof using HL.
  intros Hb Hz. apply hello_labels in Hb. rewrite zone_of_spec in Hz by (by rewrite Hb). destruct Hz as [p Hp].
  rewrite Hb in Hp. exists p. split; [done|]. rewrite !num_labels_spec, !iter_name_from, Hb, Hp.
  rewrite (bool_decide_eq_false_2 (head (HELLO :: liter origin) = Some WILDCARD_LABEL)) by done.
  rewrite length_app. cbn [length]. case_bool_decide; lia.
Qed.

(** The greeting of a name in ASCII always fits the 255 octets of a
    character-string, whatever the origin. *)
Theorem greeting_fits origin t b name :
  Builtins_new origin t = Some b -> zone_of (hello b) name = true ->
  Forall (Forall (fun c => c < 128)%N) (liter name) ->
  (length (greeting (name_from name) (hello b)) <= 255)%nat.
Proof.
  intros Hb Hz Hascii. destruct (greeting_extra _ _ _ _ Hb Hz) as (p & Hp & Hextra).
  unfold greeting. set (extra := N.to_nat _) in *. destruct (extra =? 0)%nat; [vm_compute; lia|].
  rewrite iter_name_from, Hp in *. rewrite take_app_le by done.
  apply Forall_app in Hascii as [Hascii _].
  assert (Hmap : map from_utf8_lossy (take extra p) = take extra p).
  { apply (Forall_take _ extra) in Hascii. induction Hascii as [|l ls Hl _ IH]; [done|]. cbn [map]. by rewrite lossy_ascii, IH. }
  rewrite Hmap, length_app. change (length (octets_of_string "hello, ")) with 7%nat.
  pose proof (join_length (take extra p)) as Hj. pose proof (sum_take p extra) as Ht.
  pose proof (name_octet_limit (name_from name)) as Hlim. rewrite iter_name_from, Hp in Hlim.
  unfold name_octets in Hlim. rewrite sum_list_with_app in Hlim.
  change (sum_list_with (fun l => S (length l)) (HELLO :: liter origin))
    with (6 + sum_list_with (fun l => S (length l)) (liter origin))%nat in Hlim. lia.
Qed.

End Greeting.
