(* ===== verification/HandlerExamples.v ===== *)
(** * Requests, handled (src/src/handler.rs)

    The zone of [ZoneExamples] behind a handler, a few requests, and every theorem
    about the handler applied to one of them. *)

From S2P Require Import Prelude Names Rdata Plain Hashing Zone Lookup Build Answers ZoneExamples.
From S2P Require Import Cas RateLimit Metrics Handler HandlerFacts HandlerTheorems HandlerAnswers.

(** ** A concrete reading of messages *)

(** EDNS as its payload and version; the library's own floor of 512 included. *)
#[global] Instance plain_messages : HickoryMessages := {|
  Edns := N * N;
  edns_new := (1232, 0)%N;
  set_max_payload e p := (N.max 512 p, e.2);
  set_version e v := (e.1, v);
  max_payload := fst;
  version := snd;
  response_from_request m := mkMetadata (id m) MsgResponse (op_code m) false false NoError;
|}.

#[global] Instance plain_messages_laws : HickoryMessagesLaws plain_messages.
Proof. constructor; cbn; intros; [lia|done|done]. Qed.

#[global] Instance plain_crate : Crate := {| NAME := "vega"; VERSION := "0.0.0" |}.

(** ** The example *)

Open Scope string_scope.

Definition ex_handler (limiter : option RateLimiter) : DnsHandler := DnsHandler_new ex_z true (Metrics_new 0) limiter.

Definition ex_active : Active := h_active (ex_handler None).

Definition ex_request (proto : Protocol) (edns : option (N * N)) (name : string) (t : RecordType) : Request :=
  mkRequestMsg (V4 3221226219) proto (mkMetadata 7 MsgQuery OpQuery false false NoError) edns
    [mkQuery (low name) t CLASS_IN].

(** A network that always delivers, and one that never does. *)
Definition delivers (r : Response) : result string ResponseInfo := Ok (mkInfo (rs_metadata r) 1 0 0 0).
Definition breaks (r : Response) : result string ResponseInfo := Err "closed".

(** A limiter of one query, and the same once it has been used. *)
Definition ex_limiter : RateLimiter := RateLimiter_new (fun k => k) 0 1 1.
Definition spent : RateLimiter := (check_at ex_limiter (V4 3221226219) 5000000).1.

Definition sent_of (h : DnsHandler) (rq : Request) : option Response :=
  (handle_request h rq 5000000 1000 delivers).1.2.

Definition some_or {A} (d : A) (o : option A) : A := match o with Some a => a | None => d end.

Lemma some_or_some {A} (d : A) o : is_present o = true -> o = Some (some_or d o).
Proof. by destruct o. Qed.

Definition no_response : Response := mkResponse (mkMetadata 0 MsgQuery OpQuery false false NoError) [] None [] [] [] [].

Definition ex_response (rq : Request) : Response := some_or no_response (sent_of (ex_handler None) rq).

Definition rq_host : Request := ex_request ProtoUdp None "a.b.z." RT_A.
Definition rq_edns_host : Request := ex_request ProtoTcp (Some (8192, 0)%N) "a.b.z." RT_A.

Lemma silence_is_only_the_limiter_witness : sent_of (ex_handler (Some spent)) rq_host = None.
Proof.
  apply (proj2 (proj1 (silence_is_only_the_limiter (ex_handler (Some spent)) rq_host 5000000 1000 delivers))).
  split; [vm_compute; reflexivity|reflexivity].
Defined.

Lemma data_only_for_valid_queries_witness :
  exists q, valid_query rq_host q /\ rs_queries (ex_response rq_host) = [q] /\
    Zone_contains (zone ex_active) (query_name q) = true.
Proof.
  apply (data_only_for_valid_queries (ex_handler None) rq_host 5000000 1000 delivers).
  - apply some_or_some. vm_compute. reflexivity.
  - left. apply is_nil_false. vm_compute. reflexivity.
Defined.

(** Two addresses fit: the response over UDP is the one over TCP. *)
Lemma udp_without_edns_fits_witness :
  (wire_response (ex_response rq_host) <= 512)%N /\ sent_of (ex_handler None) (over_tcp rq_host) = Some (ex_response rq_host).
Proof.
  assert (Ht : truncation (rs_metadata (ex_response rq_host)) = false) by evaluate.
  assert (Hr : sent_of (ex_handler None) rq_host = Some (ex_response rq_host)) by (apply some_or_some; evaluate).
  revert Hr Ht. generalize (ex_response rq_host). unfold sent_of.
  assert (Hq : rq_queries rq_host = [mkQuery (low "a.b.z.") RT_A CLASS_IN]) by reflexivity.
  assert (Hp : rq_protocol rq_host = ProtoUdp) by reflexivity. assert (He : rq_edns rq_host = None) by reflexivity.
  revert Hq Hp He. generalize rq_host, (ex_handler None). intros rq h Hq Hp He r Hs Ht.
  destruct (udp_without_edns_fits h rq 5000000 1000 delivers r (mkQuery (low "a.b.z.") RT_A CLASS_IN) Hp He Hq Hs)
    as (_ & Hw & whole & Hsent & _ & H).
  split; [exact Hw|]. rewrite Hsent. f_equal. revert H. destruct (512 <? _)%N.
  - intros [Hm _]. apply (f_equal truncation) in Hm. rewrite Ht in Hm. discriminate Hm.
  - intros H. by rewrite <- H.
Defined.

Lemma edns_is_clamped_witness :
  exists e', rs_edns (ex_response rq_edns_host) = Some e' /\ version e' = 0%N /\ max_payload e' = 1232%N.
Proof.
  apply (edns_is_clamped (ex_handler None) rq_edns_host 5000000 1000 delivers).
  apply some_or_some. vm_compute. reflexivity.
Defined.

Lemma negative_answers_carry_soa_witness :
  resolve 0 ex_active (low "q.z.") RT_A (V4 1) = negative NXDomain (soa (zone ex_active)).
Proof. apply (negative_answers_carry_soa 0 ex_active (low "q.z.") RT_A (V4 1)). vm_compute. reflexivity. Defined.

(** ** ANY *)

Definition is_referral_b (x : Answer) : bool := match x with ReferralAnswer _ _ _ => true | _ => false end.

Lemma not_referral {x : Answer} : is_referral_b x = false -> ~ is_referral x.
Proof. destruct x; [by intros _ []|done|by intros _ []|by intros _ []]. Qed.

Lemma resolve_builtin_absent a n t src :
  is_present (resolve_builtin 0 a n t src) = false -> resolve_builtin 0 a n t src = None.
Proof. by destruct (resolve_builtin 0 a n t src). Qed.

(** A name only a wildcard covers exists for ANY as it does for A. *)
Lemma any_agrees_and_is_minimal_witness :
  code (resolve 0 ex_active (low "q.d.z.") RT_ANY (V4 1)) = NXDomain <->
  Zone_lookup (zone ex_active) (low "q.d.z.") RT_A = NxDomain.
Proof.
  apply (any_agrees_and_is_minimal 0 ex_active ex_wf (low "q.d.z.") (V4 1)).
  - vm_compute. reflexivity.
  - apply resolve_builtin_absent. vm_compute. reflexivity.
  - apply not_referral. vm_compute. reflexivity.
Defined.

Definition bare_active : Active := mkActive ex_z None.

Definition referral_parts (x : Answer) : list DnsRecord * list DnsRecord * list DnsRecord :=
  match x with ReferralAnswer a b c => (a, b, c) | _ => ([], [], []) end.

Lemma referral_parts_eq (x : Answer) : is_referral_b x = true ->
  x = ReferralAnswer (referral_parts x).1.1 (referral_parts x).1.2 (referral_parts x).2.
Proof. by destruct x. Qed.

Lemma any_below_cut_is_denied_witness :
  resolve 0 bare_active (low "q.s.z.") RT_ANY (V4 1) = negative NXDomain (soa (zone bare_active)).
Proof.
  assert (Hin : Zone_contains (zone bare_active) (low "q.s.z.") = true) by (vm_compute; reflexivity).
  assert (He : Zone_exists (zone bare_active) (low "q.s.z.") = false) by (vm_compute; reflexivity).
  assert (Hr : is_referral_b (Zone_lookup (zone bare_active) (low "q.s.z.") RT_A) = true) by (vm_compute; reflexivity).
  exact (proj2 (any_below_cut_is_denied 0 bare_active ex_wf (low "q.s.z.") (V4 1) Hin RT_A _ _ _
    eq_refl eq_refl He (referral_parts_eq _ Hr))).
Defined.

(** ** The greeting *)

Definition no_builtins : Builtins := mkBuiltins (low ".") (low ".") (low ".") (low ".") 0.

Definition ex_builtins : Builtins := some_or no_builtins (Builtins_new (lower_origin ex_z) (default_ttl ex_z)).

Lemma ex_builtins_present : is_present (Builtins_new (lower_origin ex_z) (default_ttl ex_z)) = true.
Proof. vm_compute. reflexivity. Qed.

Lemma ascii_check (ls : list label) :
  forallb (forallb (fun c => c <? 128)%N) ls = true -> Forall (Forall (fun c => c < 128)%N) ls.
Proof.
  rewrite forallb_forall, Forall_forall. intros H l Hl%list_elem_of_In. specialize (H l Hl).
  rewrite forallb_forall in H. apply Forall_forall. intros c Hc%list_elem_of_In. by apply N.ltb_lt, H.
Qed.

Lemma greeting_fits_witness :
  (length (greeting (name_from (low "you.hello.z.")) (hello ex_builtins)) <= 255)%nat.
Proof.
  apply (greeting_fits (lower_origin ex_z) (default_ttl ex_z)).
  - exact (some_or_some no_builtins _ ex_builtins_present).
  - vm_compute. reflexivity.
  - apply ascii_check. vm_compute. reflexivity.
Defined.

Example greeting_of_you :
  greeting (name_from (low "you.hello.z.")) (hello ex_builtins) = octets_of_string "hello, you".
Proof. vm_compute. reflexivity. Qed.

(** Two labels of octets that are not UTF-8 triple in length, and the text no longer
    fits a character-string. *)
Definition garbage : PlainLower :=
  let l := replicate 63 255%N in
  match lower_of_raw {| raw_labels := [l; l; octets_of_string "hello"; octets_of_string "z"]; raw_fqdn := true |} with
  | Some n => n
  | None => low "."
  end.

Example greeting_overflows :
  (255 <? length (greeting (name_from garbage : @Name plain_names) (hello ex_builtins)))%nat = true.
Proof. vm_compute. reflexivity. Qed.

(** [num_labels] discounts the asterisk, so the label after it is lost. *)
Example greeting_after_star :
  greeting (name_from (low "*.you.hello.z.")) (hello ex_builtins) = octets_of_string "hello, *".
Proof. vm_compute. reflexivity. Qed.

Close Scope string_scope.
