(* ===== verification/FileServer.v ===== *)
(** * FileServer: the responses, read off the configuration

    What a server of a configuration owes a valid question, from the record blocks and
    the SOA section alone: the standard's answer ([file_lookup]) as a response, with
    RFC 8482's for ANY, and what the diagnostic names say.  [Active::resolve]
    (src/src/handler.rs) says this, but for the questions of [answer_departs]. *)

From S2P Require Import Prelude Names Rdata Hashing Zone Lookup Build Checked BuildFacts LayoutFacts ArenaFacts Finish.
From S2P Require Import Totality Served Asserts Answers ZoneTheorems Declared FileZone.
From S2P Require Import Cas RateLimit Metrics Handler HandlerFacts.
From stdpp Require Import pretty.
Local Open Scope vega_scope.

Section FileServer.
Context {HN : HickoryNames} {HR : HickoryRdata HN} {HC : Crate}.

(** The SOA of the zone: the section's, or else the one at the apex. *)
Definition file_soa (cfg : ZoneConfig) (origin : Name) (ds : list Declaration) : option DnsRecord :=
  match zc_soa cfg with
  | Some spec => match build_soa origin spec with Ok r => Some r | Err _ => None end
  | None => head (file_records ds (liter (lower_from origin)) RT_SOA)
  end.

(** A referral below a delegation, whatever the type; otherwise the denial, the answer or
    the absence of one.  ANY is answered with the name's CNAME, or with one HINFO. *)
Definition file_resolve (cfg : ZoneConfig) (name : LowerName) (t : RecordType) : Resolved :=
  match parse_name (zc_origin cfg), declarations cfg with
  | Ok origin, Ok ds =>
      match file_soa cfg origin ds with
      | Some soa =>
          let answer := file_lookup cfg name (if is_any t then RT_CNAME else t) in
          if negb (under_origin (liter (lower_from origin)) (liter name)) then refused
          else if (t =? RT_SOA)%N && bool_decide (name = lower_from origin) then found [soa]
          else match answer with
               | ReferralAnswer answers authority additional =>
                   Resolved_referral (is_authoritative answer) answers authority additional
               | NxDomain => negative NXDomain soa
               | Records ((_ :: _) as records) => found records
               | _ => if is_any t then found [minimal_any (name_from name) (zc_default_ttl cfg)] else negative NoError soa
               end
      | None => refused
      end
  | _, _ => refused
  end.

(** The questions the program answers otherwise: ANY for a name below a delegation that
    is neither in the file nor covered by a wildcard there, which it denies; and another
    type where the chain reaches the alias of a wildcard. *)
Definition answer_departs (cfg : ZoneConfig) (name : LowerName) (t : RecordType) : bool :=
  if is_any t then of_file cfg false (fun v => is_present (v_cut v (liter name)) && negb (is_present (source v (liter name))))
  else file_departs cfg name t.

(** The diagnostic names of the zone, where they are on. *)
Definition file_builtins (cfg : ZoneConfig) (origin : Name) : option Builtins :=
  if zc_builtins cfg then Builtins_new (lower_from origin) (zc_default_ttl cfg) else None.

(** What they say: the caller's address, the count of queries, the version and a
    greeting; of any other type, nothing. *)
Definition file_diagnostic (b : Builtins) (soa : DnsRecord) (count : N) (name : LowerName) (t : RecordType) (src : IpAddr)
    : option Resolved :=
  let own := match src with V4 a => (RD_A a, RT_A) | V6 a => (RD_AAAA a, RT_AAAA) end in
  let text := fun octets => Some (txt_builtin (name_from name) t (ttl b) octets soa) in
  if zone_of (myip b) name then
    Some (if (t =? own.2)%N || (t =? RT_ANY)%N then found [from_rdata (name_from name) (ttl b) own.1] else negative NoError soa)
  else if zone_of (counter b) name then text (octets_of_string (pretty count))
  else if zone_of (version_name b) name then text (octets_of_string (NAME +:+ " " +:+ VERSION))
  else if zone_of (hello b) name then text (greeting (name_from name) (hello b))
  else None.

(** Everything a server of the configuration says. *)
Definition file_respond (cfg : ZoneConfig) (count : N) (name : LowerName) (t : RecordType) (src : IpAddr) : Resolved :=
  match parse_name (zc_origin cfg), declarations cfg with
  | Ok origin, Ok ds =>
      match file_soa cfg origin ds with
      | Some soa =>
          if negb (under_origin (liter (lower_from origin)) (liter name)) then refused
          else default (file_resolve cfg name t)
                 (file_builtins cfg origin ≫= fun b => file_diagnostic b soa count name t src)
      | None => refused
      end
  | _, _ => refused
  end.

End FileServer.

Section Agree.
Context {HN : HickoryNames} {HL : HickoryNamesLaws HN} {HR : HickoryRdata HN} {HO : HashOrder}.
Context {HT : HashTableApi} {TL : HashTableLaws HT} {HM : HickoryMessages} {HC : Crate}.
Context (seed : N) (cfg : ZoneConfig) (b : ZoneBuilder) (z : Zone) (Hs : serves seed cfg b z).
Context (ds : list Declaration) (Hds : declarations cfg = Ok ds).
Context (origin : Name) (Hor : parse_name (zc_origin cfg) = Ok origin).

Lemma apex_reads : lower_from origin = zb_lower_origin b.
Proof. exact (served_origin _ _ (sv_builder _ _ _ _ Hs) origin Hor). Qed.

Lemma exists_reads name :
  under_origin (liter (zb_lower_origin b)) (liter name) = true ->
  Zone_exists z name = is_present (source (file_view ds (liter (zb_lower_origin b))) (liter name)).
Proof.
  intros Hu. rewrite exists_spec; [|eauto with vega|apply under_origin_spec].
  2:{ pose proof (serves_origin _ _ _ _ Hs) as Ho. cbn in Ho. by rewrite Ho. }
  rewrite (source_views _ _ _ _ Hs ds Hds). unfold spec_exists, source. rewrite encloser_climb. cbn [v_node az_view].
  destruct (az_node (abs_zone z) (liter name)); [done|]. destruct (climb _ _) as [ce|]; [|done]. by destruct (az_node _ _).
Qed.

Lemma head_find_of_type t runs : List.find (fun r => (sr_type r =? t)%N) runs = head (of_type t runs).
Proof.
  unfold of_type. induction runs as [|r runs IH]; [done|]. cbn [List.find]. rewrite filter_cons.
  destruct (sr_type r =? t)%N eqn:E; bool_prop; [by rewrite decide_True|by rewrite decide_False].
Qed.

Lemma soa_reads : file_soa cfg origin ds = Some (soa z).
Proof.
  unfold file_soa. pose proof (sv_builder _ _ _ _ Hs) as Hcb. pose proof (config_builder_origin _ _ Hcb) as Ho.
  rewrite Hor in Ho. injection Ho as Ho. pose proof (sv_built _ _ _ _ Hs) as Hz. rewrite (from_config_unfold _ _ b Hcb), <- Ho in Hz.
  pose proof (config_builder_ok _ _ (sv_plain _ _ _ _ Hs) Hcb) as Hb.
  destruct (zc_soa cfg) as [spec|]; cbn [rbind] in Hz.
  - destruct (build_soa origin spec) as [r|]; cbn [rbind] in Hz; [|done]. destruct (finish_inv _ _ _ _ Hz) as (ly & ar & Hf).
    symmetry. apply (fi_soa _ _ _ _ _ _ Hf).
  - destruct (finish_inv _ _ _ _ Hz) as (ly & ar & Hf). rewrite (fi_soa _ _ _ _ _ _ Hf), apex_reads. unfold apex_soa_record.
    destruct (apex_present b Hb) as [sa Ha].
    assert (Hlo : zb_lower_origin (closed_builder b) = zb_lower_origin b) by apply (closed_builder_ok b Hb).
    rewrite Hlo, Ha. cbn [mbind option_bind]. rewrite head_find_of_type, (file_records_spec _ _ _ _ Hs ds Hds _ sa) by done.
    pose proof (nk_runs _ _ _ (node_ok b Hb _ sa Ha)) as Hr. unfold scratch_values.
    destruct (of_type RT_SOA (sn_rrsets sa)) as [|run runs] eqn:E; [done|].
    assert (Hin : run ∈ of_type RT_SOA (sn_rrsets sa)) by (rewrite E; left). apply list_elem_of_filter in Hin as [_ Hin].
    rewrite Forall_forall in Hr. specialize (Hr run Hin). cbn. by destruct (sr_rdata run).
Qed.

Lemma default_ttl_reads : default_ttl z = zc_default_ttl cfg.
Proof.
  destruct (serves_finished _ _ _ _ Hs) as (soa_in & ly & ar & Hb & Hf). rewrite (fi_ttl _ _ _ _ _ _ Hf).
  pose proof (sv_builder _ _ _ _ Hs) as H. unfold config_builder in H. rewrite Hor in H. cbn [rbind map_err] in H.
  revert H. apply (fold_res_ind (fun b => zb_default_ttl b = zc_default_ttl cfg)); [|done].
  intros b1 spec b2 _ Ho (_ & _ & H)%insert_spec_frame. congruence.
Qed.


Lemma file_at {A} (d : A) f : of_file cfg d f = f (file_view ds (liter (lower_from origin))).
Proof. unfold of_file. by rewrite Hor, Hds. Qed.

Lemma lookup_reads name t : Zone_lookup z name t = file_served cfg name t.
Proof.
  apply (zone_reads_the_file seed); [apply Hs|apply Hs|]. intros b' Hb'.
  rewrite (sv_builder _ _ _ _ Hs) in Hb'. injection Hb' as <-. apply Hs.
Qed.

Lemma cname_reads name : Zone_lookup z name RT_CNAME = file_lookup cfg name RT_CNAME.
Proof. rewrite lookup_reads. apply file_served_standard; [done|]. unfold file_departs. rewrite file_at. apply cname_never_departs. Qed.

(** ANY, gated on existence first, as the handler does it. *)
Lemma any_reads name :
  under_origin (liter (zb_lower_origin b)) (liter name) = true -> answer_departs cfg name RT_ANY = false ->
  if Zone_exists z name then file_lookup cfg name RT_CNAME <> NxDomain else file_lookup cfg name RT_CNAME = NxDomain.
Proof.
  intros Hu Hd. rewrite (exists_reads _ Hu). unfold answer_departs in Hd. cbn [is_any] in Hd. change (is_any RT_ANY) with true in Hd.
  cbn iota in Hd. rewrite file_at, apex_reads in Hd. unfold file_lookup. rewrite file_at, apex_reads.
  set (v := file_view ds _) in *. assert (Hu' : under_origin (v_origin v) (liter name) = true) by done.
  destruct (v_cut v (liter name)) as [r|] eqn:Hc.
  - destruct (source v (liter name)); [cbn|done]. unfold standard_lookup. change MAX_CNAME_DEPTH with (S (pred MAX_CNAME_DEPTH)).
    cbn [chase]. unfold standard_step. by rewrite Hu', Hc.
  - pose proof (standard_nxdomain v name Hu' Hc) as [H1 H2]. destruct (source v (liter name)); cbn [is_present]; [|by apply H2].
    intros H. by discriminate (H1 H).
Qed.

(** [Active::resolve] over a zone built from the configuration. *)
Lemma resolve_reads count a name t src :
  zone a = z -> resolve_builtin count a name t src = None -> answer_departs cfg name t = false ->
  resolve count a name t src = file_resolve cfg name t.
Proof.
  intros Hz Hb Hdep. unfold resolve, file_resolve. rewrite Hz, Hb, Hor, Hds, soa_reads.
  rewrite contains_under, default_ttl_reads by (eauto with vega).
  pose proof (serves_origin _ _ _ _ Hs) as Ho. rewrite Ho, apex_reads. cbn in Ho.
  destruct (under_origin (liter (zb_lower_origin b)) (liter name)) eqn:Hu; cbn [negb]; [|done].
  destruct (is_any t) eqn:Hany.
  - apply N.eqb_eq in Hany as ->. pose proof (any_reads name Hu Hdep) as Hex. rewrite cname_reads. cbn [andb].
    change (RT_ANY =? RT_SOA)%N with false. cbn [andb].
    destruct (Zone_exists z name); cbn [negb]; [|by rewrite Hex]. by destruct (file_lookup cfg name RT_CNAME) as [[|]| | |].
  - destruct (serves_finished _ _ _ _ Hs) as (soa_in & ly & ar & _ & Hf). rewrite (fi_origin _ _ _ _ _ _ Hf).
    unfold answer_departs in Hdep. rewrite Hany in Hdep. rewrite lookup_reads, file_served_standard by done.
    destruct (_ && _); [done|]. by destruct (file_lookup cfg name t) as [[|]| | |].
Qed.

Lemma diagnostic_reads count name t src :
  resolve_builtin count (Active_new z (zc_builtins cfg)) name t src =
  file_builtins cfg origin ≫= fun b => file_diagnostic b (soa z) count name t src.
Proof.
  destruct (serves_finished _ _ _ _ Hs) as (soa_in & ly & ar & _ & Hf).
  unfold resolve_builtin, file_builtins, Active_new. cbn [builtins zone].
  rewrite (fi_origin _ _ _ _ _ _ Hf), default_ttl_reads, apex_reads. destruct (zc_builtins cfg); [|done].
  destruct (Builtins_new _ _) as [b'|]; [|done]. cbn [mbind option_bind]. unfold file_diagnostic.
  destruct (zone_of (myip b') name); [|done]. by destruct src; cbn [fst snd]; destruct (_ || _).
Qed.

Lemma respond_reads count name t src : answer_departs cfg name t = false ->
  resolve count (Active_new z (zc_builtins cfg)) name t src = file_respond cfg count name t src.
Proof.
  intros Hdep. pose proof (resolve_reads count (Active_new z (zc_builtins cfg)) name t src eq_refl) as Hr. rewrite diagnostic_reads in Hr.
  unfold file_respond. rewrite Hor, Hds, soa_reads.
  destruct (negb (under_origin (liter (lower_from origin)) (liter name))) eqn:Hu.
  - unfold resolve. cbn [Active_new zone]. rewrite contains_under by (eauto with vega).
    pose proof (serves_origin _ _ _ _ Hs) as Ho. by rewrite Ho, <- apex_reads, Hu.
  - destruct (file_builtins cfg origin ≫= _) as [r|] eqn:Ed; [|by apply Hr]. cbn [default].
    unfold resolve. cbn [Active_new zone]. rewrite contains_under by (eauto with vega).
    pose proof (serves_origin _ _ _ _ Hs) as Ho. by rewrite Ho, <- apex_reads, Hu, diagnostic_reads, Ed.
Qed.

End Agree.

Section FileServed.
Context {HN : HickoryNames} {HL : HickoryNamesLaws HN} {HR : HickoryRdata HN} {HO : HashOrder}.
Context {HT : HashTableApi} {TL : HashTableLaws HT} {HM : HickoryMessages} {HC : Crate}.

(** The server of a configuration says what the file says. *)
Lemma served_reads seed cfg z count a name t src :
  from_config seed cfg = Ok z -> plain_config cfg -> fits cfg -> zone a = z -> resolve_builtin count a name t src = None ->
  answer_departs cfg name t = false ->
  resolve count a name t src = file_resolve cfg name t.
Proof.
  intros Hz Hp Hf Ha Hb Hdep. destruct (built_serves seed cfg z Hp Hf Hz) as [b Hs].
  destruct (builder_holds_declared cfg b Hp (sv_builder _ _ _ _ Hs)) as (ds & Hds & _).
  pose proof (config_builder_origin _ _ (sv_builder _ _ _ _ Hs)) as Ho.
  destruct (parse_name (zc_origin cfg)) as [origin|] eqn:Hor; [|done]. by eapply resolve_reads.
Qed.

Lemma served_responds seed cfg z count name t src :
  from_config seed cfg = Ok z -> plain_config cfg -> fits cfg -> answer_departs cfg name t = false ->
  resolve count (Active_new z (zc_builtins cfg)) name t src = file_respond cfg count name t src.
Proof.
  intros Hz Hp Hf Hdep. destruct (built_serves seed cfg z Hp Hf Hz) as [b Hs].
  destruct (builder_holds_declared cfg b Hp (sv_builder _ _ _ _ Hs)) as (ds & Hds & _).
  pose proof (config_builder_origin _ _ (sv_builder _ _ _ _ Hs)) as Ho.
  destruct (parse_name (zc_origin cfg)) as [origin|] eqn:Hor; [|done]. by eapply respond_reads.
Qed.

(** What is answered where the blocks give the name values of the type. *)
Lemma resolve_given seed cfg z count a name t src owner values :
  from_config seed cfg = Ok z -> plain_config cfg -> fits cfg -> zone a = z -> resolve_builtin count a name t src = None ->
  given cfg name t = Some (owner, values) -> is_any t = false -> t <> RT_SOA ->
  resolve count a name t src = found (records_at owner values).
Proof.
  intros Hz Hp Hf Ha Hb Hg Hany Ht. destruct (built_serves seed cfg z Hp Hf Hz) as [b Hs].
  destruct (serves_answers_given _ _ _ _ _ _ _ _ Hs Hg Hany) as (Hl & Hc & Hne).
  apply N.eqb_neq in Ht. unfold resolve. rewrite Ha, Hc, Hb, Hany, Ht, Hl. cbn. by destruct values.
Qed.

End FileServed.
