(* ===== verification/Config.v ===== *)
(** * The configuration (src/src/config.rs)

    Command line and environment over file over built-in default: the one
    resolution startup and reload share.  Reading and parsing the file is a
    parameter - what the file system and the TOML crate make of a path. *)

From S2P Require Import Prelude Names Rdata Build RateLimit.
Local Open Scope vega_scope.

(** ** Values *)

(** [SocketAddr]; an IPv6 one also carries a flow label and a scope. *)
Inductive SocketAddr : Type :=
| SockV4 (ip port : N)
| SockV6 (ip port flowinfo scope_id : N).

#[global] Instance socket_addr_eq_dec : EqDecision SocketAddr.
Proof. solve_decision. Defined.

Definition addr_ip (a : SocketAddr) : IpAddr :=
  match a with SockV4 ip _ => V4 ip | SockV6 ip _ _ _ => V6 ip end.

Inductive LogFormat : Type := Pretty | Json.

#[global] Instance log_format_eq_dec : EqDecision LogFormat.
Proof. solve_decision. Defined.

(** A [PathBuf], as its text. *)
Abbreviation PathBuf := string.

(** Durations are whole seconds here: every one is made by [from_secs]. *)
Definition DEFAULT_TTL : N := 300.
Definition DEFAULT_TCP_TIMEOUT : N := 10.
Definition DEFAULT_SHUTDOWN_DRAIN : N := 15.
Definition MAX_SHUTDOWN_DRAIN : N := 300.
Definition TCP_RESPONSE_BUFFER : N := 32.
Definition DEFAULT_LOG_FILTER : string := "info,hickory_server=warn,hickory_proto=warn".
Definition DEFAULT_ORIGIN : string := "dnsserver.dev".

(** [0.0.0.0:1053] *)
Definition DEFAULT_LISTENER : SocketAddr := SockV4 0 1053.

(** The defaults of an omitted SOA field. *)
Definition default_serial : N := 1.
Definition default_refresh : Z := 3600.
Definition default_retry : Z := 900.
Definition default_expire : Z := 604800.
Definition default_minimum : N := 60.

(** ** The three tiers *)

Record GlobalArgs : Type := mkGlobalArgs {
  cli_config : option PathBuf;
  cli_udp : list SocketAddr;
  cli_tcp : list SocketAddr;
  cli_admin_listen : option SocketAddr;
  cli_domain : option string;
  cli_rate_limit_qps : option N;
  cli_rate_limit_burst : option N;
  cli_tcp_timeout_secs : option N;
  cli_shutdown_drain_secs : option N;
  cli_no_builtins : bool;
  cli_log_format : option LogFormat;
  cli_log_level : option string;
  cli_admin_token : option string;
  cli_json : bool;
  cli_verbose : bool;
}.

Record RateLimitSection : Type := mkRateLimitSection { rls_qps : option N; rls_burst : option N }.

Record ServerSection : Type := mkServerSection {
  ss_udp : list SocketAddr;
  ss_tcp : list SocketAddr;
  ss_admin_listen : option SocketAddr;
  ss_tcp_timeout_secs : option N;
  ss_shutdown_drain_secs : option Z;
  ss_log_format : option LogFormat;
  ss_log_level : option string;
  ss_admin_token : option string;
  ss_rate_limit : RateLimitSection;
}.

Record ZoneSection : Type := mkZoneSection {
  zs_origin : option string;
  zs_default_ttl : option N;
  zs_builtins : option bool;
  zs_soa : option SoaSpec;
  zs_records : list RecordSpec;
}.

Record FileConfig : Type := mkFileConfig { fc_server : ServerSection; fc_zone : ZoneSection }.

Definition FileConfig_default : FileConfig :=
  mkFileConfig (mkServerSection [] [] None None None None None None (mkRateLimitSection None None))
    (mkZoneSection None None None None []).

(** ** The result *)

Record RateLimitConfig : Type := mkRateLimitConfig { rl_qps : N; rl_burst : N }.

Record Config : Type := mkConfig {
  source : option PathBuf;
  udp : list SocketAddr;
  tcp : list SocketAddr;
  admin_listen : option SocketAddr;
  tcp_timeout : N;
  shutdown_drain : N;
  tcp_response_buffer : N;
  cfg_zone : ZoneConfig;
  rate_limit : option RateLimitConfig;
  log_format : LogFormat;
  log_level : string;
  admin_token : option string;
}.

(** What the file alone states, for the settings that are fixed for the process. *)
Record FileSettings : Type := mkFileSettings {
  fs_origin : option string;
  fs_udp : list SocketAddr;
  fs_tcp : list SocketAddr;
  fs_admin_listen : option SocketAddr;
  fs_tcp_timeout_secs : option N;
  fs_shutdown_drain_secs : option Z;
  fs_log_format : option LogFormat;
  fs_log_level : option string;
  fs_admin_token : option string;
  fs_rate_limit_qps : option N;
  fs_rate_limit_burst : option N;
}.

Definition FileSettings_from (file : FileConfig) : FileSettings :=
  let server := fc_server file in
  mkFileSettings (zs_origin (fc_zone file)) (ss_udp server) (ss_tcp server) (ss_admin_listen server)
    (ss_tcp_timeout_secs server) (ss_shutdown_drain_secs server) (ss_log_format server) (ss_log_level server)
    (ss_admin_token server) (rls_qps (ss_rate_limit server)) (rls_burst (ss_rate_limit server)).

(** The source calls this [Resolved] too, as the handler does its sections. *)
Record ResolvedConfig : Type := mkResolvedConfig { config : Config; stated : FileSettings }.

(** ** Errors *)

Inductive LoadStage : Type := StageRead | StageParse | StageValidate.

Inductive ConfigError : Type :=
| Unreadable (path : PathBuf)
| Unparsed (path : PathBuf)
| EmptyOrigin
| ZeroTtl
| ZeroTcpTimeout
| DrainOutOfRange (secs : Z)
| ZeroBurst
| DuplicateAddr (what : string) (addr : SocketAddr).

Record LoadError : Type := mkLoadError { stage : LoadStage; load_error : ConfigError }.

(** ** Merging *)

Abbreviation M := (result ConfigError).

(** [a.or(b)] *)
Definition or_else {A} (a b : option A) : option A := match a with Some _ => a | None => b end.

Definition pick_addrs (cli file : list SocketAddr) : list SocketAddr :=
  match cli with [] => file | _ => cli end.

Fixpoint reject_duplicates_from (what : string) (seen addrs : list SocketAddr) : M unit :=
  match addrs with
  | [] => Ok tt
  | a :: addrs' =>
      if bool_decide (a ∈ seen) then Err (DuplicateAddr what a)
      else reject_duplicates_from what (a :: seen) addrs'
  end.

Definition reject_duplicates (what : string) (addrs : list SocketAddr) : M unit :=
  reject_duplicates_from what [] addrs.

Definition resolve_shutdown_drain (cli : GlobalArgs) (file : option Z) : M N :=
  let max := MAX_SHUTDOWN_DRAIN in
  match cli_shutdown_drain_secs cli with
  | Some secs => if (max <? secs)%N then Err (DrainOutOfRange (Z.of_N secs)) else Ok secs
  | None =>
      match file with
      | None => Ok DEFAULT_SHUTDOWN_DRAIN
      | Some secs =>
          if (secs <? 0)%Z then Err (DrainOutOfRange secs)
          else if (Z.to_N secs <=? max)%N then Ok (Z.to_N secs) else Err (DrainOutOfRange secs)
      end
  end.

Definition u32_saturating_mul (a b : N) : N := N.min (a * b) u32_MAX.

Definition merge_rate_limit (cli : GlobalArgs) (file : RateLimitSection) : M (option RateLimitConfig) :=
  match or_else (cli_rate_limit_qps cli) (rls_qps file) with
  | None => Ok None
  | Some qps =>
      if (qps =? 0)%N then Ok None
      else
        let burst := default (u32_saturating_mul qps 2) (or_else (cli_rate_limit_burst cli) (rls_burst file)) in
        if (burst =? 0)%N then Err ZeroBurst else Ok (Some (mkRateLimitConfig qps burst))
  end.

Definition merge_tcp_timeout (cli : GlobalArgs) (file : ServerSection) : M N :=
  match or_else (cli_tcp_timeout_secs cli) (ss_tcp_timeout_secs file) with
  | None => Ok DEFAULT_TCP_TIMEOUT
  | Some secs => if (secs =? 0)%N then Err ZeroTcpTimeout else Ok secs
  end.

Definition merge (cli : GlobalArgs) (file : FileConfig) : M Config :=
  let server := fc_server file in
  let zone := fc_zone file in
  let udp := pick_addrs (cli_udp cli) (ss_udp server) in
  let tcp := pick_addrs (cli_tcp cli) (ss_tcp server) in
  let udp := match udp, tcp with [], [] => [DEFAULT_LISTENER] | _, _ => udp end in
  let? _ := reject_duplicates "udp" udp in
  let? _ := reject_duplicates "tcp" tcp in
  let origin := default DEFAULT_ORIGIN (or_else (cli_domain cli) (zs_origin zone)) in
  if String.eqb (str_trim origin) "" then Err EmptyOrigin
  else
    let default_ttl := default DEFAULT_TTL (zs_default_ttl zone) in
    if (default_ttl =? 0)%N then Err ZeroTtl
    else
      let builtins := if cli_no_builtins cli then false else default true (zs_builtins zone) in
      let? tcp_timeout := merge_tcp_timeout cli server in
      let? shutdown_drain := resolve_shutdown_drain cli (ss_shutdown_drain_secs server) in
      let? rate_limit := merge_rate_limit cli (ss_rate_limit server) in
      Ok (mkConfig (cli_config cli) udp tcp (or_else (cli_admin_listen cli) (ss_admin_listen server))
            tcp_timeout shutdown_drain TCP_RESPONSE_BUFFER
            (mkZoneConfig origin default_ttl builtins (zs_soa zone) (zs_records zone))
            rate_limit
            (default Pretty (or_else (cli_log_format cli) (ss_log_format server)))
            (default DEFAULT_LOG_FILTER (or_else (cli_log_level cli) (ss_log_level server)))
            (or_else (cli_admin_token cli) (ss_admin_token server))).

(** ** Loading *)

(** What reading and deserialising a path gives: the file system's and the TOML
    crate's. *)
Inductive FileState : Type :=
| NoFile
| NotToml
| Parsed (file : FileConfig).

Abbreviation Files := (PathBuf -> FileState).

Definition read_file (files : Files) (path : PathBuf) : result LoadError FileConfig :=
  match files path with
  | NoFile => Err (mkLoadError StageRead (Unreadable path))
  | NotToml => Err (mkLoadError StageParse (Unparsed path))
  | Parsed file => Ok file
  end.

Definition Config_resolve (files : Files) (cli : GlobalArgs) : result LoadError ResolvedConfig :=
  let? file := match cli_config cli with Some path => read_file files path | None => Ok FileConfig_default end in
  let stated := FileSettings_from file in
  let? config := map_err (mkLoadError StageValidate) (merge cli file) in
  Ok (mkResolvedConfig config stated).

Definition Config_load (files : Files) (cli : GlobalArgs) : result ConfigError Config :=
  map_err load_error (let? resolved := Config_resolve files cli in Ok (config resolved)).
