(* ===== verification/Admin.v ===== *)
(** * The admin endpoints (src/src/admin.rs)

    Liveness, readiness, and the gates in front of a reload.  HTTP itself is the
    library's: a request is its peer and its headers, a response its status, its
    phase header and what its body says.  The reload hook is a function on a state
    the endpoint knows nothing about. *)

From S2P Require Import Prelude RateLimit Lifecycle Metrics Handler Config.

(** ** Reload outcomes *)

Record ReloadOutcome : Type := mkOutcome {
  ro_origin : string;
  ro_records : N;
  ro_ignored : list string;
}.

Inductive ReloadErrorCode : Type :=
| ConfigReadFailed | ConfigParseFailed | ConfigInvalid | ZoneBuildFailed | OriginChanged
| ReloadInProgress | ShuttingDown | NotConfigured | Forbidden | Internal.

#[global] Instance reload_error_code_eq_dec : EqDecision ReloadErrorCode.
Proof. solve_decision. Defined.

Definition code_as_str (c : ReloadErrorCode) : string :=
  match c with
  | ConfigReadFailed => "config_read_failed"
  | ConfigParseFailed => "config_parse_failed"
  | ConfigInvalid => "config_invalid"
  | ZoneBuildFailed => "zone_build_failed"
  | OriginChanged => "origin_changed"
  | ReloadInProgress => "reload_in_progress"
  | ShuttingDown => "shutting_down"
  | NotConfigured => "not_configured"
  | Forbidden => "forbidden"
  | Internal => "internal"
  end.

Definition code_status (c : ReloadErrorCode) : N :=
  match c with
  | ConfigReadFailed | ConfigParseFailed | ConfigInvalid | ZoneBuildFailed => 400
  | OriginChanged | ReloadInProgress => 409
  | ShuttingDown => 503
  | NotConfigured => 501
  | Forbidden => 403
  | Internal => 500
  end.

(** The prose is left out; the origins are there for [OriginChanged] alone. *)
Record ReloadError : Type := mkReloadError {
  re_code : ReloadErrorCode;
  running_origin : option string;
  requested_origin : option string;
}.

Definition ReloadError_new (code : ReloadErrorCode) : ReloadError := mkReloadError code None None.

Definition with_origins (e : ReloadError) (running requested : string) : ReloadError :=
  mkReloadError (re_code e) (Some running) (Some requested).

(** ** The gate *)

(** [Ipv4Addr::is_loopback], 127.0.0.0/8, and [Ipv6Addr::is_loopback], ::1. *)
Definition is_loopback (ip : IpAddr) : bool :=
  match ip with
  | V4 a => (N.shiftr a 24 =? 127)%N
  | V6 a => (a =? 1)%N
  end.

Definition is_local (ip : IpAddr) : bool :=
  let canonical := match ip with
                   | V4 _ => ip
                   | V6 v6 => match to_ipv4_mapped v6 with Some v4 => V4 v4 | None => ip end
                   end in
  is_loopback canonical.

(** A header map: each name, in lower case, with its value where that is text. *)
Abbreviation HeaderMap := (list (string * option string)).

Definition headers_get (headers : HeaderMap) (name : string) : option (option string) :=
  snd <$> List.find (fun h => String.eqb h.1 name) headers.

Definition bearer (headers : HeaderMap) : option string :=
  value ← headers_get headers "authorization";
  text ← value;
  str_trim <$> str_strip_prefix "Bearer " text.

(** [fold(0u8, |acc, (x, y)| acc | (x ^ y)) == 0] over the two strings' octets. *)
Definition constant_time_eq (a b : string) : bool :=
  let a := octets_of_string a in
  let b := octets_of_string b in
  if negb (length a =? length b)%nat then false
  else (fold_left (fun acc xy => N.lor acc (N.lxor xy.1 xy.2)) (zip a b) 0 =? 0)%N.

(** ** The state *)

Section Endpoints.
Context {World : Type} {HC : Crate}.

(** What the blocking task running the hook ends with: [None] when it panicked. *)
Abbreviation Hook := (World -> World * option (result ReloadError ReloadOutcome)).

(** [as_metrics] is shared with the handler; only its start, which nothing changes, is
    read here. *)
Record AdminState : Type := mkAdminState {
  as_metrics : Metrics;
  as_lifecycle : Lifecycle;
  reloads : N;
  reload_hook : option Hook;
  token : option string;
}.

Definition AdminState_new (metrics : Metrics) : AdminState := mkAdminState metrics Lifecycle_new 0 None None.
Definition with_lifecycle (st : AdminState) (l : Lifecycle) : AdminState :=
  mkAdminState (as_metrics st) l (reloads st) (reload_hook st) (token st).
Definition with_reload (st : AdminState) (hook : Hook) : AdminState :=
  mkAdminState (as_metrics st) (as_lifecycle st) (reloads st) (Some hook) (token st).
Definition with_token (st : AdminState) (t : option string) : AdminState :=
  mkAdminState (as_metrics st) (as_lifecycle st) (reloads st) (reload_hook st) t.
Definition mark_ready (st : AdminState) : AdminState := with_lifecycle st (enter (as_lifecycle st) Serving).1.
Definition mark_unready (st : AdminState) : AdminState := with_lifecycle st (enter (as_lifecycle st) Draining).1.

Definition may_mutate (st : AdminState) (peer : SocketAddr) (headers : HeaderMap) : bool :=
  match token st with
  | Some expected =>
      match bearer headers with
      | Some given => (String.length given =? String.length expected)%nat && constant_time_eq given expected
      | None => false
      end
  | None => is_local (addr_ip peer)
  end.

(** ** Responses *)

Inductive Body : Type :=
| Text (body : string)
| Page
| VersionBody (name version phase : string) (ready : bool) (uptime_seconds reloads : N)
| Unchanged (error : ReloadError)
| Reloaded (outcome : ReloadOutcome) (reloads : N).

Record HttpResponse : Type := mkHttp { status : N; body : Body }.

Definition refused_response (e : ReloadError) : HttpResponse := mkHttp (code_status (re_code e)) (Unchanged e).

(** A body ends its line. *)
Definition line (s : string) : string := String.append s (String (Ascii.ascii_of_N 10) "").

Definition healthz : HttpResponse := mkHttp 200 (Text (line "ok")).

Definition readyz (st : AdminState) : HttpResponse :=
  match phase (as_lifecycle st) with
  | Serving => mkHttp 200 (Text (line "ready"))
  | Starting => mkHttp 503 (Text (line "not ready"))
  | Draining | Stopping | Closing => mkHttp 503 (Text (line "draining"))
  end.

(** The Prometheus page; Exposition writes its text. *)
Definition metrics_page : HttpResponse := mkHttp 200 Page.

(** [now] is the clock's reading when the body is made. *)
Definition version (st : AdminState) (now : N) : HttpResponse :=
  let phase := phase (as_lifecycle st) in
  mkHttp 200 (VersionBody NAME VERSION (as_str phase) (match phase with Serving => true | _ => false end)
    (uptime (as_metrics st) now / 1000000000) (reloads st)).

Definition post_reload (st : AdminState) (w : World) (peer : SocketAddr) (headers : HeaderMap)
    : AdminState * World * HttpResponse :=
  match reload_hook st with
  | None => (st, w, refused_response (ReloadError_new NotConfigured))
  | Some hook =>
      if is_draining (as_lifecycle st) then (st, w, refused_response (ReloadError_new ShuttingDown))
      else if negb (may_mutate st peer headers) then (st, w, refused_response (ReloadError_new Forbidden))
      else
        match hook w with
        | (w, Some (Ok outcome)) =>
            let count := ((reloads st + 1) mod U64_MOD)%N in
            (mkAdminState (as_metrics st) (as_lifecycle st) count (reload_hook st) (token st), w,
             mkHttp 200 (Reloaded outcome count))
        | (w, Some (Err e)) => (st, w, refused_response e)
        | (w, None) => (st, w, refused_response (ReloadError_new Internal))
        end
  end.

(** ** Routing *)

Inductive Endpoint : Type := Healthz | Readyz | MetricsEndpoint | VersionEndpoint | ReloadEndpoint.

(** The routes of [router]; [None] is the library's 404 or 405. *)
Definition router (method path : string) : option Endpoint :=
  if String.eqb method "GET" then
    if String.eqb path "/healthz" then Some Healthz
    else if String.eqb path "/readyz" then Some Readyz
    else if String.eqb path "/metrics" then Some MetricsEndpoint
    else if String.eqb path "/version" then Some VersionEndpoint
    else None
  else if String.eqb method "POST" && String.eqb path "/reload" then Some ReloadEndpoint
  else None.

(** One request: the response, and the phase its header names, read first. *)
Definition admin_request (now : N) (st : AdminState) (w : World) (e : Endpoint) (peer : SocketAddr) (headers : HeaderMap)
    : AdminState * World * (HttpResponse * string) :=
  let phase := as_str (phase (as_lifecycle st)) in
  match e with
  | Healthz => (st, w, (healthz, phase))
  | Readyz => (st, w, (readyz st, phase))
  | MetricsEndpoint => (st, w, (metrics_page, phase))
  | VersionEndpoint => (st, w, (version st now, phase))
  | ReloadEndpoint => let '(st, w, r) := post_reload st w peer headers in (st, w, (r, phase))
  end.

(** [Debug]: the phase, and whether there is a hook and a token - never the token. *)
Definition AdminState_fmt (st : AdminState) : Phase * bool * bool :=
  (phase (as_lifecycle st), bool_decide (is_Some (reload_hook st)), bool_decide (is_Some (token st))).

(** What [serve] logs of itself before it accepts: the paths it answers, and the warning
    that a reload can be reached from other hosts with no token to ask for. *)
Definition serve_banner (st : AdminState) (local : IpAddr) : string * bool :=
  let reload := match reload_hook st with Some _ => " /reload" | None => "" end in
  ("/healthz /readyz /metrics /version" +:+ reload,
   bool_decide (is_Some (reload_hook st)) && negb (bool_decide (is_Some (token st))) && negb (is_local local)).

End Endpoints.

(** ** Facts *)

Lemma octets_of_string_inj a b : octets_of_string a = octets_of_string b -> a = b.
Proof.
  revert b; induction a as [|c a IH]; intros [|d b] H; try done. cbn in H. injection H as Hc Hr.
  f_equal; [|by apply IH]. rewrite <- (Ascii.ascii_N_embedding c), <- (Ascii.ascii_N_embedding d). by f_equal.
Qed.

Lemma octets_of_string_length s : length (octets_of_string s) = String.length s.
Proof. induction s as [|c s IH]; cbn; [done|by rewrite IH]. Qed.

(** The accumulator only gains bits, so it is zero exactly when every pair agrees. *)
Lemma fold_lor_zero l acc :
  fold_left (fun acc xy => N.lor acc (N.lxor xy.1 xy.2)) l acc = 0%N <->
  acc = 0%N /\ Forall (fun xy : N * N => xy.1 = xy.2) l.
Proof.
  revert acc; induction l as [|[x y] l IH]; intros acc; cbn [fold_left]; [by split; [|intros []]|].
  rewrite IH, N.lor_eq_0_iff, N.lxor_eq_0_iff, Forall_cons. cbn. tauto.
Qed.

Lemma zip_eq {A} (a b : list A) : length a = length b -> Forall (fun xy => xy.1 = xy.2) (zip a b) <-> a = b.
Proof.
  revert b; induction a as [|x a IH]; intros [|y b] H; try done. cbn in H |- *. rewrite Forall_cons, IH by lia. cbn.
  split; [intros [-> ->]; done|by intros [= -> ->]].
Qed.

Lemma constant_time_eq_spec a b : constant_time_eq a b = true <-> a = b.
Proof.
  unfold constant_time_eq. destruct (length (octets_of_string a) =? length (octets_of_string b))%nat eqn:E; bool_prop; cbn [negb].
  - rewrite N.eqb_eq, fold_lor_zero, zip_eq by done. split; [intros [_ H]; by apply octets_of_string_inj|by intros ->].
  - split; [done|by intros ->].
Qed.

(** ** The gate's promise *)

(** This machine's addresses: 127.0.0.0/8, ::1, and the first mapped into IPv6. *)
Definition this_host (ip : IpAddr) : Prop :=
  match ip with
  | V4 a => 2130706432 <= a <= 2147483647
  | V6 a => a = 1 \/ 281472812449792 <= a <= 281472829227007
  end%N.

Lemma is_local_spec ip : is_local ip = true <-> this_host ip.
Proof.
  assert (H4 : forall a, is_loopback (V4 a) = true <-> (2130706432 <= a <= 2147483647)%N).
  { intros a. unfold is_loopback. rewrite N.eqb_eq, N.shiftr_div_pow2, N_div_between by done.
    change (127 * 2 ^ 24)%N with 2130706432%N. change ((127 + 1) * 2 ^ 24)%N with 2147483648%N. lia. }
  destruct ip as [a|a]; [apply H4|]. unfold is_local, to_ipv4_mapped, this_host.
  pose proof (N_div_between a 4294967296 65535 ltac:(done)) as Hb. rewrite N.shiftr_div_pow2.
  change (65535 * 4294967296)%N with 281470681743360%N in Hb. change ((65535 + 1) * 4294967296)%N with 281474976710656%N in Hb.
  change (2 ^ 32)%N with 4294967296%N. destruct (a / 4294967296 =? 65535)%N eqn:E; bool_prop.
  - apply Hb in E. rewrite H4. assert (Hmod : (a mod 4294967296 = a - 281470681743360)%N).
    { symmetry. apply (N.mod_unique a 4294967296 65535); lia. }
    rewrite Hmod. lia.
  - unfold is_loopback. rewrite N.eqb_eq. split; [by left|]. intros [H|H]; [done|]. exfalso. apply E, Hb. lia.
Qed.

Section Gate.
Context {World : Type}.

Definition authorised (st : AdminState (World := World)) (peer : SocketAddr) (headers : HeaderMap) : Prop :=
  match token st with
  | Some t => bearer headers = Some t
  | None => this_host (addr_ip peer)
  end.

Lemma may_mutate_spec st peer headers : may_mutate st peer headers = true <-> authorised st peer headers.
Proof.
  unfold may_mutate, authorised. destruct (token st) as [t|]; [|apply is_local_spec].
  destruct (bearer headers) as [given|]; [|done]. rewrite andb_true_iff, constant_time_eq_spec, Nat.eqb_eq.
  split; [by intros [_ ->]|by intros [= ->]].
Qed.

(** The banner is true: what it names are routes, and where it warns, every caller of
    another host is refused whatever it presents. *)
Lemma banner_is_true (st : AdminState (World := World)) local : (serve_banner st local).2 = true ->
  reload_hook st <> None /\ ~ this_host local /\
  forall peer headers, ~ this_host (addr_ip peer) -> may_mutate st peer headers = false.
Proof.
  unfold serve_banner. cbn [snd]. rewrite !andb_true_iff, !negb_true_iff, bool_decide_eq_true, bool_decide_eq_false.
  intros [[Hh Ht] Hl]. split; [by apply not_eq_None_Some|]. split; [by rewrite <- is_local_spec, Hl|].
  intros peer headers Hp. apply not_true_iff_false. rewrite may_mutate_spec. unfold authorised.
  destruct (token st); [by destruct Ht|done].
Qed.

(** The status of an answer, in the two classes there are. *)
Lemma reload_status (st : AdminState (World := World)) (w : World) peer headers :
  let r := (post_reload st w peer headers).2 in
  (status r < U16_MOD)%N /\
  ((200 <=? status r)%N && (status r <? 300)%N = true <->
   exists hook out, reload_hook st = Some hook /\ is_draining (as_lifecycle st) = false /\ authorised st peer headers /\
     (hook w).2 = Some (Ok out)).
Proof.
  assert (Href : forall (A : Prop) e, ~ A -> (status (refused_response e) < U16_MOD)%N /\
    ((200 <=? status (refused_response e))%N && (status (refused_response e) <? 300)%N = true <-> A))
    by (intros A [[] ? ?] HA; split; try done).
  unfold post_reload. destruct (reload_hook st) as [hook|]; [|apply Href; by intros (? & ? & ? & _)].
  destruct (is_draining (as_lifecycle st)); [apply Href; by intros (? & ? & _ & ? & _)|].
  destruct (may_mutate st peer headers) eqn:Hm; cbn [negb]; cycle 1.
  { apply Href. intros (? & ? & _ & _ & Ha & _). apply may_mutate_spec in Ha. congruence. }
  apply may_mutate_spec in Hm. destruct (hook w) as [w1 [[out|e]|]] eqn:Eh.
  - split; [done|]. split; [|done]. intros _. exists hook, out. by rewrite Eh.
  - apply Href. intros (h & out & [= <-] & _ & _ & Ho). by rewrite Eh in Ho.
  - apply Href. intros (h & out & [= <-] & _ & _ & Ho). by rewrite Eh in Ho.
Qed.

(** A POST /reload reaches the hook only when one is configured, the process is not
    draining and the caller holds the token - or, where there is none, is on this
    host.  It answers 200 exactly when the hook then succeeds, and the counter of
    reloads moves exactly then; otherwise the state is as it was. *)
Theorem reload_is_gated (st : AdminState (World := World)) (w : World) peer headers :
  let '(st', w', r) := post_reload st w peer headers in
  let reached hook := reload_hook st = Some hook /\ is_draining (as_lifecycle st) = false /\ authorised st peer headers in
  (w' <> w -> exists hook, reached hook /\ w' = (hook w).1) /\
  (status r = 200%N <-> exists hook out, reached hook /\ (hook w).2 = Some (Ok out)) /\
  reloads st' = (if (status r =? 200)%N then (reloads st + 1) mod U64_MOD else reloads st)%N /\
  (status r <> 200%N -> st' = st).
Proof.
  assert (Hcode : forall c, code_status c <> 200%N) by (by intros []).
  assert (Hrefused : forall (A : Prop) e, ~ A -> status (refused_response e) = 200%N <-> A) by (intros A e HA; split; [by intros ?%Hcode|done]).
  assert (Hcount : forall e, (status (refused_response e) =? 200)%N = false) by (intros e; apply N.eqb_neq, Hcode).
  unfold post_reload. destruct (reload_hook st) as [hook|]; cycle 1.
  { split_and!; [done| |by rewrite Hcount|done]. apply Hrefused. by intros (? & ? & [? _] & _). }
  destruct (is_draining (as_lifecycle st)).
  { split_and!; [done| |by rewrite Hcount|done]. apply Hrefused. by intros (? & ? & (_ & ? & _) & _). }
  destruct (may_mutate st peer headers) eqn:Hm; cbn [negb]; cycle 1.
  { split_and!; [done| |by rewrite Hcount|done]. apply Hrefused. intros (? & ? & (_ & _ & Ha) & _).
    apply may_mutate_spec in Ha. congruence. }
  apply may_mutate_spec in Hm.
  destruct (hook w) as [w1 [[out|e]|]] eqn:Eh.
  - split_and!; [|split; [|done]|done|done].
    + intros _. exists hook. by rewrite Eh.
    + intros _. exists hook, out. by rewrite Eh.
  - split_and!; [|apply Hrefused|by rewrite Hcount|done].
    + intros _. exists hook. by rewrite Eh.
    + intros (h & out & (Hh & _) & Ho). injection Hh as <-. by rewrite Eh in Ho.
  - split_and!; [|apply Hrefused|by rewrite Hcount|done].
    + intros _. exists hook. by rewrite Eh.
    + intros (h & out & (Hh & _) & Ho). injection Hh as <-. by rewrite Eh in Ho.
Qed.

End Gate.

(** A hook that counts its calls, behind a token. *)
Definition ex_admin : AdminState (World := nat) :=
  with_token (with_reload (mark_ready (AdminState_new (Metrics_new 0))) (fun n => (S n, Some (Ok (mkOutcome "z." 3 []))))) (Some "t0ken").

Lemma reload_is_gated_witness :
  status (post_reload ex_admin 4%nat (SockV4 0 5353) [("authorization", Some "Bearer t0ken ")]).2 = 200%N.
Proof.
  apply (proj2 (proj1 (proj2 (reload_is_gated ex_admin 4%nat (SockV4 0 5353) [("authorization", Some "Bearer t0ken ")])))).
  eexists _, _. split; [split_and!; reflexivity|reflexivity].
Defined.
