(* ===== verification/Reload.v ===== *)
(** * Live reload (src/src/reload.rs)

    The whole pipeline: the gates in their order, the one swap, and the report of
    what the file asks for that a running process cannot do.  The handler's metrics
    are the ones the context holds - [serve] gives both the same [Arc]. *)

From S2P Require Import Prelude Names Rdata Hashing Zone Build RateLimit Metrics Handler Config Admin.

(** ** The fixed settings *)

Definition KEY_ORIGIN : string := "zone.origin".
Definition KEY_UDP : string := "server.udp".
Definition KEY_TCP : string := "server.tcp".
Definition KEY_ADMIN_LISTEN : string := "server.admin_listen".
Definition KEY_TCP_TIMEOUT : string := "server.tcp_timeout_secs".
Definition KEY_SHUTDOWN_DRAIN : string := "server.shutdown_drain_secs".
Definition KEY_LOG_FORMAT : string := "server.log_format".
Definition KEY_LOG_LEVEL : string := "server.log_level".
Definition KEY_ADMIN_TOKEN : string := "server.admin_token".
Definition KEY_RATE_LIMIT_QPS : string := "server.rate_limit.qps".
Definition KEY_RATE_LIMIT_BURST : string := "server.rate_limit.burst".
Definition MAX_IGNORED : nat := 11.

Section Reload.
Context {HN : HickoryNames} {HR : HickoryRdata HN} {HO : HashOrder} {HT : HashTableApi} {HM : HickoryMessages} {HC : Crate}.

Definition canonical_origin (origin : string) : option LowerName :=
  name ← name_from_str origin; Some (lower_from (set_fqdn name true)).

Definition same_origin (l r : string) : bool :=
  match canonical_origin l, canonical_origin r with
  | Some l, Some r => bool_decide (l = r)
  | _, _ => false
  end.

(** [opt.is_some_and(p)] *)
Definition is_some_and {A} (p : A -> bool) (o : option A) : bool := match o with Some a => p a | None => false end.

Definition differs {A} `{EqDecision A} (a b : A) : bool := negb (bool_decide (a = b)).

(** [if cond { ignored.push(key) }] *)
Definition push_if (cond : bool) (key : string) (ignored : list string) : list string :=
  if cond then ignored ++ [key] else ignored.

Definition qps_of (c : Config) : N := match rate_limit c with Some limit => rl_qps limit | None => 0 end.
Definition burst_of (c : Config) : N := match rate_limit c with Some limit => rl_burst limit | None => 0 end.

(** [u64::try_from(secs).map_or(true, |secs| Duration::from_secs(secs) != running)] *)
Definition drain_differs (running : N) (secs : Z) : bool :=
  if (secs <? 0)%Z then true else differs (Z.to_N secs) running.

Definition drift (running : Config) (stated : FileSettings) (fresh : Config) : list string :=
  let running_origin := zc_origin (cfg_zone running) in
  let ignored := [] in
  let stated_origin := is_some_and (fun o => negb (same_origin o running_origin)) (fs_origin stated) in
  let ignored := push_if (stated_origin || negb (same_origin (zc_origin (cfg_zone fresh)) running_origin))
                   KEY_ORIGIN ignored in
  let stated_udp := negb (bool_decide (fs_udp stated = [])) && differs (fs_udp stated) (udp running) in
  let ignored := push_if (stated_udp || differs (udp fresh) (udp running)) KEY_UDP ignored in
  let stated_tcp := negb (bool_decide (fs_tcp stated = [])) && differs (fs_tcp stated) (tcp running) in
  let ignored := push_if (stated_tcp || differs (tcp fresh) (tcp running)) KEY_TCP ignored in
  let stated_admin := is_some_and (fun addr => differs (Some addr) (admin_listen running)) (fs_admin_listen stated) in
  let ignored := push_if (stated_admin || differs (admin_listen fresh) (admin_listen running)) KEY_ADMIN_LISTEN ignored in
  let stated_timeout := is_some_and (fun secs => differs secs (tcp_timeout running)) (fs_tcp_timeout_secs stated) in
  let ignored := push_if (stated_timeout || differs (tcp_timeout fresh) (tcp_timeout running)) KEY_TCP_TIMEOUT ignored in
  let stated_drain := is_some_and (drain_differs (shutdown_drain running)) (fs_shutdown_drain_secs stated) in
  let ignored := push_if (stated_drain || differs (shutdown_drain fresh) (shutdown_drain running))
                   KEY_SHUTDOWN_DRAIN ignored in
  let stated_format := is_some_and (fun f => differs f (log_format running)) (fs_log_format stated) in
  let ignored := push_if (stated_format || differs (log_format fresh) (log_format running)) KEY_LOG_FORMAT ignored in
  let stated_level := is_some_and (fun l => differs l (log_level running)) (fs_log_level stated) in
  let ignored := push_if (stated_level || differs (log_level fresh) (log_level running)) KEY_LOG_LEVEL ignored in
  let stated_token := match fs_admin_token stated with Some _ => true | None => false end
                      && differs (fs_admin_token stated) (admin_token running) in
  let ignored := push_if (stated_token || differs (admin_token fresh) (admin_token running)) KEY_ADMIN_TOKEN ignored in
  let stated_qps := is_some_and (fun q => differs q (qps_of running)) (fs_rate_limit_qps stated) in
  let ignored := push_if (stated_qps || differs (qps_of fresh) (qps_of running)) KEY_RATE_LIMIT_QPS ignored in
  let stated_burst := is_some_and (fun b => differs b (burst_of running)) (fs_rate_limit_burst stated) in
  push_if (stated_burst || differs (burst_of fresh) (burst_of running)) KEY_RATE_LIMIT_BURST ignored.

(** ** The context *)

(** [Running::apply_reloadable]: the zone's settings but its origin. *)
Definition apply_reloadable (running fresh : Config) : Config :=
  let z := cfg_zone fresh in
  mkConfig (source running) (udp running) (tcp running) (admin_listen running) (tcp_timeout running)
    (shutdown_drain running) (tcp_response_buffer running)
    (mkZoneConfig (zc_origin (cfg_zone running)) (zc_default_ttl z) (zc_builtins z) (zc_soa z) (zc_records z))
    (rate_limit running) (log_format running) (log_level running) (admin_token running).

Record ReloadContext : Type := mkReloadContext {
  invocation : GlobalArgs;
  rc_source : PathBuf;
  rc_handler : DnsHandler;
  rc_running : Config;
  rc_locked : bool;
  rc_draining : bool;
}.

Definition with_config (cli : GlobalArgs) (path : PathBuf) : GlobalArgs :=
  mkGlobalArgs (Some path) (cli_udp cli) (cli_tcp cli) (cli_admin_listen cli) (cli_domain cli)
    (cli_rate_limit_qps cli) (cli_rate_limit_burst cli) (cli_tcp_timeout_secs cli) (cli_shutdown_drain_secs cli)
    (cli_no_builtins cli) (cli_log_format cli) (cli_log_level cli) (cli_admin_token cli) (cli_json cli) (cli_verbose cli).

Definition ReloadContext_new (invocation : GlobalArgs) (source : PathBuf) (handler : DnsHandler) (running : Config)
    (draining : bool) : ReloadContext :=
  mkReloadContext (with_config invocation source) source handler running false draining.

Definition stage_code (s : LoadStage) : ReloadErrorCode :=
  match s with
  | StageRead => ConfigReadFailed
  | StageParse => ConfigParseFailed
  | StageValidate => ConfigInvalid
  end.

Definition shutting_down : ReloadError := ReloadError_new ShuttingDown.

(** ** The gates between the lock and the swap

    Everything here reads; nothing is written.  [seed] is the fresh hash seed the
    build draws. *)
Definition prepare (files : Files) (seed : N) (cli : GlobalArgs) (running : Config)
    : result ReloadError (ResolvedConfig * Zone) :=
  match Config_resolve files cli with
  | Err failure => Err (ReloadError_new (stage_code (stage failure)))
  | Ok resolved =>
      let fresh := config resolved in
      match canonical_origin (zc_origin (cfg_zone fresh)) with
      | None => Err (ReloadError_new ConfigInvalid)
      | Some requested =>
          match canonical_origin (zc_origin (cfg_zone running)) with
          | None => Err (ReloadError_new Internal)
          | Some current =>
              if negb (bool_decide (requested = current)) then
                Err (with_origins (ReloadError_new OriginChanged) (zc_origin (cfg_zone running))
                       (zc_origin (cfg_zone fresh)))
              else match from_config seed (cfg_zone fresh) with
              | Err _ => Err (ReloadError_new ZoneBuildFailed)
              | Ok zone => Ok (resolved, zone)
              end
          end
      end
  end.

(** The swap, the gauge and the running configuration, in this order. *)
Definition swap (h : DnsHandler) (z : Zone) (builtins : bool) : DnsHandler := replace_zone h z builtins.

Definition set_gauge (h : DnsHandler) (records : N) : DnsHandler :=
  mkHandler (h_active h) (set_zone_records (h_metrics h) records) (h_limiter h).

Definition outcome_of (running : Config) (resolved : ResolvedConfig) (z : Zone) : ReloadOutcome :=
  mkOutcome (zc_origin (cfg_zone (config resolved))) (record_count z) (drift running (stated resolved) (config resolved)).

(** [reload], when no other reload runs; [cancelled] is the drain token at the
    second check, which another task may have cancelled since the first. *)
Definition reload (ctx : ReloadContext) (files : Files) (seed : N) (cancelled : bool)
    : ReloadContext * result ReloadError ReloadOutcome :=
  if rc_draining ctx then (ctx, Err shutting_down)
  else if rc_locked ctx then (ctx, Err (ReloadError_new ReloadInProgress))
  else match prepare files seed (invocation ctx) (rc_running ctx) with
  | Err e => (ctx, Err e)
  | Ok (resolved, zone) =>
      if cancelled then (ctx, Err shutting_down)
      else
        let fresh := config resolved in
        let handler := set_gauge (swap (rc_handler ctx) zone (zc_builtins (cfg_zone fresh))) (record_count zone) in
        (mkReloadContext (invocation ctx) (rc_source ctx) handler (apply_reloadable (rc_running ctx) fresh)
           (rc_locked ctx) (rc_draining ctx),
         Ok (outcome_of (rc_running ctx) resolved zone))
  end.

(** [hook]: the context as the endpoint's closure, in a world where the files hold
    [files] and the build draws [seed]. *)
Definition hook (files : Files) (seed : N) (cancelled : bool) : ReloadContext -> ReloadContext * option (result ReloadError ReloadOutcome) :=
  fun ctx => let '(ctx, r) := reload ctx files seed cancelled in (ctx, Some r).

(** ** Reloads and the drain, interleaved

    A reload as its atomic steps on the shared state: the first check, the lock,
    the gates (which only read), the second check, the swap, the gauge, and the
    running configuration with the release of the lock. *)

Inductive ReloadPc : Type :=
| Called
| Entered
| HoldsLock
| Built (resolved : ResolvedConfig) (z : Zone)
| Cleared (resolved : ResolvedConfig) (z : Zone)
| Swapped (resolved : ResolvedConfig) (z : Zone)
| Gauged (resolved : ResolvedConfig) (z : Zone)
| Finished (r : result ReloadError ReloadOutcome).

Definition lock (ctx : ReloadContext) (held : bool) : ReloadContext :=
  mkReloadContext (invocation ctx) (rc_source ctx) (rc_handler ctx) (rc_running ctx) held (rc_draining ctx).

Definition with_handler (ctx : ReloadContext) (h : DnsHandler) : ReloadContext :=
  mkReloadContext (invocation ctx) (rc_source ctx) h (rc_running ctx) (rc_locked ctx) (rc_draining ctx).

Definition with_running (ctx : ReloadContext) (c : Config) : ReloadContext :=
  mkReloadContext (invocation ctx) (rc_source ctx) (rc_handler ctx) c (rc_locked ctx) (rc_draining ctx).

Definition cancel (ctx : ReloadContext) : ReloadContext :=
  mkReloadContext (invocation ctx) (rc_source ctx) (rc_handler ctx) (rc_running ctx) (rc_locked ctx) true.

Definition reload_step (files : Files) (seed : N) (ctx : ReloadContext) (pc : ReloadPc) : ReloadContext * ReloadPc :=
  match pc with
  | Called => (ctx, if rc_draining ctx then Finished (Err shutting_down) else Entered)
  | Entered =>
      if rc_locked ctx then (ctx, Finished (Err (ReloadError_new ReloadInProgress))) else (lock ctx true, HoldsLock)
  | HoldsLock =>
      match prepare files seed (invocation ctx) (rc_running ctx) with
      | Err e => (lock ctx false, Finished (Err e))
      | Ok (resolved, z) => (ctx, Built resolved z)
      end
  | Built resolved z =>
      if rc_draining ctx then (lock ctx false, Finished (Err shutting_down)) else (ctx, Cleared resolved z)
  | Cleared resolved z =>
      (with_handler ctx (swap (rc_handler ctx) z (zc_builtins (cfg_zone (config resolved)))), Swapped resolved z)
  | Swapped resolved z => (with_handler ctx (set_gauge (rc_handler ctx) (record_count z)), Gauged resolved z)
  | Gauged resolved z =>
      (lock (with_running ctx (apply_reloadable (rc_running ctx) (config resolved))) false,
       Finished (Ok (outcome_of (rc_running ctx) resolved z)))
  | Finished r => (ctx, Finished r)
  end.

(** What can happen next: a step of one of the reloads, with what the files hold
    and the seed it would draw at that moment, or the drain. *)
Inductive Event : Type :=
| Step (i : nat) (files : Files) (seed : N)
| Drain.

Abbreviation System := (ReloadContext * list ReloadPc)%type.

Definition system_next (s : System) (e : Event) : System :=
  match e with
  | Drain => (cancel s.1, s.2)
  | Step i files seed =>
      match s.2 !! i with
      | Some pc => let '(ctx, pc) := reload_step files seed s.1 pc in (ctx, <[i := pc]> s.2)
      | None => s
      end
  end.

Definition system_run (events : list Event) (s : System) : System := fold_left system_next events s.

End Reload.
