(* ===== verification/ConfigTheorems.v ===== *)
(** * What a merged configuration is (src/src/config.rs)

    [merge] against its specification: an overlay of three tiers, accepted exactly
    when the result is usable. *)

From S2P Require Import Prelude Names Rdata Build RateLimit Config.
Local Open Scope vega_scope.

(** ** The overlay, with no checks *)

Definition first_of {A} (cli file : option A) (built_in : A) : A :=
  match cli, file with Some a, _ => a | None, Some b => b | None, None => built_in end.

Definition listeners (cli : GlobalArgs) (file : FileConfig) : list SocketAddr * list SocketAddr :=
  let pick a b := match a with [] => b | _ => a end in
  let u := pick (cli_udp cli) (ss_udp (fc_server file)) in
  let t := pick (cli_tcp cli) (ss_tcp (fc_server file)) in
  (match u ++ t with [] => [DEFAULT_LISTENER] | _ => u end, t).

(** The drain as it was asked for, before it is known to be in range. *)
Definition drain_asked (cli : GlobalArgs) (file : FileConfig) : Z :=
  first_of (Z.of_N <$> cli_shutdown_drain_secs cli) (ss_shutdown_drain_secs (fc_server file)) (Z.of_N DEFAULT_SHUTDOWN_DRAIN).

Definition rate_asked (cli : GlobalArgs) (file : FileConfig) : option RateLimitConfig :=
  let section := ss_rate_limit (fc_server file) in
  let qps := first_of (cli_rate_limit_qps cli) (rls_qps section) 0%N in
  if (qps =? 0)%N then None
  else Some (mkRateLimitConfig qps (first_of (cli_rate_limit_burst cli) (rls_burst section) (N.min (qps * 2) u32_MAX))).

Definition overlay (cli : GlobalArgs) (file : FileConfig) : Config :=
  let server := fc_server file in
  let zone := fc_zone file in
  mkConfig (cli_config cli) (listeners cli file).1 (listeners cli file).2
    (match cli_admin_listen cli with Some a => Some a | None => ss_admin_listen server end)
    (first_of (cli_tcp_timeout_secs cli) (ss_tcp_timeout_secs server) DEFAULT_TCP_TIMEOUT)
    (Z.to_N (drain_asked cli file)) TCP_RESPONSE_BUFFER
    (mkZoneConfig (first_of (cli_domain cli) (zs_origin zone) DEFAULT_ORIGIN)
       (default DEFAULT_TTL (zs_default_ttl zone)) (negb (cli_no_builtins cli) && default true (zs_builtins zone))
       (zs_soa zone) (zs_records zone))
    (rate_asked cli file)
    (first_of (cli_log_format cli) (ss_log_format server) Pretty)
    (first_of (cli_log_level cli) (ss_log_level server) DEFAULT_LOG_FILTER)
    (match cli_admin_token cli with Some t => Some t | None => ss_admin_token server end).

(** ** What the process can run with *)

Record usable (c : Config) : Prop := {
  us_listens : udp c <> [] \/ tcp c <> [];
  us_udp : NoDup (udp c);
  us_tcp : NoDup (tcp c);
  us_origin : str_trim (zc_origin (cfg_zone c)) <> "";
  us_ttl : (0 < zc_default_ttl (cfg_zone c))%N;
  us_timeout : (0 < tcp_timeout c)%N;
  us_drain : (shutdown_drain c <= MAX_SHUTDOWN_DRAIN)%N;
  us_rate l : rate_limit c = Some l -> (0 < rl_qps l /\ 0 < rl_burst l)%N;
}.

Lemma default_or {A} (d : A) a b : default d (or_else a b) = first_of a b d.
Proof. by destruct a, b. Qed.

Lemma reject_from_ok what seen addrs :
  reject_duplicates_from what seen addrs = Ok tt <-> NoDup addrs /\ forall a, a ∈ addrs -> a ∉ seen.
Proof.
  revert seen; induction addrs as [|a addrs IH]; intros seen; cbn.
  - split; [intros _; split; [constructor|by intros a ?%elem_of_nil]|done].
  - rewrite NoDup_cons. case_bool_decide as Ha.
    + split; [done|]. intros [_ H]. by destruct (H a (list_elem_of_here _ _)).
    + rewrite IH. setoid_rewrite elem_of_cons. split.
      * intros [Hnd Hs]. split; [split; [|done]|].
        -- intros Hin. apply (Hs a Hin). by left.
        -- intros b [->|Hb]; [done|]. intros Hin. apply (Hs b Hb). by right.
      * intros [[Hna Hnd] Hs]. split; [done|]. intros b Hb [->|Hin]; [done|]. apply (Hs b); [by right|done].
Qed.

Lemma reject_ok what addrs : reject_duplicates what addrs = Ok tt <-> NoDup addrs.
Proof. unfold reject_duplicates. rewrite reject_from_ok. split; [by intros []|]. intros H. split; [done|]. by intros a _ ?%elem_of_nil. Qed.

Lemma reject_cases what addrs : reject_duplicates what addrs = Ok tt \/ exists e, reject_duplicates what addrs = Err e.
Proof. destruct (reject_duplicates what addrs) as [[]|e]; eauto. Qed.

Lemma drain_ok cli file s :
  resolve_shutdown_drain cli (ss_shutdown_drain_secs (fc_server file)) = Ok s <->
  s = Z.to_N (drain_asked cli file) /\ (0 <= drain_asked cli file <= 300)%Z.
Proof.
  unfold resolve_shutdown_drain, drain_asked, MAX_SHUTDOWN_DRAIN, DEFAULT_SHUTDOWN_DRAIN.
  destruct (cli_shutdown_drain_secs cli) as [n|]; cbn [fmap option_fmap option_map first_of].
  { destruct (300 <? n)%N eqn:E; bool_prop; split.
    - done. - intros [_ H]. lia. - intros [= <-]. lia. - intros [-> _]. f_equal. lia. }
  destruct (ss_shutdown_drain_secs (fc_server file)) as [z|]; cbn [first_of].
  - destruct (z <? 0)%Z eqn:E; [split; [done|lia]|]. apply Z.ltb_ge in E.
    destruct (Z.to_N z <=? 300)%N eqn:E2; bool_prop; split; [intros [= <-]; lia|intros [-> _]; done|done|lia].
  - split; [intros [= <-]; lia|intros [-> _]; done].
Qed.

Lemma rate_ok cli file r :
  merge_rate_limit cli (ss_rate_limit (fc_server file)) = Ok r <->
  r = rate_asked cli file /\ forall l, r = Some l -> (0 < rl_qps l /\ 0 < rl_burst l)%N.
Proof.
  unfold merge_rate_limit, rate_asked, u32_saturating_mul.
  assert (Hq : or_else (cli_rate_limit_qps cli) (rls_qps (ss_rate_limit (fc_server file))) = None ->
    first_of (cli_rate_limit_qps cli) (rls_qps (ss_rate_limit (fc_server file))) 0%N = 0%N) by (by destruct (cli_rate_limit_qps cli), (rls_qps _)).
  assert (Hq' : forall q, or_else (cli_rate_limit_qps cli) (rls_qps (ss_rate_limit (fc_server file))) = Some q ->
    first_of (cli_rate_limit_qps cli) (rls_qps (ss_rate_limit (fc_server file))) 0%N = q).
  { intros q. by destruct (cli_rate_limit_qps cli), (rls_qps _); intros [= ->]. }
  destruct (or_else _ (rls_qps _)) as [q|].
  - rewrite (Hq' q eq_refl), default_or. destruct (q =? 0)%N eqn:E; bool_prop; [split; [by intros [= <-]|by intros [-> _]]|].
    destruct (_ =? 0)%N eqn:Eb; bool_prop; split.
    + done.
    + intros [-> H]. specialize (H _ eq_refl). cbn in H. lia.
    + intros [= <-]. split; [done|]. intros l [= <-]. cbn. lia.
    + by intros [-> _].
  - rewrite (Hq eq_refl). cbn. split; [by intros [= <-]|by intros [-> _]].
Qed.

Lemma timeout_ok cli file s :
  merge_tcp_timeout cli (fc_server file) = Ok s <->
  s = first_of (cli_tcp_timeout_secs cli) (ss_tcp_timeout_secs (fc_server file)) DEFAULT_TCP_TIMEOUT /\ (0 < s)%N.
Proof.
  unfold merge_tcp_timeout. destruct (cli_tcp_timeout_secs cli) as [n|]; cbn [or_else first_of].
  - destruct (n =? 0)%N eqn:E; bool_prop; split; [done|lia|intros [= <-]; lia|by intros [-> _]].
  - destruct (ss_tcp_timeout_secs (fc_server file)) as [n|]; cbn.
    + destruct (n =? 0)%N eqn:E; bool_prop; split; [done|lia|intros [= <-]; lia|by intros [-> _]].
    + unfold DEFAULT_TCP_TIMEOUT. split; [intros [= <-]; lia|by intros [-> _]].
Qed.

(** [merge] on the listeners of the overlay. *)
Lemma merge_listeners cli file :
  merge cli file =
    let? _ := reject_duplicates "udp" (listeners cli file).1 in
    let? _ := reject_duplicates "tcp" (listeners cli file).2 in
    let o := overlay cli file in
    if String.eqb (str_trim (zc_origin (cfg_zone o))) "" then Err EmptyOrigin
    else if (zc_default_ttl (cfg_zone o) =? 0)%N then Err ZeroTtl
    else
      let? t := merge_tcp_timeout cli (fc_server file) in
      let? d := resolve_shutdown_drain cli (ss_shutdown_drain_secs (fc_server file)) in
      let? r := merge_rate_limit cli (ss_rate_limit (fc_server file)) in
      Ok (mkConfig (source o) (udp o) (tcp o) (admin_listen o) t d (tcp_response_buffer o) (cfg_zone o) r
            (log_format o) (log_level o) (admin_token o)).
Proof.
  unfold merge, overlay, listeners, pick_addrs. cbn [fst snd source udp tcp admin_listen tcp_response_buffer cfg_zone
    log_format log_level admin_token zc_origin zc_default_ttl].
  unfold or_else, first_of.
  destruct (cli_domain cli); [|destruct (zs_origin (fc_zone file))];
    (destruct (cli_log_format cli); [|destruct (ss_log_format (fc_server file))]);
    (destruct (cli_log_level cli); [|destruct (ss_log_level (fc_server file))]);
    (destruct (cli_udp cli); [destruct (ss_udp (fc_server file))|]);
    (destruct (cli_tcp cli); [destruct (ss_tcp (fc_server file))|]);
    destruct (cli_no_builtins cli), (cli_admin_listen cli), (cli_admin_token cli); reflexivity.
Qed.

Lemma merge_ok cli file c :
  merge cli file = Ok c -> c = overlay cli file /\ usable c /\ (0 <= drain_asked cli file <= 300)%Z.
Proof.
  rewrite merge_listeners. cbv zeta.
  intros H. apply rbind_ok in H as ([] & Hu%reject_ok & H). apply rbind_ok in H as ([] & Ht%reject_ok & H).
  destruct (String.eqb _ "") eqn:Eo; [done|]. apply String.eqb_neq in Eo.
  destruct (_ =? 0)%N eqn:Ettl; [done|]. bool_prop.
  apply rbind_ok in H as (t & [-> Htt]%timeout_ok & H). apply rbind_ok in H as (d & [-> Hd]%drain_ok & H).
  apply rbind_ok in H as (r & [-> Hr]%rate_ok & H). injection H as <-.
  split; [reflexivity|split; [|done]]. constructor; cbn [udp tcp cfg_zone tcp_timeout shutdown_drain rate_limit]; try done.
  - unfold overlay, listeners. cbn [udp tcp fst snd]. destruct (match cli_udp cli with [] => _ | _ => _ end); [|by left].
    destruct (match cli_tcp cli with [] => _ | _ => _ end); [by left|by right].
  - by apply N.neq_0_lt_0.
  - unfold MAX_SHUTDOWN_DRAIN. lia.
Qed.

(** C28: merging is the overlay of command line over file over built-in default, setting
    by setting, and it succeeds exactly when the result is one the process can run
    with and the drain asked for is between 0 and 300 seconds. *)
Theorem merge_is_overlay cli file c :
  merge cli file = Ok c <-> c = overlay cli file /\ usable c /\ (0 <= drain_asked cli file <= 300)%Z.
Proof.
  split; [apply merge_ok|].
  intros (-> & [_ Hu Ht Ho Httl Htt _ Hr] & Hd). rewrite merge_listeners. cbv zeta.
  rewrite (proj2 (reject_ok _ _) Hu), (proj2 (reject_ok _ _) Ht). cbn [rbind].
    apply String.eqb_neq in Ho. rewrite Ho. destruct (_ =? 0)%N eqn:Ettl; [bool_prop; lia|].
    rewrite (proj2 (timeout_ok cli file _) (conj eq_refl Htt)), (proj2 (drain_ok cli file _) (conj eq_refl Hd)). cbn [rbind].
    rewrite (proj2 (rate_ok cli file _) (conj eq_refl Hr)). reflexivity.
Qed.

Definition ex_args : GlobalArgs :=
  mkGlobalArgs (Some "/etc/vega.toml") [] [] None None None (Some 50%N) None None true None None None false false.

Definition ex_file : FileConfig :=
  mkFileConfig (mkServerSection [SockV4 0 53] [] None None (Some 20%Z) None None (Some "s3cret") (mkRateLimitSection (Some 10%N) None))
    (mkZoneSection (Some "z") None None None []).

Lemma merge_is_overlay_witness : usable (overlay ex_args ex_file).
Proof. apply (merge_is_overlay ex_args ex_file (overlay ex_args ex_file)). reflexivity. Defined.
