(* ===== verification/Serve.v ===== *)
(** * Start-up (src/src/main.rs)

    What [serve] puts together before it binds anything: the zone, the limiter, the
    counters, the handler, the admin state and - when there is a file to re-read - the
    reload context. *)

From S2P Require Import Prelude Names Rdata Hashing Zone Build RateLimit Lifecycle Metrics Handler Config Admin Reload.

Local Open Scope vega_scope.

Section Serve.
Context {HN : HickoryNames} {HR : HickoryRdata HN} {HO : HashOrder} {HT : HashTableApi} {HM : HickoryMessages} {HC : Crate}.

Record Process : Type := mkProcess {
  p_handler : DnsHandler;
  p_admin : AdminState (World := ReloadContext);
  p_reload : option ReloadContext;
}.

(** [seed] and [hash_one] are the fresh hash keys of the zone and of the limiter, [now]
    the clock, [reload_fn] the closure made of the context. *)
Definition serve_setup (cfg : Config) (invocation : GlobalArgs) (seed now : N) (hash_one : N -> N)
    (reload_fn : ReloadContext -> ReloadContext * option (result ReloadError ReloadOutcome))
    : result BuildError Process :=
  let? zone := from_config seed (cfg_zone cfg) in
  let limiter := (fun rl => RateLimiter_new hash_one now (rl_qps rl) (rl_burst rl)) <$> rate_limit cfg in
  let metrics := set_zone_records (with_rate_limiter (Metrics_new now) limiter) (record_count zone) in
  let handler := DnsHandler_new zone (zc_builtins (cfg_zone cfg)) metrics limiter in
  let admin_state := with_token (with_lifecycle (AdminState_new metrics) Lifecycle_new) (admin_token cfg) in
  match source cfg with
  | Some path =>
      Ok (mkProcess handler (with_reload admin_state reload_fn)
            (Some (ReloadContext_new invocation path handler cfg false)))
  | None => Ok (mkProcess handler admin_state None)
  end.

End Serve.
