(* ===== verification/ReloadTheorems.v ===== *)
(** * What a reload may and may not do (src/src/reload.rs)

    The stepwise machine against the sequential pipeline, its invariants under any
    interleaving of reloads and of the drain, and the drift report. *)

From S2P Require Import Prelude Names Rdata Hashing Zone Build RateLimit Metrics Handler Config ConfigTheorems Admin Reload.
Local Open Scope vega_scope.

Section Pipeline.
Context {HN : HickoryNames} {HR : HickoryRdata HN} {HO : HashOrder} {HT : HashTableApi} {HM : HickoryMessages} {HC : Crate}.

Abbreviation System := (ReloadContext * list ReloadPc)%type.

(** ** One reload alone *)

Lemma lock_again ctx : rc_locked ctx = false -> lock (lock ctx true) false = ctx.
Proof. destruct ctx; cbn. by intros ->. Qed.

(** Taken step by step with nobody else about, a reload is the sequential pipeline:
    the same outcome and the same context, whether or not a drain begins while the
    zone is being built. *)
Theorem stepwise_is_reload ctx files seed cancelled :
  rc_locked ctx = false ->
  let step := Step 0 files seed in
  system_run ([step; step; step] ++ (if cancelled : bool then [Drain] else []) ++ [step; step; step; step]) (ctx, [Called]) =
    ((if cancelled then cancel (reload ctx files seed cancelled).1 else (reload ctx files seed cancelled).1), [Finished (reload ctx files seed cancelled).2]).
Proof.
  intros Hl. destruct ctx as [inv src h running locked draining]. cbn in Hl. subst locked.
  unfold reload. cbn [rc_draining rc_locked]. destruct draining; [by destruct cancelled|].
  cbn [app system_run fold_left system_next fst snd reload_step rc_draining rc_locked list_lookup lookup list_insert insert].
  cbn. destruct (prepare files seed inv running) as [[resolved z]|e]; cbn; [|by destruct cancelled].
  destruct cancelled; reflexivity.
Qed.

(** ** Every reload returns *)

Definition left_to_do (pc : ReloadPc) : nat :=
  match pc with
  | Called => 7 | Entered => 6 | HoldsLock => 5 | Built _ _ => 4 | Cleared _ _ => 3 | Swapped _ _ => 2
  | Gauged _ _ => 1 | Finished _ => 0
  end.

Lemma step_progress files seed ctx pc : left_to_do (reload_step files seed ctx pc).2 <= left_to_do pc - 1.
Proof.
  destruct pc; cbn; try lia.
  - destruct (rc_draining ctx); cbn; lia.
  - destruct (rc_locked ctx); cbn; lia.
  - destruct (prepare _ _ _ _) as [[? ?]|]; cbn; lia.
  - destruct (rc_draining ctx); cbn; lia.
Qed.

Definition turns_of (i : nat) (events : list Event) : nat :=
  length (List.filter (fun e => match e with Step j _ _ => (i =? j)%nat | Drain => false end) events).

Lemma system_next_length s e : length (system_next s e).2 = length s.2.
Proof.
  destruct e as [i files seed|]; [|done]. unfold system_next. destruct (s.2 !! i) as [pc|]; [|done].
  destruct (reload_step _ _ _ _). apply length_insert.
Qed.

Lemma system_next_at s e i pc : s.2 !! i = Some pc ->
  exists pc', (system_next s e).2 !! i = Some pc' /\
    left_to_do pc' <= left_to_do pc - match e with Step j _ _ => if (i =? j)%nat then 1 else 0 | Drain => 0 end.
Proof.
  intros Hi. destruct e as [j files seed|]; [|exists pc; split; [done|lia]]. unfold system_next.
  destruct (s.2 !! j) as [pc0|] eqn:Hj.
  - pose proof (step_progress files seed s.1 pc0) as Hp. destruct (reload_step _ _ _ _) as [ctx' pc']. cbn [snd] in Hp |- *.
    destruct (Nat.eqb_spec i j) as [->|Hne].
    + rewrite Hi in Hj. injection Hj as <-. exists pc'. rewrite list_lookup_insert_eq by (by eapply lookup_lt_Some). split; [done|lia].
    + exists pc. rewrite list_lookup_insert_ne by done. split; [done|lia].
  - exists pc. split; [done|]. destruct (Nat.eqb_spec i j) as [->|]; [congruence|lia].
Qed.

(** Every reload returns: seven steps of its own are enough, whatever the other
    reloads, the files and the drain do meanwhile. *)
Theorem reload_always_returns ctx n i events :
  i < n -> 7 <= turns_of i events ->
  exists r, (system_run events (ctx, replicate n Called)).2 !! i = Some (Finished r).
Proof.
  intros Hi Hturns.
  assert (H : forall s pc, s.2 !! i = Some pc ->
    exists pc', (system_run events s).2 !! i = Some pc' /\ left_to_do pc' <= left_to_do pc - turns_of i events).
  { clear. induction events as [|e events IH]; intros s pc Hpc; [exists pc; split; [done|cbn; lia]|].
    destruct (system_next_at s e i pc Hpc) as (pc1 & H1 & Hle). destruct (IH _ _ H1) as (pc2 & H2 & Hle2).
    exists pc2. split; [exact H2|]. unfold turns_of in *. cbn [List.filter]. destruct e as [j ? ?|]; [destruct (i =? j)%nat|]; cbn [length]; lia. }
  destruct (H (ctx, replicate n Called) Called) as (pc & Hpc & Hle); [by apply lookup_replicate_2|].
  destruct pc; cbn in Hle; try lia. eauto.
Qed.

(** ** Invariants under any interleaving *)

Definition holds (pc : ReloadPc) : bool :=
  match pc with HoldsLock | Built _ _ | Cleared _ _ | Swapped _ _ | Gauged _ _ => true | _ => false end.

(** The handler serves, whole, a zone built from [zc]. *)
Definition serving (h : DnsHandler) (zc : ZoneConfig) (z : Zone) : Prop :=
  (exists seed, from_config seed zc = Ok z) /\ h_active h = Active_new z (zc_builtins zc).

(** The same origin, however it is spelled. *)
Definition origin_of (zc : ZoneConfig) : option LowerName := canonical_origin (zc_origin zc).

Definition respelled (zc : ZoneConfig) (o : string) : ZoneConfig :=
  mkZoneConfig o (zc_default_ttl zc) (zc_builtins zc) (zc_soa zc) (zc_records zc).

(** At rest: the handler serves the running configuration, and the gauge says so. *)
Definition settled (ctx : ReloadContext) : Prop :=
  exists o z, origin_of (respelled (cfg_zone (rc_running ctx)) o) = origin_of (cfg_zone (rc_running ctx)) /\
    serving (rc_handler ctx) (respelled (cfg_zone (rc_running ctx)) o) z /\
    zone_records (h_metrics (rc_handler ctx)) = record_count z.

Definition built_for (ctx0 : ReloadContext) (r : ResolvedConfig) (z : Zone) : Prop :=
  origin_of (cfg_zone (config r)) = origin_of (cfg_zone (rc_running ctx0)) /\
  exists seed, from_config seed (cfg_zone (config r)) = Ok z.

Definition pc_ok (ctx0 ctx : ReloadContext) (pc : ReloadPc) : Prop :=
  match pc with
  | Built r z | Cleared r z => built_for ctx0 r z /\ settled ctx
  | Swapped r z => built_for ctx0 r z /\ serving (rc_handler ctx) (cfg_zone (config r)) z
  | Gauged r z => built_for ctx0 r z /\ serving (rc_handler ctx) (cfg_zone (config r)) z /\
      zone_records (h_metrics (rc_handler ctx)) = record_count z
  | HoldsLock => settled ctx
  | _ => True
  end.

Record SysInv (ctx0 : ReloadContext) (s : System) : Prop := {
  si_frozen : invocation s.1 = invocation ctx0 /\ rc_source s.1 = rc_source ctx0;
  si_fixed : apply_reloadable (rc_running ctx0) (rc_running s.1) = rc_running s.1;
  si_lock i pc : s.2 !! i = Some pc -> holds pc = true -> rc_locked s.1 = true /\ pc_ok ctx0 s.1 pc;
  si_one i j pc pc' : s.2 !! i = Some pc -> s.2 !! j = Some pc' -> holds pc = true -> holds pc' = true -> i = j;
  si_settled : rc_locked s.1 = false -> settled s.1;
}.

Lemma prepare_built files seed ctx0 running r z :
  zc_origin (cfg_zone running) = zc_origin (cfg_zone (rc_running ctx0)) ->
  prepare files seed (invocation ctx0) running = Ok (r, z) -> built_for ctx0 r z.
Proof.
  unfold prepare, built_for, origin_of. intros <-. destruct (Config_resolve _ _) as [resolved|]; [|done].
  destruct (canonical_origin (zc_origin (cfg_zone (config resolved)))) as [req|] eqn:Er; [|done].
  destruct (canonical_origin (zc_origin (cfg_zone running))) as [cur|]; [|done].
  case_bool_decide as Heq; cbn [negb]; [|done]. destruct (from_config seed _) as [z'|] eqn:Eb; [|done].
  intros [= -> ->]. rewrite Er, Heq. eauto.
Qed.

Lemma fixed_origin running0 running :
  apply_reloadable running0 running = running -> zc_origin (cfg_zone running) = zc_origin (cfg_zone running0).
Proof. intros H. by rewrite <- H. Qed.

(** A step keeps what it does not touch. *)
Lemma settled_lock ctx b : settled (lock ctx b) <-> settled ctx.
Proof. done. Qed.

Lemma settled_cancel ctx : settled (cancel ctx) <-> settled ctx.
Proof. done. Qed.

Lemma pc_ok_lock ctx0 ctx b pc : pc_ok ctx0 (lock ctx b) pc <-> pc_ok ctx0 ctx pc.
Proof. by destruct pc. Qed.

Lemma apply_again running0 running fresh :
  apply_reloadable running0 running = running ->
  apply_reloadable running0 (apply_reloadable running fresh) = apply_reloadable running fresh.
Proof. intros H. rewrite <- H. reflexivity. Qed.

(** The last step of a reload settles the context again. *)
Lemma finish_settles ctx0 ctx r z :
  apply_reloadable (rc_running ctx0) (rc_running ctx) = rc_running ctx ->
  pc_ok ctx0 ctx (Gauged r z) ->
  settled (lock (with_running ctx (apply_reloadable (rc_running ctx) (config r))) false).
Proof.
  intros Hf ((Ho & seed & Hb) & Hs & Hg). exists (zc_origin (cfg_zone (config r))), z.
  cbn [lock with_running rc_running rc_handler cfg_zone apply_reloadable]. unfold origin_of, respelled in *. cbn [zc_origin].
  rewrite (fixed_origin _ _ Hf), Ho. split; [done|]. split; [|done].
  destruct (cfg_zone (config r)) eqn:Ec. exact Hs.
Qed.

(** What one step does, from the stepping reload's point of view. *)
Lemma step_spec ctx0 files seed ctx pc :
  invocation ctx = invocation ctx0 ->
  apply_reloadable (rc_running ctx0) (rc_running ctx) = rc_running ctx ->
  (holds pc = true -> rc_locked ctx = true /\ pc_ok ctx0 ctx pc) ->
  (rc_locked ctx = false -> settled ctx) ->
  let '(ctx', pc') := reload_step files seed ctx pc in
  invocation ctx' = invocation ctx /\ rc_source ctx' = rc_source ctx /\
  apply_reloadable (rc_running ctx0) (rc_running ctx') = rc_running ctx' /\
  (holds pc' = true -> rc_locked ctx' = true /\ pc_ok ctx0 ctx' pc' /\ (holds pc = true \/ rc_locked ctx = false)) /\
  (holds pc = false -> ctx' = ctx \/ (rc_locked ctx = false /\ ctx' = lock ctx true)) /\
  (rc_locked ctx' = false -> settled ctx').
Proof.
  intros Hi Hf Hh Hs. destruct pc as [| | |r z|r z|r z|r z|r]; cbn [reload_step].
  - destruct (rc_draining ctx); cbv beta iota; split_and!; auto; done.
  - destruct (rc_locked ctx) eqn:El; cbv beta iota; split_and!; auto; try done; try (intros; congruence).
    intros _. split_and!; auto. by apply settled_lock, Hs.
  - destruct (Hh eq_refl) as [Hl Hok]. rewrite Hi. destruct (prepare files seed (invocation ctx0) (rc_running ctx)) as [[r z]|e] eqn:Ep.
    + cbv beta iota; split_and!; auto; try done; try (intros; congruence). intros _. split_and!; auto. split; [|done].
      apply (prepare_built files seed ctx0 (rc_running ctx) r z (fixed_origin _ _ Hf) Ep).
    + cbv beta iota; split_and!; auto; try done; try (intros; congruence).
  - destruct (Hh eq_refl) as [Hl [Hb Hset]]. destruct (rc_draining ctx); cbv beta iota; split_and!; auto; try done; try (intros; congruence).
    intros _. split_and!; auto. done.
  - destruct (Hh eq_refl) as [Hl [Hb Hset]]. cbv beta iota; split_and!; auto; try done; try (intros; congruence); [|cbn; by rewrite Hl].
    intros _. split_and!; auto. split; [done|]. split; [by destruct Hb|done].
  - destruct (Hh eq_refl) as [Hl [Hb Hsv]]. cbv beta iota; split_and!; auto; try done; try (intros; congruence); [|cbn; by rewrite Hl].
    intros _. split_and!; auto. split; [done|]. split; [exact Hsv|done].
  - destruct (Hh eq_refl) as [Hl Hok]. cbv beta iota; split_and!; auto; try done; try (intros; congruence).
    + by apply apply_again.
    + intros _. by apply (finish_settles ctx0 ctx r z).
  - cbv beta iota; split_and!; auto; done.
Qed.

Lemma sys_inv_next ctx0 s e : SysInv ctx0 s -> SysInv ctx0 (system_next s e).
Proof.
  intros [Hfr Hfix Hlock Hone Hset]. destruct e as [i files seed|]; cycle 1.
  { constructor; cbn; auto. }
  unfold system_next. destruct (s.2 !! i) as [pc|] eqn:Hi; [|by constructor].
  pose proof (step_spec ctx0 files seed s.1 pc (proj1 Hfr) Hfix (Hlock i pc Hi) Hset) as Hstep.
  destruct (reload_step files seed s.1 pc) as [ctx' pc']. destruct Hstep as (H1 & H2 & H3 & H4 & H5 & H6).
  assert (Hlt : i < length s.2) by (by eapply lookup_lt_Some).
  assert (Hother : forall j p, j <> i -> s.2 !! j = Some p -> holds p = true ->
    holds pc' = false /\ rc_locked ctx' = true /\ pc_ok ctx0 ctx' p).
  { intros j p Hj Hpj Hp. destruct (Hlock j p Hpj Hp) as [Hl Hok].
    assert (Hpc : holds pc = false) by (destruct (holds pc) eqn:E; [by exfalso; apply Hj; eapply Hone|done]).
    destruct (H5 Hpc) as [->|[Hl' _]]; [|congruence]. split; [|done].
    destruct (holds pc') eqn:E; [|done]. destruct (H4 eq_refl) as (_ & _ & [|]); congruence. }
  constructor; cbn [fst snd].
  - destruct Hfr as [<- <-]. done.
  - done.
  - intros j p Hj Hp. destruct (decide (j = i)) as [->|Hne].
    + rewrite list_lookup_insert_eq in Hj by done. injection Hj as <-. by destruct (H4 Hp) as (? & ? & _).
    + rewrite list_lookup_insert_ne in Hj by done. by apply (Hother j).
  - intros j k p p' Hj Hk Hp Hp'. destruct (decide (j = i)) as [->|Hnj], (decide (k = i)) as [->|Hnk]; [done|..].
    + rewrite list_lookup_insert_eq in Hj by done. rewrite list_lookup_insert_ne in Hk by done. injection Hj as <-.
      destruct (Hother k p' Hnk Hk Hp'). congruence.
    + rewrite list_lookup_insert_eq in Hk by done. rewrite list_lookup_insert_ne in Hj by done. injection Hk as <-.
      destruct (Hother j p Hnj Hj Hp). congruence.
    + rewrite list_lookup_insert_ne in Hj, Hk by done. by eapply Hone.
  - done.
Qed.

Lemma sys_inv_run ctx0 events s : SysInv ctx0 s -> SysInv ctx0 (system_run events s).
Proof. revert s; induction events as [|e events IH]; intros s H; [done|]. by apply IH, sys_inv_next. Qed.

Lemma sys_inv_start ctx n : rc_locked ctx = false -> settled ctx -> SysInv ctx (ctx, replicate n Called).
Proof.
  intros Hl Hs.
  assert (Hc : forall i pc, replicate n Called !! i = Some pc -> holds pc = false).
  { intros i pc H. by apply lookup_replicate in H as [-> _]. }
  constructor; cbn [fst snd]; [done|by destruct (rc_running ctx) as [? ? ? ? ? ? ? []]| | |done].
  - intros i pc Hi Hp. by rewrite (Hc i pc Hi) in Hp.
  - intros i j pc pc' Hi _ Hp. by rewrite (Hc i pc Hi) in Hp.
Qed.

(** Under any interleaving of any number of reloads, of edits to the files between
    their steps and of the drain: one reload at most is past the lock; the settings
    fixed for the process keep their startup values; what is served is always one
    whole zone, built from a configuration of the origin the process started with;
    and whenever no reload holds the lock it is the running configuration's zone,
    with its record count in the gauge. *)
Theorem reloads_keep_service ctx n events :
  rc_locked ctx = false -> settled ctx ->
  let s := system_run events (ctx, replicate n Called) in
  (forall i j pc pc', s.2 !! i = Some pc -> s.2 !! j = Some pc' -> holds pc = true -> holds pc' = true -> i = j) /\
  apply_reloadable (rc_running ctx) (rc_running s.1) = rc_running s.1 /\
  (rc_locked s.1 = false -> settled s.1) /\
  (forall i pc, s.2 !! i = Some pc -> holds pc = true ->
     exists zc z, serving (rc_handler s.1) zc z /\ origin_of zc = origin_of (cfg_zone (rc_running ctx))).
Proof.
  intros Hl Hs s. assert (Hinv : SysInv ctx s) by (by apply sys_inv_run, sys_inv_start).
  destruct Hinv as [_ Hfix Hlock Hone Hset]. split_and!; [done|done|done|].
  intros i pc Hi Hp. destruct (Hlock i pc Hi Hp) as [_ Hok].
  assert (Hset' : settled s.1 -> exists zc z, serving (rc_handler s.1) zc z /\ origin_of zc = origin_of (cfg_zone (rc_running ctx))).
  { intros (o & z & Ho & Hsv & _). eexists _, z. split; [exact Hsv|]. rewrite Ho. unfold origin_of. by rewrite (fixed_origin _ _ Hfix). }
  destruct pc as [| | |r z|r z|r z|r z|r]; try done; cbn in Hok; try (by apply Hset'); try (by apply Hset', Hok).
  - destruct Hok as [[Ho _] Hsv]. eauto.
  - destruct Hok as [[Ho _] [Hsv _]]. eauto.
Qed.

(** ** The drain *)

(** Past the second check, so about to install. *)
Definition installing (pc : ReloadPc) : bool :=
  match pc with Cleared _ _ | Swapped _ _ | Gauged _ _ => true | _ => false end.

Definition succeeded (pc : ReloadPc) : bool := match pc with Finished (Ok _) => true | _ => false end.

Lemma drained_step files seed ctx pc :
  rc_draining ctx = true -> installing pc = false ->
  let '(ctx', pc') := reload_step files seed ctx pc in
  rc_draining ctx' = true /\ rc_handler ctx' = rc_handler ctx /\ rc_running ctx' = rc_running ctx /\
  installing pc' = false /\ succeeded pc' = succeeded pc.
Proof.
  intros Hd Hp. destruct pc as [| | |r z|r z|r z|r z|r]; try done; cbn [reload_step]; rewrite ?Hd; try done.
  - by destruct (rc_locked ctx).
  - by destruct (prepare _ _ _ _) as [[? ?]|].
Qed.

(** C26: once the drain has begun and no reload is past its second check, no zone is ever
    installed again, the running configuration never moves, and no reload that had
    not already succeeded ever does - whatever is still called and however it runs. *)
Theorem drain_is_final ctx pcs events :
  rc_draining ctx = true -> Forall (fun pc => installing pc = false) pcs ->
  let s := system_run events (ctx, pcs) in
  rc_handler s.1 = rc_handler ctx /\ rc_running s.1 = rc_running ctx /\
  map succeeded s.2 = map succeeded pcs.
Proof.
  intros Hd Hp s. unfold s.
  enough (H : forall s0 : System, rc_draining s0.1 = true -> Forall (fun pc => installing pc = false) s0.2 ->
    rc_handler (system_run events s0).1 = rc_handler s0.1 /\ rc_running (system_run events s0).1 = rc_running s0.1 /\
    map succeeded (system_run events s0).2 = map succeeded s0.2) by (by apply (H (ctx, pcs))).
  clear. induction events as [|e events IH]; intros s0 Hd Hp; [done|]. cbn [system_run fold_left].
  assert (Hn : rc_draining (system_next s0 e).1 = true /\ rc_handler (system_next s0 e).1 = rc_handler s0.1 /\
    rc_running (system_next s0 e).1 = rc_running s0.1 /\ Forall (fun pc => installing pc = false) (system_next s0 e).2 /\
    map succeeded (system_next s0 e).2 = map succeeded s0.2).
  { destruct e as [i files seed|]; [|done]. unfold system_next. destruct (s0.2 !! i) as [pc|] eqn:Hi; [|done].
    pose proof (proj1 (Forall_lookup _ _) Hp i pc Hi) as Hpc. pose proof (drained_step files seed s0.1 pc Hd Hpc) as Hst.
    destruct (reload_step _ _ _ _) as [ctx' pc']. destruct Hst as (H1 & H2 & H3 & H4 & H5). cbn [fst snd].
    split_and!; try done; [by apply Forall_insert|].
    change (map succeeded (<[i:=pc']> s0.2)) with (succeeded <$> <[i:=pc']> s0.2). rewrite list_fmap_insert, H5.
    apply list_insert_id. by rewrite list_lookup_fmap, Hi. }
  destruct Hn as (H1 & H2 & H3 & H4 & H5). destruct (IH _ H1 H4) as (I1 & I2 & I3).
  unfold system_run in *. rewrite I1, I2, I3. done.
Qed.
End Pipeline.
