(* ===== verification/Drift.v ===== *)
(** * What a reload reports as ignored (src/src/reload.rs)

    The drift report against the two promises made for it: a report with nothing in
    it means the reload did what a restart would do, and reloading an unchanged file
    reports nothing - with the one exception the code makes. *)

From S2P Require Import Prelude Names Rdata Hashing Zone Build RateLimit Metrics Handler.
From S2P Require Import Config ConfigTheorems Admin Reload.
Local Open Scope vega_scope.

Definition FIXED_KEYS : list string :=
  [KEY_ORIGIN; KEY_UDP; KEY_TCP; KEY_ADMIN_LISTEN; KEY_TCP_TIMEOUT; KEY_SHUTDOWN_DRAIN;
   KEY_LOG_FORMAT; KEY_LOG_LEVEL; KEY_ADMIN_TOKEN; KEY_RATE_LIMIT_QPS; KEY_RATE_LIMIT_BURST].

Lemma push_if_false cond key l : cond = false -> push_if cond key l = l.
Proof. by intros ->. Qed.

Lemma push_if_nil cond key l : push_if cond key l = [] <-> cond = false /\ l = [].
Proof. destruct cond; cbn; [|tauto]. split; [|by intros []]. intros H. by destruct l. Qed.

Lemma push_if_sublist cond key l keys : l `sublist_of` keys -> push_if cond key l `sublist_of` keys ++ [key].
Proof. intros H. destruct cond; cbn; [by apply sublist_app|]. by apply sublist_inserts_r. Qed.

Lemma differs_false {A} `{EqDecision A} (a b : A) : differs a b = false <-> a = b.
Proof. unfold differs. by rewrite negb_false_iff, bool_decide_eq_true. Qed.

Lemma differs_refl {A} `{EqDecision A} (a : A) : differs a a = false.
Proof. by apply differs_false. Qed.

(** No burst without a rate, and neither is zero: the two numbers the report compares
    then determine the limit. *)
Lemma rate_limit_eq c d :
  usable c -> usable d -> qps_of c = qps_of d -> burst_of c = burst_of d -> rate_limit c = rate_limit d.
Proof.
  intros [_ _ _ _ _ _ _ Hc] [_ _ _ _ _ _ _ Hd]. unfold qps_of, burst_of.
  destruct (rate_limit c) as [[q b]|], (rate_limit d) as [[q' b']|]; cbn; intros.
  - congruence. - specialize (Hc _ eq_refl). cbn in Hc. lia.
  - specialize (Hd _ eq_refl). cbn in Hd. lia. - done.
Qed.

(** The same configuration, its origin written another way. *)
Definition with_origin (c : Config) (o : string) : Config :=
  let z := cfg_zone c in
  mkConfig (source c) (udp c) (tcp c) (admin_listen c) (tcp_timeout c) (shutdown_drain c) (tcp_response_buffer c)
    (mkZoneConfig o (zc_default_ttl z) (zc_builtins z) (zc_soa z) (zc_records z))
    (rate_limit c) (log_format c) (log_level c) (admin_token c).

Section Drift.
Context {HN : HickoryNames} {HR : HickoryRdata HN} {HO : HashOrder} {HT : HashTableApi} {HM : HickoryMessages} {HC : Crate}.

Lemma drift_sublist running stated fresh : drift running stated fresh `sublist_of` FIXED_KEYS.
Proof.
  unfold drift. cbv zeta. change FIXED_KEYS with ([] ++ [KEY_ORIGIN] ++ [KEY_UDP] ++ [KEY_TCP] ++ [KEY_ADMIN_LISTEN] ++
    [KEY_TCP_TIMEOUT] ++ [KEY_SHUTDOWN_DRAIN] ++ [KEY_LOG_FORMAT] ++ [KEY_LOG_LEVEL] ++ [KEY_ADMIN_TOKEN] ++
    [KEY_RATE_LIMIT_QPS] ++ [KEY_RATE_LIMIT_BURST]).
  rewrite !app_assoc. do 11 apply push_if_sublist. apply sublist_nil_l.
Qed.

(** An empty report: what a restart would resolve agrees with what is running. *)
Lemma drift_empty running stated fresh :
  drift running stated fresh = [] ->
  same_origin (zc_origin (cfg_zone fresh)) (zc_origin (cfg_zone running)) = true /\
  udp fresh = udp running /\ tcp fresh = tcp running /\ admin_listen fresh = admin_listen running /\
  tcp_timeout fresh = tcp_timeout running /\ shutdown_drain fresh = shutdown_drain running /\
  log_format fresh = log_format running /\ log_level fresh = log_level running /\
  admin_token fresh = admin_token running /\ qps_of fresh = qps_of running /\ burst_of fresh = burst_of running.
Proof.
  unfold drift. cbv zeta. rewrite !push_if_nil, !orb_false_iff, !differs_false, negb_false_iff. tauto.
Qed.

Lemma resolve_merges files cli r :
  Config_resolve files cli = Ok r -> exists file, merge cli file = Ok (config r) /\ stated r = FileSettings_from file.
Proof.
  unfold Config_resolve. intros H. apply rbind_ok in H as (file & _ & H). cbv zeta in H.
  apply rbind_ok in H as (c & Hc & H). injection H as <-. exists file. split; [|done].
  destruct (merge cli file) as [c'|]; [|done]. injection Hc as ->. done.
Qed.

(** What every merged configuration says of the process, whatever the file. *)
Lemma merged_frame cli file c :
  merge cli file = Ok c -> usable c /\ source c = cli_config cli /\ tcp_response_buffer c = TCP_RESPONSE_BUFFER.
Proof. by intros (-> & Hu & _)%merge_ok. Qed.

Lemma reload_ok ctx files seed cancelled ctx' out :
  reload ctx files seed cancelled = (ctx', Ok out) ->
  exists r z, Config_resolve files (invocation ctx) = Ok r /\ from_config seed (cfg_zone (config r)) = Ok z /\
    out = outcome_of (rc_running ctx) r z /\ rc_running ctx' = apply_reloadable (rc_running ctx) (config r) /\
    h_active (rc_handler ctx') = Active_new z (zc_builtins (cfg_zone (config r))).
Proof.
  unfold reload, prepare. destruct (rc_draining ctx); [done|]. destruct (rc_locked ctx); [done|].
  destruct (Config_resolve files (invocation ctx)) as [r|]; [|done].
  destruct (canonical_origin (zc_origin (cfg_zone (config r)))); [|done].
  destruct (canonical_origin (zc_origin (cfg_zone (rc_running ctx)))); [|done].
  destruct (negb _); [done|]. destruct (from_config seed (cfg_zone (config r))) as [z|] eqn:Ez; [|done].
  destruct cancelled; [done|]. intros [= <- <-]. exists r, z. done.
Qed.

(** C27: the report names fixed settings only, each at most once and in the order of the
    table.  When it is empty, the running configuration is now exactly what a restart
    would resolve from the same file - the origin's spelling apart - and the zone
    served is that configuration's. *)
Theorem silent_reload_is_restart ctx files0 r0 files seed cancelled ctx' out :
  Config_resolve files0 (invocation ctx) = Ok r0 ->
  apply_reloadable (config r0) (rc_running ctx) = rc_running ctx ->
  reload ctx files seed cancelled = (ctx', Ok out) ->
  ro_ignored out `sublist_of` FIXED_KEYS /\
  (ro_ignored out = [] ->
   let origin := zc_origin (cfg_zone (rc_running ctx)) in
   exists r z, Config_resolve files (invocation ctx) = Ok r /\ same_origin (zc_origin (cfg_zone (config r))) origin = true /\
     rc_running ctx' = with_origin (config r) origin /\
     from_config seed (cfg_zone (config r)) = Ok z /\
     h_active (rc_handler ctx') = Active_new z (zc_builtins (cfg_zone (config r)))).
Proof.
  intros Hr0 Hfix (r & z & Hr & Hz & -> & Hrun & Hact)%reload_ok. split; [apply drift_sublist|].
  intros Hd origin. exists r, z. unfold origin. apply drift_empty in Hd as (Ho & Hu & Ht & Ha & Htt & Hdr & Hlf & Hll & Htok & Hq & Hb).
  destruct (resolve_merges _ _ _ Hr0) as (f0 & (Hu0 & Hs0 & Ht0)%merged_frame & _).
  destruct (resolve_merges _ _ _ Hr) as (f & (Hu1 & Hs1 & Ht1)%merged_frame & _).
  split_and!; [done|done| |done|done]. rewrite Hrun. unfold with_origin, apply_reloadable in *.
  rewrite <- Hfix in Hu, Ht, Ha, Htt, Hdr, Hlf, Hll, Htok, Hq, Hb |- *. cbn in Hu, Ht, Ha, Htt, Hdr, Hlf, Hll, Htok |- *.
  rewrite Hu, Ht, Ha, Htt, Hdr, Hlf, Hll, Htok, Hs0, Hs1, Ht0, Ht1.
  by rewrite (rate_limit_eq (config r) (config r0) Hu1 Hu0 Hq Hb).
Qed.

(** ** A reload of what is already running *)

(** The invocation states none of the fixed settings, so the file has the say. *)
Record unflagged (cli : GlobalArgs) : Prop := {
  uf_udp : cli_udp cli = [];
  uf_tcp : cli_tcp cli = [];
  uf_admin : cli_admin_listen cli = None;
  uf_domain : cli_domain cli = None;
  uf_qps : cli_rate_limit_qps cli = None;
  uf_burst : cli_rate_limit_burst cli = None;
  uf_timeout : cli_tcp_timeout_secs cli = None;
  uf_drain : cli_shutdown_drain_secs cli = None;
  uf_format : cli_log_format cli = None;
  uf_level : cli_log_level cli = None;
  uf_token : cli_admin_token cli = None;
}.

(** The file states a burst, not zero, for a limiter it leaves off. *)
Definition idle_burst (file : FileConfig) : bool :=
  let section := ss_rate_limit (fc_server file) in
  (default 0 (rls_qps section) =? 0)%N && negb (default 0 (rls_burst section) =? 0)%N.

Lemma same_origin_refl o : canonical_origin o <> None -> same_origin o o = true.
Proof. unfold same_origin. destruct (canonical_origin o); [|done]. intros _. by apply bool_decide_eq_true. Qed.

Lemma stated_differs {A} `{EqDecision A} (o : option A) (d : A) :
  is_some_and (fun a => differs a (default d o)) o = false.
Proof. destruct o as [a|]; cbn; [apply differs_refl|done]. Qed.

(** Reloading, with no flag about a fixed setting on the command line, the very file
    the process runs from reports nothing - unless the file gives a burst to a limiter
    it does not turn on, which every reload then reports. *)
Theorem unchanged_file_reports_nothing cli file c :
  unflagged cli -> merge cli file = Ok c -> canonical_origin (zc_origin (cfg_zone c)) <> None ->
  drift c (FileSettings_from file) c = if idle_burst file then [KEY_RATE_LIMIT_BURST] else [].
Proof.
  intros [Fu Ft Fa Fo Fq Fb Ftt Fd Flf Fll Ftok] (-> & _ & Hd)%merge_ok Ho. unfold drift. cbv zeta.
  rewrite !differs_refl, (same_origin_refl _ Ho), !orb_false_r. revert Hd Ho.
  unfold overlay, drain_asked, rate_asked, listeners, idle_burst, qps_of, burst_of.
  rewrite Fu, Ft, Fa, Fo, Fq, Fb, Ftt, Fd, Flf, Fll, Ftok.
  destruct file as [[fu ft fa ftt fd flf fll ftok [fq fb]] [fo ? ? ? ?]]. cbn. intros Hd Ho.
  rewrite (push_if_false _ KEY_ORIGIN) by (destruct fo; [by cbn; rewrite same_origin_refl|done]).
  rewrite (push_if_false _ KEY_UDP) by (destruct fu; [done|apply andb_false_iff; right; apply differs_refl]).
  rewrite (push_if_false _ KEY_TCP), (push_if_false _ KEY_ADMIN_TOKEN) by (apply andb_false_iff; right; apply differs_refl).
  rewrite (push_if_false _ KEY_ADMIN_LISTEN) by (destruct fa; [apply differs_refl|done]).
  rewrite (push_if_false _ KEY_TCP_TIMEOUT) by (destruct ftt; [apply differs_refl|done]).
  rewrite (push_if_false _ KEY_LOG_FORMAT) by (destruct flf; [apply differs_refl|done]).
  rewrite (push_if_false _ KEY_LOG_LEVEL) by (destruct fll; [apply differs_refl|done]).
  rewrite (push_if_false _ KEY_SHUTDOWN_DRAIN) by (destruct fd as [d|]; [unfold drain_differs; cbn; destruct (d <? 0)%Z eqn:E; [lia|apply differs_refl]|done]).
  destruct fq as [[|q]|], fb as [b|]; cbn; rewrite ?differs_refl; try done; unfold differs; by destruct b.
Qed.
End Drift.
