(* ===== verification/ReloadExamples.v ===== *)
(** * Reloads, run (src/src/reload.rs)

    The zone of [ZoneExamples] reloaded: every theorem about reloads and drift
    applied to it. *)

From S2P Require Import Prelude Names Rdata Plain Hashing Zone Lookup Build Answers ZoneExamples.
From S2P Require Import Cas RateLimit Metrics Handler HandlerFacts HandlerExamples.
From S2P Require Import Config ConfigTheorems Admin Reload ReloadTheorems Drift.
Local Open Scope vega_scope.
Open Scope string_scope.

Definition ex_path : PathBuf := "/etc/vega.toml".

Definition ex_cli : GlobalArgs :=
  mkGlobalArgs (Some ex_path) [] [] None None None None None None false None None None false false.

(** The example's zone, with a burst for a limiter that is off. *)
Definition ex_toml : FileConfig :=
  mkFileConfig (mkServerSection [SockV4 0 53] [] None None (Some 20%Z) None None (Some "s3cret") (mkRateLimitSection None (Some 5%N)))
    (mkZoneSection (Some "Z") (Some 300%N) None (zc_soa ex_cfg) (zc_records ex_cfg)).

Definition ex_files : Files := fun _ => Parsed ex_toml.

Definition ex_running : Config := overlay ex_cli ex_toml.

Definition ex_served : DnsHandler := set_gauge (ex_handler None) (record_count ex_z).

Definition ex_ctx : ReloadContext := ReloadContext_new ex_cli ex_path ex_served ex_running false.

Lemma ex_ctx_settled : settled ex_ctx.
Proof.
  exists "Z", ex_z. split; [reflexivity|]. split; [|reflexivity]. split; [|reflexivity].
  exists ex_seed. exact ex_built.
Qed.

Lemma stepwise_is_reload_witness :
  system_run [Step 0 ex_files ex_seed; Step 0 ex_files ex_seed; Step 0 ex_files ex_seed; Drain; Step 0 ex_files ex_seed;
    Step 0 ex_files ex_seed; Step 0 ex_files ex_seed; Step 0 ex_files ex_seed] (ex_ctx, [Called]) =
    (cancel (reload ex_ctx ex_files ex_seed true).1, [Finished (reload ex_ctx ex_files ex_seed true).2]).
Proof. exact (stepwise_is_reload ex_ctx ex_files ex_seed true eq_refl). Defined.

(** Two reloads, taking turns. *)
Definition turns : list Event := concat (repeat [Step 0 ex_files ex_seed; Step 1 ex_files 7] 7).

Lemma reload_always_returns_witness :
  exists r, (system_run turns (ex_ctx, replicate 2 Called)).2 !! 1%nat = Some (Finished r).
Proof. apply (reload_always_returns ex_ctx 2 1 turns); [lia|]. apply Nat.leb_le. reflexivity. Defined.

Lemma turns_unlock : rc_locked (system_run turns (ex_ctx, replicate 2 Called)).1 = false.
Proof. evaluate. Qed.

Lemma reloads_keep_service_witness : settled (system_run turns (ex_ctx, replicate 2 Called)).1.
Proof. exact (proj1 (proj2 (proj2 (reloads_keep_service ex_ctx 2 turns eq_refl ex_ctx_settled))) turns_unlock). Defined.

Lemma drain_is_final_witness :
  rc_handler (system_run turns (cancel ex_ctx, replicate 2 Called)).1 = ex_served.
Proof.
  assert (Hpcs : Forall (fun pc => installing pc = false) (replicate 2 Called)) by (repeat constructor).
  exact (proj1 (drain_is_final (cancel ex_ctx) (replicate 2 Called) turns eq_refl Hpcs)).
Defined.

Lemma ex_unflagged : unflagged ex_cli.
Proof. by constructor. Qed.

Lemma ex_origin_parses : canonical_origin (zc_origin (cfg_zone ex_running)) <> None.
Proof.
  assert (H : is_present (canonical_origin "Z") = true) by evaluate. intros Hn.
  change (canonical_origin "Z" = None) in Hn. by rewrite Hn in H.
Qed.

Lemma unchanged_file_reports_nothing_witness :
  drift ex_running (FileSettings_from ex_toml) ex_running = [KEY_RATE_LIMIT_BURST].
Proof. exact (unchanged_file_reports_nothing ex_cli ex_toml ex_running ex_unflagged eq_refl ex_origin_parses). Defined.

(** The same file without the burst: nothing to report. *)
Definition ex_plain_toml : FileConfig :=
  mkFileConfig (mkServerSection [SockV4 0 53] [] None None (Some 20%Z) None None (Some "s3cret") (mkRateLimitSection None None))
    (fc_zone ex_toml).

Definition ex_plain_files : Files := fun _ => Parsed ex_plain_toml.
Definition ex_plain_ctx : ReloadContext := ReloadContext_new ex_cli ex_path ex_served (overlay ex_cli ex_plain_toml) false.
Definition ex_reloaded := reload ex_plain_ctx ex_plain_files 7 false.
Definition no_outcome : ReloadOutcome := mkOutcome "" 0 [].
Definition outcome_or (r : result ReloadError ReloadOutcome) : ReloadOutcome := match r with Ok o => o | Err _ => no_outcome end.

Lemma ex_reloads : reload ex_plain_ctx ex_plain_files 7 false = (ex_reloaded.1, Ok (outcome_or ex_reloaded.2)).
Proof.
  assert (H : is_ok (reload ex_plain_ctx ex_plain_files 7 false).2 = true) by evaluate.
  unfold ex_reloaded. destruct (reload ex_plain_ctx ex_plain_files 7 false) as [c [o|e]]; [reflexivity|discriminate H].
Qed.

Lemma silent_reload_is_restart_witness :
  exists r z, Config_resolve ex_plain_files (invocation ex_plain_ctx) = Ok r /\
    rc_running ex_reloaded.1 = with_origin (config r) "Z" /\ from_config 7 (cfg_zone (config r)) = Ok z.
Proof.
  assert (Hn : ro_ignored (outcome_or ex_reloaded.2) = []).
  { assert (H : is_nil (ro_ignored (outcome_or ex_reloaded.2)) = true) by evaluate. by apply is_nil_true. }
  destruct (proj2 (silent_reload_is_restart ex_plain_ctx ex_plain_files (mkResolvedConfig (overlay ex_cli ex_plain_toml) (FileSettings_from ex_plain_toml))
    ex_plain_files 7 false _ _ eq_refl eq_refl ex_reloads) Hn) as (r & z & Hr & _ & Hrun & Hz & _).
  exists r, z. exact (conj Hr (conj Hrun Hz)).
Defined.
