(* ===== verification/EndToEnd.v ===== *)
(** * From the file to the wire

    The components composed: a POST to the admin endpoint, the reload pipeline, the
    zone's build and its lookup, and the handler's answer to a later request. *)

From S2P Require Import Prelude Names Rdata Plain Hashing Zone Lookup Build Checked BuildFacts LayoutFacts ArenaFacts Finish.
From S2P Require Import Totality Served Asserts Answers ZoneTheorems Declared FileZone ZoneExamples.
From S2P Require Import Cas RateLimit Lifecycle Metrics Handler HandlerFacts HandlerTheorems FileServer HandlerExamples.
From S2P Require Import Config ConfigTheorems Admin Reload Serve ReloadTheorems Drift ReloadExamples.
Local Open Scope vega_scope.

Section EndToEnd.
Context {HN : HickoryNames} {HL : HickoryNamesLaws HN} {HR : HickoryRdata HN} {HO : HashOrder} {HT : HashTableApi} {TL : HashTableLaws HT}.
Context {HM : HickoryMessages} {HC : Crate}.

(** ** A valid request, resolved *)

Lemma meta_type_ordinary t :
  t ∉ [RT_AXFR; RT_IXFR; RT_OPT; RT_TSIG; RT_ZERO; MAILB_QTYPE; MAILA_QTYPE] -> meta_type t = None.
Proof.
  rewrite !not_elem_of_cons. intros (H1 & H2 & H3 & H4 & H5 & H6 & H7 & _). unfold meta_type.
  apply N.eqb_neq in H1, H2, H3, H4, H5, H6, H7. by rewrite H1, H2, H3, H4, H5, H6, H7.
Qed.

Lemma validate_valid h request q src :
  valid_query request q ->
  validate h request src = resolve (queries (h_metrics h)) (h_active h) (query_name q) (query_type q) src.
Proof.
  intros [Hm Ho He Hq Hc Ht]. unfold validate. rewrite !bool_decide_true by done. cbn [negb].
  assert (Hv : match rq_edns request with Some e => (0 <? Handler.version e)%N | None => false end = false).
  { destruct (rq_edns request) as [e|]; [by rewrite (He e eq_refl)|done]. }
  rewrite Hv, Hq, Hc. cbn. by rewrite meta_type_ordinary.
Qed.

(** The name is one of the diagnostic sub-zones' *)
Definition diagnostic (a : Active) (name : LowerName) : bool :=
  match builtins a with
  | None => false
  | Some b => zone_of (myip b) name || zone_of (counter b) name || zone_of (version_name b) name || zone_of (hello b) name
  end.

Lemma builtin_none count a name t src : diagnostic a name = false -> resolve_builtin count a name t src = None.
Proof.
  unfold diagnostic, resolve_builtin. destruct (builtins a) as [b|]; [|done]. rewrite !orb_false_iff.
  intros (((H1 & H2) & H3) & H4). cbn [mbind option_bind]. by rewrite H1, H2, H3, H4.
Qed.

(** ** The whole way *)

(** The handler answers for a configuration: to every valid request that is not rate
    limited it sends what the file says, within what the transport can carry, whatever
    the name and the type, but for the two kinds of question of [answer_departs].  The
    count is what the diagnostic counter shows. *)
Definition answers_for (h : DnsHandler) (cfg : ZoneConfig) : Prop :=
  forall request q now elapsed send,
    valid_query request q -> limited h request now = false -> answer_departs cfg (query_name q) (query_type q) = false ->
    (handle_request h request now elapsed send).1.2 =
    Some (build_response request (file_respond cfg (queries (query (h_metrics h) (transport_of (rq_protocol request))))
            (query_name q) (query_type q) (rq_src request))).

Lemma served_is_answered seed cfg z h :
  from_config seed cfg = Ok z -> plain_config cfg -> fits cfg -> h_active h = Active_new z (zc_builtins cfg) -> answers_for h cfg.
Proof.
  intros Hz Hp Hf Ha request q now elapsed send Hq Hlim Hdep.
  rewrite sent_cases, Hlim, (validate_valid _ _ q) by done. cbn [h_active h_metrics]. by rewrite Ha, (served_responds seed cfg z).
Qed.

(** A valid request that the limiter lets through is resolved. *)
Lemma served_plainly h request q now elapsed send :
  valid_query request q -> limited h request now = false ->
  (handle_request h request now elapsed send).1.2 =
  Some (build_response request (resolve (queries (query (h_metrics h) (transport_of (rq_protocol request)))) (h_active h)
          (query_name q) (query_type q) (rq_src request))).
Proof. intros Hq Hlim. by rewrite sent_cases, Hlim, (validate_valid _ _ q). Qed.

Lemma reload_refused ctx files seed cancelled ctx' e :
  reload ctx files seed cancelled = (ctx', Err e) -> ctx' = ctx.
Proof.
  unfold reload. destruct (rc_draining ctx); [by intros [=]|]. destruct (rc_locked ctx); [by intros [=]|].
  destruct (prepare _ _ _ _) as [[r z]|]; [|by intros [=]]. destruct cancelled; by intros [=].
Qed.

(** C1: a POST /reload that does not answer 200 has changed nothing at all: not the
    zone, the gauge, the running configuration or the counter.  One that answers 200
    has the server answering from the file it read: every later valid request, for
    whatever name and type, that the limiter lets through is sent what RFC 1034's
    algorithm, with RFC 4592, answers on that file's record blocks - ANY as RFC 8482 has
    it, a referral below a delegation whatever the type, a chain of aliases followed
    for eight ([MAX_CNAME_DEPTH]) at most - or what its diagnostic names say.  Of the
    file it is asked that no name in it has a backslash, that its origin is neither
    empty nor a wildcard, and that its nodes fit a 32-bit index; and of the question
    that it is neither of the two the program answers otherwise: ANY for a name below a
    delegation that is not in the file, which it denies (a code_bug of the findings),
    and a question whose aliases lead to the alias of a wildcard. *)
Theorem reloaded_file_is_answered (st : AdminState (World := ReloadContext)) ctx peer headers files seed cancelled :
  reload_hook st = Some (hook files seed cancelled) ->
  let '(st', ctx', rsp) := post_reload st ctx peer headers in
  (status rsp <> 200%N -> st' = st /\ ctx' = ctx) /\
  (status rsp = 200%N -> exists r, Config_resolve files (invocation ctx) = Ok r /\
     (plain_config (cfg_zone (config r)) -> fits (cfg_zone (config r)) -> answers_for (rc_handler ctx') (cfg_zone (config r)))).
Proof.
  intros Hh. unfold post_reload. rewrite Hh.
  assert (Hcode : forall c, code_status c <> 200%N) by (by intros []).
  assert (Href : forall e (P : Prop), (status (refused_response e) <> 200%N -> st = st /\ ctx = ctx) /\ (status (refused_response e) = 200%N -> P)).
  { intros e P. split; [done|]. by intros ?%Hcode. }
  destruct (is_draining _); [apply Href|]. destruct (negb _); [apply Href|].
  unfold hook. destruct (reload ctx files seed cancelled) as [ctx' [out|e]] eqn:Er.
  - split; [done|]. intros _. apply reload_ok in Er as (r & z & Hr & Hz & _ & _ & Hact). exists r. split; [done|].
    intros Hp Hf. by apply (served_is_answered seed _ z).
  - apply reload_refused in Er as ->. apply Href.
Qed.

(** ** From start-up on *)

Lemma setup_settled cfg invocation seed now hash_one reload_fn p ctx :
  serve_setup cfg invocation seed now hash_one reload_fn = Ok p -> p_reload p = Some ctx ->
  settled ctx /\ rc_locked ctx = false /\ rc_running ctx = cfg.
Proof.
  unfold serve_setup. intros H. apply rbind_ok in H as (z & Hz & H). destruct (source cfg) as [path|]; [|by injection H as <-].
  injection H as <-. intros [= <-]. split; [|done]. exists (zc_origin (cfg_zone cfg)), z.
  assert (E : respelled (cfg_zone cfg) (zc_origin (cfg_zone cfg)) = cfg_zone cfg) by (by destruct (cfg_zone cfg)).
  cbn [ReloadContext_new rc_running rc_handler]. rewrite E. split; [done|]. split; [|done]. split; [by exists seed|done].
Qed.

(** C15: a process that starts keeps its promise for good.  Under any interleaving of any
    number of reloads, of edits to the files between their steps and of the drain: one
    reload at most is past the lock; the settings fixed for the process keep their
    startup values; what is served is always one whole zone, built from a
    configuration of the origin the process started with; and whenever no reload
    holds the lock it is the running configuration's zone, with its record count in
    the gauge, and every valid request the limiter lets through is answered as that
    configuration's file says, in RFC 1034's terms ([file_respond]).  This last part
    asks what C1 asks: names without a backslash, an origin neither empty nor a
    wildcard, nodes within a 32-bit index, and a question that is neither ANY for a name
    missing below a delegation nor one whose aliases lead to the alias of a wildcard. *)
Theorem started_process_keeps_service cfg invocation seed now hash_one reload_fn p ctx n events :
  serve_setup cfg invocation seed now hash_one reload_fn = Ok p -> p_reload p = Some ctx ->
  let s := system_run events (ctx, replicate n Called) in
  (forall i j pc pc', s.2 !! i = Some pc -> s.2 !! j = Some pc' -> holds pc = true -> holds pc' = true -> i = j) /\
  apply_reloadable cfg (rc_running s.1) = rc_running s.1 /\
  (rc_locked s.1 = false -> settled s.1 /\
     exists o, let zc := respelled (cfg_zone (rc_running s.1)) o in
       origin_of zc = origin_of (cfg_zone cfg) /\ (plain_config zc -> fits zc -> answers_for (rc_handler s.1) zc)) /\
  (forall i pc, s.2 !! i = Some pc -> holds pc = true ->
     exists zc z, serving (rc_handler s.1) zc z /\ origin_of zc = origin_of (cfg_zone cfg)).
Proof.
  intros Hp Hctx. destruct (setup_settled _ _ _ _ _ _ _ _ Hp Hctx) as (Hs & Hl & <-). intros s.
  destruct (reloads_keep_service ctx n events Hl Hs) as (H1 & Hfix & H3 & H4). fold s in Hfix, H3, H4. split_and!; [done|done| |done].
  intros Hfree. specialize (H3 Hfree). split; [done|]. destruct H3 as (o & z & Ho & [[seed' Hz] Ha] & _). exists o.
  split; [|intros Hpl Hf; by apply (served_is_answered seed' _ z)].
  rewrite Ho. unfold origin_of. by rewrite (fixed_origin _ _ Hfix).
Qed.

End EndToEnd.

(** ** One request after one reload *)

Open Scope string_scope.

Definition ex_endpoint : AdminState (World := ReloadContext) :=
  with_reload (mark_ready (AdminState_new (Metrics_new 0))) (hook ex_plain_files ex_seed false).

(** The caller is on this host. *)
Definition ex_post := post_reload ex_endpoint ex_plain_ctx (SockV4 2130706433 40000) [].

Lemma ex_post_ok : status ex_post.2 = 200%N.
Proof. apply N.eqb_eq. evaluate. Qed.

Definition ex_resolved : ResolvedConfig := mkResolvedConfig (overlay ex_cli ex_plain_toml) (FileSettings_from ex_plain_toml).

Lemma ex_resolves : Config_resolve ex_plain_files (invocation ex_plain_ctx) = Ok ex_resolved.
Proof. reflexivity. Qed.

Lemma ex_resolved_zone cfg : Config_resolve ex_plain_files (invocation ex_plain_ctx) = Ok cfg -> cfg_zone (config cfg) = ex_cfg.
Proof.
  rewrite ex_resolves. intros H. assert (E : forall a b : ResolvedConfig, @Ok LoadError _ a = Ok b -> a = b) by (by intros a b [= ->]).
  rewrite <- (E _ _ H). reflexivity.
Qed.

Lemma reloaded_file_is_answered_witness :
  exists count, (handle_request (rc_handler ex_post.1.2) rq_edns_host 5000000 1000 delivers).1.2 =
  Some (build_response rq_edns_host (file_respond ex_cfg count (low "a.b.z.") RT_A (rq_src rq_edns_host))).
Proof.
  assert (Hlim : limited (rc_handler ex_post.1.2) rq_edns_host 5000000 = false) by evaluate.
  pose proof ex_post_ok as Hs. revert Hs Hlim. unfold ex_post.
  generalize (reloaded_file_is_answered ex_endpoint ex_plain_ctx (SockV4 2130706433 40000) [] ex_plain_files ex_seed false eq_refl).
  generalize (post_reload ex_endpoint ex_plain_ctx (SockV4 2130706433 40000) []). intros [[st' ctx'] r] H. cbn [fst snd].
  intros Hs Hlim. destruct (proj2 H Hs) as (cfg & Hr & Hans). rewrite (ex_resolved_zone cfg Hr) in Hans.
  eexists. apply (Hans ex_plain ex_fits rq_edns_host (mkQuery (low "a.b.z.") RT_A CLASS_IN)); [|exact Hlim|evaluate].
  constructor; try reflexivity.
  - by intros e [= <-].
  - apply (bool_decide_eq_false_1 (RT_A ∈ [RT_AXFR; RT_IXFR; RT_OPT; RT_TSIG; RT_ZERO; MAILB_QTYPE; MAILA_QTYPE])). evaluate.
Defined.

(** Two addresses, by name. *)
Example ex_file_says : length (answers (file_respond ex_cfg 1 (low "a.b.z.") RT_A (V4 1))) = 2%nat.
Proof. apply Nat.eqb_eq. evaluate. Qed.

(** ANY below the delegation, for a name the file does not have: a referral is owed, and
    [HandlerAnswers.any_below_cut_is_denied] is what is said. *)
Example ex_any_departs :
  (answer_departs ex_cfg (low "q.s.z.") RT_ANY, answer_departs ex_cfg (low "x.s.z.") RT_ANY,
   bool_decide (code (file_resolve ex_cfg (low "q.s.z.") RT_ANY) = NoError),
   length (authority (file_resolve ex_cfg (low "q.s.z.") RT_ANY)), res_authoritative (file_resolve ex_cfg (low "q.s.z.") RT_ANY))
  = (true, false, true, 1%nat, false).
Proof. evaluate. Qed.

Definition process_or (r : result BuildError Process) : Process :=
  match r with Ok p => p | Err _ => mkProcess (ex_handler None) ex_endpoint None end.
Definition ctx_or (o : option ReloadContext) : ReloadContext := match o with Some c => c | None => ex_plain_ctx end.

Lemma process_or_ok r : is_ok r = true -> r = Ok (process_or r).
Proof. by destruct r. Qed.

Lemma ctx_or_some o : is_present o = true -> o = Some (ctx_or o).
Proof. by destruct o. Qed.

Definition ex_process : Process :=
  process_or (serve_setup (overlay ex_cli ex_plain_toml) ex_cli ex_seed 0 (fun k => k) (hook ex_plain_files 7 false)).
Definition ex_live : ReloadContext := ctx_or (p_reload ex_process).

Lemma ex_process_started :
  serve_setup (overlay ex_cli ex_plain_toml) ex_cli ex_seed 0 (fun k => k) (hook ex_plain_files 7 false) = Ok ex_process.
Proof. apply process_or_ok. evaluate. Qed.

Lemma ex_live_reloads : p_reload ex_process = Some ex_live.
Proof. apply ctx_or_some. evaluate. Qed.

(** Two reloads, taking turns. *)
Definition ex_turns : list Reload.Event := concat (repeat [Step 0 ex_plain_files ex_seed; Step 1 ex_plain_files 7] 7).

Lemma ex_turns_unlock : rc_locked (system_run ex_turns (ex_live, replicate 2 Called)).1 = false.
Proof. evaluate. Qed.

Lemma started_process_keeps_service_witness : settled (system_run ex_turns (ex_live, replicate 2 Called)).1.
Proof.
  exact (proj1 (proj1 (proj2 (proj2 (started_process_keeps_service _ _ _ _ _ _ _ _ 2 ex_turns ex_process_started ex_live_reloads))) ex_turns_unlock)).
Defined.

Close Scope string_scope.
