(* ===== verification/Files.v ===== *)
(** * Files: saving the configuration (editor.rs, [write_atomically])

    A save writes a temporary file next to the target and renames it over.  Any
    number of processes may be saving the same file, the kernel runs one system
    call of one of them at a time, any call may fail, and the power may go at any
    moment.  This file holds the part of a Unix file system the code relies on and
    the writer as a machine with one system call per step; FilesTheorems proves
    what a reader of the target can ever find. *)

From S2P Require Import Prelude.
From stdpp Require Import pretty.

(** ** One directory of a file system

    An open file is its inode number, so a rename or a removal does not disturb it.
    [flushed] says that what is on the disk is what a read answers; [unsynced] are
    the states of the directory the disk may still hold, those it has been in since
    it was last synced. *)
Record File := mkFile {
  text : string;
  permissions : N;
  flushed : bool;
}.

Record Fs := mkFs {
  inodes : gmap N File;
  entries : gmap string N;
  unsynced : list (gmap string N);
}.

(** [st_mode]'s file-type bits, and the permission bits with setuid, setgid and
    sticky. *)
Definition S_IFREG : N := 0x8000%N.
Definition MODE_BITS : N := 0xFFF%N.

(** Every change of the directory leaves its previous state on the disk. *)
Definition set_entries (s : Fs) (d : gmap string N) : Fs :=
  mkFs (inodes s) d (entries s :: unsynced s).

Definition set_file (s : Fs) (fd : N) (f : File) : Fs :=
  mkFs (<[fd := f]> (inodes s)) (entries s) (unsynced s).

Definition read (s : Fs) (name : string) : option File :=
  entries s !! name ≫= fun fd => inodes s !! fd.

(** [OpenOptions::create_new]: the name is taken, or an empty file is now on it. *)
Definition create_new (s : Fs) (name : string) (umode : N) : option (N * Fs) :=
  match entries s !! name with
  | Some _ => None
  | None =>
      let fd := fresh (dom (inodes s)) in
      Some (fd, set_entries (set_file s fd (mkFile EmptyString umode false)) (<[name := fd]> (entries s)))
  end.

(** [fs::metadata(..).permissions().mode()]. *)
Definition stat_mode (s : Fs) (name : string) : option N :=
  (fun f => N.lor S_IFREG (permissions f)) <$> read s name.

Definition change_file (s : Fs) (fd : N) (g : File -> File) : Fs :=
  match inodes s !! fd with Some f => set_file s fd (g f) | None => s end.

Definition set_permissions (mode : N) (f : File) : File := mkFile (text f) mode false.
Definition append (octets : string) (f : File) : File := mkFile (text f +:+ octets) (permissions f) false.
Definition sync_all (f : File) : File := mkFile (text f) (permissions f) true.

Definition remove_file (s : Fs) (name : string) : Fs := set_entries s (delete name (entries s)).

(** [fs::rename]: in one state of the directory the old file is on the target's
    name, in the next the new one is, and there is none between. *)
Definition rename (s : Fs) (from to : string) : option Fs :=
  match entries s !! from with
  | Some fd => Some (set_entries s (<[to := fd]> (delete from (entries s))))
  | None => None
  end.

Definition sync_directory (s : Fs) : Fs := mkFs (inodes s) (entries s) [].

(** The power goes: the directory is in one of the states the disk may hold, and a
    file that was not flushed holds anything. *)
Definition outage (s s' : Fs) : Prop :=
  In (entries s') (entries s :: unsynced s) /\
  forall fd f, inodes s !! fd = Some f ->
    exists f', inodes s' !! fd = Some f' /\ (flushed f = true -> f' = f).

(** ** The writer *)

(** What one [write_atomically] is called with and finds around it: the process and
    the nanosecond its temporary name is composed of, what a fresh file's
    permission bits are under its umask, and whether its [metadata] calls fail. *)
Record Job := mkJob {
  pid : N;
  nanos : N;
  contents : string;
  umode : N;
  stat_denied : bool;
}.

Inductive WriteError :=
| NamesTaken
| CreateFailed
| ModeFailed
| WriteFailed
| SyncFailed
| RenameFailed.

Definition TEMP_NAME_ATTEMPTS : N := 16.

(** [".{name}.{pid}.{nanos}.{attempt}.tmp"]. *)
Definition temp_name (name : string) (job : Job) (attempt : N) : string :=
  "." +:+ name +:+ "." +:+ pretty (pid job) +:+ "." +:+ pretty (nanos job) +:+ "." +:+ pretty attempt +:+ ".tmp".

(** Where a writer is: before the system call it makes next. *)
Inductive Place :=
| AtCreate (attempt : N)
| AtStat (tmp : string) (fd : N)
| AtChmod (tmp : string) (fd : N) (mode : N)
| AtWrite (tmp : string) (fd : N)
| AtSync (tmp : string) (fd : N)
| AtRemove (tmp : string) (fd : N) (error : WriteError)
| AtRename (tmp : string) (fd : N)
| AtSyncDir
| Returned (outcome : result WriteError unit).

Section Writer.
Variable target : string.

(** [create_temp]: the next name, unless this one is free or the call failed for
    another reason. *)
Definition create_temp (fault : option nat) (job : Job) (s : Fs) (attempt : N) : Fs * Place :=
  if (TEMP_NAME_ATTEMPTS <=? attempt)%N then (s, Returned (Err NamesTaken))
  else
    let tmp := temp_name target job attempt in
    match fault with
    | Some _ => (s, Returned (Err CreateFailed))
    | None =>
        match create_new s tmp (umode job) with
        | Some (fd, s') => (s', AtStat tmp fd)
        | None => (s, AtCreate (attempt + 1))
        end
    end.

(** [preserve_mode], its two calls. *)
Definition preserve_stat (job : Job) (s : Fs) (tmp : string) (fd : N) : Fs * Place :=
  match (if stat_denied job then None else stat_mode s target) with
  | None => (s, AtWrite tmp fd)
  | Some st_mode => (s, AtChmod tmp fd (N.land st_mode MODE_BITS))
  end.

Definition preserve_chmod (fault : option nat) (s : Fs) (tmp : string) (fd mode : N) : Fs * Place :=
  match fault with
  | Some _ => (s, AtRemove tmp fd ModeFailed)
  | None => (change_file s fd (set_permissions mode), AtWrite tmp fd)
  end.

(** [sync_dir]: a failure is not reported. *)
Definition sync_dir (fault : option nat) (s : Fs) : Fs :=
  match fault with Some _ => s | None => sync_directory s end.

(** One system call of [write_atomically].  [fault] makes the call fail; a failing
    write has written that many octets. *)
Definition write_step (fault : option nat) (job : Job) (s : Fs) (p : Place) : Fs * Place :=
  match p with
  | AtCreate attempt => create_temp fault job s attempt
  | AtStat tmp fd => preserve_stat job s tmp fd
  | AtChmod tmp fd mode => preserve_chmod fault s tmp fd mode
  | AtWrite tmp fd =>
      match fault with
      | Some written =>
          (change_file s fd (append (String.substring 0 written (contents job))), AtRemove tmp fd WriteFailed)
      | None => (change_file s fd (append (contents job)), AtSync tmp fd)
      end
  | AtSync tmp fd =>
      match fault with
      | Some _ => (s, AtRemove tmp fd SyncFailed)
      | None => (change_file s fd sync_all, AtRename tmp fd)
      end
  | AtRemove tmp _ error =>
      (match fault with Some _ => s | None => remove_file s tmp end, Returned (Err error))
  | AtRename tmp fd =>
      match (match fault with Some _ => None | None => rename s tmp target end) with
      | Some s' => (s', AtSyncDir)
      | None => (s, AtRemove tmp fd RenameFailed)
      end
  | AtSyncDir => (sync_dir fault s, Returned (Ok tt))
  | Returned _ => (s, p)
  end.

(** ** Several writers

    An event is a system call of one of them; a writer that crashed is one that is
    not scheduled again. *)
Definition World : Type := Fs * list Place.

Definition event_step (jobs : list Job) (w : World) (event : nat * option nat) : World :=
  match jobs !! event.1, w.2 !! event.1 with
  | Some job, Some p =>
      let '(s, p) := write_step event.2 job w.1 p in (s, <[event.1 := p]> w.2)
  | _, _ => w
  end.

Definition run_writers (jobs : list Job) (w : World) (events : list (nat * option nat)) : World :=
  fold_left (event_step jobs) events w.

(** Every writer is about to make its first call. *)
Definition calling (jobs : list Job) (s : Fs) : World := (s, map (fun _ => AtCreate 0) jobs).

(** ** A writer on its own

    [write_atomically] with nobody else about: at most sixteen names and six
    more calls, so [write_fuel] steps reach its result. *)
Definition write_fuel : nat := 22.

Fixpoint write_alone (fuel : nat) (faults : nat -> option nat) (job : Job) (s : Fs) (p : Place) : Fs * Place :=
  match p, fuel with
  | Returned _, _ | _, O => (s, p)
  | _, S fuel => let '(s, p) := write_step (faults fuel) job s p in write_alone fuel faults job s p
  end.

Definition write_atomically (faults : nat -> option nat) (job : Job) (s : Fs) : Fs * Place :=
  write_alone write_fuel faults job s (AtCreate 0).

End Writer.
