(* ===== verification/FilesTheorems.v ===== *)
(** * FilesTheorems: what a save can leave behind

    The invariant of any number of interleaved writers: who owns which temporary
    file and what is in it, place by place, and what the target's name may lead to
    in every state of the directory the disk may hold. *)

From S2P Require Import Prelude Files.

(** A directory of regular files that has been left in peace. *)
Definition settled (s : Fs) : Prop :=
  unsynced s = [] /\
  forall name fd, entries s !! name = Some fd ->
    exists f, inodes s !! fd = Some f /\ flushed f = true /\ (permissions f < 2 ^ 12)%N.

(** The states of the directory the disk may hold, and what they say of a name. *)
Definition dirs (s : Fs) : list (gmap string N) := entries s :: unsynced s.
Definition may_lead (s : Fs) (name : string) (fd : N) : Prop := exists d, In d (dirs s) /\ d !! name = Some fd.
Definition may_lack (s : Fs) (name : string) : Prop := exists d, In d (dirs s) /\ d !! name = None.

Lemma mode_roundtrip m : (m < 2 ^ 12)%N -> N.land (N.lor S_IFREG m) MODE_BITS = m.
Proof.
  intros H. rewrite N.land_lor_distr_l. change MODE_BITS with (N.ones 12). rewrite !N.land_ones.
  change (S_IFREG mod 2 ^ 12)%N with 0%N. rewrite N.lor_0_l. by apply N.mod_small.
Qed.

Lemma temp_name_longer name job attempt : temp_name name job attempt <> name.
Proof.
  intros E. apply (f_equal String.length) in E. unfold temp_name in E.
  rewrite !length_str_append in E. cbn in E. lia.
Qed.

Section Interleaved.
Context (target : string) (jobs : list Job) (s0 : Fs).

(** Permission bits a file on the target's name may have. *)
Definition mode_ok (m : N) : Prop :=
  Forall (fun j => stat_denied j = false) jobs -> forall f, read s0 target = Some f -> m = permissions f.

(** What a file on the target's name is: the one found there, or a whole save. *)
Definition good (f : File) : Prop :=
  flushed f = true /\
  (read s0 target = Some f \/ (mode_ok (permissions f) /\ exists job, job ∈ jobs /\ text f = contents job)).

Definition holds (p : Place) : option (string * N) :=
  match p with
  | AtStat tmp fd | AtChmod tmp fd _ | AtWrite tmp fd | AtSync tmp fd | AtRemove tmp fd _ | AtRename tmp fd =>
      Some (tmp, fd)
  | AtCreate _ | AtSyncDir | Returned _ => None
  end.

(** What is in the temporary file, place by place. *)
Definition stage (job : Job) (s : Fs) (p : Place) : Prop :=
  match p with
  | AtStat _ fd => exists m, inodes s !! fd = Some (mkFile EmptyString m false)
  | AtChmod _ fd mode => (exists m, inodes s !! fd = Some (mkFile EmptyString m false)) /\ mode_ok mode
  | AtWrite _ fd => exists m, inodes s !! fd = Some (mkFile EmptyString m false) /\ mode_ok m
  | AtSync _ fd => exists m, inodes s !! fd = Some (mkFile (contents job) m false) /\ mode_ok m
  | AtRename _ fd => exists m, inodes s !! fd = Some (mkFile (contents job) m true) /\ mode_ok m
  | AtRemove _ fd _ => is_Some (inodes s !! fd)
  | AtCreate _ | AtSyncDir | Returned _ => True
  end.

(** A temporary file's name is its owner's alone, and no state of the directory
    has it on the target's name. *)
Definition owned (s : Fs) (tmp : string) (fd : N) : Prop :=
  entries s !! tmp = Some fd /\ tmp <> target /\ ~ may_lead s target fd.

Record Inv (w : World) : Prop := {
  inv_jobs : length w.2 = length jobs;
  inv_lead : forall fd, may_lead w.1 target fd -> exists f, inodes w.1 !! fd = Some f /\ good f;
  inv_lack : may_lack w.1 target -> read s0 target = None;
  inv_stage : forall i p job, w.2 !! i = Some p -> jobs !! i = Some job -> stage job w.1 p;
  inv_owned : forall i p tmp fd, w.2 !! i = Some p -> holds p = Some (tmp, fd) -> owned w.1 tmp fd;
  inv_apart : forall i j p q tmp tmp' fd, w.2 !! i = Some p -> w.2 !! j = Some q ->
    holds p = Some (tmp, fd) -> holds q = Some (tmp', fd) -> i = j;
}.

(** What one writer's call does to the others: it touches the file [mine] and the
    names that lead to it or are the target's. *)
Definition leaves (mine : N) (s s' : Fs) : Prop :=
  (forall fd f, fd <> mine -> inodes s !! fd = Some f -> inodes s' !! fd = Some f) /\
  (forall name fd, fd <> mine -> name <> target -> entries s !! name = Some fd -> entries s' !! name = Some fd).

Lemma stage_held job s p tmp fd : stage job s p -> holds p = Some (tmp, fd) -> is_Some (inodes s !! fd).
Proof.
  destruct p; cbn; intros H [= <- <-]; try done; firstorder eauto.
Qed.

Lemma stage_leaves job mine s s' p :
  leaves mine s s' -> (forall tmp fd, holds p = Some (tmp, fd) -> fd <> mine) -> stage job s p -> stage job s' p.
Proof.
  intros [Hl _] Hne.
  destruct p; cbn in *; try done; specialize (Hne _ _ eq_refl);
    [intros (m & H)|intros ((m & H) & Hm)|intros (m & H & Hm)|intros (m & H & Hm)|intros (f & H)|intros (m & H & Hm)];
    apply Hl in H; try done; eauto.
Qed.

(** The others' part of the invariant after a call of writer [i], and what is left
    to show of [i]. *)
Lemma inv_call s ps i job p s' p' mine :
  Inv (s, ps) -> ps !! i = Some p -> jobs !! i = Some job ->
  leaves mine s s' ->
  (forall j q tmp, j <> i -> ps !! j = Some q -> holds q <> Some (tmp, mine)) ->
  stage job s' p' ->
  (forall tmp fd, holds p' = Some (tmp, fd) -> fd = mine /\ owned s' tmp fd) ->
  (forall fd, may_lead s' target fd ->
     (fd <> mine /\ may_lead s target fd) \/ (fd = mine /\ exists f, inodes s' !! fd = Some f /\ good f)) ->
  (may_lack s' target -> may_lack s target) ->
  (may_lead s' target mine -> holds p' = None) ->
  Inv (s', <[i := p']> ps).
Proof.
  intros HI Hp Hj Hl Hmine Hst Hown Hlead Hlack Hrel. destruct HI as [H1 H2 H3 H4 H5 H6]. cbn [fst snd] in *.
  assert (Hi : (i < length ps)%nat) by (by eapply lookup_lt_Some).
  assert (Hother : forall j q tmp fd, j <> i -> ps !! j = Some q -> holds q = Some (tmp, fd) -> fd <> mine).
  { intros j q tmp fd Hne Hq Hh ->. by apply (Hmine j q tmp Hne Hq). }
  constructor; cbn [fst snd].
  - by rewrite length_insert.
  - intros fd H. destruct (Hlead fd H) as [[Hne H']|[_ H']]; [|done].
    destruct (H2 fd H') as (f & Hf & Hg). exists f. split; [by apply Hl|done].
  - auto.
  - intros j q job' Hq Hj'. destruct (decide (j = i)) as [->|Hne].
    + rewrite list_lookup_insert_eq in Hq by done. congruence.
    + rewrite list_lookup_insert_ne in Hq by done. apply (stage_leaves _ mine s); eauto.
  - intros j q tmp fd Hq Hh. destruct (decide (j = i)) as [->|Hne].
    + rewrite list_lookup_insert_eq in Hq by done. injection Hq as <-. by apply Hown.
    + rewrite list_lookup_insert_ne in Hq by done.
      destruct (H5 j q tmp fd Hq Hh) as (He & Ht & Hn).
      assert (fd <> mine) by eauto. split_and!; [by apply Hl|done|].
      intros H'. destruct (Hlead fd H') as [[_ H'']|[? _]]; done.
  - intros j k q r tmp tmp' fd Hq Hr Hhq Hhr.
    destruct (decide (j = i)) as [->|Hj'], (decide (k = i)) as [->|Hk]; try done.
    + rewrite list_lookup_insert_eq in Hq by done. injection Hq as <-.
      rewrite list_lookup_insert_ne in Hr by done. destruct (Hown _ _ Hhq) as [-> _].
      exfalso. by apply (Hmine k r tmp').
    + rewrite list_lookup_insert_eq in Hr by done. injection Hr as <-.
      rewrite list_lookup_insert_ne in Hq by done. destruct (Hown _ _ Hhr) as [-> _].
      exfalso. by apply (Hmine j q tmp).
    + rewrite list_lookup_insert_ne in Hq, Hr by done. by eapply H6.
Qed.

(** *** The calls, one lemma per kind *)

(** The file is as it was, and so is the directory. *)
Lemma inv_quiet s ps i job p p' :
  Inv (s, ps) -> ps !! i = Some p -> jobs !! i = Some job ->
  stage job s p' -> (holds p' = None \/ holds p' = holds p) -> Inv (s, <[i := p']> ps).
Proof.
  intros HI Hp Hj Hst Hh. pose proof HI as [_ H2 _ H4 H5 H6]. cbn [fst snd] in *.
  destruct (holds p') as [[tmp fd]|] eqn:E.
  - destruct Hh as [[=]|Hh]. destruct (H5 i p tmp fd Hp (eq_sym Hh)) as (He & Ht & Hn).
    apply (inv_call s ps i job p s p' fd); try done.
    + intros j q tmp' Hne Hq Hq'. apply Hne. eapply H6; eauto.
    + intros tmp' fd'. rewrite E. by intros [= <- <-].
    + intros fd' H. left. split; [|done]. by intros ->.
  - apply (inv_call s ps i job p s p' (fresh (dom (inodes s)))); try done.
    + intros j q tmp' Hne Hq Hq'. destruct (lookup_lt_is_Some_2 jobs j) as [job' Hj'].
      { pose proof (inv_jobs _ HI) as L. cbn in L. rewrite <- L. by eapply lookup_lt_Some. }
      pose proof (stage_held _ _ _ _ _ (H4 j q job' Hq Hj') Hq') as Hin.
      apply elem_of_dom in Hin. by apply is_fresh in Hin.
    + intros tmp' fd'. by rewrite E.
    + intros fd' H. left. split; [|done]. intros ->. destruct (H2 _ H) as (f & Hf & _).
      apply elem_of_dom_2 in Hf. by apply is_fresh in Hf.
Qed.

(** A call on the writer's own file. *)
Lemma inv_change s ps i job p p' tmp fd g f :
  Inv (s, ps) -> ps !! i = Some p -> jobs !! i = Some job ->
  holds p = Some (tmp, fd) -> holds p' = Some (tmp, fd) -> inodes s !! fd = Some f ->
  stage job (set_file s fd (g f)) p' -> Inv (change_file s fd g, <[i := p']> ps).
Proof.
  intros HI Hp Hj Hh Hh' Hf Hst. pose proof HI as [_ _ _ _ H5 H6]. cbn [fst snd] in *.
  unfold change_file. rewrite Hf. destruct (H5 i p tmp fd Hp Hh) as (He & Ht & Hn).
  apply (inv_call s ps i job p _ p' fd); try done.
  - split; intros; cbn; [by rewrite lookup_insert_ne|done].
  - intros j q tmp' Hne Hq Hq'. apply Hne. eapply H6; eauto.
  - intros tmp' fd'. rewrite Hh'. by intros [= <- <-].
  - intros fd' H. left. split; [|done]. by intros ->.
Qed.

Lemma may_lead_set s d fd :
  may_lead (set_entries s d) target fd -> d !! target = Some fd \/ may_lead s target fd.
Proof. intros (e & [<-|H] & He); [by left|right]. by exists e. Qed.

Lemma may_lack_set s d : may_lack (set_entries s d) target -> d !! target = None \/ may_lack s target.
Proof. intros (e & [<-|H] & He); [by left|right]. by exists e. Qed.

Lemma may_lead_now s fd : entries s !! target = Some fd -> may_lead s target fd.
Proof. intros H. exists (entries s). split; [by left|done]. Qed.

Lemma may_lack_now s : entries s !! target = None -> may_lack s target.
Proof. intros H. exists (entries s). split; [by left|done]. Qed.

(** A temporary file comes, on a name nothing is on. *)
Lemma inv_create s ps i job attempt tmp fd s' :
  Inv (s, ps) -> ps !! i = Some (AtCreate attempt) -> jobs !! i = Some job ->
  tmp <> target -> create_new s tmp (umode job) = Some (fd, s') -> Inv (s', <[i := AtStat tmp fd]> ps).
Proof.
  intros HI Hp Hj Ht Hc. pose proof HI as [H1 H2 _ H4 _ _]. cbn [fst snd] in *.
  unfold create_new in Hc. destruct (entries s !! tmp) eqn:Hn; [done|]. injection Hc as <- <-.
  set (fd := fresh (dom (inodes s))).
  assert (Hfresh : inodes s !! fd = None) by (apply not_elem_of_dom, is_fresh).
  assert (Hnl : ~ may_lead s target fd) by (intros H; destruct (H2 _ H) as (f & Hf & _); congruence).
  assert (Hnl' : forall fd', may_lead (set_entries (set_file s fd (mkFile EmptyString (umode job) false))
                     (<[tmp := fd]> (entries s))) target fd' -> may_lead s target fd').
  { intros fd' H. apply may_lead_set in H as [H|H]; [|done].
    rewrite lookup_insert_ne in H by done. by apply may_lead_now. }
  apply (inv_call s ps i job (AtCreate attempt) _ _ fd); try done.
  - split; cbn.
    + intros fd' f Hne Hf. by rewrite lookup_insert_ne.
    + intros name fd' Hne Hne' He. rewrite lookup_insert_ne; [done|]. congruence.
  - intros j q tmp' Hne Hq Hq'. destruct (lookup_lt_is_Some_2 jobs j) as [job' Hj'].
    { rewrite <- H1. by eapply lookup_lt_Some. }
    pose proof (stage_held _ _ _ _ _ (H4 j q job' Hq Hj') Hq') as [f Hf]. congruence.
  - cbn. exists (umode job). by rewrite lookup_insert_eq.
  - intros tmp' fd' [= <- <-]. split; [done|]. split_and!; [cbn; by rewrite lookup_insert_eq|done|auto].
  - intros fd' H. left. split; [intros ->; auto|auto].
  - intros H. apply may_lack_set in H as [H|H]; [|done]. rewrite lookup_insert_ne in H by done. by apply may_lack_now.
  - intros H. by apply Hnl' in H.
Qed.

(** The writer's temporary file goes. *)
Lemma inv_remove s ps i job tmp fd e :
  Inv (s, ps) -> ps !! i = Some (AtRemove tmp fd e) -> jobs !! i = Some job ->
  Inv (remove_file s tmp, <[i := Returned (Err e)]> ps).
Proof.
  intros HI Hp Hj. pose proof HI as [_ _ _ _ H5 H6]. cbn [fst snd] in *.
  destruct (H5 i _ tmp fd Hp eq_refl) as (He & Ht & Hn).
  assert (Hnl : forall fd', may_lead (remove_file s tmp) target fd' -> may_lead s target fd').
  { intros fd' H. apply may_lead_set in H as [H|H]; [|done].
    rewrite lookup_delete_ne in H by done. by apply may_lead_now. }
  apply (inv_call s ps i job (AtRemove tmp fd e) _ _ fd); try done.
  - split; cbn; [done|]. intros name fd' Hne Hne' Hl. rewrite lookup_delete_ne; [done|]. congruence.
  - intros j q tmp' Hne Hq Hq'. apply Hne. eapply H6; eauto.
  - intros fd' H. left. split; [|auto]. intros ->. auto.
  - intros H. apply may_lack_set in H as [H|H]; [|done]. rewrite lookup_delete_ne in H by done. by apply may_lack_now.
Qed.

(** The writer's file, whole and flushed, takes the target's name. *)
Lemma inv_rename s ps i job tmp fd s' :
  Inv (s, ps) -> ps !! i = Some (AtRename tmp fd) -> jobs !! i = Some job ->
  rename s tmp target = Some s' -> Inv (s', <[i := AtSyncDir]> ps).
Proof.
  intros HI Hp Hj Hr. pose proof HI as [_ _ _ H4 H5 H6]. cbn [fst snd] in *.
  destruct (H5 i _ tmp fd Hp eq_refl) as (He & Ht & Hn).
  destruct (H4 i _ job Hp Hj) as (m & Hf & Hm).
  unfold rename in Hr. rewrite He in Hr. injection Hr as <-.
  apply (inv_call s ps i job (AtRename tmp fd) _ _ fd); try done.
  - split; cbn; [done|]. intros name fd' Hne Hne' Hl.
    rewrite lookup_insert_ne by done. rewrite lookup_delete_ne; [done|]. congruence.
  - intros j q tmp' Hne Hq Hq'. apply Hne. eapply H6; eauto.
  - intros fd' H. apply may_lead_set in H as [H|H].
    + rewrite lookup_insert_eq in H. injection H as <-. right. split; [done|].
      eexists. split; [exact Hf|]. split; [done|]. right. split; [done|].
      exists job. split; [by eapply list_elem_of_lookup_2|done].
    + left. split; [|done]. intros ->. auto.
  - intros H. apply may_lack_set in H as [H|H]; [|done]. by rewrite lookup_insert_eq in H.
Qed.

(** The directory reaches the disk. *)
Lemma inv_sync s ps i job r :
  Inv (s, ps) -> ps !! i = Some AtSyncDir -> jobs !! i = Some job ->
  Inv (sync_directory s, <[i := Returned r]> ps).
Proof.
  intros HI Hp Hj. apply (inv_quiet s ps i job AtSyncDir (Returned r)) in HI; try done; [|by left].
  destruct HI as [H1 H2 H3 H4 H5 H6]. cbn [fst snd] in *.
  assert (Hs : forall fd, may_lead (sync_directory s) target fd -> may_lead s target fd).
  { intros fd (d & [<-|[]] & Hd). by apply may_lead_now. }
  constructor; cbn [fst snd]; try done.
  - auto.
  - intros (d & [<-|[]] & Hd). by apply H3, may_lack_now.
  - intros j q tmp fd Hq Hh. destruct (H5 j q tmp fd Hq Hh) as (He & Ht & Hn). split_and!; auto.
Qed.

Lemma stat_mode_ok s ps m :
  Inv (s, ps) -> settled s0 -> stat_mode s target = Some m -> mode_ok (N.land m MODE_BITS).
Proof.
  intros HI [_ Hset] Hm Hall f Hf. pose proof HI as [_ H2 _ _ _ _]. cbn [fst snd] in *.
  unfold stat_mode, read in Hm. destruct (entries s !! target) as [fd|] eqn:He; cbn in Hm; [|done].
  destruct (H2 fd (may_lead_now _ _ He)) as (g & Hg & _ & Hgood). rewrite Hg in Hm. cbn in Hm.
  injection Hm as <-.
  assert (Hp : permissions g = permissions f) by (destruct Hgood as [H|[H _]]; [congruence|by apply H]).
  rewrite Hp. apply mode_roundtrip. unfold read in Hf. destruct (entries s0 !! target) eqn:E; cbn in Hf; [|done].
  destruct (Hset _ _ E) as (f' & Hf' & _ & H). congruence.
Qed.

(** A call that changes no file: the place's own claims are left, and mostly are
    those of the place before. *)
Ltac quiet_but := eapply inv_quiet; [eassumption..|cbn; eauto|first [by left|by right]].
Ltac quiet := solve [quiet_but].

Lemma inv_create_temp s ps i job attempt fault :
  Inv (s, ps) -> ps !! i = Some (AtCreate attempt) -> jobs !! i = Some job ->
  let out := create_temp target fault job s attempt in Inv (out.1, <[i := out.2]> ps).
Proof.
  intros HI Hp Hj. unfold create_temp. cbv zeta.
  destruct (TEMP_NAME_ATTEMPTS <=? attempt)%N; [quiet|].
  destruct fault; [quiet|].
  destruct (create_new _ _ _) as [[fd s']|] eqn:E; cbn [fst snd].
  - eapply inv_create; eauto. apply temp_name_longer.
  - quiet.
Qed.

Lemma inv_preserve s ps i job tmp fd :
  settled s0 -> Inv (s, ps) -> ps !! i = Some (AtStat tmp fd) -> jobs !! i = Some job ->
  let out := preserve_stat target job s tmp fd in Inv (out.1, <[i := out.2]> ps).
Proof.
  intros Hs HI Hp Hj. pose proof (inv_stage _ HI i _ job Hp Hj) as (m & Hf). cbn in Hf.
  pose proof (inv_lack _ HI) as H3. cbn [fst] in H3. unfold preserve_stat. cbv zeta.
  destruct (stat_denied job) eqn:Hd; [|destruct (stat_mode s target) as [st|] eqn:Hst]; cbn [fst snd];
    quiet_but.
  - exists m. split; [done|]. intros Hall. rewrite Forall_forall in Hall.
    apply list_elem_of_lookup_2, Hall in Hj. congruence.
  - split; [by exists m|]. eapply stat_mode_ok; eauto.
  - exists m. split; [done|]. intros _ f Hr.
    unfold stat_mode, read in Hst. destruct (entries s !! target) as [fd'|] eqn:He; cbn in Hst.
    + destruct (inv_lead _ HI fd' (may_lead_now _ _ He)) as (g & Hg & _). cbn in Hg. by rewrite Hg in Hst.
    + rewrite H3 in Hr by by apply may_lack_now. done.
Qed.

Lemma inv_write_step s ps i job p fault :
  settled s0 -> Inv (s, ps) -> ps !! i = Some p -> jobs !! i = Some job ->
  let out := write_step target fault job s p in Inv (out.1, <[i := out.2]> ps).
Proof.
  intros Hs HI Hp Hj. pose proof (inv_stage _ HI i p job Hp Hj) as Hst. cbn [fst] in Hst.
  destruct p as [attempt|tmp fd|tmp fd mode|tmp fd|tmp fd|tmp fd e|tmp fd| |r]; cbn [write_step]; cbv zeta.
  - by apply inv_create_temp.
  - by apply inv_preserve.
  - destruct Hst as [(m & Hf) Hm]. unfold preserve_chmod.
    destruct fault; cbn [fst snd]; [quiet|].
    eapply inv_change; eauto; try done; cbn; exists mode; by rewrite lookup_insert_eq.
  - destruct Hst as (m & Hf & Hm). destruct fault; cbn [fst snd].
    + eapply inv_change; eauto; try done. cbn. by rewrite lookup_insert_eq.
    + eapply inv_change; eauto; try done. cbn. exists m. by rewrite lookup_insert_eq.
  - destruct Hst as (m & Hf & Hm). destruct fault; cbn [fst snd]; [quiet|].
    eapply inv_change; eauto; try done. cbn. exists m. by rewrite lookup_insert_eq.
  - destruct fault; cbn [fst snd]; [quiet|]. by eapply inv_remove.
  - destruct Hst as (m & Hf & Hm).
    destruct fault; [|destruct (rename s tmp target) as [s'|] eqn:E]; cbn [fst snd].
    1, 3: quiet.
    by eapply inv_rename.
  - destruct fault; cbn [fst snd]; [quiet|]. by eapply inv_sync.
  - quiet.
Qed.

Lemma inv_run w events : settled s0 -> Inv w -> Inv (run_writers target jobs w events).
Proof.
  intros Hs. revert w. induction events as [|[i fault] events IH]; intros w HI; [done|].
  apply IH. unfold event_step. cbn [fst snd]. destruct (jobs !! i) as [job|] eqn:Hj; [|done].
  destruct (w.2 !! i) as [p|] eqn:Hp; [|done]. destruct w as [s ps].
  pose proof (inv_write_step s ps i job p fault Hs HI Hp Hj) as H. cbv zeta in H.
  cbn [fst snd] in *. by destruct (write_step target fault job s p).
Qed.

Lemma inv_calling : settled s0 -> Inv (calling jobs s0).
Proof.
  intros [Hu Hset]. unfold calling.
  assert (Hc : forall i p, map (fun _ : Job => AtCreate 0) jobs !! i = Some p -> p = AtCreate 0).
  { intros i p H. apply list_lookup_fmap_Some in H. destruct H as (? & ? & ?). congruence. }
  constructor; cbn [fst snd].
  - by rewrite length_map.
  - intros fd (d & [<-|H] & Hd); [|by rewrite Hu in H].
    destruct (Hset _ _ Hd) as (f & Hf & Hfl & _). exists f. split; [done|]. split; [done|].
    left. unfold read. by rewrite Hd.
  - intros (d & [<-|H] & Hd); [|by rewrite Hu in H]. unfold read. by rewrite Hd.
  - intros i p job Hp _. by rewrite (Hc i p Hp).
  - intros i p tmp fd Hp. by rewrite (Hc i p Hp).
  - intros i j p q tmp tmp' fd Hp. by rewrite (Hc i p Hp).
Qed.

(** What the target is found to be after an outage. *)
Lemma inv_outage w s' :
  Inv w -> outage w.1 s' ->
  match read s' target with
  | None => read s0 target = None
  | Some f => good f
  end.
Proof.
  intros HI [Hd Hf]. unfold read at 1. destruct (entries s' !! target) as [fd|] eqn:E; cbn.
  - destruct (inv_lead _ HI fd) as (f & Hl & Hg); [by exists (entries s')|].
    destruct (Hf fd f Hl) as (f' & -> & He). by rewrite He by apply Hg.
  - apply (inv_lack _ HI). by exists (entries s').
Qed.
End Interleaved.

(** C30: However many processes save the file at once, whichever of their system
    calls fail, wherever they crash, and whenever the power goes: a reader of the
    target finds a file that is whole, either the one that was there before or
    exactly what one of the processes set out to save, and finds none only where
    there was none.  No save widens the file's permissions, as long as the
    target's metadata could be read. *)
Theorem target_is_never_torn target jobs s events s' :
  settled s -> outage (run_writers target jobs (calling jobs s) events).1 s' ->
  match read s' target with
  | None => read s target = None
  | Some f =>
      (read s target = Some f \/ exists job, job ∈ jobs /\ text f = contents job) /\
      (Forall (fun job => stat_denied job = false) jobs ->
       forall f0, read s target = Some f0 -> permissions f = permissions f0)
  end.
Proof.
  intros Hs Ho.
  pose proof (inv_outage target jobs s _ s' (inv_run target jobs s _ events Hs (inv_calling target jobs s Hs)) Ho) as H.
  destruct (read s' target) as [f|]; [|done]. destruct H as [_ [H|[Hm (job & Hj & Ht)]]].
  - split; [by left|]. intros _ f0. congruence.
  - split; [right; by exists job|]. exact Hm.
Qed.

(** ** Every save ends

    A name is tried at most sixteen times, and six calls follow the one that
    succeeds. *)
Definition calls_left (p : Place) : nat :=
  match p with
  | AtCreate attempt => 6 + (16 - N.to_nat attempt)
  | AtStat _ _ => 6 | AtChmod _ _ _ => 5 | AtWrite _ _ => 4 | AtSync _ _ => 3 | AtRename _ _ => 2
  | AtRemove _ _ _ | AtSyncDir => 1
  | Returned _ => 0
  end.

Lemma write_step_progress target fault job s p n :
  (calls_left p <= S n)%nat -> (calls_left (write_step target fault job s p).2 <= n)%nat.
Proof.
  destruct p as [attempt|tmp fd|tmp fd mode|tmp fd|tmp fd|tmp fd e|tmp fd| |r]; cbn [write_step calls_left];
    unfold create_temp, preserve_stat, preserve_chmod, write_fuel; intros H;
    repeat destruct_match; cbn [calls_left snd]; bool_prop; unfold TEMP_NAME_ATTEMPTS, write_fuel in *; lia.
Qed.

Definition calls_of (i : nat) (events : list (nat * option nat)) : nat :=
  length (filter (fun e => e.1 = i) events).

(** Twenty-two system calls of its own end any save, with a result, whatever the
    other processes do in between and whichever calls fail: sixteen temporary names
    are tried and no more. *)
Theorem save_returns target jobs s events i :
  (i < length jobs)%nat -> (write_fuel <= calls_of i events)%nat ->
  exists outcome, (run_writers target jobs (calling jobs s) events).2 !! i = Some (Returned outcome).
Proof.
  intros Hi Hn. destruct (lookup_lt_is_Some_2 jobs i Hi) as [job Hj].
  assert (Hw : exists p, (calling jobs s).2 !! i = Some p /\ (calls_left p <= calls_of i events)%nat).
  { exists (AtCreate 0). split; [cbn|exact Hn].
    change (((fun _ => AtCreate 0) <$> jobs) !! i = Some (AtCreate 0)). by rewrite list_lookup_fmap, Hj. }
  clear Hn. revert Hw. generalize (calling jobs s) as w. unfold calls_of.
  induction events as [|[j fault] events IH]; intros w (p & Hp & Hc); cbn [run_writers fold_left].
  - cbn in Hc. destruct p; cbn in Hc; try lia; eauto.
  - apply IH. rewrite filter_cons in Hc. cbn [fst] in Hc. unfold event_step. cbn [fst snd].
    destruct (decide (j = i)) as [->|Hne].
    + rewrite Hj, Hp. cbn [length] in Hc.
      pose proof (write_step_progress target fault job w.1 p _ Hc) as H.
      destruct (write_step target fault job w.1 p) as [s' p']. cbn [fst snd] in *.
      exists p'. rewrite list_lookup_insert_eq by (by eapply lookup_lt_Some). done.
    + exists p. destruct (jobs !! j), (w.2 !! j); try done. destruct (write_step _ _ _ _ _).
      cbn [snd]. by rewrite list_lookup_insert_ne.
Qed.

(** ** A save on its own *)

Section Alone.
Context (target : string) (job : Job) (s0 : Fs) (faults : nat -> option nat).
Hypothesis settled_before : settled s0.

(** The permission bits the saved file gets. *)
Definition saved_mode : N :=
  match (if stat_denied job then None else stat_mode s0 target) with
  | Some st_mode => N.land st_mode MODE_BITS
  | None => umode job
  end.

Definition saved : File := mkFile (contents job) saved_mode true.

Definition no_fault : Prop := forall n, faults n = None.
Definition all_taken (n : N) : Prop :=
  forall attempt, (attempt < n)%N -> entries s0 !! temp_name target job attempt <> None.

(** One more file, on one more name. *)
Definition beside (tmp : string) (fd : N) (s : Fs) : Prop :=
  entries s0 !! tmp = None /\ tmp <> target /\ entries s = <[tmp := fd]> (entries s0) /\
  inodes s0 !! fd = None /\ forall fd', fd' <> fd -> inodes s !! fd' = inodes s0 !! fd'.

Definition replaced (s : Fs) : Prop :=
  read s target = Some saved /\ (forall name, name <> target -> read s name = read s0 name).

Definition kept (s : Fs) : Prop :=
  forall name, is_Some (entries s0 !! name) -> read s name = read s0 name.

Definition alone (s : Fs) (p : Place) : Prop :=
  match p with
  | AtCreate attempt => s = s0 /\ all_taken attempt
  | AtStat tmp fd => beside tmp fd s /\ inodes s !! fd = Some (mkFile EmptyString (umode job) false)
  | AtChmod tmp fd mode =>
      beside tmp fd s /\ is_Some (inodes s !! fd) /\ mode = saved_mode /\
      inodes s !! fd = Some (mkFile EmptyString (umode job) false)
  | AtWrite tmp fd => beside tmp fd s /\ inodes s !! fd = Some (mkFile EmptyString saved_mode false)
  | AtSync tmp fd => beside tmp fd s /\ inodes s !! fd = Some (mkFile (contents job) saved_mode false)
  | AtRename tmp fd => beside tmp fd s /\ inodes s !! fd = Some saved
  | AtRemove tmp fd _ => beside tmp fd s /\ ~ no_fault
  | AtSyncDir => replaced s
  | Returned (Ok _) => replaced s /\ (no_fault -> unsynced s = [])
  | Returned (Err e) => kept s /\ (no_fault -> e = NamesTaken /\ s = s0 /\ all_taken TEMP_NAME_ATTEMPTS)
  end.

Lemma beside_change tmp fd s g : beside tmp fd s -> beside tmp fd (change_file s fd g).
Proof.
  intros (H1 & H2 & H3 & H4 & H5). unfold change_file. destruct (inodes s !! fd); [|done].
  split_and!; try done. intros fd' Hne. cbn. rewrite lookup_insert_ne by done. auto.
Qed.

Lemma change_file_at s fd g f : inodes s !! fd = Some f -> inodes (change_file s fd g) !! fd = Some (g f).
Proof. intros H. unfold change_file. rewrite H. cbn. by rewrite lookup_insert_eq. Qed.

Lemma beside_read tmp fd s name : beside tmp fd s -> name <> tmp -> read s name = read s0 name.
Proof.
  intros (H1 & H2 & H3 & H4 & H5) Hne. unfold read. rewrite H3, lookup_insert_ne by done.
  destruct (entries s0 !! name) as [fd'|] eqn:E; cbn; [|done]. apply H5. intros ->.
  destruct settled_before as [_ Hs]. destruct (Hs _ _ E) as (f & Hf & _). congruence.
Qed.

Lemma beside_kept tmp fd s : beside tmp fd s -> kept s.
Proof.
  intros Hb name [fd' Hn]. apply (beside_read tmp fd); [done|]. intros ->. destruct Hb as [H _]. congruence.
Qed.

Lemma beside_stat tmp fd s : beside tmp fd s -> stat_mode s target = stat_mode s0 target.
Proof. intros Hb. unfold stat_mode. f_equal. apply (beside_read tmp fd); [done|]. by destruct Hb as (_ & H & _). Qed.

Lemma remove_kept tmp fd s : beside tmp fd s -> kept (remove_file s tmp).
Proof.
  intros Hb name Hn. rewrite <- (beside_kept tmp fd s Hb name Hn). unfold read. cbn.
  rewrite lookup_delete_ne; [done|]. intros ->. destruct Hb as [H _]. rewrite H in Hn. by destruct Hn.
Qed.

Lemma rename_replaced tmp fd s :
  beside tmp fd s -> inodes s !! fd = Some saved ->
  exists s', rename s tmp target = Some s' /\ replaced s'.
Proof.
  intros Hb Hf. pose proof Hb as (H1 & H2 & H3 & H4 & H5). unfold rename.
  rewrite H3, lookup_insert_eq. eexists. split; [done|]. split.
  - unfold read. cbn. by rewrite lookup_insert_eq.
  - intros name Hne. unfold read. cbn. rewrite lookup_insert_ne by done.
    destruct (decide (name = tmp)) as [->|Hne']; [by rewrite lookup_delete_eq, H1|].
    rewrite lookup_delete_ne by done. pose proof (beside_read tmp fd s name Hb Hne') as Hr.
    unfold read in Hr. by rewrite H3 in Hr.
Qed.

Lemma outage_synced s s' name f :
  unsynced s = [] -> read s name = Some f -> flushed f = true -> outage s s' -> read s' name = Some f.
Proof.
  intros Hu Hr Hf [Hd Ho]. rewrite Hu in Hd. destruct Hd as [Hd|[]]. unfold read in *. rewrite <- Hd.
  destruct (entries s !! name) as [fd|]; cbn in *; [|done].
  destruct (Ho fd f Hr) as (f' & -> & He). by rewrite He.
Qed.

Lemma create_alone attempt fault s :
  (no_fault -> fault = None) -> alone s (AtCreate attempt) ->
  let out := create_temp target fault job s attempt in alone out.1 out.2.
Proof.
  intros Hf (-> & Ht). unfold create_temp. cbv zeta.
  destruct (TEMP_NAME_ATTEMPTS <=? attempt)%N eqn:Hle; bool_prop; cbn [fst snd].
  { split; [done|]. intros _. split_and!; try done. intros a Ha. apply Ht. lia. }
  destruct fault as [w|]; cbn [fst snd]; [split; [done|]; intros Hc; by discriminate (Hf Hc)|].
  unfold create_new. destruct (entries s0 !! temp_name target job attempt) eqn:E; cbn [fst snd].
  - split; [done|]. intros a Ha. destruct (decide (a = attempt)) as [->|]; [congruence|]. apply Ht. lia.
  - split; cbn; [|by rewrite lookup_insert_eq].
    split_and!; try done; [apply temp_name_longer|apply not_elem_of_dom, is_fresh|].
    intros fd' Hne. cbn. by rewrite lookup_insert_ne.
Qed.

Lemma alone_step fault s p :
  (no_fault -> fault = None) -> alone s p ->
  let out := write_step target fault job s p in alone out.1 out.2.
Proof.
  intros Hf. assert (Hw : forall w, fault = Some w -> ~ no_fault) by (intros w -> Hc; by discriminate (Hf Hc)).
  destruct p as [attempt|tmp fd|tmp fd mode|tmp fd|tmp fd|tmp fd e|tmp fd| |r]; cbn [write_step]; cbv zeta.
  - by apply create_alone.
  - intros [Hb Hi]. unfold preserve_stat. pose proof (beside_stat tmp fd s Hb) as Hs.
    destruct (stat_denied job) eqn:Hd; [|destruct (stat_mode s target) eqn:Hst]; cbn; unfold saved_mode;
      rewrite Hd, <- ?Hs; split_and!; eauto.
  - intros (Hb & _ & -> & Hi). unfold preserve_chmod. destruct fault eqn:E; cbn; [eauto|].
    split; [by apply beside_change|]. by rewrite (change_file_at _ _ _ _ Hi).
  - intros [Hb Hi]. destruct fault eqn:E; cbn; (split; [by apply beside_change|]); [eauto|].
    by rewrite (change_file_at _ _ _ _ Hi).
  - intros [Hb Hi]. destruct fault eqn:E; cbn; [eauto|].
    split; [by apply beside_change|]. by rewrite (change_file_at _ _ _ _ Hi).
  - intros [Hb Hn]. destruct fault; cbn; (split; [|done]); [by eapply beside_kept|by eapply remove_kept].
  - intros [Hb Hi]. destruct (rename_replaced tmp fd s Hb Hi) as (s' & Hr & Hrep). rewrite Hr.
    destruct fault; cbn; eauto.
  - intros [H1 H2]. destruct fault; cbn; [|done]. split; [done|]. intros Hc. by discriminate (Hf Hc).
  - done.
Qed.

Lemma write_alone_ends fuel s p :
  (calls_left p <= fuel)%nat -> alone s p ->
  exists s' outcome, write_alone target fuel faults job s p = (s', Returned outcome) /\ alone s' (Returned outcome).
Proof.
  revert s p. induction fuel as [|fuel IH]; intros s p Hc Ha.
  - destruct p; cbn in Hc; try lia. cbn. eauto.
  - pose proof (write_step_progress target (faults fuel) job s p _ Hc) as H.
    pose proof (alone_step (faults fuel) s p (fun Hn => Hn fuel) Ha) as H'. cbv zeta in H'.
    assert (Hd : (exists r, p = Returned r) \/
      write_alone target (S fuel) faults job s p =
        (let '(s, p) := write_step target (faults fuel) job s p in write_alone target fuel faults job s p))
      by (destruct p; eauto).
    destruct Hd as [[r ->]| ->]; [cbn; eauto|]. destruct (write_step target (faults fuel) job s p). by apply IH.
Qed.
End Alone.

(** A save with nobody else about, whichever of its calls fail.  It reports
    success only once the target is the new file, whole, flushed, and with the old
    file's permissions, every other name being as it was; it reports an error only
    with every name that was there as it was.  If no call failed, an outage after a
    success changes nothing any more, and the only error is that sixteen temporary
    names were taken, the directory being exactly as it was. *)
Theorem save_alone target faults job s :
  settled s ->
  exists s' outcome, write_atomically target faults job s = (s', Returned outcome) /\
  match outcome with
  | Ok _ =>
      read s' target = Some (saved target job s) /\
      (forall name, name <> target -> read s' name = read s name) /\
      (no_fault faults -> forall s'', outage s' s'' -> read s'' target = read s' target)
  | Err e =>
      (forall name, is_Some (entries s !! name) -> read s' name = read s name) /\
      (no_fault faults -> e = NamesTaken /\ s' = s /\ all_taken target job s TEMP_NAME_ATTEMPTS)
  end.
Proof.
  intros Hs. destruct (write_alone_ends target job s faults Hs write_fuel s (AtCreate 0)) as (s' & r & Hw & Ha).
  - done.
  - split; [done|]. intros a Ha. lia.
  - exists s', r. split; [exact Hw|]. destruct r; [|done]. destruct Ha as [[H1 H2] H3].
    split_and!; [done..|]. intros Hc s'' Ho. rewrite H1. by apply (outage_synced s'); auto.
Qed.
