(* ===== verification/FilesExamples.v ===== *)
(** * FilesExamples: two editors of one configuration file

    Applies the theorems of FilesTheorems to a directory with one configuration and
    two processes saving it. *)

From S2P Require Import Prelude Files FilesTheorems.

Definition ex_target : string := "vega.toml".
Definition ex_old : File := mkFile "old" 0x1A0 true.
Definition ex_dir : Fs := mkFs {[0%N := ex_old]} {[ex_target := 0%N]} [].
Definition ex_a : Job := mkJob 100 5 "from a" 0x1A4 false.
Definition ex_b : Job := mkJob 200 5 "from b" 0x1A4 false.

Lemma ex_settled : settled ex_dir.
Proof.
  split; [done|]. intros name fd H. unfold ex_dir in *. cbn in *.
  apply lookup_singleton_Some in H as [<- <-]. exists ex_old. by vm_compute.
Qed.

(** [a] gets as far as its rename, which is not synced yet; [b]'s write fails half
    way; then the power goes and the directory is found as it was before the rename. *)
Definition ex_events : list (nat * option nat) :=
  [(0, None); (1, None); (0, None); (1, None); (0, None); (1, None); (1, Some 3); (0, None); (0, None); (0, None)]%nat.

Notation ex_midway := (run_writers ex_target [ex_a; ex_b] (calling [ex_a; ex_b] ex_dir) ex_events).1.
Definition ex_fallen : Fs := mkFs (inodes ex_midway) (nth 1 (dirs ex_midway) ∅) [].

Lemma ex_outage : outage ex_midway ex_fallen.
Proof.
  split.
  - apply (nth_In (dirs ex_midway)). apply Nat.ltb_lt. vm_compute. reflexivity.
  - intros fd f H. exists f. split; [exact H|done].
Qed.

(** The rename had been made, and has been lost; the old file is whole. *)
Example ex_renamed : read ex_midway ex_target = Some (mkFile "from a" 0x1A0 true).
Proof. vm_compute. reflexivity. Qed.

Example ex_lost : read ex_fallen ex_target = Some ex_old.
Proof. vm_compute. reflexivity. Qed.

Lemma target_is_never_torn_witness :
  match read ex_fallen ex_target with
  | None => read ex_dir ex_target = None
  | Some f => read ex_dir ex_target = Some f \/ exists job, job ∈ [ex_a; ex_b] /\ text f = contents job
  end.
Proof.
  pose proof (target_is_never_torn ex_target [ex_a; ex_b] ex_dir ex_events ex_fallen ex_settled ex_outage) as H.
  destruct (read ex_fallen ex_target); [exact (proj1 H)|exact H].
Defined.

Definition ex_turns : list (nat * option nat) := concat (repeat [(0, None); (1, Some 2)]%nat 22).

Lemma save_returns_witness :
  exists outcome,
    (run_writers ex_target [ex_a; ex_b] (calling [ex_a; ex_b] ex_dir) ex_turns).2 !! 0%nat = Some (Returned outcome).
Proof.
  apply (save_returns ex_target [ex_a; ex_b] ex_dir ex_turns 0%nat); [cbn; lia|].
  apply Nat.leb_le. vm_compute. reflexivity.
Defined.

(** Nothing fails: the file is replaced and its mode kept. *)
Example ex_saved :
  read (write_atomically ex_target (fun _ => None) ex_a ex_dir).1 ex_target = Some (mkFile "from a" 0x1A0 true).
Proof. vm_compute. reflexivity. Qed.

Lemma save_alone_witness :
  exists s' outcome, write_atomically ex_target (fun _ => None) ex_a ex_dir = (s', Returned outcome) /\
  match outcome with
  | Ok _ => read s' ex_target = Some (saved ex_target ex_a ex_dir)
  | Err e => e = NamesTaken
  end.
Proof.
  destruct (save_alone ex_target (fun _ => None) ex_a ex_dir ex_settled) as (s' & r & Hw & H).
  exists s', r. split; [exact Hw|]. destruct r; [exact (proj1 H)|exact (proj1 (proj2 H (fun _ => eq_refl)))].
Defined.

(** A target whose metadata cannot be read is taken for one that does not exist, and
    its permissions are widened to what the umask leaves. *)
Lemma denied_stat_widens :
  exists s', write_atomically ex_target (fun _ => None) (mkJob 100 5 "from a" 0x1A4 true) ex_dir = (s', Returned (Ok tt)) /\
  option_map permissions (read ex_dir ex_target) = Some 0x1A0%N /\
  option_map permissions (read s' ex_target) = Some 0x1A4%N.
Proof. eexists. split_and!; vm_compute; reflexivity. Qed.
