(* ===== verification/Serial.v ===== *)
(** * Serial: dates and SOA serials (src/src/commands/mod.rs)

    The day of the Unix clock as [YYYYMMDD], and the serial a command gives the
    zone.  The date arithmetic is checked against a calendar that counts days one
    at a time. *)

From S2P Require Import Prelude Config.

(** ** The source's arithmetic *)

(** [ymd_from_unix_days], before packing: year, month, day.  The source works in
    [i64], where nothing here can overflow for a clock's day. *)
Definition civil_from_doe (doe : Z) : Z * Z * Z :=
  let yoe := ((doe - doe / 1460 + doe / 36524 - doe / 146096) / 365)%Z in
  let day_of_year := (doe - (365 * yoe + yoe / 4 - yoe / 100))%Z in
  let mp := ((5 * day_of_year + 2) / 153)%Z in
  let d := (day_of_year - (153 * mp + 2) / 5 + 1)%Z in
  let m := (if mp <? 10 then mp + 3 else mp - 9)%Z in
  let y := (if m <=? 2 then yoe + 1 else yoe)%Z in
  (y, m, d).

Definition civil_from_unix_days (days : N) : Z * Z * Z :=
  let z := (Z.of_N days + 719468)%Z in
  let era := (z / 146097)%Z in
  let doe := (z mod 146097)%Z in
  let '(y, m, d) := civil_from_doe doe in
  ((y + era * 400)%Z, m, d).

Definition ymd_from_unix_days (days : N) : N :=
  let '(y, m, d) := civil_from_unix_days days in
  as_u32 (Z.to_N (y mod 2 ^ 32) * 10000 + Z.to_N (m mod 2 ^ 32) * 100 + Z.to_N (d mod 2 ^ 32)).

(** [today_utc], of a clock past the epoch. *)
Definition today_utc (unix_seconds : N) : N := ymd_from_unix_days (unix_seconds / 86400).

(** [next_serial]; the sums are [u32]'s, which wrap. *)
Definition next_serial (previous : option N) (today : N) : N :=
  let base := u32_saturating_mul today 100 in
  match previous with
  | Some prev =>
      if (base <=? prev)%N && (prev <? as_u32 (base + 99))%N then as_u32 (prev + 1)
      else if (base <=? prev)%N then prev
      else as_u32 (base + 1)
  | None => as_u32 (base + 1)
  end.

(** ** A calendar that counts days *)

Definition leap (y : Z) : bool :=
  ((y mod 4 =? 0) && negb (y mod 100 =? 0) || (y mod 400 =? 0))%Z.

Definition days_in_month (y m : Z) : Z :=
  (if m =? 2 then (if leap y then 29 else 28)
   else if (m =? 4) || (m =? 6) || (m =? 9) || (m =? 11) then 30 else 31)%Z.

Definition next_day (ymd : Z * Z * Z) : Z * Z * Z :=
  let '(y, m, d) := ymd in
  (if d <? days_in_month y m then (y, m, d + 1)
   else if m <? 12 then (y, m + 1, 1) else (y + 1, 1, 1))%Z.

(** The day [n] days after the epoch. *)
Fixpoint calendar (n : nat) : Z * Z * Z :=
  match n with
  | O => (1970, 1, 1)%Z
  | S n => next_day (calendar n)
  end.

(** ** One era is enough

    The calendar repeats every 400 years, which are 146097 days; the arithmetic
    advances as the calendar does on every day of one era. *)

Lemma leap_periodic y e : leap (y + e * 400) = leap y.
Proof.
  unfold leap. rewrite Z.mod_add by done.
  replace (y + e * 400)%Z with (y + e * 100 * 4)%Z at 1 by lia. rewrite Z.mod_add by done.
  replace (y + e * 400)%Z with (y + e * 4 * 100)%Z by lia. by rewrite Z.mod_add by done.
Qed.

Definition shift (e : Z) (ymd : Z * Z * Z) : Z * Z * Z := let '(y, m, d) := ymd in ((y + e * 400)%Z, m, d).

Lemma next_day_periodic e ymd : next_day (shift e ymd) = shift e (next_day ymd).
Proof.
  destruct ymd as [[y m] d]. unfold shift, next_day, days_in_month. rewrite leap_periodic.
  destruct (_ <? _)%Z; [done|]. destruct (m <? 12)%Z; [done|]. f_equal. f_equal. lia.
Qed.

(** *** Years of an era, from March to February

    [year_start] is the day of the era the year [yoe] starts on, [year_of] the
    source's way back, and [year_days] the length of that year. *)
Definition year_start (yoe : Z) : Z := (365 * yoe + yoe / 4 - yoe / 100)%Z.
Definition year_of (doe : Z) : Z := ((doe - doe / 1460 + doe / 36524 - doe / 146096) / 365)%Z.
Definition year_days (yoe : Z) : Z := if leap (yoe + 1) then 366%Z else 365%Z.

Definition month_of (doy : Z) : Z :=
  let mp := ((5 * doy + 2) / 153)%Z in (if mp <? 10 then mp + 3 else mp - 9)%Z.
Definition day_of (doy : Z) : Z := let mp := ((5 * doy + 2) / 153)%Z in (doy - (153 * mp + 2) / 5 + 1)%Z.
Definition turn_of (doy : Z) : Z := if (month_of doy <=? 2)%Z then 1%Z else 0%Z.

Lemma civil_in_year doe :
  civil_from_doe doe =
    let doy := (doe - year_start (year_of doe))%Z in ((year_of doe + turn_of doy)%Z, month_of doy, day_of doy).
Proof.
  unfold civil_from_doe, turn_of, month_of, day_of, year_start. cbv zeta. change ((doe - doe / 1460 + doe / 36524 - doe / 146096) / 365)%Z with (year_of doe).
  destruct (_ <=? 2)%Z; [done|]. by rewrite Z.add_0_r.
Qed.

(** A check of every integer of a range. *)
Fixpoint every (p : Z -> bool) (from : Z) (n : nat) : bool :=
  match n with O => true | S n => p from && every p (from + 1) n end.

Lemma every_at p from n k : every p from n = true -> (from <= k < from + Z.of_nat n)%Z -> p k = true.
Proof.
  revert from. induction n as [|n IH]; intros from H Hk; [lia|].
  cbn [every] in H. apply andb_true_iff in H as [H1 H2].
  destruct (decide (k = from)) as [->|]; [done|]. apply (IH (from + 1)%Z); [done|lia].
Qed.

(** Each year starts where the one before it ends, and the source finds the year of
    its first and its last day. *)
Definition year_checked (yoe : Z) : bool :=
  ((year_start yoe + year_days yoe =? if yoe =? 399 then 146097 else year_start (yoe + 1))
   && (year_of (year_start yoe) =? yoe) && (year_of (year_start yoe + year_days yoe - 1) =? yoe)
   && (0 <=? year_start yoe))%Z.

Lemma years_ok : every year_checked 0 400 = true.
Proof. vm_compute. reflexivity. Qed.

Lemma year_facts yoe : (0 <= yoe < 400)%Z ->
  (year_start yoe + year_days yoe = if yoe =? 399 then 146097 else year_start (yoe + 1))%Z /\
  year_of (year_start yoe) = yoe /\ year_of (year_start yoe + year_days yoe - 1) = yoe /\ (0 <= year_start yoe)%Z.
Proof.
  intros H. pose proof (every_at _ _ _ yoe years_ok ltac:(lia)) as Hy. unfold year_checked in Hy.
  apply andb_true_iff in Hy as [Hy H4]. apply andb_true_iff in Hy as [Hy H3]. apply andb_true_iff in Hy as [H1 H2].
  apply Z.eqb_eq in H1, H2, H3. by apply Z.leb_le in H4.
Qed.

Lemma year_of_mono a b : (0 <= a <= b)%Z -> (year_of a <= year_of b)%Z.
Proof.
  intros H. unfold year_of. apply Z.div_le_mono; [lia|].
  assert (Hq : forall x, (x / 146096 = x / 36524 / 4)%Z) by (intros; rewrite Z.div_div by lia; done).
  rewrite !Hq. assert (Hr : forall x y k, (1 < k -> x <= y -> x - x / k <= y - y / k)%Z).
  { intros x y k Hk Hxy. pose proof (Z.div_le_mono x y k ltac:(lia) Hxy).
    pose proof (Z.div_mod x k ltac:(lia)). pose proof (Z.div_mod y k ltac:(lia)).
    pose proof (Z.mod_pos_bound x k ltac:(lia)). pose proof (Z.mod_pos_bound y k ltac:(lia)).
    destruct (decide (x / k = y / k)%Z) as [He|Hne]; [rewrite He; lia|]. nia. }
  pose proof (Hr a b 1460%Z ltac:(lia) ltac:(lia)).
  pose proof (Hr _ _ 4%Z ltac:(lia) (Z.div_le_mono a b 36524 ltac:(lia) ltac:(lia))). lia.
Qed.

Lemma year_of_day yoe doy :
  (0 <= yoe < 400)%Z -> (0 <= doy < year_days yoe)%Z -> year_of (year_start yoe + doy) = yoe.
Proof.
  intros Hy Hd. destruct (year_facts yoe Hy) as (_ & H1 & H2 & H0).
  pose proof (year_of_mono (year_start yoe) (year_start yoe + doy) ltac:(lia)).
  pose proof (year_of_mono (year_start yoe + doy) (year_start yoe + year_days yoe - 1) ltac:(lia)). lia.
Qed.

(** Every day of the era is a day of one of its years. *)
Lemma year_cover n doe :
  (n <= 400)%nat -> (0 <= doe)%Z ->
  (doe < if Z.of_nat n =? 400 then 146097 else year_start (Z.of_nat n))%Z ->
  exists yoe doy, doe = (year_start yoe + doy)%Z /\ (0 <= yoe < Z.of_nat n)%Z /\ (0 <= doy < year_days yoe)%Z.
Proof.
  induction n as [|n IH]; intros Hn H0 H; [change (doe < 0)%Z in H; lia|].
  destruct (year_facts (Z.of_nat n) ltac:(lia)) as (Hs & _).
  assert (Hb : (doe < year_start (Z.of_nat n) + year_days (Z.of_nat n))%Z).
  { rewrite Hs. rewrite Nat2Z.inj_succ in H. unfold Z.succ in H.
    destruct (Z.eqb_spec (Z.of_nat n + 1) 400), (Z.eqb_spec (Z.of_nat n) 399); lia. }
  destruct (decide (year_start (Z.of_nat n) <= doe)%Z) as [Hle|Hlt].
  - exists (Z.of_nat n), (doe - year_start (Z.of_nat n))%Z. lia.
  - destruct IH as (yoe & doy & H1 & H2 & H3); [lia|done| |exists yoe, doy; split; [done|lia]].
    destruct (Z.eqb_spec (Z.of_nat n) 400); lia.
Qed.

(** *** Days of a year

    Months and days advance the same way in every year but for 29 February. *)
Definition day_checked (doy : Z) : bool :=
  forallb (fun leap_year =>
    let length := (if month_of doy =? 2 then (if leap_year : bool then 29 else 28)
                   else days_in_month 1 (month_of doy))%Z in
    (if doy + 1 <? (if leap_year then 366 else 365)
     then if day_of doy <? length
          then (month_of (doy + 1) =? month_of doy) && (day_of (doy + 1) =? day_of doy + 1)
               && (turn_of (doy + 1) =? turn_of doy)
          else (day_of (doy + 1) =? 1) &&
               (if month_of doy <? 12
                then (month_of (doy + 1) =? month_of doy + 1) && (turn_of (doy + 1) =? turn_of doy)
                else (month_of (doy + 1) =? 1) && (turn_of (doy + 1) =? turn_of doy + 1))
     else if doy <? (if leap_year then 366 else 365)
          then negb (day_of doy <? length) && (month_of doy =? 2) && (turn_of doy =? 1)
          else true))%Z [true; false].

Lemma days_ok : every day_checked 0 366 = true.
Proof. vm_compute. reflexivity. Qed.

(** Only February asks for the year, and it is then the one after [yoe]. *)
Lemma month_length yoe doy :
  days_in_month (yoe + turn_of doy) (month_of doy) =
    (if month_of doy =? 2 then (if leap (yoe + 1) then 29 else 28) else days_in_month 1 (month_of doy))%Z.
Proof.
  unfold days_in_month, turn_of. destruct (Z.eqb_spec (month_of doy) 2) as [->|]; done.
Qed.

Lemma day_step yoe doy :
  (0 <= doy < year_days yoe)%Z ->
  next_day (yoe + turn_of doy, month_of doy, day_of doy)%Z =
    if (doy + 1 <? year_days yoe)%Z then ((yoe + turn_of (doy + 1))%Z, month_of (doy + 1), day_of (doy + 1))
    else ((yoe + 1)%Z, 3%Z, 1%Z).
Proof.
  intros H. assert (Hr : (doy < 366)%Z) by (unfold year_days in H; destruct (leap _); lia).
  pose proof (every_at _ _ _ doy days_ok ltac:(lia)) as Hc. unfold day_checked in Hc.
  apply forallb_forall with (x := leap (yoe + 1)) in Hc; [|destruct (leap _); cbn; tauto].
  unfold next_day. rewrite month_length. unfold year_days in *. cbv zeta in Hc.
  remember (if month_of doy =? 2 then _ else _)%Z as len eqn:El. clear El.
  destruct (doy + 1 <? (if leap (yoe + 1) then 366 else 365))%Z.
  - destruct (day_of doy <? len)%Z.
    + apply andb_true_iff in Hc as [Hc H3]. apply andb_true_iff in Hc as [H1 H2].
      apply Z.eqb_eq in H1, H2, H3. by rewrite H1, H2, H3.
    + apply andb_true_iff in Hc as [H1 Hc]. apply Z.eqb_eq in H1. rewrite H1.
      destruct (month_of doy <? 12)%Z; apply andb_true_iff in Hc as [H2 H3];
        apply Z.eqb_eq in H2, H3; rewrite H2, H3; [done|]. f_equal. f_equal. lia.
  - assert (Hlt : ((doy <? (if leap (yoe + 1) then 366 else 365))%Z = true)) by (apply Z.ltb_lt; lia).
    rewrite Hlt in Hc. apply andb_true_iff in Hc as [Hc H3]. apply andb_true_iff in Hc as [H1 H2].
    apply negb_true_iff in H1. apply Z.eqb_eq in H2, H3. by rewrite H1, H2, H3.
Qed.

Lemma doe_step doe : (0 <= doe < 146096)%Z -> civil_from_doe (doe + 1) = next_day (civil_from_doe doe).
Proof.
  intros H. destruct (year_cover 400 doe) as (yoe & doy & -> & Hy & Hd); [lia|lia|change (doe < 146097)%Z; lia|].
  rewrite !civil_in_year. cbv zeta. rewrite (year_of_day yoe doy) by lia.
  replace (year_start yoe + doy - year_start yoe)%Z with doy by lia. rewrite day_step by done.
  destruct (Z.ltb_spec (doy + 1) (year_days yoe)) as [Hlt|Hge].
  - replace (year_start yoe + doy + 1)%Z with (year_start yoe + (doy + 1))%Z by lia.
    rewrite (year_of_day yoe (doy + 1)) by lia.
    by replace (year_start yoe + (doy + 1) - year_start yoe)%Z with (doy + 1)%Z by lia.
  - destruct (year_facts yoe ltac:(lia)) as (Hs & _).
    destruct (Z.eqb_spec yoe 399); [lia|].
    replace (year_start yoe + doy + 1)%Z with (year_start (yoe + 1)) by lia.
    destruct (year_facts (yoe + 1) ltac:(lia)) as (_ & Hf & _). rewrite Hf, Z.sub_diag.
    change (turn_of 0) with 0%Z. by rewrite Z.add_0_r.
Qed.

(** The last day of an era and the first of the next. *)
Lemma era_turn : shift 1 (civil_from_doe 0) = next_day (civil_from_doe 146096).
Proof. reflexivity. Qed.

Lemma shift_shift e f ymd : shift e (shift f ymd) = shift (e + f) ymd.
Proof. destruct ymd as [[y m] d]. cbn. f_equal. f_equal. lia. Qed.

Lemma civil_shift days :
  civil_from_unix_days days =
    shift ((Z.of_N days + 719468) / 146097) (civil_from_doe ((Z.of_N days + 719468) mod 146097)).
Proof. unfold civil_from_unix_days, shift. by destruct (civil_from_doe _) as [[y m] d]. Qed.

Lemma civil_step days : civil_from_unix_days (days + 1) = next_day (civil_from_unix_days days).
Proof.
  rewrite !civil_shift, next_day_periodic. rewrite N2Z.inj_add.
  set (z := (Z.of_N days + 719468)%Z). replace (Z.of_N days + Z.of_N 1 + 719468)%Z with (z + 1)%Z by lia.
  pose proof (Z.div_mod z 146097 ltac:(done)) as Hz.
  pose proof (Z.mod_pos_bound z 146097 ltac:(done)) as Hb.
  set (era := (z / 146097)%Z) in *. set (doe := (z mod 146097)%Z) in *.
  destruct (decide (doe = 146096)%Z) as [He|Hne].
  - rewrite He, <- era_turn, shift_shift.
    rewrite <- (Z.div_unique (z + 1) 146097 (era + 1) 0) by lia.
    by rewrite <- (Z.mod_unique (z + 1) 146097 (era + 1) 0) by lia.
  - rewrite <- (Z.div_unique (z + 1) 146097 era (doe + 1)) by lia.
    rewrite <- (Z.mod_unique (z + 1) 146097 era (doe + 1)) by lia. by rewrite doe_step by lia.
Qed.

Lemma civil_calendar n : civil_from_unix_days (N.of_nat n) = calendar n.
Proof.
  induction n as [|n IH]; [reflexivity|]. cbn [calendar]. rewrite <- IH, <- civil_step. f_equal. lia.
Qed.

(** ** What a date is *)

Definition valid_date (ymd : Z * Z * Z) : Prop :=
  let '(y, m, d) := ymd in (1970 <= y /\ 1 <= m <= 12 /\ 1 <= d <= days_in_month y m)%Z.

Definition date_number (ymd : Z * Z * Z) : Z := let '(y, m, d) := ymd in (y * 10000 + m * 100 + d)%Z.

Lemma days_in_month_bounds y m : (28 <= days_in_month y m <= 31)%Z.
Proof. unfold days_in_month. repeat destruct_match; lia. Qed.

Lemma calendar_valid n : valid_date (calendar n).
Proof.
  induction n as [|n IH]; [by vm_compute|]. cbn [calendar].
  destruct (calendar n) as [[y m] d]. unfold valid_date, next_day in *.
  destruct (Z.ltb_spec d (days_in_month y m)); [lia|].
  pose proof (days_in_month_bounds y (m + 1)). pose proof (days_in_month_bounds (y + 1) 1).
  destruct (Z.ltb_spec m 12); lia.
Qed.

Lemma next_day_later ymd : valid_date ymd -> (date_number ymd < date_number (next_day ymd))%Z.
Proof.
  destruct ymd as [[y m] d]. unfold valid_date, next_day, date_number. intros H.
  pose proof (days_in_month_bounds y m). repeat destruct_match; simplify_eq; lia.
Qed.

Lemma calendar_later a b : (a < b)%nat -> (date_number (calendar a) < date_number (calendar b))%Z.
Proof.
  induction 1 as [|b _ IH]; cbn [calendar].
  - apply next_day_later, calendar_valid.
  - etrans; [exact IH|]. apply next_day_later, calendar_valid.
Qed.

(** The last day of the year 4294: [YYYYMMDDnn] fits 32 bits up to it. *)
Definition LAST_DAY : N := 849188.

Lemma last_day : ymd_from_unix_days LAST_DAY = 42941231%N /\ civil_from_unix_days LAST_DAY = (4294, 12, 31)%Z.
Proof. by vm_compute. Qed.

Lemma ymd_calendar days :
  (days <= LAST_DAY)%N -> Z.of_N (ymd_from_unix_days days) = date_number (calendar (N.to_nat days)).
Proof.
  intros H. unfold ymd_from_unix_days.
  assert (Hle : (date_number (calendar (N.to_nat days)) <= 42941231)%Z).
  { pose proof (f_equal date_number (proj2 last_day)) as Hl.
    replace LAST_DAY with (N.of_nat (N.to_nat LAST_DAY)) in Hl by apply N2Nat.id.
    rewrite civil_calendar in Hl. cbn [date_number] in Hl.
    destruct (decide (N.to_nat days = N.to_nat LAST_DAY)) as [->|Hne]; [lia|].
    pose proof (calendar_later (N.to_nat days) (N.to_nat LAST_DAY) ltac:(lia)). lia. }
  pose proof (calendar_valid (N.to_nat days)) as Hv. pose proof (civil_calendar (N.to_nat days)) as Hc.
  rewrite N2Nat.id in Hc. rewrite Hc.
  destruct (calendar (N.to_nat days)) as [[y m] d]. unfold valid_date, date_number in *.
  pose proof (days_in_month_bounds y m).
  rewrite !Z.mod_small by lia. unfold as_u32, U32_MOD. rewrite N.mod_small by lia. lia.
Qed.

(** C34: The date of a Unix day, by the source's arithmetic on eras and years from
    March on, is that of a calendar that starts on 1 January 1970 and counts one
    day at a time with the Gregorian leap years; and later days have greater
    dates. *)
Theorem date_is_calendar days :
  (days <= LAST_DAY)%N ->
  (exists y m d, calendar (N.to_nat days) = (y, m, d) /\ (1 <= m <= 12)%Z /\ (1 <= d <= days_in_month y m)%Z /\
     Z.of_N (ymd_from_unix_days days) = (y * 10000 + m * 100 + d)%Z) /\
  (forall later, (days < later <= LAST_DAY)%N -> (ymd_from_unix_days days < ymd_from_unix_days later)%N).
Proof.
  intros H. split.
  - pose proof (calendar_valid (N.to_nat days)) as Hv. pose proof (ymd_calendar days H) as Hy.
    destruct (calendar (N.to_nat days)) as [[y m] d]. exists y, m, d. unfold valid_date, date_number in *.
    split_and!; try lia. done.
  - intros later Hl. pose proof (calendar_later (N.to_nat days) (N.to_nat later) ltac:(lia)) as Hc.
    rewrite <- !ymd_calendar in Hc by lia. lia.
Qed.

Lemma date_is_calendar_witness :
  (ymd_from_unix_days 20664 < ymd_from_unix_days 20665)%N /\ ymd_from_unix_days 20664 = 20260730%N.
Proof. split; [apply (proj2 (date_is_calendar 20664 ltac:(easy))); easy|reflexivity]. Defined.

(** ** What a serial is *)

Lemma today_bound seconds : (seconds / 86400 <= LAST_DAY)%N -> (today_utc seconds <= 42941231)%N.
Proof.
  intros H. unfold today_utc. rewrite <- (proj1 last_day).
  destruct (decide (seconds / 86400 = LAST_DAY)%N) as [->|Hne]; [done|].
  pose proof (calendar_later (N.to_nat (seconds / 86400)) (N.to_nat LAST_DAY) ltac:(lia)) as Hc.
  rewrite <- !ymd_calendar in Hc by lia. lia.
Qed.

Lemma next_serial_cases previous today :
  (today <= 42941231)%N ->
  next_serial previous today =
    match previous with
    | Some prev => if (prev <? today * 100)%N then (today * 100 + 1)%N
                   else if (prev <? today * 100 + 99)%N then (prev + 1)%N else prev
    | None => (today * 100 + 1)%N
    end.
Proof.
  intros H. unfold next_serial, u32_saturating_mul, as_u32, u32_MAX, U32_MOD.
  rewrite (N.min_l (today * 100)) by lia. rewrite !(N.mod_small (today * 100 + _)) by lia.
  destruct previous as [prev|]; [|done].
  destruct (N.ltb_spec prev (today * 100)), (N.leb_spec (today * 100) prev); try lia; cbn [andb]; [done|].
  destruct (N.ltb_spec prev (today * 100 + 99)); [|done]. rewrite N.mod_small; lia.
Qed.

(** C33: The serial a command sets, for a clock up to the year 4294, never goes back,
    stays in 32 bits, and is greater than the one before unless the day's ninety-nine
    are used up or the old one is from a later day; without an old one, or after one
    of an earlier day, it is the first of the day. *)
Theorem serials_only_grow seconds previous :
  (seconds / 86400 <= LAST_DAY)%N ->
  let today := today_utc seconds in
  let serial := next_serial previous today in
  match previous with
  | None => serial = (today * 100 + 1)%N
  | Some prev =>
      (prev <= serial)%N /\
      ((prev < serial)%N <-> (prev < today * 100 + 99)%N) /\
      ((prev < today * 100)%N -> serial = (today * 100 + 1)%N) /\
      ((today * 100 <= prev < today * 100 + 99)%N -> serial = (prev + 1)%N) /\
      ((prev < 2 ^ 32)%N -> (serial < 2 ^ 32)%N)
  end.
Proof.
  intros H. cbv zeta. pose proof (today_bound seconds H) as Ht.
  rewrite next_serial_cases by done. destruct previous as [prev|]; [|done].
  destruct (N.ltb_spec prev (today_utc seconds * 100)); [lia|].
  destruct (N.ltb_spec prev (today_utc seconds * 100 + 99)); lia.
Qed.

Lemma serials_only_grow_witness :
  (2026073041 < next_serial (Some 2026073041%N) (today_utc 1785400000))%N /\
  next_serial (Some 2026073041%N) (today_utc 1785400000) = 2026073042%N.
Proof.
  pose proof (serials_only_grow 1785400000 (Some 2026073041%N) ltac:(by vm_compute)) as (_ & H & _).
  split; [apply H; by vm_compute|by vm_compute].
Defined.
