(* ===== verification/Toml.v ===== *)
(** * Toml: the document model of the toml_edit crate

    A [Document] dereferences to its root table, which is all an edit touches.  A
    reference into a document ([get_mut], [as_array_mut], ...) is a pair of a read
    and a write back to where it was read.  Layout, comments and spans are in the
    values of these types and show through none of the reads. *)

From S2P Require Import Prelude.

Class Toml : Type := {
  Table : Type;
  TableLike : Type;
  Item : Type;
  Array : Type;
  ArrayOfTables : Type;

  (** [Table] *)
  Table_new : Table;
  Table_get : Table -> string -> option Item;
  Table_insert : Table -> string -> Item -> Table;
  Table_write : Table -> string -> Item -> Table;
  Table_remove : Table -> string -> Table;

  (** [dyn TableLike], a [Table] or an [InlineTable] *)
  TableLike_get : TableLike -> string -> option Item;
  TableLike_insert : TableLike -> string -> Item -> TableLike;
  TableLike_write : TableLike -> string -> Item -> TableLike;
  TableLike_or_insert : TableLike -> string -> Item -> TableLike;

  (** [Item]: what it can be read as, and the writes through those readings *)
  as_str : Item -> option string;
  as_integer : Item -> option Z;
  as_array : Item -> option Array;
  as_table_like : Item -> option TableLike;
  as_array_of_tables : Item -> option ArrayOfTables;
  write_array : Item -> Array -> Item;
  write_table_like : Item -> TableLike -> Item;
  write_array_of_tables : Item -> ArrayOfTables -> Item;
  value_str : string -> Item;
  value_integer : Z -> Item;
  value_array : Array -> Item;
  item_table : Table -> Item;
  item_array_of_tables : ArrayOfTables -> Item;

  (** [Array] and [ArrayOfTables] *)
  Array_new : Array;
  Array_push : Array -> string -> Array;
  Array_iter : Array -> list Item;
  ArrayOfTables_new : ArrayOfTables;
  ArrayOfTables_iter : ArrayOfTables -> list Table;
  ArrayOfTables_push : ArrayOfTables -> Table -> ArrayOfTables;
  ArrayOfTables_write : ArrayOfTables -> nat -> Table -> ArrayOfTables;
  ArrayOfTables_remove : ArrayOfTables -> nat -> ArrayOfTables;

  (** [to_string] and [parse] *)
  Document_render : Table -> string;
  Document_parse : string -> option Table;
}.

(** What an edit of a key does to the reads of a table. *)
Definition updated {A} (get : string -> option A) (key : string) (a : option A) (key' : string) : option A :=
  if decide (key' = key) then a else get key'.

Class TomlLaws (T : Toml) : Prop := {
  Table_new_get k : Table_get Table_new k = None;
  Table_insert_get t k i k' : Table_get (Table_insert t k i) k' = updated (Table_get t) k (Some i) k';
  Table_write_get t k i k' :
    is_Some (Table_get t k) -> Table_get (Table_write t k i) k' = updated (Table_get t) k (Some i) k';
  Table_remove_get t k k' : Table_get (Table_remove t k) k' = updated (Table_get t) k None k';

  (** An [InlineTable] turns what is inserted into a value: numbers stay, an array
      of tables becomes a plain array. *)
  TableLike_insert_get t k i : exists i',
    (forall k', TableLike_get (TableLike_insert t k i) k' = updated (TableLike_get t) k (Some i') k') /\
    as_integer i' = as_integer i /\
    (as_array_of_tables i' = as_array_of_tables i \/ as_array_of_tables i' = None);
  TableLike_write_get t k i k' :
    is_Some (TableLike_get t k) ->
    TableLike_get (TableLike_write t k i) k' = updated (TableLike_get t) k (Some i) k';
  TableLike_or_insert_get t k i k' :
    TableLike_get (TableLike_or_insert t k i) k' =
      updated (TableLike_get t) k (Some (default i (TableLike_get t k))) k';

  write_array_read i a : is_Some (as_array i) -> as_array (write_array i a) = Some a;
  write_table_like_read i t : is_Some (as_table_like i) -> as_table_like (write_table_like i t) = Some t;
  write_array_of_tables_read i a :
    is_Some (as_array_of_tables i) -> as_array_of_tables (write_array_of_tables i a) = Some a;
  value_str_read s : as_str (value_str s) = Some s;
  value_integer_read z : as_integer (value_integer z) = Some z;
  value_array_read a : as_array (value_array a) = Some a;
  item_table_read t : exists tl, as_table_like (item_table t) = Some tl /\
    forall k, TableLike_get tl k = Table_get t k;
  item_array_of_tables_read a : as_array_of_tables (item_array_of_tables a) = Some a;

  Array_new_iter : Array_iter Array_new = [];
  Array_push_iter a s : Array_iter (Array_push a s) = Array_iter a ++ [value_str s];
  ArrayOfTables_new_iter : ArrayOfTables_iter ArrayOfTables_new = [];
  ArrayOfTables_push_iter a t : ArrayOfTables_iter (ArrayOfTables_push a t) = ArrayOfTables_iter a ++ [t];
  ArrayOfTables_write_iter a n t : ArrayOfTables_iter (ArrayOfTables_write a n t) = <[n := t]> (ArrayOfTables_iter a);
  ArrayOfTables_remove_iter a n :
    (n < length (ArrayOfTables_iter a))%nat -> ArrayOfTables_iter (ArrayOfTables_remove a n) = delete n (ArrayOfTables_iter a);
}.

(** ** Automation

    [toml] normalises the reads of an edited table: which key was written, and what
    a fresh item reads as. *)

Lemma updated_same {A} (get : string -> option A) k a : updated get k a k = a.
Proof. unfold updated. by rewrite decide_True. Qed.

Lemma updated_other {A} (get : string -> option A) k a k' : k' <> k -> updated get k a k' = get k'.
Proof. intros H. unfold updated. by rewrite decide_False. Qed.

Create Rewrite HintDb toml.
#[export] Hint Rewrite @Table_new_get @Table_insert_get @Table_remove_get @value_str_read @value_integer_read
  @value_array_read @Array_new_iter @Array_push_iter @ArrayOfTables_new_iter @item_array_of_tables_read
  @updated_same using typeclasses eauto : toml.
#[export] Hint Rewrite @updated_other using (first [done | discriminate]) : toml.

Ltac toml := repeat (autorewrite with toml; cbn [mbind option_bind option_map default from_option id]).

(** ** Documents that read the same

    What is rendered and parsed again is not the same value: spans and comments are its
    own, and an array of tables with no table left in it, or a table implied by one, is
    not written at all.  No read of a record, of the origin or of the serial tells the
    two apart. *)
Class TomlSame (T : Toml) : Type := {
  table_same :: Equiv Table;
  table_like_same :: Equiv TableLike;
  item_same :: Equiv Item;
  array_same :: Equiv Array;
  array_of_tables_same :: Equiv ArrayOfTables;
}.

Section Blank.
Context {T : Toml} {S : TomlSame T}.

(** An item that need not be written: no table of an array, or nothing but such items. *)
Inductive blank : Item -> Prop :=
| blank_tables i a :
    as_array_of_tables i = Some a -> ArrayOfTables_iter a = [] ->
    as_str i = None -> as_integer i = None -> as_array i = None -> as_table_like i = None -> blank i
| blank_table i t :
    as_table_like i = Some t -> (forall k i', TableLike_get t k = Some i' -> blank i') ->
    as_str i = None -> as_integer i = None -> as_array i = None -> as_array_of_tables i = None -> blank i.

Definition absent (o : option Item) : Prop := forall i, o = Some i -> blank i.

Definition reads_same (o o' : option Item) : Prop := o ≡ o' \/ absent o /\ absent o'.

End Blank.

Class TomlSameLaws (T : Toml) (S : TomlSame T) : Prop := {
  Table_get_same t t' k : t ≡ t' -> reads_same (Table_get t k) (Table_get t' k);
  TableLike_get_same t t' k : t ≡ t' -> reads_same (TableLike_get t k) (TableLike_get t' k);
  as_str_same :: Proper ((≡) ==> (=)) as_str;
  as_integer_same :: Proper ((≡) ==> (=)) as_integer;
  as_array_same :: Proper ((≡) ==> (≡)) as_array;
  as_table_like_same :: Proper ((≡) ==> (≡)) as_table_like;
  as_array_of_tables_same :: Proper ((≡) ==> (≡)) as_array_of_tables;
  Array_iter_same :: Proper ((≡) ==> (≡)) Array_iter;
  ArrayOfTables_iter_same :: Proper ((≡) ==> (≡)) ArrayOfTables_iter;

  Document_roundtrip d : exists d', Document_parse (Document_render d) = Some d' /\ d' ≡ d;
}.
