(* ===== verification/Editor.v ===== *)
(** * Editor: format-preserving edits of the configuration (src/src/editor.rs)

    [ConfigEditor]'s document is a root table of Toml's interface; an edit answers
    the document it leaves behind whether or not it succeeds, since a failing edit
    may have created a table on its way.  The outer [option] is the process, which
    the lexer behind [validate_value] may end. *)

From S2P Require Import Prelude Names Rdata Toml.
Local Open Scope vega_scope.

(** Hickory's [Display] of a record type: for the types its parser knows by name, upper
    case and not empty. *)
Class RecordTypeText : Type := { record_type_to_string : RecordType -> string }.

Class RecordTypeTextLaws (HN : HickoryNames) (HR : HickoryRdata HN) (RT : RecordTypeText) : Prop := {
  record_type_upper s t : record_type_parse s = Some t -> str_to_uppercase (record_type_to_string t) = record_type_to_string t;
  record_type_nonempty s t : record_type_parse s = Some t -> record_type_to_string t <> EmptyString;
}.

(** ** Data *)

Record RecordEntry : Type := mkEntry {
  re_name : string;
  re_type : string;
  re_ttl : option N;
  re_values : list string;
}.

#[global] Instance record_entry_eq_dec : EqDecision RecordEntry.
Proof. solve_decision. Defined.

Inductive Change : Type := Created | Extended | Replaced | Removed | Unchanged.

#[global] Instance change_eq_dec : EqDecision Change.
Proof. solve_decision. Defined.

Inductive EditError : Type :=
| BadRecordType (record_type : string)
| NoValuesGiven
| BadValue (record_type : RecordType) (value : string) (error : ValueError)
| ZoneNotTable
| SoaNotTable
| RecordsNotArray
| ValuesNotArray.

(** ** Names and types *)

Definition normalise_name (name : string) : string :=
  let trimmed := str_trim name in
  if decide (trimmed = EmptyString) then "@" else str_to_lowercase trimmed.

(** A mutable reference: what it reads, and the owner after a write through it. *)
Record Borrow (A B : Type) : Type := mkBorrow { borrowed : B; write_back : B -> A }.
Arguments mkBorrow {A B} _ _.
Arguments borrowed {A B} _.
Arguments write_back {A B} _ _.

Section Editor.
Context {TM : Toml} {HN : HickoryNames} {HR : HickoryRdata HN} {RT : RecordTypeText}.

Definition normalise_type (record_type : string) : result EditError RecordType :=
  ok_or (BadRecordType record_type) (record_type_parse (str_to_uppercase (str_trim record_type))).

Definition validate_value (record_type : RecordType) (owner value : string) : option (result EditError unit) :=
  match parse_value record_type owner value with
  | None => None
  | Some (Ok _) => Some (Ok tt)
  | Some (Err e) => Some (Err (BadValue record_type value e))
  end.

(** The loop over the values of an [add]: the first bad one ends it. *)
Fixpoint validate_values (record_type : RecordType) (owner : string) (values : list string)
    : option (result EditError unit) :=
  match values with
  | [] => Some (Ok tt)
  | value :: values =>
      match validate_value record_type owner value with
      | Some (Ok _) => validate_values record_type owner values
      | r => r
      end
  end.

(** ** One [[[zone.records]]] table *)

Definition name_of (table : Table) : string :=
  normalise_name (default "@" (Table_get table "name" ≫= as_str)).

Definition matches (name record_type : string) (table : Table) : bool :=
  bool_decide (name_of table = name) &&
  bool_decide (option_map str_to_uppercase (Table_get table "type" ≫= as_str) = Some record_type).

(** [u32::try_from] of an [i64]. *)
Definition u32_try_from (v : Z) : option N :=
  if ((0 <=? v) && (v <? 2 ^ 32))%Z then Some (Z.to_N v) else None.

Definition ttl_of (table : Table) : option N := (Table_get table "ttl" ≫= as_integer) ≫= u32_try_from.

Definition set_ttl (table : Table) (ttl : option N) : Table :=
  match ttl with
  | Some ttl => Table_insert table "ttl" (value_integer (Z.of_N ttl))
  | None => Table_remove table "ttl"
  end.

Definition value_array_mut (table : Table) : Table * result EditError (Borrow Table Array) :=
  let table :=
    match Table_get table "values" with
    | None => Table_insert table "values" (value_array Array_new)
    | Some _ => table
    end in
  match Table_get table "values" with
  | Some item =>
      match as_array item with
      | Some array =>
          (table, Ok (mkBorrow array (fun array => Table_write table "values" (write_array item array))))
      | None => (table, Err ValuesNotArray)
      end
  | None => (table, Err ValuesNotArray)
  end.

Definition array_values (array : Array) : list string := omap as_str (Array_iter array).

Definition build_array (values : list string) : Array := fold_left Array_push values Array_new.

Definition entry_of (table : Table) : RecordEntry :=
  mkEntry (default "@" (Table_get table "name" ≫= as_str))
          (str_to_uppercase (default "" (Table_get table "type" ≫= as_str)))
          (ttl_of table)
          (default [] (option_map array_values (Table_get table "values" ≫= as_array))).

(** ** The document *)

Definition zone_of (doc : Table) : option TableLike := Table_get doc "zone" ≫= as_table_like.

Definition ConfigEditor_origin (doc : Table) : option string :=
  zone ← zone_of doc;
  TableLike_get zone "origin" ≫= as_str.

Definition serial (doc : Table) : option N :=
  zone ← zone_of doc;
  soa ← TableLike_get zone "soa" ≫= as_table_like;
  (TableLike_get soa "serial" ≫= as_integer) ≫= u32_try_from.

Definition record_tables (doc : Table) : list Table :=
  default [] (option_map ArrayOfTables_iter
    (zone_of doc ≫= fun zone => TableLike_get zone "records" ≫= as_array_of_tables)).

Definition records (doc : Table) : list RecordEntry := map entry_of (record_tables doc).

(** [doc.entry("zone").or_insert(Item::Table(Table::new()))], as a table-like. *)
Definition zone_or_insert (doc : Table) : Table * result EditError (Borrow Table TableLike) :=
  let doc :=
    match Table_get doc "zone" with
    | None => Table_insert doc "zone" (item_table Table_new)
    | Some _ => doc
    end in
  match Table_get doc "zone" with
  | Some item =>
      match as_table_like item with
      | Some zone => (doc, Ok (mkBorrow zone (fun zone => Table_write doc "zone" (write_table_like item zone))))
      | None => (doc, Err ZoneNotTable)
      end
  | None => (doc, Err ZoneNotTable)
  end.

(** An array of tables inside a table-like inside a document. *)
Definition borrow_records (doc : Table) (zone : Borrow Table TableLike)
    : option (Borrow Table ArrayOfTables) :=
  item ← TableLike_get (borrowed zone) "records";
  tables ← as_array_of_tables item;
  Some (mkBorrow tables (fun tables =>
    write_back zone (TableLike_write (borrowed zone) "records" (write_array_of_tables item tables)))).

Definition records_mut (doc : Table) : Table * result EditError (Borrow Table ArrayOfTables) :=
  let '(doc, zone) := zone_or_insert doc in
  match zone with
  | Err e => (doc, Err e)
  | Ok zone =>
      let '(doc, zone) :=
        match TableLike_get (borrowed zone) "records" with
        | None =>
            let tl := TableLike_insert (borrowed zone) "records" (item_array_of_tables ArrayOfTables_new) in
            (write_back zone tl, mkBorrow tl (write_back zone))
        | Some _ => (doc, zone)
        end in
      (doc, ok_or RecordsNotArray (borrow_records doc zone))
  end.

Definition existing_records_mut (doc : Table) : option (Borrow Table ArrayOfTables) :=
  item ← Table_get doc "zone";
  zone ← as_table_like item;
  borrow_records doc (mkBorrow zone (fun zone => Table_write doc "zone" (write_table_like item zone))).

(** ** Adding *)

(** The record set is there: [table] after the edit.  [value_array_mut] is called
    again by the source before it writes; it answers the same array. *)
Definition extend (table : Table) (values : list string) (ttl : option N) (replace : bool)
    : Table * result EditError Change :=
  let current_ttl := ttl_of table in
  let '(table, array) := value_array_mut table in
  match array with
  | Err e => (table, Err e)
  | Ok array =>
      let current_values := array_values (borrowed array) in
      if replace then
        if bool_decide (current_values = values) && bool_decide (current_ttl = ttl) then (table, Ok Unchanged)
        else (set_ttl (write_back array (build_array values)) ttl, Ok Replaced)
      else
        let missing := List.filter (fun value => negb (existsb (String.eqb value) current_values)) values in
        let rettl := bool_decide (is_Some ttl) && negb (bool_decide (current_ttl = ttl)) in
        if bool_decide (missing = []) && negb rettl then (table, Ok Unchanged)
        else
          let table := write_back array (fold_left Array_push missing (borrowed array)) in
          (if rettl then set_ttl table ttl else table, Ok Extended)
  end.

Definition new_table (name : string) (record_type : RecordType) (values : list string) (ttl : option N) : Table :=
  let table := Table_insert Table_new "name" (value_str name) in
  let table := Table_insert table "type" (value_str (record_type_to_string record_type)) in
  let table := match ttl with Some ttl => Table_insert table "ttl" (value_integer (Z.of_N ttl)) | None => table end in
  Table_insert table "values" (value_array (build_array values)).

Definition add (doc : Table) (name record_type : string) (values : list string) (ttl : option N) (replace : bool)
    : option (Table * result EditError Change) :=
  match normalise_type record_type with
  | Err e => Some (doc, Err e)
  | Ok record_type =>
      let name := normalise_name name in
      if bool_decide (values = []) then Some (doc, Err NoValuesGiven)
      else
        match validate_values record_type name values with
        | None => None
        | Some (Err e) => Some (doc, Err e)
        | Some (Ok _) =>
            let '(doc, tables) := records_mut doc in
            match tables with
            | Err e => Some (doc, Err e)
            | Ok tables =>
                let found := list_find (fun t => Is_true (matches name (record_type_to_string record_type) t))
                               (ArrayOfTables_iter (borrowed tables)) in
                match found with
                | Some (idx, table) =>
                    let '(table, change) := extend table values ttl replace in
                    Some (write_back tables (ArrayOfTables_write (borrowed tables) idx table), change)
                | None =>
                    Some (write_back tables (ArrayOfTables_push (borrowed tables) (new_table name record_type values ttl)),
                          Ok Created)
                end
            end
        end
  end.

(** ** Removing *)

(** The loop over the tables from index [idx] on: the tables as they are left, the
    indices to drop, and whether anything changed. *)
Fixpoint remove_scan (selected : Table -> bool) (values : list string) (idx : nat) (todo : list Table)
    (tables : ArrayOfTables) (drop_indices : list nat) (changed : bool)
    : ArrayOfTables * result EditError (list nat * bool) :=
  match todo with
  | [] => (tables, Ok (drop_indices, changed))
  | table :: todo =>
      if negb (selected table) then remove_scan selected values (S idx) todo tables drop_indices changed
      else if bool_decide (values = []) then
        remove_scan selected values (S idx) todo tables (drop_indices ++ [idx]) true
      else
        let '(table, array) := value_array_mut table in
        match array with
        | Err e => (ArrayOfTables_write tables idx table, Err e)
        | Ok array =>
            let before := array_values (borrowed array) in
            let kept := List.filter (fun v => negb (existsb (String.eqb v) values)) before in
            if negb (length kept =? length before)%nat then
              if bool_decide (kept = []) then
                remove_scan selected values (S idx) todo (ArrayOfTables_write tables idx table)
                  (drop_indices ++ [idx]) true
              else
                remove_scan selected values (S idx) todo
                  (ArrayOfTables_write tables idx (write_back array (build_array kept))) drop_indices true
            else
              remove_scan selected values (S idx) todo (ArrayOfTables_write tables idx table) drop_indices changed
        end
  end.

Definition remove (doc : Table) (name : string) (record_type : option string) (values : list string)
    : Table * result EditError Change :=
  let name := normalise_name name in
  match (match record_type with
         | None => Ok None
         | Some record_type => let? t := normalise_type record_type in Ok (Some t)
         end) with
  | Err e => (doc, Err e)
  | Ok wanted_type =>
      match existing_records_mut doc with
      | None => (doc, Ok Unchanged)
      | Some tables =>
          let selected table :=
            match wanted_type with
            | Some ty => matches name (record_type_to_string ty) table
            | None => bool_decide (name_of table = name)
            end in
          let '(remaining, scanned) :=
            remove_scan selected values 0 (ArrayOfTables_iter (borrowed tables)) (borrowed tables) [] false in
          match scanned with
          | Err e => (write_back tables remaining, Err e)
          | Ok (drop_indices, changed) =>
              (write_back tables (fold_left ArrayOfTables_remove (reverse drop_indices) remaining),
               Ok (if changed : bool then Removed else Unchanged))
          end
      end
  end.

(** ** The serial *)

Definition set_serial (doc : Table) (serial : N) : Table * result EditError unit :=
  let '(doc, zone) := zone_or_insert doc in
  match zone with
  | Err e => (doc, Err e)
  | Ok zone =>
      let tl := TableLike_or_insert (borrowed zone) "soa" (item_table Table_new) in
      let doc := write_back zone tl in
      match TableLike_get tl "soa" with
      | Some item =>
          match as_table_like item with
          | Some soa =>
              let soa := TableLike_insert soa "serial" (value_integer (Z.of_N serial)) in
              (write_back zone (TableLike_write tl "soa" (write_table_like item soa)), Ok tt)
          | None => (doc, Err SoaNotTable)
          end
      | None => (doc, Err SoaNotTable)
      end
  end.

End Editor.
