(* ===== verification/EditorFacts.v ===== *)
(** * EditorFacts: what the editor's steps do to what a reader of the document sees

    Two views carry all the proofs: [entry_of], the record set a table shows, and
    [sees], the items of the zone table. *)

From S2P Require Import Prelude Names Rdata Toml Editor.

(** ** Strings *)

Lemma ascii_all (P : Ascii.ascii -> bool) :
  forallb P (map (fun n => Ascii.ascii_of_N (N.of_nat n)) (seq 0 256)) = true -> forall c, P c = true.
Proof.
  intros H c. rewrite forallb_forall in H. apply H.
  apply in_map_iff. exists (N.to_nat (Ascii.N_of_ascii c)).
  rewrite N2Nat.id, Ascii.ascii_N_embedding. split; [done|]. apply in_seq.
  pose proof (Ascii.N_ascii_bounded c). lia.
Qed.

Lemma lower_space c :
  is_ascii_space (Ascii.ascii_of_N (lower_octet (Ascii.N_of_ascii c))) = is_ascii_space c.
Proof.
  apply Bool.eqb_prop. revert c.
  apply (ascii_all (fun c => Bool.eqb (is_ascii_space (Ascii.ascii_of_N (lower_octet (Ascii.N_of_ascii c)))) (is_ascii_space c))).
  by vm_compute.
Qed.

Lemma lower_lower c :
  Ascii.ascii_of_N (lower_octet (Ascii.N_of_ascii (Ascii.ascii_of_N (lower_octet (Ascii.N_of_ascii c))))) =
  Ascii.ascii_of_N (lower_octet (Ascii.N_of_ascii c)).
Proof.
  apply Ascii.eqb_eq. revert c.
  apply (ascii_all (fun c => Ascii.eqb
    (Ascii.ascii_of_N (lower_octet (Ascii.N_of_ascii (Ascii.ascii_of_N (lower_octet (Ascii.N_of_ascii c))))))
    (Ascii.ascii_of_N (lower_octet (Ascii.N_of_ascii c))))).
  by vm_compute.
Qed.

Lemma lowercase_lowercase s : str_to_lowercase (str_to_lowercase s) = str_to_lowercase s.
Proof.
  unfold str_to_lowercase. induction s as [|c s IH]; [done|]. cbn [str_map]. by rewrite lower_lower, IH.
Qed.

Lemma trim_start_lowercase s :
  trim_start_by is_ascii_space (str_to_lowercase s) = str_to_lowercase (trim_start_by is_ascii_space s).
Proof.
  unfold str_to_lowercase. induction s as [|c s IH]; [done|]. cbn [str_map trim_start_by].
  rewrite lower_space. by destruct (is_ascii_space c).
Qed.

Lemma trim_end_lowercase s :
  trim_end_by is_ascii_space (str_to_lowercase s) = str_to_lowercase (trim_end_by is_ascii_space s).
Proof.
  unfold str_to_lowercase. induction s as [|c s IH]; [done|]. cbn [str_map trim_end_by]. rewrite IH.
  destruct (trim_end_by is_ascii_space s) as [|d t]; cbn [str_map]; [|done].
  rewrite lower_space. by destruct (is_ascii_space c).
Qed.

Lemma trim_end_idem p s : trim_end_by p (trim_end_by p s) = trim_end_by p s.
Proof.
  induction s as [|c s IH]; [done|]. cbn [trim_end_by].
  destruct (trim_end_by p s) as [|d t] eqn:E.
  - destruct (p c) eqn:Hc; [done|]. cbn [trim_end_by]. by rewrite Hc.
  - cbn [trim_end_by] in *. by rewrite IH.
Qed.

(** Trimming the end leaves a first character that is not trimmed from the start. *)
Lemma trim_start_end p s :
  trim_start_by p s = s -> trim_start_by p (trim_end_by p s) = trim_end_by p s.
Proof.
  destruct s as [|c s]; [done|]. cbn [trim_start_by trim_end_by]. intros H.
  destruct (p c) eqn:Hc.
  - exfalso. assert (Hl : forall t, (String.length (trim_start_by p t) <= String.length t)%nat).
    { induction t as [|d t IH]; cbn; [done|]. destruct (p d); [lia|done]. }
    specialize (Hl s). rewrite H in Hl. cbn in Hl. lia.
  - destruct (trim_end_by p s); cbn [trim_start_by]; by rewrite Hc.
Qed.

Lemma trim_start_idem p s : trim_start_by p (trim_start_by p s) = trim_start_by p s.
Proof. induction s as [|c s IH]; [done|]. cbn [trim_start_by]. destruct (p c) eqn:Hc; [done|]. cbn. by rewrite Hc. Qed.

Lemma trim_idem s : str_trim (str_trim s) = str_trim s.
Proof.
  unfold str_trim. rewrite (trim_start_end _ _ (trim_start_idem _ _)). apply trim_end_idem.
Qed.

Lemma trim_lowercase s : str_trim (str_to_lowercase s) = str_to_lowercase (str_trim s).
Proof. unfold str_trim. by rewrite trim_start_lowercase, trim_end_lowercase. Qed.

Lemma normalise_name_idem s : normalise_name (normalise_name s) = normalise_name s.
Proof.
  unfold normalise_name at 2. unfold normalise_name at 2. destruct (decide (str_trim s = EmptyString)) as [He|Hne]; [done|].
  unfold normalise_name. rewrite trim_lowercase, trim_idem, lowercase_lowercase.
  destruct (decide (str_to_lowercase (str_trim s) = EmptyString)) as [He|]; [|done].
  unfold str_to_lowercase in He. by destruct (str_trim s).
Qed.

(** ** Entries *)

Definition with_values (e : RecordEntry) (values : list string) : RecordEntry :=
  mkEntry (re_name e) (re_type e) (re_ttl e) values.
Definition with_ttl (e : RecordEntry) (ttl : option N) : RecordEntry :=
  mkEntry (re_name e) (re_type e) ttl (re_values e).

(** A TTL as the command line gives it. *)
Definition ttl_ok (ttl : option N) : Prop := forall t, ttl = Some t -> (t < 2 ^ 32)%N.

Lemma with_values_same e : with_values e (re_values e) = e.
Proof. by destruct e. Qed.

Section Facts.
Context {TM : Toml} {TL : TomlLaws TM} {HN : HickoryNames} {HR : HickoryRdata HN}
  {RT : RecordTypeText} {RL : RecordTypeTextLaws HN HR RT}.

Lemma u32_try_from_N t : (t < 2 ^ 32)%N -> u32_try_from (Z.of_N t) = Some t.
Proof.
  intros H. unfold u32_try_from.
  destruct (Z.leb_spec 0 (Z.of_N t)), (Z.ltb_spec (Z.of_N t) (2 ^ 32)); try lia. cbn. by rewrite N2Z.id.
Qed.

Lemma array_values_push values array :
  array_values (fold_left Array_push values array) = array_values array ++ values.
Proof.
  revert array. induction values as [|v values IH]; intros array; cbn [fold_left]; [by rewrite app_nil_r|].
  rewrite IH. unfold array_values at 1. rewrite Array_push_iter, omap_app. cbn. rewrite value_str_read.
  cbn. by rewrite <- app_assoc.
Qed.

Lemma array_values_build values : array_values (build_array values) = values.
Proof. unfold build_array. rewrite array_values_push. unfold array_values. by rewrite Array_new_iter. Qed.

(** An entry is what four keys of its table read as. *)
Lemma entry_of_ext t t' :
  (forall k, Table_get t' k = Table_get t k) -> entry_of t' = entry_of t.
Proof. intros H. unfold entry_of, ttl_of. by rewrite !H. Qed.

Lemma entry_of_values t t' values :
  (forall k, k <> "values" -> Table_get t' k = Table_get t k) ->
  default [] (option_map array_values (Table_get t' "values" ≫= as_array)) = values ->
  entry_of t' = with_values (entry_of t) values.
Proof. intros H <-. unfold entry_of, ttl_of, with_values. cbn. by rewrite !H by done. Qed.

Lemma set_ttl_entry t ttl : ttl_ok ttl -> entry_of (set_ttl t ttl) = with_ttl (entry_of t) ttl.
Proof.
  intros H. unfold entry_of, with_ttl, ttl_of, set_ttl. cbn.
  destruct ttl as [n|]; toml; [|done]. by rewrite u32_try_from_N by auto.
Qed.

Lemma value_array_mut_spec t t' r :
  value_array_mut t = (t', r) ->
  entry_of t' = entry_of t /\
  match r with
  | Err e => e = ValuesNotArray
  | Ok b =>
      array_values (borrowed b) = re_values (entry_of t) /\
      forall a, entry_of (write_back b a) = with_values (entry_of t) (array_values a)
  end.
Proof.
  unfold value_array_mut. intros H.
  assert (Hw : forall t0 item a0, Table_get t0 "values" = Some item -> as_array item = Some a0 ->
    forall a, entry_of (Table_write t0 "values" (write_array item a)) = with_values (entry_of t0) (array_values a)).
  { intros t0 item a0 Hg Ha a. apply entry_of_values.
    - intros k Hk. rewrite Table_write_get by (by rewrite Hg). by toml.
    - rewrite Table_write_get by (by rewrite Hg). toml. by rewrite write_array_read by (by rewrite Ha). }
  destruct (Table_get t "values") as [item|] eqn:Hv.
  - rewrite Hv in H. destruct (as_array item) as [a0|] eqn:Ha; injection H as <- <-; split; try done.
    split; [|by eapply Hw]. unfold entry_of. cbn. rewrite Hv. cbn. by rewrite Ha.
  - assert (Hn : entry_of (Table_insert t "values" (value_array Array_new)) = entry_of t).
    { rewrite (entry_of_values t _ []).
      - rewrite <- (with_values_same (entry_of t)) at 2. f_equal. unfold entry_of. cbn. by rewrite Hv.
      - intros k Hk. by toml.
      - toml. unfold array_values. by toml. }
    rewrite Table_insert_get, updated_same, value_array_read in H. injection H as <- <-. split; [done|]. cbn. split.
    + unfold array_values. rewrite Array_new_iter. unfold entry_of. cbn. by rewrite Hv.
    + intros a. rewrite (Hw _ (value_array Array_new) Array_new).
      * by rewrite Hn.
      * by toml.
      * apply value_array_read.
Qed.

(** ** Selecting an entry *)

Definition same_set (name record_type : string) (e : RecordEntry) : bool :=
  bool_decide (normalise_name (re_name e) = name) && bool_decide (re_type e = record_type).

Lemma matches_entry name ty t : ty <> EmptyString -> matches name ty t = same_set name ty (entry_of t).
Proof.
  intros Hne. unfold matches, same_set, name_of. f_equal. unfold entry_of. cbn.
  destruct (Table_get t "type" ≫= as_str) as [s|]; cbn.
  - apply bool_decide_ext. naive_solver.
  - rewrite (bool_decide_eq_false_2 (None = _)) by done. by rewrite bool_decide_eq_false_2.
Qed.

Lemma normalise_type_parses record_type t :
  normalise_type record_type = Ok t -> exists s, record_type_parse s = Some t.
Proof.
  unfold normalise_type. destruct (record_type_parse _) eqn:E; [|done]. intros [= <-]. by eexists.
Qed.

Lemma type_text record_type t : normalise_type record_type = Ok t ->
  str_to_uppercase (record_type_to_string t) = record_type_to_string t /\ record_type_to_string t <> EmptyString.
Proof.
  intros [s Hs]%normalise_type_parses. split; [by eapply record_type_upper|by eapply record_type_nonempty].
Qed.

Lemma new_table_entry record_type name t values ttl :
  normalise_type record_type = Ok t -> ttl_ok ttl -> entry_of (new_table name t values ttl) = mkEntry name (record_type_to_string t) ttl values.
Proof.
  intros [Hup _]%type_text H. unfold new_table.
  set (base := Table_insert (Table_insert Table_new "name" (value_str name)) "type" (value_str (record_type_to_string t))).
  assert (Hb : entry_of base = mkEntry name (record_type_to_string t) None []).
  { unfold entry_of, ttl_of, base. toml. by rewrite Hup. }
  assert (Ht : entry_of (match ttl with Some ttl => Table_insert base "ttl" (value_integer (Z.of_N ttl)) | None => base end) =
               mkEntry name (record_type_to_string t) ttl []).
  { destruct ttl as [n|]; [|done]. change (Table_insert base "ttl" (value_integer (Z.of_N n))) with (set_ttl base (Some n)).
    rewrite set_ttl_entry by done. by rewrite Hb. }
  rewrite (entry_of_values (match ttl with Some ttl => Table_insert base "ttl" (value_integer (Z.of_N ttl)) | None => base end) _ values).
  - by rewrite Ht.
  - intros k Hk. by toml.
  - toml. apply array_values_build.
Qed.
End Facts.
