(* ===== verification/EditorSpec.v ===== *)
(** * EditorSpec: an edit as an operation on a list of record sets

    The contract of the editor, with no document in it; and the proof that each
    step on a document does what the contract says to the record sets it shows. *)

From S2P Require Import Prelude Names Rdata Toml Editor EditorFacts.

(** ** The contract *)

(** [add] on the record set it finds. *)
Definition spec_extend (e : RecordEntry) (values : list string) (ttl : option N) (replace : bool)
    : RecordEntry * Change :=
  if replace then
    if decide (re_values e = values /\ re_ttl e = ttl) then (e, Unchanged)
    else (with_ttl (with_values e values) ttl, Replaced)
  else
    let missing := List.filter (fun v => negb (existsb (String.eqb v) (re_values e))) values in
    let ttl' := match ttl with Some _ => ttl | None => re_ttl e end in
    if decide (missing = [] /\ ttl' = re_ttl e) then (e, Unchanged)
    else (with_ttl (with_values e (re_values e ++ missing)) ttl', Extended).

(** [add]: the first record set of that name and type, or a new one at the end. *)
Definition spec_add (es : list RecordEntry) (name record_type : string) (values : list string)
    (ttl : option N) (replace : bool) : list RecordEntry * Change :=
  match list_find (fun e => Is_true (same_set name record_type e)) es with
  | Some (i, e) => let '(e, change) := spec_extend e values ttl replace in (<[i := e]> es, change)
  | None => (es ++ [mkEntry name record_type ttl values], Created)
  end.

(** [remove] on one record set: what is left of it. *)
Definition spec_remove_entry (selected : RecordEntry -> bool) (values : list string) (e : RecordEntry)
    : option RecordEntry :=
  if negb (selected e) then Some e
  else if decide (values = []) then None
  else
    let kept := List.filter (fun v => negb (existsb (String.eqb v) values)) (re_values e) in
    if decide (length kept = length (re_values e)) then Some e
    else if decide (kept = []) then None
    else Some (with_values e kept).

Definition spec_remove (selected : RecordEntry -> bool) (values : list string) (es : list RecordEntry)
    : list RecordEntry := omap (spec_remove_entry selected values) es.

(** ** What a document shows of its zone *)

Section Views.
Context {TM : Toml} {TL : TomlLaws TM} {HN : HickoryNames} {HR : HickoryRdata HN}
  {RT : RecordTypeText} {RL : RecordTypeTextLaws HN HR RT}.

Definition sees (doc : Table) (k : string) : option Item := zone_of doc ≫= fun zone => TableLike_get zone k.

Lemma origin_sees doc : ConfigEditor_origin doc = sees doc "origin" ≫= as_str.
Proof. unfold ConfigEditor_origin, sees. by destruct (zone_of doc). Qed.

Lemma serial_sees doc :
  serial doc = (sees doc "soa" ≫= as_table_like) ≫= fun soa => (TableLike_get soa "serial" ≫= as_integer) ≫= u32_try_from.
Proof. unfold serial, sees. by destruct (zone_of doc). Qed.

Lemma record_tables_sees doc :
  record_tables doc = default [] (option_map ArrayOfTables_iter (sees doc "records" ≫= as_array_of_tables)).
Proof. unfold record_tables, sees. by destruct (zone_of doc). Qed.

(** Everything a record edit has no business with: the other keys of the zone, and the other
    keys of the document. *)
Definition elsewhere (doc doc' : Table) : Prop := forall k, k <> "zone" -> Table_get doc' k = Table_get doc k.

Definition same_zone (doc doc' : Table) : Prop :=
  (forall k, k <> "records" -> sees doc' k = sees doc k) /\ elsewhere doc doc'.

Lemma same_zone_fields doc doc' : same_zone doc doc' -> ConfigEditor_origin doc' = ConfigEditor_origin doc /\ serial doc' = serial doc.
Proof. intros [H _]. rewrite !origin_sees, !serial_sees. by rewrite !H by done. Qed.

Lemma zone_write_sees doc item zone zone' k :
  Table_get doc "zone" = Some item -> as_table_like item = Some zone ->
  sees (Table_write doc "zone" (write_table_like item zone')) k = TableLike_get zone' k.
Proof.
  intros Hg Hz. unfold sees, zone_of. rewrite Table_write_get by (by rewrite Hg). toml.
  by rewrite write_table_like_read by (by rewrite Hz).
Qed.

Lemma zone_write_elsewhere doc item : is_Some (Table_get doc "zone") -> elsewhere doc (Table_write doc "zone" item).
Proof. intros H k Hk. rewrite Table_write_get by done. by toml. Qed.

(** What a borrow of the zone promises. *)
Definition zone_borrow (doc : Table) (b : Borrow Table TableLike) : Prop :=
  (forall k, TableLike_get (borrowed b) k = sees doc k) /\
  forall zone, (forall k, sees (write_back b zone) k = TableLike_get zone k) /\ elsewhere doc (write_back b zone).

Lemma zone_or_insert_spec doc doc' r :
  zone_or_insert doc = (doc', r) ->
  (forall k, sees doc' k = sees doc k) /\ elsewhere doc doc' /\
  match r with Ok b => zone_borrow doc b | Err e => e = ZoneNotTable end.
Proof.
  unfold zone_or_insert. intros H. destruct (Table_get doc "zone") as [item|] eqn:Hg.
  - rewrite Hg in H. destruct (as_table_like item) as [zone|] eqn:Hz; injection H as <- <-; split_and!; try done.
    split; cbn; [|intros; split; [intros; by eapply zone_write_sees|by apply zone_write_elsewhere]]. intros k. unfold sees, zone_of. rewrite Hg. cbn. by rewrite Hz.
  - rewrite Table_insert_get, updated_same in H.
    destruct (item_table_read Table_new) as (tl & Htl & Hget). rewrite Htl in H. injection H as <- <-.
    assert (Hn : forall k, sees doc k = None) by (intros; unfold sees, zone_of; by rewrite Hg).
    assert (Hs : forall k, TableLike_get tl k = None) by (intros; rewrite Hget; by toml).
    assert (He : elsewhere doc (Table_insert doc "zone" (item_table Table_new))) by (intros k Hk; by toml).
    split; [|split; [done|split; cbn]].
    + intros k. rewrite Hn. unfold sees, zone_of. toml. rewrite Htl. cbn. apply Hs.
    + intros k. by rewrite Hn, Hs.
    + intros zone. split; [intros k; apply (zone_write_sees _ _ tl); [by toml|done]|].
      intros k Hk. rewrite zone_write_elsewhere by (done || by toml). by apply He.
Qed.

(** What a borrow of the records promises. *)
Definition ready (doc : Table) : Prop := is_Some (sees doc "records" ≫= as_array_of_tables).

Definition records_borrow (doc : Table) (b : Borrow Table ArrayOfTables) : Prop :=
  ArrayOfTables_iter (borrowed b) = record_tables doc /\
  forall tables, record_tables (write_back b tables) = ArrayOfTables_iter tables /\
    same_zone doc (write_back b tables) /\ ready (write_back b tables).

Lemma borrow_records_spec doc zone b :
  zone_borrow doc zone -> borrow_records doc zone = Some b -> records_borrow doc b.
Proof.
  intros [Hget Hback]. unfold borrow_records. intros H.
  destruct (TableLike_get (borrowed zone) "records") as [item|] eqn:Hr; cbn in H; [|done].
  destruct (as_array_of_tables item) as [tables|] eqn:Ht; cbn in H; [|done]. injection H as <-.
  unfold records_borrow. cbn. split.
  - rewrite record_tables_sees, <- Hget, Hr. cbn. by rewrite Ht.
  - intros tables'. destruct (Hback (TableLike_write (borrowed zone) "records" (write_array_of_tables item tables'))) as [Hw He].
    unfold ready. rewrite record_tables_sees, Hw, TableLike_write_get by (by rewrite Hr). toml.
    rewrite write_array_of_tables_read by (by rewrite Ht). split_and!; [done|split; [|done]|done].
    intros k Hk. rewrite Hw, TableLike_write_get by (by rewrite Hr). toml. by rewrite Hget.
Qed.

Lemma records_borrow_trans doc doc' b :
  record_tables doc' = record_tables doc -> same_zone doc doc' -> records_borrow doc' b -> records_borrow doc b.
Proof.
  intros Hr [Hz He] [H1 H2]. split; [congruence|]. intros tables. destruct (H2 tables) as (H3 & [H4 H4'] & H5).
  split_and!; [done|split; intros k Hk|done]; [rewrite H4 by done; by apply Hz|rewrite H4' by done; by apply He].
Qed.

Lemma records_mut_spec doc doc' r :
  records_mut doc = (doc', r) ->
  record_tables doc' = record_tables doc /\ same_zone doc doc' /\
  match r with Ok b => records_borrow doc b | Err e => e = ZoneNotTable \/ e = RecordsNotArray end.
Proof.
  unfold records_mut. intros H. destruct (zone_or_insert doc) as [doc1 zone] eqn:Ez.
  destruct (zone_or_insert_spec _ _ _ Ez) as (Hs1 & He1 & Hz).
  assert (Hr1 : record_tables doc1 = record_tables doc) by (by rewrite !record_tables_sees, Hs1).
  assert (Hz1 : same_zone doc doc1) by (split; [intros k _; apply Hs1|done]).
  destruct zone as [zone|e]; [|injection H as <- <-; auto].
  destruct (TableLike_get (borrowed zone) "records") as [item|] eqn:Hg.
  - injection H as <- <-. split_and!; try done.
    destruct (borrow_records doc1 zone) as [b|] eqn:Eb; cbn; [|by right].
    apply (borrow_records_spec doc zone); [done|]. unfold borrow_records in *. exact Eb.
  - injection H as <- <-. destruct Hz as [Hget Hback].
    set (tl := TableLike_insert (borrowed zone) "records" (item_array_of_tables ArrayOfTables_new)).
    destruct (TableLike_insert_get (borrowed zone) "records" (item_array_of_tables ArrayOfTables_new))
      as (i' & Hi & _ & Ha). fold tl in Hi.
    assert (Hr2 : record_tables (write_back zone tl) = record_tables doc).
    { rewrite !record_tables_sees, (proj1 (Hback tl)), Hi, updated_same, <- Hget, Hg. cbn.
      destruct Ha as [-> | ->]; [|done]. toml. done. }
    assert (Hz2 : same_zone doc (write_back zone tl)).
    { split; [|apply Hback]. intros k Hk. rewrite (proj1 (Hback tl)), Hi, updated_other by done. apply Hget. }
    split_and!; try done.
    destruct (borrow_records (write_back zone tl) (mkBorrow tl (write_back zone))) as [b|] eqn:Eb; cbn; [|by right].
    apply (records_borrow_trans _ (write_back zone tl)); [done..|].
    apply (borrow_records_spec _ _ _) in Eb; [done|]. split; cbn; [intros k; by rewrite (proj1 (Hback tl))|].
    intros zone'. destruct (Hback zone') as [Hw He]. split; [done|]. intros k Hk. rewrite He by done.
    by rewrite (proj2 (Hback tl)).
Qed.

(** An array of tables that is there is found. *)
Lemma records_mut_ready doc : ready doc -> is_ok (records_mut doc).2 = true.
Proof.
  unfold ready, sees, zone_of, records_mut, zone_or_insert. intros [tables H].
  destruct (Table_get doc "zone") as [item|] eqn:Hg; cbn in H; [|done]. rewrite Hg.
  destruct (as_table_like item) as [zone|] eqn:Hz; cbn in H; [|done]. cbn.
  destruct (TableLike_get zone "records") as [i|] eqn:Hr; cbn in H; [|done]. cbn.
  unfold borrow_records. cbn. rewrite Hr. cbn. by rewrite H.
Qed.

Lemma existing_records_ready doc : ready doc -> existing_records_mut doc <> None.
Proof.
  unfold ready, sees, zone_of, existing_records_mut, borrow_records. intros [tables H].
  destruct (Table_get doc "zone") as [item|]; cbn in *; [|done].
  destruct (as_table_like item) as [zone|]; cbn in *; [|done].
  destruct (TableLike_get zone "records") as [i|]; cbn in *; [|done]. by rewrite H.
Qed.

Lemma existing_records_mut_spec doc b : existing_records_mut doc = Some b -> records_borrow doc b.
Proof.
  unfold existing_records_mut. intros H.
  destruct (Table_get doc "zone") as [item|] eqn:Hg; cbn in H; [|done].
  destruct (as_table_like item) as [zone|] eqn:Hz; cbn in H; [|done].
  apply borrow_records_spec in H; [done|]. split; cbn; [|intros; split; [intros; by eapply zone_write_sees|by apply zone_write_elsewhere]].
  intros k. unfold sees, zone_of. rewrite Hg. cbn. by rewrite Hz.
Qed.

Lemma existing_records_none doc : existing_records_mut doc = None -> record_tables doc = [].
Proof.
  unfold existing_records_mut, borrow_records, record_tables, zone_of. intros H.
  destruct (Table_get doc "zone") as [item|]; cbn in *; [|done].
  destruct (as_table_like item) as [zone|]; cbn in *; [|done].
  destruct (TableLike_get zone "records") as [i|]; cbn in *; [|done].
  by destruct (as_array_of_tables i).
Qed.

(** ** The steps of the contract *)

(** The values of a table can be edited. *)
Definition editable (table : Table) : bool := is_ok (value_array_mut table).2.

Lemma editable_values table :
  editable table = match Table_get table "values" with Some item => bool_decide (is_Some (as_array item)) | None => true end.
Proof.
  unfold editable, value_array_mut. destruct (Table_get table "values") as [item|] eqn:Hv.
  - rewrite Hv. by destruct (as_array item).
  - by toml.
Qed.

Lemma editable_set_ttl table ttl : editable (set_ttl table ttl) = editable table.
Proof. rewrite !editable_values. destruct ttl; cbn; by toml. Qed.

Lemma editable_write table table' b :
  value_array_mut table = (table', Ok b) -> editable table' = true /\ forall a, editable (write_back b a) = true.
Proof.
  unfold value_array_mut. intros H.
  set (t0 := match Table_get table "values" with Some _ => table | None => _ end) in H.
  destruct (Table_get t0 "values") as [item|] eqn:Hv; [|done].
  destruct (as_array item) as [a0|] eqn:Ha; [|done]. injection H as <- <-. split.
  - rewrite editable_values, Hv, Ha. by rewrite bool_decide_eq_true_2.
  - intros a. rewrite editable_values. cbn. rewrite Table_write_get by (by rewrite Hv). toml.
    rewrite write_array_read by (by rewrite Ha). by rewrite bool_decide_eq_true_2.
Qed.

Lemma editable_new name t values ttl : editable (new_table name t values ttl) = true.
Proof. rewrite editable_values. unfold new_table. toml. by rewrite bool_decide_eq_true_2. Qed.

Lemma extend_editable table values ttl replace :
  (editable table = true -> is_ok (extend table values ttl replace).2 = true) /\
  (is_ok (extend table values ttl replace).2 = true -> editable (extend table values ttl replace).1 = true).
Proof.
  unfold extend. pose proof (editable_write table) as Hw. unfold editable at 1.
  destruct (value_array_mut table) as [t1 [b|e]]; [|done].
  destruct (Hw t1 b eq_refl) as [H1 H2]. cbv zeta.
  destruct replace; repeat case_match; cbn [fst snd is_ok]; split; try done; intros _; by rewrite ?editable_set_ttl, ?H2.
Qed.

Lemma extend_spec table table' values ttl replace r :
  ttl_ok ttl -> extend table values ttl replace = (table', r) ->
  match r with
  | Ok change => spec_extend (entry_of table) values ttl replace = (entry_of table', change)
  | Err e => e = ValuesNotArray /\ entry_of table' = entry_of table
  end.
Proof.
  intros Httl. unfold extend. destruct (value_array_mut table) as [t1 array] eqn:Ev.
  destruct (value_array_mut_spec _ _ _ Ev) as [He Ha].
  destruct array as [b|e]; [|by intros [= <- <-]]. destruct Ha as [Hcur Hback].
  change (ttl_of table) with (re_ttl (entry_of table)). rewrite Hcur. unfold spec_extend.
  destruct replace.
  - destruct (decide (re_values (entry_of table) = values /\ re_ttl (entry_of table) = ttl)) as [[-> ->]|Hn].
    + rewrite !bool_decide_eq_true_2 by done. intros [= <- <-]. by rewrite He.
    + intros H. replace (bool_decide (re_values (entry_of table) = values) && bool_decide (re_ttl (entry_of table) = ttl))
        with false in H by (repeat case_bool_decide; try done; exfalso; tauto).
      injection H as <- <-. by rewrite set_ttl_entry, Hback, array_values_build.
  - cbv zeta. set (missing := List.filter _ values). intros H.
    destruct ttl as [n|].
    + rewrite (bool_decide_eq_true_2 (is_Some _)) in H by done. cbn [andb] in H.
      destruct (decide (missing = [] /\ Some n = re_ttl (entry_of table))) as [[Hm Ht]|Hn].
      * rewrite Hm, <- Ht, !bool_decide_eq_true_2 in H by done. injection H as <- <-. by rewrite He.
      * replace (bool_decide (missing = []) && negb (negb (bool_decide (re_ttl (entry_of table) = Some n)))) with false in H
          by (repeat case_bool_decide; try done; exfalso; apply Hn; split; congruence).
        injection H as <- <-. case_bool_decide as Ht; cbn [negb].
        -- rewrite Hback, array_values_push, Hcur, <- Ht. done.
        -- pose proof (set_ttl_entry (write_back b (fold_left Array_push missing (borrowed b))) (Some n) Httl) as Hs.
           cbn [set_ttl] in Hs. by rewrite Hs, Hback, array_values_push, Hcur.
    + rewrite (bool_decide_eq_false_2 (is_Some None)) in H by (by intros []). cbn [andb negb] in H.
      rewrite andb_true_r in H. case_bool_decide as Hm.
      * rewrite decide_True by done. injection H as <- <-. by rewrite He.
      * rewrite decide_False by (by intros []). injection H as <- <-.
        by rewrite Hback, array_values_push, Hcur.
Qed.
End Views.
