(* ===== verification/EditorTheorems.v ===== *)
(** * EditorTheorems: an edit of the document is the edit of its record sets

    [add] and [remove] refine EditorSpec's contract; what they do twice, and to one
    another, follows from it. *)

From S2P Require Import Prelude Names Rdata Toml Editor EditorFacts EditorSpec.

(** ** The contract alone *)

Lemma omap_id {A} (f : A -> option A) l : omap f l = l <-> Forall (fun x => f x = Some x) l.
Proof.
  assert (Hlen : forall l, (length (omap f l) <= length l)%nat).
  { induction l0 as [|x l0 IH]; cbn; [done|]. destruct (f x); cbn; lia. }
  split.
  - induction l as [|x l IH]; intros H; [constructor|]. cbn in H. destruct (f x) as [y|] eqn:E.
    + injection H as -> H. constructor; [done|auto].
    + exfalso. pose proof (Hlen l) as Hl. rewrite H in Hl. cbn in Hl. lia.
  - induction 1 as [|x l Hx _ IH]; [done|]. cbn. by rewrite Hx, IH.
Qed.

Lemma filter_shorter {A} (p : A -> bool) l :
  length (List.filter p l) = length l -> List.filter p l = l.
Proof.
  induction l as [|x l IH]; [done|]. cbn [List.filter]. destruct (p x); cbn [length].
  - intros H. f_equal. apply IH. lia.
  - intros H. pose proof (filter_length_le p l). lia.
Qed.

Lemma present_all (values present : list string) :
  Forall (fun v => In v present) values ->
  List.filter (fun v => negb (existsb (String.eqb v) present)) values = [].
Proof.
  induction 1 as [|v values Hv _ IH]; [done|]. cbn [List.filter].
  replace (existsb (String.eqb v) present) with true; [done|].
  symmetry. apply existsb_exists. exists v. split; [done|apply String.eqb_refl].
Qed.

Lemma all_present values e values' :
  values' = List.filter (fun v => negb (existsb (String.eqb v) (re_values e))) values ->
  Forall (fun v => In v (re_values e ++ values')) values.
Proof.
  intros ->. apply Forall_forall. intros v Hv. apply in_app_iff.
  destruct (existsb (String.eqb v) (re_values e)) eqn:E.
  - left. apply existsb_exists in E as (w & Hw & Heq). apply String.eqb_eq in Heq. by subst.
  - right. apply filter_In. apply list_elem_of_In in Hv. by rewrite E.
Qed.

(** An edit leaves a record set to which the same edit has nothing to add. *)
Lemma spec_extend_again e values ttl replace e' change :
  spec_extend e values ttl replace = (e', change) ->
  spec_extend e' values ttl replace = (e', Unchanged) /\
  re_name e' = re_name e /\ re_type e' = re_type e.
Proof.
  unfold spec_extend. destruct replace.
  - destruct (decide _) as [H|_]; intros [= <- <-].
    + by rewrite decide_True.
    + by rewrite decide_True.
  - cbv zeta. destruct (decide _) as [H|_]; intros [= <- <-].
    + by rewrite decide_True.
    + rewrite decide_True; [done|]. cbn. split; [|by destruct ttl].
      by apply present_all, (all_present values e).
Qed.

Lemma list_find_here {A} (p : A -> bool) l1 x l2 :
  Forall (fun y => p y = false) l1 -> p x = true ->
  list_find (fun y => Is_true (p y)) (l1 ++ x :: l2) = Some (length l1, x).
Proof.
  intros Hl Hx. apply list_find_Some. split_and!.
  - by rewrite list_lookup_middle.
  - by rewrite Hx.
  - intros j y Hj Hlt. rewrite lookup_app_l in Hj by done. rewrite Forall_forall in Hl.
    rewrite Hl; [by intros []|]. by eapply list_elem_of_lookup_2.
Qed.

Lemma list_find_split {A} (p : A -> bool) l i x :
  list_find (fun y => Is_true (p y)) l = Some (i, x) ->
  exists l1 l2, l = l1 ++ x :: l2 /\ length l1 = i /\ Forall (fun y => p y = false) l1 /\ p x = true.
Proof.
  intros H. apply list_find_Some in H as (Hi & Hx & Hbefore).
  exists (take i l), (drop (S i) l). split_and!.
  - symmetry. by apply take_drop_middle.
  - rewrite length_take. apply lookup_lt_Some in Hi. lia.
  - apply Forall_forall. intros y Hy. apply list_elem_of_lookup in Hy as [j Hj].
    apply lookup_take_Some in Hj as [Hj Hlt]. specialize (Hbefore j y Hj Hlt).
    by destruct (p y).
  - by destruct (p x).
Qed.

Lemma list_find_nowhere {A} (p : A -> bool) l :
  list_find (fun y => Is_true (p y)) l = None -> Forall (fun y => p y = false) l.
Proof.
  intros H. apply list_find_None in H. eapply Forall_impl; [exact H|]. intros y Hy. cbn in Hy.
  by destruct (p y).
Qed.

(** What an [add] leaves behind, read as a list with the record set in it. *)
Lemma spec_add_shape es name ty values ttl replace es' change :
  normalise_name name = name ->
  spec_add es name ty values ttl replace = (es', change) ->
  exists l1 e l2, es' = l1 ++ e :: l2 /\ Forall (fun y => same_set name ty y = false) l1 /\
    same_set name ty e = true /\ spec_extend e values ttl replace = (e, Unchanged) /\
    (change = Created -> l2 = [] /\ es = l1).
Proof.
  intros Hn. unfold spec_add. destruct (list_find _ es) as [[i e]|] eqn:E.
  - apply list_find_split in E as (l1 & l2 & -> & <- & Hl & Hs).
    destruct (spec_extend e values ttl replace) as [e' c] eqn:Ee. intros [= <- <-].
    destruct (spec_extend_again _ _ _ _ _ _ Ee) as (Hagain & Hname & Hty).
    exists l1, e', l2. split_and!; try done.
    + by rewrite insert_app_r_alt, Nat.sub_diag by lia.
    + unfold same_set in *. by rewrite Hname, Hty.
    + intros ->. unfold spec_extend in Ee. repeat destruct_match; by simplify_eq.
  - intros [= <- <-]. exists es, (mkEntry name ty ttl values), []. split_and!; try done.
    + by apply list_find_nowhere.
    + unfold same_set. cbn. by rewrite Hn, !bool_decide_eq_true_2.
    + unfold spec_extend. cbn. destruct replace; [by rewrite decide_True|].
      rewrite decide_True; [done|]. split; [|by destruct ttl].
      apply present_all, Forall_forall. intros v Hv. by apply list_elem_of_In.
Qed.

Lemma spec_add_again es name ty values ttl replace es' change :
  normalise_name name = name ->
  spec_add es name ty values ttl replace = (es', change) ->
  spec_add es' name ty values ttl replace = (es', Unchanged).
Proof.
  intros Hn H. destruct (spec_add_shape _ _ _ _ _ _ _ _ Hn H) as (l1 & e & l2 & -> & Hl & Hs & He & _).
  unfold spec_add. rewrite (list_find_here _ l1 e l2 Hl Hs), He.
  by rewrite insert_app_r_alt, Nat.sub_diag by lia.
Qed.

Lemma spec_remove_created es name ty values ttl replace es' :
  normalise_name name = name ->
  spec_add es name ty values ttl replace = (es', Created) ->
  spec_remove (same_set name ty) [] es' = es /\ es' <> es.
Proof.
  intros Hn H. destruct (spec_add_shape _ _ _ _ _ _ _ _ Hn H) as (l1 & e & l2 & -> & Hl & Hs & _ & Hc).
  destruct (Hc eq_refl) as [-> ->]. split.
  - unfold spec_remove. rewrite omap_app. cbn. unfold spec_remove_entry at 2. rewrite Hs. cbn.
    rewrite app_nil_r. apply omap_id. eapply Forall_impl; [exact Hl|].
    intros y Hy. unfold spec_remove_entry. by rewrite Hy.
  - intros He. apply (f_equal length) in He. rewrite length_app in He. cbn in He. lia.
Qed.

(** ** Adding *)

Section Theorems.
Context {TM : Toml} {TL : TomlLaws TM} {HN : HickoryNames} {HR : HickoryRdata HN} {HL : HickoryRdataLaws HN HR}
  {RT : RecordTypeText} {RL : RecordTypeTextLaws HN HR RT}.

(** Every value is one the zone's own gate lets through. *)
Definition accepted (record_type : RecordType) (owner : string) (values : list string) : Prop :=
  Forall (fun v => exists rdata, parse_value record_type owner v = Some (Ok rdata)) values.

Lemma validate_values_spec t owner values :
  exists r, validate_values t owner values = Some r /\ (r = Ok tt <-> accepted t owner values).
Proof.
  induction values as [|v values (r & IH & Hr)]; cbn [validate_values].
  - exists (Ok tt). split; [done|]. split; [intros _; constructor|done].
  - unfold validate_value. destruct (parse_value t owner v) as [[rdata|e]|] eqn:E.
    + exists r. split; [done|]. rewrite Hr. split.
      * intros H. constructor; [by exists rdata|done].
      * by inversion 1.
    + eexists. split; [done|]. split; [done|]. inversion 1 as [|? ? (rdata & Hv) _]. congruence.
    + by apply parse_value_returns in E.
Qed.

Lemma list_find_entries name ty tables :
  ty <> EmptyString ->
  prod_map id entry_of <$> list_find (fun t => Is_true (matches name ty t)) tables =
  list_find (fun e => Is_true (same_set name ty e)) (map entry_of tables).
Proof.
  intros Hne. change (map entry_of tables) with (entry_of <$> tables). rewrite list_find_fmap. f_equal.
  apply list_find_ext. intros t. cbn. by rewrite matches_entry.
Qed.

(** The first record set of that name and type can be edited. *)
Definition set_editable (doc : Table) (name : string) (t : RecordType) : Prop :=
  forall i table, list_find (fun table => Is_true (matches name (record_type_to_string t) table)) (record_tables doc) =
    Some (i, table) -> editable table = true.

(** One [add], whatever becomes of it. *)
Lemma add_spec doc name record_type values ttl replace :
  ttl_ok ttl ->
  exists doc' r, add doc name record_type values ttl replace = Some (doc', r) /\
  same_zone doc doc' /\
  match r with
  | Ok change => exists t,
      normalise_type record_type = Ok t /\ values <> [] /\ accepted t (normalise_name name) values /\
      spec_add (records doc) (normalise_name name) (record_type_to_string t) values ttl replace = (records doc', change) /\
      ready doc' /\ set_editable doc' (normalise_name name) t
  | Err _ =>
      records doc' = records doc /\
      forall t, normalise_type record_type = Ok t -> values <> [] -> accepted t (normalise_name name) values ->
        ready doc -> ~ set_editable doc (normalise_name name) t
  end.
Proof.
  intros Httl. unfold add. destruct (normalise_type record_type) as [t|e] eqn:Et; [|by exists doc, (Err e)].
  destruct (type_text _ _ Et) as [_ Hne].
  case_bool_decide as Hv; [by exists doc, (Err NoValuesGiven)|].
  destruct (validate_values_spec t (normalise_name name) values) as (r & -> & Hr).
  destruct r as [[]|e]; [|exists doc, (Err e); split_and!; try done; intros t' [= <-] _ Ha; by apply Hr in Ha].
  destruct (records_mut doc) as [doc1 tables] eqn:Em.
  destruct (records_mut_spec _ _ _ Em) as (Hrec & Hz & Hb).
  destruct tables as [b|e]; cycle 1.
  { exists doc1, (Err e). split_and!; try done; [unfold records; by rewrite Hrec|].
    intros t' _ _ _ Hready. apply records_mut_ready in Hready. by rewrite Em in Hready. }
  destruct Hb as [Hcur Hback].
  pose proof (list_find_entries (normalise_name name) (record_type_to_string t)
                (record_tables doc) Hne) as Hf.
  rewrite Hcur. fold (records doc) in Hf.
  destruct (list_find _ (record_tables doc)) as [[i table]|] eqn:El; cbn in Hf.
  - destruct (extend table values ttl replace) as [table' c] eqn:Ee.
    destruct (Hback (ArrayOfTables_write (borrowed b) i table')) as (Hw & Hz' & Hready).
    rewrite ArrayOfTables_write_iter, Hcur in Hw.
    assert (Hi : records (write_back b (ArrayOfTables_write (borrowed b) i table')) = <[i := entry_of table']> (records doc)).
    { unfold records. rewrite Hw. apply (list_fmap_insert entry_of). }
    pose proof (extend_spec _ _ _ _ _ _ Httl Ee) as Hx. pose proof (extend_editable table values ttl replace) as [Hok Hed].
    rewrite Ee in Hok, Hed. cbn [fst snd] in Hok, Hed.
    eexists _, c. split; [done|]. split; [done|]. destruct c as [change|e].
    + exists t. split_and!; try done; [by apply Hr|unfold spec_add; rewrite <- Hf, Hx; by rewrite Hi|].
      apply list_find_split in El as (l1 & l2 & El & <- & Hl & Hm).
      rewrite El, insert_app_r_alt, Nat.sub_diag in Hw by lia. cbn in Hw.
      intros j t' Hj. rewrite Hw, (list_find_here _ l1 table' l2) in Hj; [|done|].
      * injection Hj as <- <-. by apply Hed.
      * rewrite matches_entry in * by done.
        destruct (spec_extend_again _ _ _ _ _ _ Hx) as (_ & Hn & Hty). unfold same_set. by rewrite Hn, Hty.
    + destruct Hx as [_ Hx]. split.
      * rewrite Hi, Hx. apply list_insert_id. unfold records.
        apply list_find_Some in El as [El _]. rewrite (list_lookup_fmap entry_of). by rewrite El.
      * intros t' [= <-] _ _ _ Hs. specialize (Hs _ _ El). by specialize (Hok Hs).
  - destruct (Hback (ArrayOfTables_push (borrowed b) (new_table (normalise_name name) t values ttl))) as (Hw & Hz' & Hready).
    rewrite ArrayOfTables_push_iter, Hcur in Hw.
    eexists _, (Ok Created). split; [done|]. split; [done|]. exists t. split_and!; try done; [by apply Hr| |].
    + unfold spec_add, records. rewrite Hw, map_app. fold (records doc). rewrite <- Hf. cbn. by rewrite (new_table_entry record_type).
    + apply list_find_nowhere in El. intros j t' Hj. rewrite Hw in Hj. rewrite (list_find_here _ _ _ []) in Hj; [|done|].
      * injection Hj as <- <-. apply editable_new.
      * rewrite matches_entry by done. rewrite (new_table_entry record_type) by done.
        unfold same_set. cbn. by rewrite normalise_name_idem, !bool_decide_eq_true_2.
Qed.

(** ** Removing *)

(** The tables a scan leaves, each with whether it is to be kept. *)
Definition drop_indices (from : nat) (out : list (Table * bool)) : list nat :=
  omap (fun p : nat * (Table * bool) => if p.2.2 then None else Some p.1) (zip (seq from (length out)) out).

Lemma drop_indices_cons from t keep out :
  drop_indices from ((t, keep) :: out) = (if keep then [] else [from]) ++ drop_indices (S from) out.
Proof. unfold drop_indices. cbn. by destruct keep. Qed.

Lemma drop_all pre out tables :
  ArrayOfTables_iter tables = pre ++ map fst out ->
  ArrayOfTables_iter (fold_left ArrayOfTables_remove (reverse (drop_indices (length pre) out)) tables) =
    pre ++ map fst (List.filter snd out).
Proof.
  revert pre. induction out as [|[t keep] out IH]; intros pre H; [done|].
  rewrite drop_indices_cons, reverse_app, fold_left_app.
  specialize (IH (pre ++ [t])). rewrite length_app, Nat.add_1_r, <- !app_assoc in IH. cbn [app] in IH. specialize (IH H).
  destruct keep; cbn [reverse fold_left List.filter snd map fst].
  - exact IH.
  - change (reverse [length pre]) with [length pre]. cbn [fold_left].
    rewrite ArrayOfTables_remove_iter, IH by (rewrite IH, !length_app; cbn; lia).
    by rewrite delete_middle.
Qed.

Section Scan.
Context (selected : Table -> bool) (selected' : RecordEntry -> bool) (values : list string).
Hypothesis selected_entry : forall t, selected t = selected' (entry_of t).

(** What the scan does to one table. *)
Definition scanned (t : Table) (out : Table * bool) : Prop :=
  spec_remove_entry selected' values (entry_of t) = if out.2 then Some (entry_of out.1) else None.

Definition altered (t : Table) : bool :=
  negb (bool_decide (spec_remove_entry selected' values (entry_of t) = Some (entry_of t))).

Lemma scanned_table t tables idx pre todo drops changed r :
  ArrayOfTables_iter tables = pre ++ t :: todo -> length pre = idx ->
  remove_scan selected values idx (t :: todo) tables drops changed = r ->
  is_ok r.2 = true ->
  exists t' keep tables',
    scanned t (t', keep) /\ ArrayOfTables_iter tables' = pre ++ t' :: todo /\
    remove_scan selected values (S idx) todo tables' (drops ++ if keep then [] else [idx]) (changed || altered t) = r.
Proof.
  intros Hi Hl. cbn [remove_scan]. unfold scanned, altered, spec_remove_entry. rewrite <- !selected_entry.
  assert (Hw : forall t', ArrayOfTables_iter (ArrayOfTables_write tables idx t') = pre ++ t' :: todo).
  { intros t'. rewrite ArrayOfTables_write_iter, Hi, insert_app_r_alt by lia. by rewrite Hl, Nat.sub_diag. }
  destruct (selected t); cbn [negb].
  2: { intros H _. exists t, true, tables. rewrite bool_decide_eq_true_2, app_nil_r, orb_false_r by done. done. }
  destruct (decide (values = [])) as [Hv|Hv].
  { rewrite bool_decide_eq_true_2 by done. intros H _. exists t, false, tables.
    rewrite bool_decide_eq_false_2, orb_true_r by done. done. }
  rewrite (bool_decide_eq_false_2 (values = [])) by done.
  destruct (value_array_mut t) as [t1 array] eqn:Ev. destruct (value_array_mut_spec _ _ _ Ev) as [He Ha].
  destruct array as [b|e]; [|by intros <-]. destruct Ha as [-> Hback]. cbv zeta.
  set (kept := List.filter _ (re_values (entry_of t))).
  destruct (decide (length kept = length (re_values (entry_of t)))) as [Hk|Hk].
  { rewrite Hk, Nat.eqb_refl. cbn [negb]. intros H _. exists t1, true, (ArrayOfTables_write tables idx t1).
    rewrite bool_decide_eq_true_2, app_nil_r, orb_false_r by done. cbn. by rewrite He. }
  rewrite (proj2 (Nat.eqb_neq _ _) Hk). cbn [negb].
  destruct (decide (kept = [])) as [Hn|Hn].
  { rewrite bool_decide_eq_true_2 by done. intros H _. exists t1, false, (ArrayOfTables_write tables idx t1).
    rewrite bool_decide_eq_false_2, orb_true_r by done. done. }
  rewrite (bool_decide_eq_false_2 (kept = [])) by done. intros H _.
  exists (write_back b (build_array kept)), true, (ArrayOfTables_write tables idx (write_back b (build_array kept))).
  rewrite bool_decide_eq_false_2, orb_true_r, app_nil_r.
  - cbn [fst snd]. by rewrite Hback, array_values_build.
  - intros Heq. apply Hk. injection Heq as Heq. rewrite Heq. done.
Qed.

Lemma remove_scan_spec todo tables idx pre drops changed left drops' changed' :
  ArrayOfTables_iter tables = pre ++ todo -> length pre = idx ->
  remove_scan selected values idx todo tables drops changed = (left, Ok (drops', changed')) ->
  exists out, Forall2 scanned todo out /\ ArrayOfTables_iter left = pre ++ map fst out /\
    drops' = drops ++ drop_indices idx out /\ changed' = changed || existsb altered todo.
Proof.
  revert tables idx pre drops changed. induction todo as [|t todo IH]; intros tables idx pre drops changed Hi Hl H.
  - cbn in H. injection H as <- <- <-. exists []. split_and!; [constructor|done|by rewrite app_nil_r|by rewrite orb_false_r].
  - destruct (scanned_table t tables idx pre todo drops changed _ Hi Hl H eq_refl) as (t' & keep & tables' & Hs & Hi' & H').
    destruct (IH tables' (S idx) (pre ++ [t']) _ _ ltac:(by rewrite <- app_assoc)
                ltac:(rewrite length_app; cbn; lia) H') as (out & Hf & Hleft & Hd & Hc).
    exists ((t', keep) :: out). split_and!.
    + by constructor.
    + by rewrite Hleft, <- app_assoc.
    + by rewrite Hd, drop_indices_cons, app_assoc.
    + by rewrite Hc, <- orb_assoc.
Qed.

Lemma scanned_records todo out :
  Forall2 scanned todo out ->
  map entry_of (map fst (List.filter snd out)) = spec_remove selected' values (map entry_of todo).
Proof.
  unfold spec_remove. induction 1 as [|t [t' keep] todo out Hs _ IH]; [done|].
  cbn [map omap list_omap]. unfold scanned in Hs. cbn in Hs. rewrite Hs. cbn. destruct keep; cbn; by rewrite IH.
Qed.

Lemma altered_none todo :
  existsb altered todo = false <-> spec_remove selected' values (map entry_of todo) = map entry_of todo.
Proof.
  unfold spec_remove. rewrite omap_id. induction todo as [|t todo IH]; cbn.
  - split; [constructor|done].
  - rewrite orb_false_iff, IH, Forall_cons. unfold altered. rewrite negb_false_iff, bool_decide_eq_true. done.
Qed.
End Scan.

(** The record sets a [remove] is about. *)
Definition remove_selects (name : string) (record_type : option RecordType) (e : RecordEntry) : bool :=
  match record_type with
  | Some t => same_set (normalise_name name) (record_type_to_string t) e
  | None => bool_decide (normalise_name (re_name e) = normalise_name name)
  end.

Lemma remove_spec doc name record_type values doc' change :
  remove doc name record_type values = (doc', Ok change) ->
  exists wanted, (match record_type with None => wanted = None | Some s => exists t, normalise_type s = Ok t /\ wanted = Some t end) /\
  records doc' = spec_remove (remove_selects name wanted) values (records doc) /\
  change = (if decide (records doc' = records doc) then Unchanged else Removed) /\ same_zone doc doc'.
Proof.
  unfold remove. intros H.
  destruct (match record_type with None => Ok None | Some s => rbind (normalise_type s) (fun t => Ok (Some t)) end)
    as [wanted|e] eqn:Ew; [|done].
  exists wanted. split.
  { destruct record_type as [s|]; [|congruence]. destruct (normalise_type s) as [t|]; cbn in Ew; [|done].
    exists t. split; congruence. }
  destruct (existing_records_mut doc) as [b|] eqn:Eb; cycle 1.
  { injection H as <- <-. pose proof (existing_records_none doc Eb) as Hn. unfold records. rewrite Hn. cbn.
    by rewrite decide_True. }
  destruct (existing_records_mut_spec doc b Eb) as [Hcur Hback].
  destruct (remove_scan _ _ _ _ _ _ _) as [left [[drops changed]|e]] eqn:Es; [|done]. injection H as <- <-.
  eapply (remove_scan_spec _ (remove_selects name wanted)) with (pre := []) in Es; [|..|done|done].
  2: { intros t. destruct wanted as [ty|]; cbn; [|done]. apply matches_entry. destruct record_type as [s|]; [|done].
       destruct (normalise_type s) as [ty'|] eqn:Ety; cbn in Ew; [|done]. injection Ew as <-. by apply (type_text s). }
  destruct Es as (out & Hf & Hleft & -> & ->). cbn [app orb] in *.
  destruct (Hback (fold_left ArrayOfTables_remove (reverse (drop_indices 0 out)) left)) as (Hw & Hz & _).
  pose proof (drop_all [] out left Hleft) as Hd. cbn [length app] in Hd.
  assert (Hr : records (write_back b (fold_left ArrayOfTables_remove (reverse (drop_indices 0 out)) left)) =
               spec_remove (remove_selects name wanted) values (records doc)).
  { unfold records. rewrite Hw, Hd, (scanned_records _ _ _ _ Hf). by rewrite Hcur. }
  split_and!; try done. pose proof (altered_none (remove_selects name wanted) values (record_tables doc)) as Ha.
  rewrite Hcur. rewrite Hr. unfold records. destruct (existsb _ _); destruct (decide _) as [Hs|Hs]; try done.
  - apply Ha in Hs. done.
  - exfalso. apply Hs. by apply Ha.
Qed.

(** Dropping whole record sets cannot fail. *)
Lemma remove_scan_whole selected todo idx tables drops changed :
  is_ok (remove_scan selected [] idx todo tables drops changed).2 = true.
Proof.
  revert idx tables drops changed. induction todo as [|t todo IH]; intros; cbn [remove_scan]; [done|].
  destruct (selected t); cbn [negb]; [|apply IH]. rewrite bool_decide_eq_true_2 by done. apply IH.
Qed.

Lemma remove_whole_ok doc name record_type t :
  ready doc -> normalise_type record_type = Ok t -> is_ok (remove doc name (Some record_type) []).2 = true.
Proof.
  intros Hr Ht. unfold remove. rewrite Ht. cbn [rbind].
  destruct (existing_records_mut doc) as [b|] eqn:Eb; [|by apply existing_records_ready in Eb].
  pose proof (remove_scan_whole (matches (normalise_name name) (record_type_to_string t))
    (ArrayOfTables_iter (borrowed b)) 0 (borrowed b) [] false) as Hok.
  by destruct (remove_scan _ _ _ _ _ _ _) as [left [[drops changed]|e]].
Qed.

(** ** The serial *)

Lemma set_serial_spec doc n doc' r :
  (n < 2 ^ 32)%N -> set_serial doc n = (doc', r) ->
  (forall k, k <> "soa" -> sees doc' k = sees doc k) /\
  match r with
  | Ok _ => serial doc' = Some n
  | Err e => serial doc' = serial doc /\ (e = ZoneNotTable \/ e = SoaNotTable)
  end.
Proof.
  intros Hn. unfold set_serial. destruct (zone_or_insert doc) as [doc1 zone] eqn:Ez.
  destruct (zone_or_insert_spec _ _ _ Ez) as (Hs1 & _ & Hz).
  destruct zone as [zone|e]; [|intros [= <- <-]; split; [auto|]; rewrite !serial_sees, Hs1; auto].
  destruct Hz as [Hget Hback']. assert (Hback : forall z k, sees (write_back zone z) k = TableLike_get z k) by (intros z; apply Hback').
  set (tl := TableLike_or_insert (borrowed zone) "soa" (item_table Table_new)).
  assert (Htl : forall k, k <> "soa" -> TableLike_get tl k = sees doc k).
  { intros k Hk. unfold tl. rewrite TableLike_or_insert_get, updated_other by done. apply Hget. }
  assert (Hsoa : TableLike_get tl "soa" = Some (default (item_table Table_new) (sees doc "soa"))).
  { unfold tl. rewrite TableLike_or_insert_get, updated_same, Hget. done. }
  rewrite Hsoa. destruct (as_table_like _) as [soa|] eqn:Es; intros [= <- <-]; split.
  - intros k Hk. rewrite Hback, TableLike_write_get by (by rewrite Hsoa). toml. by apply Htl.
  - rewrite serial_sees, Hback, TableLike_write_get by (by rewrite Hsoa). toml.
    rewrite write_table_like_read by (by rewrite Es). cbn.
    destruct (TableLike_insert_get soa "serial" (value_integer (Z.of_N n))) as (i' & Hi & Hint & _).
    rewrite Hi, updated_same. cbn. rewrite Hint, value_integer_read. cbn. by apply u32_try_from_N.
  - intros k Hk. rewrite Hback. by apply Htl.
  - rewrite !serial_sees, Hback, Hsoa. cbn. rewrite Es. cbn. split; [|by right].
    destruct (sees doc "soa") as [item|] eqn:E; cbn in *; [by rewrite Es|done].
Qed.

(** ** The theorems *)

(** C31: [add], on any document.  It never ends the process; every key of the zone but
    [records], and every key of the document but [zone], reads as before, the origin and
    the serial among them; where it fails the record sets are as they were; and where it
    succeeds the type was known, every value passes the zone's own gate, and the record
    sets are those of the contract: the first set of that normalised name and type is
    replaced, or extended by the given values that it did not have before the call, or a
    new set of the values as given stands at the end.  A value given twice in one call
    is therefore added twice.  The TTL given is one of 32 bits. *)
Theorem add_edits_one_set doc name record_type values ttl replace :
  ttl_ok ttl ->
  exists doc' r, add doc name record_type values ttl replace = Some (doc', r) /\
  (forall k, k <> "records" -> sees doc' k = sees doc k) /\ (forall k, k <> "zone" -> Table_get doc' k = Table_get doc k) /\
  ConfigEditor_origin doc' = ConfigEditor_origin doc /\ serial doc' = serial doc /\
  match r with
  | Ok change => exists t,
      normalise_type record_type = Ok t /\ values <> [] /\
      (forall v, In v values -> exists rdata, parse_value t (normalise_name name) v = Some (Ok rdata)) /\
      spec_add (records doc) (normalise_name name) (record_type_to_string t) values ttl replace = (records doc', change)
  | Err _ => records doc' = records doc
  end.
Proof.
  intros Httl. destruct (add_spec doc name record_type values ttl replace Httl) as (doc' & r & Ha & Hz & Hr).
  destruct (same_zone_fields _ _ Hz) as [Ho Hs]. exists doc', r. split_and!; try done; [apply Hz|apply Hz|].
  destruct r as [change|e]; [|by destruct Hr]. destruct Hr as (t & H1 & H2 & H3 & H4 & _).
  exists t. split_and!; try done. intros v Hv. unfold accepted in H3. rewrite Forall_forall in H3.
  by apply H3, list_elem_of_In.
Qed.

(** An [add] that succeeded, made again, changes nothing and says so. *)
Theorem add_is_idempotent doc name record_type values ttl replace doc' change :
  ttl_ok ttl -> add doc name record_type values ttl replace = Some (doc', Ok change) ->
  exists doc'', add doc' name record_type values ttl replace = Some (doc'', Ok Unchanged) /\
    records doc'' = records doc' /\ ConfigEditor_origin doc'' = ConfigEditor_origin doc' /\ serial doc'' = serial doc'.
Proof.
  intros Httl Ha. destruct (add_spec doc name record_type values ttl replace Httl) as (d1 & r1 & Ha1 & _ & Hr1).
  rewrite Ha in Ha1. injection Ha1 as <- <-. destruct Hr1 as (t & Ht & Hv & Hacc & Hspec & Hready & Hed).
  destruct (add_spec doc' name record_type values ttl replace Httl) as (d2 & r2 & Ha2 & Hz & Hr2).
  exists d2. destruct r2 as [c|e]; [|by destruct Hr2 as [_ Hr2]; destruct (Hr2 t Ht Hv Hacc Hready)].
  destruct Hr2 as (t2 & Ht2 & _ & _ & Hspec2 & _). rewrite Ht in Ht2. injection Ht2 as <-.
  rewrite (spec_add_again _ _ _ _ _ _ _ _ (normalise_name_idem name) Hspec) in Hspec2.
  injection Hspec2 as Hrec <-. split_and!; [done|done|by apply same_zone_fields..].
Qed.

(** C32: [remove] of a name, of one type or all, whole sets or some values.  What it
    selects loses those values, a set left without any disappears, everything else
    and the order stay; it reports that nothing changed exactly when nothing did. *)
Theorem remove_is_exact doc name record_type values doc' change :
  remove doc name record_type values = (doc', Ok change) ->
  exists wanted, (match record_type with None => wanted = None | Some s => exists t, normalise_type s = Ok t /\ wanted = Some t end) /\
  records doc' = omap (spec_remove_entry (remove_selects name wanted) values) (records doc) /\
  (change = Unchanged <-> records doc' = records doc) /\ (change = Unchanged \/ change = Removed) /\
  ConfigEditor_origin doc' = ConfigEditor_origin doc /\ serial doc' = serial doc.
Proof.
  intros H. destruct (remove_spec _ _ _ _ _ _ H) as (wanted & Hw & Hr & Hc & Hz).
  destruct (same_zone_fields _ _ Hz) as [Ho Hs]. exists wanted. split_and!; try done.
  - rewrite Hc. by destruct (decide _).
  - rewrite Hc. destruct (decide _); auto.
Qed.

(** Removing a record set an [add] has created gives back the record sets from
    before, and reports a removal. *)
Theorem remove_undoes_add doc name record_type values ttl replace doc' :
  ttl_ok ttl -> add doc name record_type values ttl replace = Some (doc', Ok Created) ->
  exists doc'', remove doc' name (Some record_type) [] = (doc'', Ok Removed) /\ records doc'' = records doc.
Proof.
  intros Httl Ha. destruct (add_spec doc name record_type values ttl replace Httl) as (d1 & r1 & Ha1 & _ & Hr1).
  rewrite Ha in Ha1. injection Ha1 as <- <-. destruct Hr1 as (t & Ht & _ & _ & Hspec & Hready & _).
  destruct (spec_remove_created _ _ _ _ _ _ _ (normalise_name_idem name) Hspec) as [Hback Hne].
  pose proof (remove_whole_ok doc' name record_type t Hready Ht) as Hok.
  destruct (remove doc' name (Some record_type) []) as [doc'' [c|e]] eqn:Er; [|done].
  destruct (remove_spec _ _ _ _ _ _ Er) as (wanted & (t' & Ht' & ->) & Hr & Hc & _).
  rewrite Ht in Ht'. injection Ht' as <-. exists doc''.
  assert (Hrec : records doc'' = records doc) by (rewrite Hr; exact Hback).
  split; [|done]. rewrite Hc, decide_False; [done|]. congruence.
Qed.
End Theorems.
