(* ===== verification/PlainToml.v ===== *)
(** * PlainToml: a concrete reading of the document interface

    A small implementation of [Toml], [TomlSame] and [RecordTypeText] that satisfies
    their laws.  The witnesses evaluate the editor on it; no theorem about the
    program depends on it. *)

From S2P Require Import Prelude Names Rdata Plain Toml Editor.

(** ** Items as trees

    A leaf is a string or a number; a node is an array, a table of [pair]s, or an
    array of tables. *)
Abbreviation Tree := (gen_tree (string + Z)).

Definition plain_table : Type := list (string * Tree).

Definition pair_tree (p : string * Tree) : Tree := GenNode 3 [GenLeaf (inl p.1); p.2].
Definition table_tree (t : plain_table) : Tree := GenNode 1 (map pair_tree t).

Definition tree_pair (t : Tree) : option (string * Tree) :=
  match t with GenNode 3 [GenLeaf (inl k); i] => Some (k, i) | _ => None end.
Definition tree_table (t : Tree) : option plain_table :=
  match t with GenNode 1 l => mapM tree_pair l | _ => None end.

Lemma tree_table_tree t : tree_table (table_tree t) = Some t.
Proof.
  cbn. induction t as [|[k i] t IH]; [done|]. cbn. by rewrite IH.
Qed.

Definition tree_tables (t : Tree) : option (list plain_table) :=
  match t with GenNode 2 l => mapM tree_table l | _ => None end.

Lemma tree_tables_tree l : tree_tables (GenNode 2 (map table_tree l)) = Some l.
Proof.
  cbn [tree_tables]. induction l as [|t l IH]; [done|]. cbn [map mapM]. rewrite tree_table_tree. cbn. by rewrite IH.
Qed.

(** ** Tables as association lists *)

Fixpoint plain_get (t : plain_table) (k : string) : option Tree :=
  match t with
  | [] => None
  | (k', i) :: t => if String.eqb k k' then Some i else plain_get t k
  end.

Fixpoint plain_set (t : plain_table) (k : string) (i : Tree) : plain_table :=
  match t with
  | [] => [(k, i)]
  | (k', i') :: t => if String.eqb k k' then (k', i) :: t else (k', i') :: plain_set t k i
  end.

Definition plain_remove (t : plain_table) (k : string) : plain_table :=
  List.filter (fun p => negb (String.eqb k p.1)) t.

Lemma plain_get_set t k i k' : plain_get (plain_set t k i) k' = updated (plain_get t) k (Some i) k'.
Proof.
  unfold updated. induction t as [|[k1 i1] t IH]; cbn.
  - destruct (String.eqb_spec k' k), (decide (k' = k)); congruence.
  - destruct (String.eqb_spec k k1) as [->|Hk]; cbn.
    + destruct (String.eqb_spec k' k1), (decide (k' = k1)); congruence.
    + rewrite IH. destruct (String.eqb_spec k' k1), (decide (k' = k)); congruence.
Qed.

Lemma plain_get_remove t k k' : plain_get (plain_remove t k) k' = updated (plain_get t) k None k'.
Proof.
  unfold updated, plain_remove. induction t as [|[k1 i1] t IH]; cbn; [by destruct (decide _)|].
  destruct (String.eqb_spec k k1) as [->|Hk]; cbn; rewrite IH;
    destruct (decide (k' = _)), (String.eqb_spec k' k1); congruence.
Qed.

(** ** Text: any injective one will do *)

Fixpoint bits_string (p : positive) : string :=
  match p with
  | xH => EmptyString
  | xO p => String Ascii.zero (bits_string p)
  | xI p => String Ascii.one (bits_string p)
  end.

Fixpoint string_bits (s : string) : positive :=
  match s with
  | EmptyString => xH
  | String c s => if Ascii.eqb c Ascii.one then xI (string_bits s) else xO (string_bits s)
  end.

Lemma string_bits_string p : string_bits (bits_string p) = p.
Proof. induction p as [p IH|p IH|]; cbn; by rewrite ?IH. Qed.

#[global] Instance plain_toml : Toml := {|
  Table := plain_table;
  TableLike := plain_table;
  Item := Tree;
  Array := list Tree;
  ArrayOfTables := list plain_table;
  Table_new := [];
  Table_get := plain_get;
  Table_insert := plain_set;
  Table_write := plain_set;
  Table_remove := plain_remove;
  TableLike_get := plain_get;
  TableLike_insert := plain_set;
  TableLike_write := plain_set;
  TableLike_or_insert t k i := match plain_get t k with Some _ => t | None => plain_set t k i end;
  as_str i := match i with GenLeaf (inl s) => Some s | _ => None end;
  as_integer i := match i with GenLeaf (inr z) => Some z | _ => None end;
  as_array i := match i with GenNode 0 l => Some l | _ => None end;
  as_table_like := tree_table;
  as_array_of_tables := tree_tables;
  write_array _ a := GenNode 0 a;
  write_table_like _ t := table_tree t;
  write_array_of_tables _ a := GenNode 2 (map table_tree a);
  value_str s := GenLeaf (inl s);
  value_integer z := GenLeaf (inr z);
  value_array a := GenNode 0 a;
  item_table := table_tree;
  item_array_of_tables a := GenNode 2 (map table_tree a);
  Array_new := [];
  Array_push a s := a ++ [GenLeaf (inl s)];
  Array_iter a := a;
  ArrayOfTables_new := [];
  ArrayOfTables_iter a := a;
  ArrayOfTables_push a t := a ++ [t];
  ArrayOfTables_write a n t := <[n := t]> a;
  ArrayOfTables_remove a n := delete n a;
  Document_render d := bits_string (encode d);
  Document_parse s := decode (string_bits s);
|}.

#[global] Instance plain_toml_laws : TomlLaws plain_toml.
Proof.
  constructor; cbn; intros; try done; try apply plain_get_set; try apply plain_get_remove.
  - exists i. split; [intros; apply plain_get_set|]. auto.
  - destruct (plain_get t k) as [i'|] eqn:E; cbn.
    + unfold updated. by destruct (decide (k' = k)) as [->|].
    + apply plain_get_set.
  - apply tree_table_tree.
  - apply tree_tables_tree.
  - exists t. split; [apply tree_table_tree|done].
  - apply tree_tables_tree.
Qed.

#[global] Instance plain_toml_same : TomlSame plain_toml := {|
  table_same := (=); table_like_same := (=); item_same := (=); array_same := (=); array_of_tables_same := (=);
|}.

Lemma option_eq_equiv {A} (o : option A) : option_Forall2 (=) o o.
Proof. destruct o; by constructor. Qed.

Lemma list_eq_equiv {A} (l : list A) : @equiv _ (@list_equiv _ (=)) l l.
Proof. induction l; by constructor. Qed.

#[global] Instance plain_toml_same_laws : TomlSameLaws plain_toml plain_toml_same.
Proof.
  constructor; try (intros x y ->; try done; first [apply option_eq_equiv | apply list_eq_equiv]).
  1, 2: intros t t' k ->; left; apply option_eq_equiv.
  intros d. exists d. cbn. by rewrite string_bits_string, decode_encode.
Qed.

(** ** Names of record types *)

#[global] Instance plain_type_text : RecordTypeText := {|
  record_type_to_string t :=
    match List.find (fun p => N.eqb p.2 t) type_names with Some (s, _) => s | None => "UNKNOWN"%string end;
|}.

#[global] Instance plain_type_text_laws : RecordTypeTextLaws plain_names plain_rdata plain_type_text.
Proof.
  constructor; intros s t _; cbn; repeat destruct_match; done.
Qed.
