(* ===== verification/Commands.v ===== *)
(** * Commands: record and zone edits from the command line (src/src/commands/)

    [vega record add], [record delete], [record list], [record get] and [zone
    bump-serial]: open the configuration, edit the document, give the zone a new
    serial, save.  The directory is a file system of Files, in which the command is
    alone; which of its calls fail is its environment's.  Here is what is
    reported; Printing has how it is printed. *)

From S2P Require Import Prelude Names Rdata Toml Editor Files Serial.
Local Open Scope vega_scope.

Inductive CommandError : Type :=
| NoConfigFile
| ReadingFailed
| ParsingFailed
| ClockBeforeEpoch
| EditFailed (error : EditError)
| SaveFailed (error : WriteError).

(** What a command finds around it: the clock, whether reading the file fails, and
    what a save needs - its process, its nanosecond, its umask, its faults. *)
Record Env : Type := mkEnv {
  env_clock : option N;
  env_read_fails : bool;
  env_pid : N;
  env_nanos : N;
  env_umode : N;
  env_stat_denied : bool;
  env_faults : nat -> option nat;
}.

(** [EditResult]. *)
Record EditResult : Type := mkEditResult {
  er_change : Change;
  er_entry : option RecordEntry;
  er_serial : option N;
}.

(** [normalise], which unlike the editor's also takes dots off the end. *)
Definition trim_end_dots (s : string) : string := trim_end_by (Ascii.eqb char_dot) s.

Definition normalise (name : string) : string :=
  let trimmed := trim_end_dots (str_trim name) in
  if decide (trimmed = EmptyString) then "@" else str_to_lowercase trimmed.

Section Commands.
Context {TM : Toml} {HN : HickoryNames} {HR : HickoryRdata HN} {RT : RecordTypeText}.

Definition require_config (path : option string) : result CommandError string := ok_or NoConfigFile path.

(** [ConfigEditor::open]. *)
Definition ConfigEditor_open (env : Env) (fs : Fs) (path : string) : result CommandError Table :=
  if env_read_fails env then Err ReadingFailed
  else
    match read fs path with
    | None => Err ReadingFailed
    | Some f => ok_or ParsingFailed (Document_parse (text f))
    end.

Definition open_config (env : Env) (fs : Fs) (path : option string) : result CommandError (string * Table) :=
  let? path := require_config path in
  let? doc := ConfigEditor_open env fs path in
  Ok (path, doc).

(** [ConfigEditor::save]. *)
Definition save_job (env : Env) (doc : Table) : Job :=
  mkJob (env_pid env) (env_nanos env) (Document_render doc) (env_umode env) (env_stat_denied env).

Definition ConfigEditor_save (env : Env) (fs : Fs) (path : string) (doc : Table) : Fs * result CommandError unit :=
  let '(fs, p) := write_atomically path (env_faults env) (save_job env doc) fs in
  (fs, match p with Returned r => map_err SaveFailed r | _ => Ok tt end).

(** [maybe_bump]: the document with its new serial, if it gets one. *)
Definition maybe_bump (env : Env) (doc : Table) (requested : bool) (change : Change)
    : result CommandError (Table * option N) :=
  if negb requested || bool_decide (change = Unchanged) then Ok (doc, None)
  else
    let? now := ok_or ClockBeforeEpoch (env_clock env) in
    let new := next_serial (serial doc) (today_utc now) in
    match set_serial doc new with
    | (doc, Ok _) => Ok (doc, Some new)
    | (_, Err e) => Err (EditFailed e)
    end.

Definition type_wanted (wanted : option string) (e : RecordEntry) : bool :=
  match wanted with None => true | Some t => String.eqb (re_type e) t end.

(** [find]: the record set as it is after the edit. *)
Definition find (doc : Table) (name : string) (record_type : option string) : option RecordEntry :=
  let wanted_name := normalise name in
  let wanted_type := option_map str_to_uppercase record_type in
  List.find (fun r => String.eqb (normalise (re_name r)) wanted_name && type_wanted wanted_type r) (records doc).

(** The second half of [add] and [delete]: the serial, the save, the report. *)
Definition finish_command (env : Env) (fs : Fs) (path : string) (doc : Table) (change : Change)
    (name : string) (record_type : option string) (bump : bool) : Fs * result CommandError EditResult :=
  match maybe_bump env doc bump change with
  | Err e => (fs, Err e)
  | Ok (doc, serial) =>
      let '(fs, saved) :=
        if negb (bool_decide (change = Unchanged)) || bool_decide (is_Some serial)
        then ConfigEditor_save env fs path doc else (fs, Ok tt) in
      (fs, let? _ := saved in Ok (mkEditResult change (find doc name record_type) serial))
  end.

(** [record::add]; [None] is the end of the process. *)
Definition record_add (env : Env) (fs : Fs) (config : option string) (name record_type : string)
    (values : list string) (ttl : option N) (replace bump : bool) : option (Fs * result CommandError EditResult) :=
  match open_config env fs config with
  | Err e => Some (fs, Err e)
  | Ok (path, doc) =>
      match add doc name record_type values ttl replace with
      | None => None
      | Some (_, Err e) => Some (fs, Err (EditFailed e))
      | Some (doc, Ok change) => Some (finish_command env fs path doc change name (Some record_type) bump)
      end
  end.

(** [record::delete]. *)
Definition record_delete (env : Env) (fs : Fs) (config : option string) (name : string) (record_type : option string)
    (values : list string) (bump : bool) : Fs * result CommandError EditResult :=
  match open_config env fs config with
  | Err e => (fs, Err e)
  | Ok (path, doc) =>
      match remove doc name record_type values with
      | (_, Err e) => (fs, Err (EditFailed e))
      | (doc, Ok change) => finish_command env fs path doc change name record_type bump
      end
  end.

(** [record::list] and [record::get]: what they select. *)
Definition record_list (doc : Table) (name_filter type_filter : option string) : list RecordEntry :=
  let wanted_type := option_map str_to_uppercase type_filter in
  let wanted_name := option_map normalise name_filter in
  List.filter (fun r => match wanted_name with None => true | Some n => String.eqb (normalise (re_name r)) n end)
    (List.filter (type_wanted wanted_type) (records doc)).

Definition record_get (doc : Table) (name : string) (record_type : option string) : bool * list RecordEntry :=
  let wanted_type := option_map str_to_uppercase record_type in
  let found := List.filter (type_wanted wanted_type)
                 (List.filter (fun r => String.eqb (normalise (re_name r)) (normalise name)) (records doc)) in
  (negb (bool_decide (found = [])), found).

(** [zone::bump_serial]. *)
Definition bump_serial (env : Env) (fs : Fs) (config : option string) : Fs * result CommandError N :=
  match open_config env fs config with
  | Err e => (fs, Err e)
  | Ok (path, doc) =>
      match env_clock env with
      | None => (fs, Err ClockBeforeEpoch)
      | Some now =>
          let new := next_serial (serial doc) (today_utc now) in
          match set_serial doc new with
          | (_, Err e) => (fs, Err (EditFailed e))
          | (doc, Ok _) =>
              let '(fs, saved) := ConfigEditor_save env fs path doc in
              (fs, let? _ := saved in Ok new)
          end
      end
  end.

End Commands.
