(* ===== verification/CommandTheorems.v ===== *)
(** * CommandTheorems: what a command leaves in the file

    An edit, its serial and its save, put together: what a later reader of the file
    parses from it. *)

From S2P Require Import Prelude Names Rdata Toml Editor EditorFacts EditorSpec EditorTheorems.
From S2P Require Import Files FilesTheorems Serial Commands.

(** ** Documents that read the same show the same *)

Lemma bind_same {A B} `{Equiv A} (f : A -> option B) (Hf : Proper ((≡) ==> (=)) f) (o o' : option A) :
  o ≡ o' -> o ≫= f = o' ≫= f.
Proof. destruct 1 as [x y Hxy|]; [by apply Hf|done]. Qed.

Lemma bind_equiv {A B} `{Equiv A} `{Equiv B} (f : A -> option B) (Hf : Proper ((≡) ==> (≡)) f) (o o' : option A) :
  o ≡ o' -> (o ≫= f) ≡ (o' ≫= f).
Proof. destruct 1 as [x y Hxy|]; [by apply Hf|constructor]. Qed.

Section Same.
Context {TM : Toml} {TS : TomlSame TM} {TSL : TomlSameLaws TM TS}.

Lemma array_values_same : Proper ((≡) ==> (=)) array_values.
Proof.
  intros a a' H. unfold array_values. apply Array_iter_same in H. apply list_equiv_Forall2 in H.
  induction H as [|x y l l' Hxy _ IH]; [done|]. cbn. rewrite (as_str_same _ _ Hxy). destruct (as_str y); by rewrite IH.
Qed.

(** What is absent reads as nothing. *)
Lemma absent_reads o : absent o ->
  o ≫= as_str = None /\ o ≫= as_integer = None /\ o ≫= as_array = None /\
  option_map ArrayOfTables_iter (o ≫= as_array_of_tables) ∈ [None; Some []].
Proof using.
  intros H. destruct o as [i|]; [|split_and!; try done; left]. specialize (H i eq_refl). cbn.
  destruct H as [i a Ha Hi H1 H2 H3 _|i t _ _ H1 H2 H3 H4].
  - split_and!; try done. rewrite Ha. cbn. rewrite Hi. right. left.
  - split_and!; try done. rewrite H4. left.
Qed.

Lemma str_reads_same o o' : reads_same o o' -> o ≫= as_str = o' ≫= as_str.
Proof.
  intros [H|[H H']]; [by apply (bind_same _ as_str_same)|].
  by rewrite (proj1 (absent_reads _ H)), (proj1 (absent_reads _ H')).
Qed.

Lemma integer_reads_same o o' : reads_same o o' -> o ≫= as_integer = o' ≫= as_integer.
Proof.
  intros [H|[H H']]; [by apply (bind_same _ as_integer_same)|].
  destruct (absent_reads _ H) as (_ & -> & _), (absent_reads _ H') as (_ & -> & _). done.
Qed.

Lemma array_reads_same o o' : reads_same o o' -> (o ≫= as_array) ≡ (o' ≫= as_array).
Proof.
  intros [H|[H H']]; [by apply (bind_equiv _ as_array_same)|].
  destruct (absent_reads _ H) as (_ & _ & -> & _), (absent_reads _ H') as (_ & _ & -> & _). constructor.
Qed.

Lemma entry_of_same : Proper ((≡) ==> (=)) entry_of.
Proof.
  intros t t' H. unfold entry_of, ttl_of. pose proof (fun k => Table_get_same t t' k H) as Hk.
  rewrite !(str_reads_same _ _ (Hk _)), (integer_reads_same _ _ (Hk _)).
  f_equal. destruct (array_reads_same _ _ (Hk "values")) as [a a' Ha|]; [|done]. cbn. by apply array_values_same.
Qed.

(** The tables of an array of them, or none. *)
Definition tables_of (o : option Item) : list Table := default [] (option_map ArrayOfTables_iter (o ≫= as_array_of_tables)).

Lemma absent_tables o : absent o -> tables_of o = [].
Proof using. intros H. unfold tables_of. destruct (absent_reads _ H) as (_ & _ & _ & Hin). by apply elem_of_cons in Hin as [->| ->%list_elem_of_singleton]. Qed.

Lemma tables_reads_same o o' : reads_same o o' -> map entry_of (tables_of o) = map entry_of (tables_of o').
Proof.
  intros [H|[H H']]; [|by rewrite (absent_tables _ H), (absent_tables _ H')]. unfold tables_of.
  destruct (bind_equiv _ as_array_of_tables_same _ _ H) as [a a' Ha|]; [|done]. cbn.
  apply ArrayOfTables_iter_same, list_equiv_Forall2 in Ha.
  induction Ha as [|t t' l l' Ht _ IH]; [done|]. cbn. by rewrite (entry_of_same _ _ Ht), IH.
Qed.

(** The zone table: of two that read the same, each key reads the same, where a key of an
    absent zone is absent. *)
Definition zone_key (d : Table) (k : string) : option Item := zone_of d ≫= fun z => TableLike_get z k.

Lemma absent_key d k : absent (Table_get d "zone") -> absent (zone_key d k).
Proof using.
  unfold zone_key, zone_of. intros H i. destruct (Table_get d "zone") as [item|]; [|done]. cbn.
  destruct (H item eq_refl) as [x a _ _ _ _ _ Ht|x t Ht Hk _ _ _ _]; rewrite Ht; [done|]. cbn. apply Hk.
Qed.

Lemma zone_key_same d d' k : d ≡ d' -> reads_same (zone_key d k) (zone_key d' k).
Proof.
  intros H. destruct (Table_get_same d d' "zone" H) as [Hz|[Hz Hz']].
  - unfold zone_key, zone_of. destruct (bind_equiv _ as_table_like_same _ _ Hz) as [z z' Hzz|]; [|left; constructor].
    cbn. by apply TableLike_get_same.
  - right. split; by apply absent_key.
Qed.

#[global] Instance records_same : Proper ((≡) ==> (=)) records.
Proof.
  intros d d' H. pose proof (tables_reads_same _ _ (zone_key_same d d' "records" H)) as Hr.
  unfold tables_of, zone_key in Hr. unfold records, record_tables. by destruct (zone_of d), (zone_of d').
Qed.

#[global] Instance origin_same : Proper ((≡) ==> (=)) ConfigEditor_origin.
Proof.
  intros d d' H. pose proof (str_reads_same _ _ (zone_key_same d d' "origin" H)) as Hr.
  unfold zone_key in Hr. unfold ConfigEditor_origin. by destruct (zone_of d), (zone_of d').
Qed.

(** The same one table further down. *)
Lemma serial_key d : serial d =
  (((zone_key d "soa" ≫= as_table_like) ≫= fun soa => TableLike_get soa "serial") ≫= as_integer) ≫= u32_try_from.
Proof using.
  unfold serial, zone_key. destruct (zone_of d) as [z|]; [|done]. cbn. destruct (TableLike_get z "soa") as [i|]; [|done]. cbn.
  by destruct (as_table_like i).
Qed.

#[global] Instance serial_same : Proper ((≡) ==> (=)) serial.
Proof.
  intros d d' H. rewrite !serial_key. f_equal.
  assert (Hb : forall o, absent o -> ((o ≫= as_table_like) ≫= fun soa => TableLike_get soa "serial") ≫= as_integer = None).
  { intros o Ho. apply absent_reads. intros i. destruct o as [item|]; [|done]. cbn.
    destruct (Ho item eq_refl) as [x a _ _ _ _ _ Ht|x t Ht Hk _ _ _ _]; rewrite Ht; [done|]. cbn. apply Hk. }
  destruct (zone_key_same d d' "soa" H) as [Hs|[Hs Hs']]; [|by rewrite (Hb _ Hs), (Hb _ Hs')].
  apply integer_reads_same. destruct (bind_equiv _ as_table_like_same _ _ Hs) as [s s' Hss|]; [|left; constructor].
  cbn. by apply TableLike_get_same.
Qed.
End Same.

(** ** The commands *)

Section Commands.
Context {TM : Toml} {TL : TomlLaws TM} {TS : TomlSame TM} {TSL : TomlSameLaws TM TS}
  {HN : HickoryNames} {HR : HickoryRdata HN} {HL : HickoryRdataLaws HN HR}
  {RT : RecordTypeText} {RL : RecordTypeTextLaws HN HR RT}.

(** Nothing that was there reads differently. *)
Definition untouched (fs fs' : Fs) : Prop :=
  forall name, is_Some (entries fs !! name) -> read fs' name = read fs name.

(** The file at [path] parses to a document that reads as [doc], has the mode of the
    one before it, and no other name reads differently. *)
Definition holds_document (env : Env) (path : string) (doc : Table) (fs fs' : Fs) : Prop :=
  exists f doc', read fs' path = Some f /\ Document_parse (text f) = Some doc' /\ doc' ≡ doc /\
    permissions f = saved_mode path (save_job env doc) fs /\
    forall name, name <> path -> read fs' name = read fs name.

Lemma save_spec env fs path doc :
  settled fs ->
  exists fs' r, ConfigEditor_save env fs path doc = (fs', r) /\
  match r with Ok _ => holds_document env path doc fs fs' | Err _ => untouched fs fs' end.
Proof.
  intros Hs. unfold ConfigEditor_save, write_atomically.
  destruct (write_alone_ends path (save_job env doc) fs (env_faults env) Hs write_fuel fs (AtCreate 0)) as (fs' & r & -> & Ha).
  - done.
  - split; [done|]. intros a Ha. lia.
  - exists fs'. eexists. split; [done|]. destruct r as [[]|e]; cbn; [|by destruct Ha].
    destruct Ha as [[Hr Ho] _]. destruct (Document_roundtrip doc) as (doc' & Hp & Hd).
    exists (saved path (save_job env doc) fs), doc'. done.
Qed.

Lemma next_serial_lt previous today :
  (forall prev, previous = Some prev -> (prev < 2 ^ 32)%N) -> (next_serial previous today < 2 ^ 32)%N.
Proof.
  intros H. unfold next_serial, as_u32, U32_MOD. assert (Hm : forall n, (n mod 2 ^ 32 < 2 ^ 32)%N) by (intros; by apply N.mod_lt).
  destruct previous as [prev|]; [|apply Hm]. repeat case_match; try apply Hm. by apply H.
Qed.

Lemma serial_lt doc prev : serial doc = Some prev -> (prev < 2 ^ 32)%N.
Proof.
  rewrite serial_sees. intros H. apply bind_Some in H as (soa & _ & H). apply bind_Some in H as (z & _ & H).
  unfold u32_try_from in H. destruct (Z.leb_spec 0 z), (Z.ltb_spec z (2 ^ 32)); cbn in H; try done.
  injection H as <-. lia.
Qed.

Lemma same_records doc doc' : (forall k, k <> "soa" -> sees doc' k = sees doc k) ->
  records doc' = records doc /\ ConfigEditor_origin doc' = ConfigEditor_origin doc.
Proof.
  intros H. unfold records. rewrite !record_tables_sees, !origin_sees. by rewrite !H.
Qed.

(** What [maybe_bump] makes of the document. *)
Lemma maybe_bump_spec env doc bump change doc' new :
  maybe_bump env doc bump change = Ok (doc', new) ->
  records doc' = records doc /\ ConfigEditor_origin doc' = ConfigEditor_origin doc /\
  match new with
  | None => doc' = doc /\ (bump = false \/ change = Unchanged)
  | Some s => bump = true /\ change <> Unchanged /\ serial doc' = Some s /\
      exists now, env_clock env = Some now /\ s = next_serial (serial doc) (today_utc now)
  end.
Proof.
  unfold maybe_bump. destruct bump; cbn [negb orb]; [|intros [= <- <-]; auto].
  case_bool_decide as Hc; [intros [= <- <-]; auto|].
  destruct (env_clock env) as [now|]; cbn; [|done].
  destruct (set_serial doc _) as [d [[]|e]] eqn:Es; [|done]. intros [= <- <-].
  apply set_serial_spec in Es; [|apply next_serial_lt; intros prev; apply serial_lt].
  destruct Es as [Hsees Hs]. destruct (same_records _ _ Hsees). split_and!; eauto.
Qed.

(** The half the two edits share. *)
Lemma finish_command_spec env fs path doc change name record_type bump :
  settled fs ->
  exists fs' r, finish_command env fs path doc change name record_type bump = (fs', r) /\
  match r with
  | Err _ => untouched fs fs'
  | Ok res =>
      er_change res = change /\
      (change = Unchanged -> fs' = fs /\ er_serial res = None) /\
      (change <> Unchanged -> exists edited, holds_document env path edited fs fs' /\
         records edited = records doc /\ ConfigEditor_origin edited = ConfigEditor_origin doc /\
         match er_serial res with
         | None => bump = false /\ serial edited = serial doc
         | Some s => bump = true /\ serial edited = Some s /\
             exists now, env_clock env = Some now /\ s = next_serial (serial doc) (today_utc now)
         end)
  end.
Proof.
  intros Hs. unfold finish_command. destruct (maybe_bump env doc bump change) as [[doc1 new]|e] eqn:Eb; cycle 1.
  { exists fs, (Err e). split; [done|]. by intros name' _. }
  destruct (maybe_bump_spec _ _ _ _ _ _ Eb) as (Hr & Ho & Hn).
  destruct (decide (change = Unchanged)) as [->|Hne].
  - destruct new as [s|]; [by destruct Hn as (_ & [] & _)|]. cbn.
    exists fs. eexists. split; [done|]. by split_and!.
  - rewrite bool_decide_eq_false_2 by done. cbn [negb orb].
    destruct (save_spec env fs path doc1 Hs) as (fs' & r & -> & Hsave).
    exists fs'. eexists. split; [done|]. destruct r as [[]|e]; cbn; [|done].
    split_and!; [done|done|]. intros _. exists doc1. split_and!; try done.
    destruct new as [s|]; [by destruct Hn as (? & _ & ? & ?)|]. destruct Hn as [-> [->|]]; done.
Qed.

(** C29: [vega record add], whichever of its system calls fail and whatever its
    arguments, a TTL of 32 bits among them, in a directory that is on disk as it reads.
    It never ends in an abort.  An error leaves every file as it was; so does an edit
    that changes nothing, and it says so.  After any other success the configuration
    parses to the record sets of the contract with the same origin, and with the next
    serial if one was asked for and the old one otherwise; no other file is different;
    and where it was there before, and the call that asks for its permissions does not
    fail, it has the permissions it had.  (Where that call fails the save goes on
    without them, and the file may be left open to more than before: a
    doc_code_divergence of the findings.) *)
Theorem record_add_saves env fs path name record_type values ttl replace bump :
  settled fs -> ttl_ok ttl ->
  exists fs' r, record_add env fs (Some path) name record_type values ttl replace bump = Some (fs', r) /\
  match r with
  | Err _ => untouched fs fs'
  | Ok res => exists doc t,
      ConfigEditor_open env fs path = Ok doc /\ normalise_type record_type = Ok t /\
      let '(es, change) :=
        spec_add (records doc) (normalise_name name) (record_type_to_string t) values ttl replace in
      er_change res = change /\
      (change = Unchanged -> fs' = fs /\ er_serial res = None) /\
      (change <> Unchanged -> exists f doc',
         read fs' path = Some f /\ Document_parse (text f) = Some doc' /\
         records doc' = es /\ ConfigEditor_origin doc' = ConfigEditor_origin doc /\
         match er_serial res with
         | None => bump = false /\ serial doc' = serial doc
         | Some s => bump = true /\ serial doc' = Some s /\
             exists now, env_clock env = Some now /\ s = next_serial (serial doc) (today_utc now)
         end /\
         (env_stat_denied env = false -> forall f0, read fs path = Some f0 -> permissions f = permissions f0) /\
         forall other, other <> path -> read fs' other = read fs other)
  end.
Proof.
  intros Hs Httl. unfold record_add, open_config. cbn [require_config ok_or rbind].
  destruct (ConfigEditor_open env fs path) as [doc|e] eqn:Eo; cbn [rbind].
  2: { exists fs, (Err e). split; [done|]. by intros ? _. }
  destruct (add_spec doc name record_type values ttl replace Httl) as (doc1 & r & -> & Hz & Hr).
  destruct r as [change|e]; [|exists fs, (Err (EditFailed e)); split; [done|]; by intros ? _].
  destruct Hr as (t & Ht & _ & _ & Hspec & _). destruct (same_zone_fields _ _ Hz) as [Ho Hser].
  destruct (finish_command_spec env fs path doc1 change name (Some record_type) bump Hs) as (fs' & r & -> & Hf).
  exists fs', r. split; [done|]. destruct r as [res|e]; [|done]. destruct Hf as (H1 & H2 & H3).
  exists doc, t. rewrite Hspec. split_and!; try done. intros Hne.
  destruct (H3 Hne) as (edited & (f & doc' & Hf & Hp & Hd & Hm & Hother) & Hr & Ho' & Hs').
  exists f, doc'. split_and!; try done.
  - by rewrite Hd.
  - rewrite Hd. congruence.
  - rewrite (serial_same _ _ Hd), <- Hser. done.
  - intros Hden f0 Hf0. rewrite Hm. unfold saved_mode, save_job. cbn. rewrite Hden.
    unfold stat_mode. rewrite Hf0. cbn. apply mode_roundtrip.
    destruct Hs as [_ Hs]. unfold read in Hf0. destruct (entries fs !! path) as [fd|] eqn:E; cbn in Hf0; [|done].
    destruct (Hs path fd E) as (f1 & Hf1 & _ & Hlt). congruence.
Qed.
End Commands.
