(* ===== verification/EditorExamples.v ===== *)
(** * EditorExamples: one configuration, edited

    Applies the theorems of EditorTheorems and CommandTheorems to a document with a
    zone of three record sets, on PlainToml's reading of the interface. *)

From S2P Require Import Prelude Names Rdata Plain Toml Editor EditorFacts EditorSpec EditorTheorems PlainToml.
From S2P Require Import Files FilesTheorems Serial Commands CommandTheorems.

Definition ex_set (name ty : string) (values : list string) : plain_table :=
  [("name", GenLeaf (inl name)); ("type", GenLeaf (inl ty));
   ("values", GenNode 0 (map (fun v => GenLeaf (inl v)) values))]%string.

(** The second set's name ends in a dot, which the editor keeps and the commands'
    [normalise] does not. *)
Definition ex_doc : plain_table :=
  [("zone", table_tree
     [("origin", GenLeaf (inl "example.com"));
      ("soa", table_tree [("serial", GenLeaf (inr 7%Z))]);
      ("records", GenNode 2 (map table_tree
         [ex_set "WWW" "a" ["203.0.113.10"]; ex_set "api." "A" ["203.0.113.1"]; ex_set "www" "TXT" ["hello"]]))])]%string.

Example ex_doc_shows :
  records (TM := plain_toml) ex_doc =
    [mkEntry "WWW" "A" None ["203.0.113.10"]; mkEntry "api." "A" None ["203.0.113.1"];
     mkEntry "www" "TXT" None ["hello"]]%string /\
  ConfigEditor_origin (TM := plain_toml) ex_doc = Some "example.com"%string /\ serial (TM := plain_toml) ex_doc = Some 7%N.
Proof. by vm_compute. Qed.

Lemma ex_ttl : ttl_ok (Some 60%N).
Proof. intros t [= <-]. done. Qed.

(** What a successful edit leaves. *)
Definition edited (r : option (plain_table * result EditError Change)) : plain_table :=
  match r with Some (doc, _) => doc | None => [] end.

Definition ex_add : option (plain_table * result EditError Change) :=
  add (TM := plain_toml) ex_doc " www" "a " ["203.0.113.11"; "203.0.113.10"] (Some 60%N) false.

Example ex_added :
  (ex_add = Some (edited ex_add, Ok Extended)) /\
  nth 0 (records (TM := plain_toml) (edited ex_add)) (mkEntry "" "" None []) =
    mkEntry "WWW" "A" (Some 60%N) ["203.0.113.10"; "203.0.113.11"]%string.
Proof. by vm_compute. Qed.

Lemma add_edits_one_set_witness :
  exists doc' r, add (TM := plain_toml) ex_doc " www" "a " ["203.0.113.11"; "203.0.113.10"] (Some 60%N) false = Some (doc', r) /\
  ConfigEditor_origin (TM := plain_toml) doc' = Some "example.com"%string /\ serial (TM := plain_toml) doc' = Some 7%N.
Proof.
  destruct (add_edits_one_set (TM := plain_toml) ex_doc " www" "a " ["203.0.113.11"; "203.0.113.10"] (Some 60%N) false ex_ttl)
    as (doc' & r & H1 & _ & _ & H2 & H3 & _).
  exists doc', r. split; [exact H1|]. split; [exact H2|exact H3].
Defined.

Lemma add_is_idempotent_witness :
  exists doc'', add (TM := plain_toml) (edited ex_add) " www" "a " ["203.0.113.11"; "203.0.113.10"] (Some 60%N) false =
      Some (doc'', Ok Unchanged) /\
    records (TM := plain_toml) doc'' = records (TM := plain_toml) (edited ex_add).
Proof.
  destruct (add_is_idempotent (TM := plain_toml) ex_doc " www" "a " ["203.0.113.11"; "203.0.113.10"] (Some 60%N) false
              (edited ex_add) Extended ex_ttl (proj1 ex_added)) as (doc'' & H1 & H2 & _).
  exists doc''. split; [exact H1|exact H2].
Defined.

(** ** Removing *)

Definition ex_removed : plain_table * result EditError Change :=
  remove (TM := plain_toml) ex_doc "Www" None ["hello"; "203.0.113.99"]%string.

Example ex_removes :
  remove (TM := plain_toml) ex_doc "Www" None ["hello"; "203.0.113.99"]%string = (ex_removed.1, Ok Removed) /\
  records (TM := plain_toml) ex_removed.1 =
    [mkEntry "WWW" "A" None ["203.0.113.10"]; mkEntry "api." "A" None ["203.0.113.1"]]%string.
Proof. by vm_compute. Qed.

Lemma remove_is_exact_witness :
  exists wanted, wanted = None /\
  records (TM := plain_toml) ex_removed.1 =
    omap (spec_remove_entry (remove_selects "Www" wanted) ["hello"; "203.0.113.99"]%string) (records (TM := plain_toml) ex_doc).
Proof.
  destruct (remove_is_exact (TM := plain_toml) ex_doc "Www" None ["hello"; "203.0.113.99"]%string ex_removed.1 Removed
              (proj1 ex_removes)) as (wanted & H1 & H2 & _).
  exists wanted. split; [exact H1|exact H2].
Defined.

Definition ex_create : option (plain_table * result EditError Change) :=
  add (TM := plain_toml) ex_doc "new" "TXT" ["hi"; "hi"]%string None false.

(** The duplicates of a single [add] are all pushed. *)
Example ex_created :
  ex_create = Some (edited ex_create, Ok Created) /\
  nth 3 (records (TM := plain_toml) (edited ex_create)) (mkEntry "" "" None []) =
    mkEntry "new" "TXT" None ["hi"; "hi"]%string.
Proof. by vm_compute. Qed.

Lemma remove_undoes_add_witness :
  exists doc'', remove (TM := plain_toml) (edited ex_create) "new" (Some "TXT"%string) [] = (doc'', Ok Removed) /\
    records (TM := plain_toml) doc'' = records (TM := plain_toml) ex_doc.
Proof.
  apply (remove_undoes_add (TM := plain_toml) ex_doc "new" "TXT" ["hi"; "hi"]%string None false (edited ex_create)).
  - intros t H. discriminate H.
  - exact (proj1 ex_created).
Defined.

(** ** The command *)

Definition ex_env : Env := mkEnv (Some 1785400000%N) false 100 5 0x1A4 false (fun _ => None).
Definition ex_config : File := mkFile (Document_render (Toml := plain_toml) ex_doc) 0x1A0 true.
Definition ex_home : Fs := mkFs {[0%N := ex_config]} {["vega.toml"%string := 0%N]} [].

Lemma ex_home_settled : settled ex_home.
Proof.
  split; [done|]. intros name fd H. unfold ex_home in *. cbn [entries inodes] in *.
  apply lookup_singleton_Some in H as [<- <-]. exists ex_config. split; [apply lookup_singleton_eq|done].
Qed.

Lemma record_add_saves_witness :
  exists fs' r, record_add (TM := plain_toml) ex_env ex_home (Some "vega.toml"%string) "mail" "A" ["203.0.113.25"]%string
      (Some 60%N) false true = Some (fs', r) /\
  match r with
  | Err _ => untouched ex_home fs'
  | Ok res => er_change res = Unchanged \/ exists f, read fs' "vega.toml" = Some f /\ permissions f = 0x1A0%N
  end.
Proof.
  destruct (record_add_saves (TM := plain_toml) ex_env ex_home "vega.toml" "mail" "A" ["203.0.113.25"]%string (Some 60%N) false true
              ex_home_settled ex_ttl) as (fs' & r & H & Hr).
  exists fs', r. split; [exact H|]. destruct r as [res|e]; [|exact Hr].
  destruct Hr as (doc & t & _ & _ & Hr). destruct (spec_add _ _ _ _ _ _) as [es change].
  destruct Hr as (<- & _ & Hr). destruct (decide (er_change res = Unchanged)) as [Hu|Hne]; [left; exact Hu|right].
  destruct (Hr Hne) as (f & doc' & Hf & _ & _ & _ & _ & Hm & _). exists f. split; [exact Hf|].
  apply (Hm eq_refl ex_config). unfold read, ex_home. cbn [entries inodes].
  rewrite lookup_singleton_eq. cbn. apply lookup_singleton_eq.
Defined.

(** [find] does not look where the edit went: the set whose name ends in a dot
    answers for the one just created, and a type with a space around it, which
    [add] takes, finds nothing. *)
Lemma find_reports_another_set :
  find (TM := plain_toml) (edited (add (TM := plain_toml) ex_doc "api" "A" ["203.0.113.2"]%string None false)) "api" (Some "A"%string) =
    Some (mkEntry "api." "A" None ["203.0.113.1"]%string) /\
  nth 3 (records (TM := plain_toml) (edited (add (TM := plain_toml) ex_doc "api" "A" ["203.0.113.2"]%string None false)))
      (mkEntry "" "" None []) = mkEntry "api" "A" None ["203.0.113.2"]%string /\
  find (TM := plain_toml) (edited ex_add) " www" (Some "a "%string) = None.
Proof. by vm_compute. Qed.
