(* ===== verification/Text.v ===== *)
(** * Text: lines, words and numbers

    Rust's [str] methods that the textual formats of the program are written and
    read with, on octet strings, and how they undo one another.  White space is
    ASCII's: the other characters Unicode calls white never end a field here. *)

From S2P Require Import Prelude.
From stdpp Require Import pretty.

Definition char_newline : Ascii.ascii := Ascii.ascii_of_N 10.
Definition char_return : Ascii.ascii := Ascii.ascii_of_N 13.
Definition char_space : Ascii.ascii := Ascii.ascii_of_N 32.
Definition char_quote : Ascii.ascii := Ascii.ascii_of_N 34.
Definition char_hash : Ascii.ascii := Ascii.ascii_of_N 35.

(** ** Operations *)

(** [s.starts_with(c)]. *)
Definition starts_with_char (c : Ascii.ascii) (s : string) : bool :=
  match s with EmptyString => false | String d _ => Ascii.eqb d c end.

(** [format!] of a quoted text, and [writeln!] of several lines. *)
Definition quoted (s : string) : string := String char_quote (s +:+ String char_quote EmptyString).
Definition unlines (lines : list string) : string :=
  foldr (fun l text => l +:+ String char_newline text) EmptyString lines.

(** [str::lines]: a line ends with its newline, before which a carriage return goes
    too; what follows the last newline is a line if it is not empty. *)
Definition strip_return (s : string) : string := 
  (fix go s := match s with
   | EmptyString => EmptyString
   | String c EmptyString => if Ascii.eqb c char_return then EmptyString else String c EmptyString
   | String c s => String c (go s)
   end) s.

Fixpoint split_line (s : string) : string * option string :=
  match s with
  | EmptyString => (EmptyString, None)
  | String c s =>
      if Ascii.eqb c char_newline then (EmptyString, Some s)
      else let '(l, rest) := split_line s in (String c l, rest)
  end.

Fixpoint lines_fuel (fuel : nat) (s : string) : list string :=
  match fuel, s with
  | O, _ | _, EmptyString => []
  | S fuel, s =>
      match split_line s with
      | (l, None) => [l]
      | (l, Some rest) => strip_return l :: lines_fuel fuel rest
      end
  end.

(** Every line takes at least one octet. *)
Definition str_lines (s : string) : list string := lines_fuel (String.length s) s.

(** [rsplit_once(c)] and [split_once(pat)]. *)
Fixpoint rsplit_once (c : Ascii.ascii) (s : string) : option (string * string) :=
  match s with
  | EmptyString => None
  | String d s =>
      match rsplit_once c s with
      | Some (a, b) => Some (String d a, b)
      | None => if Ascii.eqb d c then Some (EmptyString, s) else None
      end
  end.

Fixpoint split_once (pat s : string) : option (string * string) :=
  match str_strip_prefix pat s with
  | Some rest => Some (EmptyString, rest)
  | None =>
      match s with
      | EmptyString => None
      | String c s => option_map (fun '(a, b) => (String c a, b)) (split_once pat s)
      end
  end.

(** [split_whitespace]. *)
Fixpoint words_from (cur s : string) : list string :=
  let flush := if decide (cur = EmptyString) then [] else [cur] in
  match s with
  | EmptyString => flush
  | String c s => if is_ascii_space c then flush ++ words_from EmptyString s
                  else words_from (cur +:+ String c EmptyString) s
  end.
Definition split_whitespace (s : string) : list string := words_from EmptyString s.

(** Decimal digits, and [str::parse::<u16>]: a plus sign is let through. *)
Fixpoint parse_digits (acc : N) (s : string) : option N :=
  match s with
  | EmptyString => Some acc
  | String c s =>
      let d := Ascii.N_of_ascii c in
      if ((48 <=? d) && (d <=? 57))%N then parse_digits (acc * 10 + (d - 48)) s else None
  end.

Definition parse_unsigned (limit : N) (s : string) : option N :=
  let digits := match s with
                | String c s' => if Ascii.eqb c (Ascii.ascii_of_N 43) then s' else s
                | EmptyString => s end in
  match digits with
  | EmptyString => None
  | _ => n ← parse_digits 0 digits; if (n <? limit)%N then Some n else None
  end.

(** ** Strings without spaces *)

Fixpoint nonspace (s : string) : bool :=
  match s with EmptyString => true | String c s => negb (is_ascii_space c) && nonspace s end.

(** A word is not empty and has no space in it. *)
Definition word (s : string) : bool := negb (bool_decide (s = EmptyString)) && nonspace s.

Lemma append_assoc (a b c : string) : a +:+ (b +:+ c) = (a +:+ b) +:+ c.
Proof. induction a as [|x a IH]; [done|]. change (String x (a +:+ (b +:+ c)) = String x ((a +:+ b) +:+ c)). by rewrite IH. Qed.

Lemma append_empty (a : string) : a +:+ EmptyString = a.
Proof. induction a as [|x a IH]; [done|]. change (String x (a +:+ EmptyString) = String x a). by rewrite IH. Qed.

Lemma append_cons c (a b : string) : String c a +:+ b = String c (a +:+ b).
Proof. done. Qed.

Lemma nonspace_append a b : nonspace (a +:+ b) = nonspace a && nonspace b.
Proof.
  induction a as [|x a IH]; [done|]. rewrite append_cons. cbn [nonspace]. rewrite IH. apply andb_assoc.
Qed.

Lemma word_nonspace s : word s = true -> nonspace s = true /\ s <> EmptyString.
Proof.
  unfold word. rewrite andb_true_iff, negb_true_iff, bool_decide_eq_false. tauto.
Qed.

Lemma word_append_l a b : word a = true -> nonspace b = true -> word (a +:+ b) = true.
Proof.
  intros [Ha Hne]%word_nonspace Hb. unfold word. rewrite nonspace_append, Ha, Hb, andb_true_r, negb_true_iff, bool_decide_eq_false.
  by destruct a.
Qed.

Lemma quoted_nonspace s : nonspace s = true -> nonspace (quoted s) = true.
Proof. intros H. unfold quoted. cbn [nonspace]. by rewrite nonspace_append, H. Qed.

(** Trimming leaves words at both ends alone. *)
Lemma trim_start_word p a b : (forall c, p c = true -> is_ascii_space c = true) -> word a = true ->
  trim_start_by p (a +:+ b) = a +:+ b.
Proof.
  intros Hp [Ha Hne]%word_nonspace. destruct a as [|c a]; [done|]. rewrite append_cons. cbn [trim_start_by].
  cbn [nonspace] in Ha. apply andb_true_iff in Ha as [Hc _]. apply negb_true_iff in Hc.
  destruct (p c) eqn:E; [|done]. apply Hp in E. congruence.
Qed.

Lemma trim_end_nonspace b : nonspace b = true -> trim_end_by is_ascii_space b = b.
Proof.
  induction b as [|c b IH]; [done|]. cbn [nonspace trim_end_by]. intros [Hc Hb]%andb_true_iff.
  rewrite IH by done. apply negb_true_iff in Hc. rewrite Hc. by destruct b.
Qed.

Lemma trim_end_append a b : b <> EmptyString -> trim_end_by is_ascii_space b = b ->
  trim_end_by is_ascii_space (a +:+ b) = a +:+ b.
Proof.
  intros Hne Hb. induction a as [|c a IH]; [done|]. rewrite append_cons. cbn [trim_end_by]. rewrite IH.
  destruct (a +:+ b) eqn:E; [|done]. destruct a; [|done]. by change (b = EmptyString) in E.
Qed.

Lemma trim_words a m b : word a = true -> word b = true -> str_trim (a +:+ m +:+ b) = a +:+ m +:+ b.
Proof.
  intros Ha Hb. unfold str_trim. rewrite trim_start_word by done. apply word_nonspace in Hb as [Hb Hne].
  rewrite append_assoc. apply trim_end_append; [done|]. by apply trim_end_nonspace.
Qed.

Lemma trim_word a : word a = true -> str_trim a = a.
Proof.
  intros Ha. unfold str_trim. rewrite <- (append_empty a) at 1. rewrite trim_start_word, append_empty by done.
  apply trim_end_nonspace. by apply word_nonspace.
Qed.

(** ** Splitting what was put together *)

Lemma rsplit_none c s : nonspace s = true -> is_ascii_space c = true -> rsplit_once c s = None.
Proof.
  intros Hs Hc. induction s as [|d s IH]; [done|]. cbn [nonspace rsplit_once] in *.
  apply andb_true_iff in Hs as [Hd Hs]. rewrite IH by done. destruct (Ascii.eqb_spec d c) as [->|]; [|done].
  by rewrite Hc in Hd.
Qed.

Lemma rsplit_append a b : nonspace b = true -> rsplit_once char_space (a +:+ String char_space b) = Some (a, b).
Proof.
  intros Hb. induction a as [|d a IH].
  - change (rsplit_once char_space (String char_space b) = Some (EmptyString, b)). cbn [rsplit_once].
    rewrite rsplit_none by done. by rewrite Ascii.eqb_refl.
  - rewrite append_cons. cbn [rsplit_once]. by rewrite IH.
Qed.

(** A line of its own: no newline in it, no carriage return at its end. *)
Fixpoint one_line (s : string) : bool :=
  match s with
  | EmptyString => true
  | String c s => negb (Ascii.eqb c char_newline) && negb (Ascii.eqb c char_return) && one_line s
  end.

Lemma one_line_append a b : one_line (a +:+ b) = one_line a && one_line b.
Proof.
  induction a as [|x a IH]; [done|]. rewrite append_cons. cbn [one_line]. rewrite IH. apply andb_assoc.
Qed.

Lemma nonspace_one_line s : nonspace s = true -> one_line s = true.
Proof.
  induction s as [|c s IH]; [done|]. cbn [nonspace one_line]. intros [Hc Hs]%andb_true_iff.
  rewrite IH, andb_true_r by done.
  destruct (Ascii.eqb_spec c char_newline) as [->|]; [done|]. by destruct (Ascii.eqb_spec c char_return) as [->|].
Qed.

Lemma split_line_append l rest : one_line l = true ->
  split_line (l +:+ String char_newline rest) = (l, Some rest).
Proof.
  induction l as [|c l IH]; intros H.
  - change (split_line (String char_newline rest) = (EmptyString, Some rest)). cbn [split_line]. by rewrite Ascii.eqb_refl.
  - cbn [one_line] in H. apply andb_true_iff in H as [H Hl]. apply andb_true_iff in H as [Hn _].
    apply negb_true_iff in Hn. rewrite append_cons. cbn [split_line]. by rewrite Hn, IH.
Qed.

Lemma strip_return_line l : one_line l = true -> strip_return l = l.
Proof.
  induction l as [|c l IH]; [done|]. cbn [one_line]. intros [[_ Hr]%andb_true_iff Hl]%andb_true_iff.
  apply negb_true_iff in Hr. specialize (IH Hl). unfold strip_return in *. destruct l; [by rewrite Hr|]. by rewrite IH.
Qed.

Lemma lines_fuel_unlines lines fuel :
  Forall (fun l => one_line l = true) lines -> (length lines <= fuel)%nat ->
  lines_fuel fuel (unlines lines) = lines.
Proof.
  intros Hl. revert fuel. induction Hl as [|l lines H _ IH]; intros fuel Hf; [by destruct fuel|].
  destruct fuel as [|fuel]; [cbn in Hf; lia|]. cbn [unlines foldr]. fold (unlines lines).
  pose proof (split_line_append l (unlines lines) H) as Hs.
  destruct (l +:+ String char_newline (unlines lines)) eqn:E; [by destruct l|].
  cbn [lines_fuel]. rewrite Hs, strip_return_line, IH; [done|cbn in Hf; lia|done].
Qed.

Lemma length_unlines lines : (length lines <= String.length (unlines lines))%nat.
Proof.
  induction lines as [|l lines IH]; [done|].
  change (S (length lines) <= String.length (l +:+ String char_newline (unlines lines)))%nat.
  rewrite length_str_append. cbn [String.length]. lia.
Qed.

(** Lines written are the lines read. *)
Lemma lines_unlines lines : Forall (fun l => one_line l = true) lines -> str_lines (unlines lines) = lines.
Proof. intros H. apply lines_fuel_unlines; [done|]. apply length_unlines. Qed.

Lemma unlines_app a b : unlines (a ++ b) = unlines a +:+ unlines b.
Proof.
  induction a as [|l a IH]; [done|]. cbn [unlines foldr app]. fold (unlines (a ++ b)). rewrite IH.
  by rewrite <- append_assoc, append_cons.
Qed.

(** ** Numbers *)

Lemma pretty_char_digit n : (n < 10)%N -> is_ascii_space (pretty_N_char n) = false /\
  (48 <= Ascii.N_of_ascii (pretty_N_char n) <= 57)%N /\ (Ascii.N_of_ascii (pretty_N_char n) - 48 = n)%N.
Proof.
  intros H. assert (Hn : In n (map N.of_nat (seq 0 10))).
  { apply in_map_iff. exists (N.to_nat n). split; [lia|]. apply in_seq. lia. }
  revert Hn. clear H. cbn. intros Hn.
  repeat (destruct Hn as [<-|Hn]; [by vm_compute|]). done.
Qed.

Lemma pretty_go_nonspace x s : nonspace s = true -> nonspace (pretty_N_go x s) = true.
Proof.
  revert s. induction (N.lt_wf_0 x) as [x _ IH]. intros s Hs.
  destruct (decide (x = 0)%N) as [->|Hx]; [done|].
  rewrite pretty_N_go_step by lia. apply IH; [apply N.div_lt; lia|]. cbn [nonspace].
  destruct (pretty_char_digit (x mod 10)) as (-> & _); [by apply N.mod_lt|]. done.
Qed.

Lemma pretty_go_longer x s : s <> EmptyString -> pretty_N_go x s <> EmptyString.
Proof.
  revert s. induction (N.lt_wf_0 x) as [x _ IH]. intros s Hs.
  destruct (decide (x = 0)%N) as [->|Hx]; [done|].
  rewrite pretty_N_go_step by lia. apply IH; [apply N.div_lt; lia|done].
Qed.

Lemma pretty_word (n : N) : word (pretty n) = true.
Proof.
  unfold pretty, pretty_N. destruct (decide (n = 0)%N) as [->|Hn]; [done|].
  unfold word. rewrite pretty_go_nonspace by done. rewrite andb_true_r, negb_true_iff, bool_decide_eq_false.
  rewrite pretty_N_go_step by lia. by apply pretty_go_longer.
Qed.

(** Digits printed are the number read. *)
Lemma parse_pretty_go x s : parse_digits 0 (pretty_N_go x s) = parse_digits x s.
Proof.
  revert s. induction (N.lt_wf_0 x) as [x _ IH]. intros s.
  destruct (decide (x = 0)%N) as [->|Hx]; [done|].
  rewrite pretty_N_go_step by lia. rewrite IH by (apply N.div_lt; lia). cbn [parse_digits].
  destruct (pretty_char_digit (x mod 10)) as (_ & Hd & He); [by apply N.mod_lt|].
  rewrite He. destruct (N.leb_spec 48 (Ascii.N_of_ascii (pretty_N_char (x mod 10)))); [|lia].
  destruct (N.leb_spec (Ascii.N_of_ascii (pretty_N_char (x mod 10))) 57); [|lia]. cbn [andb].
  f_equal. pose proof (N.div_mod x 10 ltac:(done)). lia.
Qed.

Lemma pretty_go_first x c s : (48 <= Ascii.N_of_ascii c)%N ->
  exists c' s', pretty_N_go x (String c s) = String c' s' /\ (48 <= Ascii.N_of_ascii c')%N.
Proof.
  revert c s. induction (N.lt_wf_0 x) as [x _ IH]. intros c s Hc.
  destruct (decide (x = 0)%N) as [->|Hx]; [by exists c, s|].
  rewrite pretty_N_go_step by lia. apply IH; [apply N.div_lt; lia|].
  destruct (pretty_char_digit (x mod 10)) as (_ & Hd & _); [by apply N.mod_lt|]. lia.
Qed.

Lemma parse_pretty limit n : (n < limit)%N -> parse_unsigned limit (pretty n) = Some n.
Proof.
  intros H. unfold pretty, pretty_N. destruct (decide (n = 0)%N) as [->|Hn].
  - apply N.ltb_lt in H. change ((if (0 <? limit)%N then Some 0%N else None) = Some 0%N). by rewrite H.
  - assert (Hf : exists c s, pretty_N_go n EmptyString = String c s /\ (48 <= Ascii.N_of_ascii c)%N).
    { rewrite pretty_N_go_step by lia. apply pretty_go_first.
      destruct (pretty_char_digit (n mod 10)) as (_ & Hd & _); [by apply N.mod_lt|]. lia. }
    pose proof (parse_pretty_go n EmptyString) as Hp. destruct Hf as (c & s & Hf & Hc). rewrite Hf in *.
    unfold parse_unsigned. destruct (Ascii.eqb_spec c (Ascii.ascii_of_N 43)) as [->|_].
    { exfalso. vm_compute in Hc. by apply Hc. }
    rewrite Hp. apply N.ltb_lt in H.
    change ((if (n <? limit)%N then Some n else None) = Some n). by rewrite H.
Qed.

(** ** Words of a line *)

Lemma words_from_word cur a rest :
  nonspace a = true -> words_from cur (a +:+ String char_space rest) =
    (if decide (cur +:+ a = EmptyString) then [] else [cur +:+ a]) ++ words_from EmptyString rest.
Proof.
  revert cur. induction a as [|c a IH]; intros cur Ha.
  - change (words_from cur (String char_space rest) = (if decide (cur +:+ EmptyString = EmptyString) then [] else [cur +:+ EmptyString]) ++ words_from EmptyString rest).
    rewrite append_empty. reflexivity.
  - cbn [nonspace] in Ha. apply andb_true_iff in Ha as [Hc Ha]. apply negb_true_iff in Hc.
    rewrite append_cons. cbn [words_from]. rewrite Hc, IH by done.
    replace ((cur +:+ String c EmptyString) +:+ a) with (cur +:+ String c a); [done|].
    by rewrite <- append_assoc.
Qed.

Lemma split_first_words a b rest : word a = true -> word b = true ->
  exists more, split_whitespace (a +:+ String char_space (b +:+ String char_space rest)) = a :: b :: more.
Proof.
  intros [Ha Hna]%word_nonspace [Hb Hnb]%word_nonspace. unfold split_whitespace.
  rewrite words_from_word by done. change (EmptyString +:+ a) with a. rewrite decide_False by done.
  rewrite words_from_word by done. change (EmptyString +:+ b) with b. rewrite decide_False by done. by eexists.
Qed.
