(* ===== verification/Exposition.v ===== *)
(** * Exposition: the page of counters (metrics.rs, lifecycle.rs, admin.rs)

    [render_prometheus] of the counters and of the lifecycle, line by line, and the
    body [/metrics] answers with.  A writer's buffer is the list of the lines
    written to it. *)

From S2P Require Import Prelude Text RateLimit Lifecycle Metrics Handler.
From stdpp Require Import pretty.

(** ** Floating point

    [f64] is used for its conversions and its text only.  A number's [Display] reads
    back as that number (NaNs are not told apart), and is a word; an integer's
    digits read as the nearest float, which is what [as f64] gives. *)
Class F64 : Type := {
  f64 : Type;
  as_f64 : N -> f64;
  as_secs_f64 : N -> f64;
  f64_div : f64 -> f64 -> f64;
  f64_gt_zero : f64 -> bool;
  f64_display : f64 -> string;
  f64_parse : string -> option f64;
}.

Class F64Laws (F : F64) : Prop := {
  f64_parse_display x : f64_parse (f64_display x) = Some x;
  f64_parse_decimal n : (n < U64_MOD)%N -> f64_parse (pretty n) = Some (as_f64 n);
  f64_display_word x : word (f64_display x) = true;
}.

(** The bounds of [LATENCY_BUCKETS] as their [Display] writes them. *)
Definition LATENCY_LABELS : list string :=
  ["0.00005"; "0.0001"; "0.0005"; "0.001"; "0.005"; "0.01"; "0.05"; "0.1"; "0.5"]%string.

Section Page.
Context {F : F64} {HC : Crate}.

(** [writeln!(out, "{name} {value}")], and the same with a label. *)
Definition sample_line (name value : string) : string := name +:+ String char_space value.
Definition labelled (name label value : string) : string :=
  name +:+ "{" +:+ label +:+ "=" +:+ quoted value +:+ "}".

Definition help (name text : string) : string := "# HELP " +:+ name +:+ " " +:+ text.
Definition type_line (name kind : string) : string := "# TYPE " +:+ name +:+ " " +:+ kind.

Definition gauge (name text : string) (value : f64) : list string :=
  [help name text; type_line name "gauge"; sample_line name (f64_display value)].

Definition counter_lines (name text : string) (value : N) : list string :=
  [help name text; type_line name "counter"; sample_line name (pretty value)].

Definition render_info (m : Metrics) (now : N) : list string :=
  [help "dns_build_info" "Build information."; type_line "dns_build_info" "gauge";
   sample_line (labelled "dns_build_info" "version" VERSION) "1"]
  ++ gauge "dns_uptime_seconds" "Seconds since the server started." (as_secs_f64 (uptime m now))
  ++ gauge "dns_zone_records" "Number of resource records loaded from configuration." (as_f64 (zone_records m)).

Definition render_queries (m : Metrics) : list string :=
  counter_lines "dns_queries_total" "Total DNS queries received." (queries_total m)
  ++ [help "dns_queries_by_transport_total" "DNS queries received, by transport.";
      type_line "dns_queries_by_transport_total" "counter"]
  ++ map (fun '(label, value) => sample_line (labelled "dns_queries_by_transport_total" "transport" label) (pretty value))
       [("udp", queries_udp m); ("tcp", queries_tcp m); ("other", queries_other m)]%string
  ++ [help "dns_responses_total" "DNS responses sent, by response code."; type_line "dns_responses_total" "counter"]
  ++ imap (fun idx '(label, _) =>
        sample_line (labelled "dns_responses_total" "rcode" label) (pretty (load m (Responses idx)))) TRACKED_RCODES
  ++ [sample_line (labelled "dns_responses_total" "rcode" "other") (pretty (load m (Responses (length TRACKED_RCODES))))]
  ++ counter_lines "dns_rate_limited_total" "Queries refused by the per-source-IP rate limiter." (rate_limited_total m)
  ++ counter_lines "dns_send_errors_total" "Failures while writing a response back to the client." (send_errors_total m).

(** The limiter is the handler's, [limiter] here; nothing is said of one that is not
    published. *)
Definition render_rate_limit (m : Metrics) (limiter : RateLimiter) (now : N) : list string :=
  if negb (rate_limiter m) then []
  else
    gauge "dns_ratelimit_slots" "Slots in the rate limiter's fixed table. Constant for the process lifetime." (as_f64 SLOTS)
    ++ gauge "dns_ratelimit_active" "Slots whose token bucket is below full at scrape time."
         (as_f64 (N.of_nat (active_at limiter now))).

Definition render_latency (m : Metrics) : list string :=
  [help "dns_query_duration_seconds" "Time spent handling a query."; type_line "dns_query_duration_seconds" "histogram"]
  ++ map (fun '(bucket, upper) =>
        sample_line (labelled "dns_query_duration_seconds_bucket" "le" upper) (pretty bucket))
       (zip (latency_buckets m) LATENCY_LABELS)
  ++ [sample_line (labelled "dns_query_duration_seconds_bucket" "le" "+Inf") (pretty (latency_count m));
      sample_line "dns_query_duration_seconds_sum"
        (f64_display (f64_div (as_f64 (latency_sum_micros m)) (as_f64 1000000)));
      sample_line "dns_query_duration_seconds_count" (pretty (latency_count m))].

Definition Metrics_render_prometheus (m : Metrics) (limiter : RateLimiter) (now : N) : list string :=
  render_info m now ++ render_queries m ++ render_rate_limit m limiter now ++ render_latency m.

Definition Lifecycle_render_prometheus (l : Lifecycle) (now : N) : list string :=
  [help "dns_shutdown_phase" "Lifecycle phase: 0 starting, 1 serving, 2 draining, 3 stopping, 4 closing.";
   type_line "dns_shutdown_phase" "gauge"; sample_line "dns_shutdown_phase" (pretty (bits (phase l)))]
  ++ match deadline_in l now with
     | Some remaining =>
         gauge "dns_shutdown_deadline_seconds" "Seconds until the shutdown hard deadline." (as_secs_f64 remaining)
     | None => []
     end.

(** The body of [/metrics]. *)
Definition metrics_body (m : Metrics) (limiter : RateLimiter) (l : Lifecycle) (now : N) : string :=
  unlines (Metrics_render_prometheus m limiter now ++ Lifecycle_render_prometheus l now).

(** ** The page as a list of samples

    What a page is for: each series once, with its value. *)
Definition samples (m : Metrics) (limiter : RateLimiter) (l : Lifecycle) (now : N) : list (string * f64) :=
  let n (name : string) (v : N) := (name, as_f64 v) in
  [n (labelled "dns_build_info" "version" VERSION) 1%N;
   ("dns_uptime_seconds"%string, as_secs_f64 (uptime m now));
   n "dns_zone_records"%string (zone_records m);
   n "dns_queries_total"%string (queries_total m);
   n (labelled "dns_queries_by_transport_total" "transport" "udp") (queries_udp m);
   n (labelled "dns_queries_by_transport_total" "transport" "tcp") (queries_tcp m);
   n (labelled "dns_queries_by_transport_total" "transport" "other") (queries_other m)]
  ++ imap (fun idx label => n (labelled "dns_responses_total" "rcode" label) (load m (Responses idx)))
       (map fst TRACKED_RCODES ++ ["other"%string])
  ++ [n "dns_rate_limited_total"%string (rate_limited_total m); n "dns_send_errors_total"%string (send_errors_total m)]
  ++ (if rate_limiter m then
        [n "dns_ratelimit_slots"%string SLOTS; n "dns_ratelimit_active"%string (N.of_nat (active_at limiter now))] else [])
  ++ map (fun '(bucket, upper) => n (labelled "dns_query_duration_seconds_bucket" "le" upper) bucket)
       (zip (latency_buckets m) LATENCY_LABELS)
  ++ [n (labelled "dns_query_duration_seconds_bucket" "le" "+Inf") (latency_count m);
      ("dns_query_duration_seconds_sum"%string, f64_div (as_f64 (latency_sum_micros m)) (as_f64 1000000));
      n "dns_query_duration_seconds_count"%string (latency_count m);
      n "dns_shutdown_phase"%string (bits (phase l))]
  ++ match deadline_in l now with
     | Some remaining => [("dns_shutdown_deadline_seconds"%string, as_secs_f64 remaining)]
     | None => []
     end.

End Page.
