(* ===== verification/Client.v ===== *)
(** * Client: talking to a running server (http.rs, healthcheck.rs, inspect.rs)

    The HTTP client of the command line, the probe of [vega healthcheck], and what
    [vega status] makes of a server's answers.  The connection is a parameter: the
    octets a request is answered with before the peer closes, or nothing when it
    could not be made, was cut or took longer than the timeout. *)

From S2P Require Import Prelude Text Handler Exposition.
Local Open Scope vega_scope.

(** Octets back to the text they are. *)
Definition string_of_octets (l : list N) : string := foldr (fun c s => String (Ascii.ascii_of_N c) s) EmptyString l.

Definition CRLF : string := String char_return (String char_newline EmptyString).

(** ** http.rs *)

Definition MAX_BODY : nat := N.to_nat (N.shiftl 1 20).

Record ClientResponse : Type := mkClientResponse { res_status : N; res_body : string }.

Definition is_success (r : ClientResponse) : bool := (200 <=? res_status r)%N && (res_status r <? 300)%N.

Inductive HttpError : Type := ConnectionFailed | NoStatusLine | NoStatusCode (line : string).

(** [parse], once the octets are text: the head ends at the first blank line, in
    either convention. *)
Definition parse_text (text : string) : result HttpError ClientResponse :=
  let '(head, body) :=
    match split_once (CRLF +:+ CRLF) text with
    | Some parts => parts
    | None => default (text, EmptyString) (split_once (String char_newline (String char_newline EmptyString)) text)
    end in
  let? status_line := ok_or NoStatusLine (List.hd_error (str_lines head)) in
  let? status := ok_or (NoStatusCode status_line)
                   (code ← nth_error (split_whitespace status_line) 1; parse_unsigned U16_MOD code) in
  Ok (mkClientResponse status body).

Definition parse (raw : list N) : result HttpError ClientResponse := parse_text (string_of_octets (from_utf8_lossy raw)).

(** [serde_json]: a document parsed from its text, and the empty object. *)
Class JsonText : Type := {
  Json : Type;
  json_from_str : string -> option Json;
  json_object : Json;
}.

Section Client.
Context {HC : Crate} {F : F64} {J : JsonText}.

(** The request head; [addr] is the peer's text. *)
Definition request_head (method path addr : string) (token : option string) : string :=
  method +:+ " " +:+ path +:+ " HTTP/1.0" +:+ CRLF
  +:+ "Host: " +:+ addr +:+ CRLF
  +:+ "User-Agent: " +:+ NAME +:+ "/" +:+ VERSION +:+ CRLF
  +:+ match token with Some token => "Authorization: Bearer " +:+ token +:+ CRLF | None => EmptyString end
  +:+ "Content-Length: 0" +:+ CRLF +:+ "Connection: close" +:+ CRLF +:+ CRLF.

(** What the peer answers a request head with. *)
Definition Connection : Type := string -> option (list N).

Definition request (net : Connection) (method path addr : string) (token : option string) : result HttpError ClientResponse :=
  match net (request_head method path addr token) with
  | None => Err ConnectionFailed
  | Some raw => parse (take MAX_BODY raw)
  end.

Definition http_get (net : Connection) (addr path : string) (token : option string) : result HttpError ClientResponse :=
  request net "GET" path addr token.
Definition http_post (net : Connection) (addr path : string) (token : option string) : result HttpError ClientResponse :=
  request net "POST" path addr token.

(** [healthcheck::probe]; [Some] status is an answer that is not a success. *)
Definition probe (net : Connection) (addr : string) : result (HttpError + N) unit :=
  let? response := map_err inl (http_get net addr "/healthz" None) in
  if is_success response then Ok tt else Err (inr (res_status response)).

(** ** inspect.rs *)

(** One line of a page: a name, with its labels, and a number. *)
Definition parse_sample (line : string) : option (string * f64) :=
  let line := str_trim line in
  if decide (line = EmptyString) then None
  else
    '(key, value) ← rsplit_once char_space line;
    x ← f64_parse (str_trim value);
    Some (str_trim key, x).

(** [collect] into a [BTreeMap]: a later value of a key replaces an earlier one. *)
Definition collect_map (l : list (string * f64)) : gmap string f64 :=
  fold_left (fun m kv => <[kv.1 := kv.2]> m) l ∅.

Definition parse_prometheus (body : string) : gmap string f64 :=
  collect_map (omap parse_sample (List.filter (fun line => negb (starts_with_char char_hash line)) (str_lines body))).

Definition mean_latency (samples : gmap string f64) : option f64 :=
  sum ← samples !! "dns_query_duration_seconds_sum"%string;
  count ← samples !! "dns_query_duration_seconds_count"%string;
  if f64_gt_zero count then Some (f64_div sum count) else None.

(** [Snapshot]. *)
Record Snapshot : Type := mkSnapshot {
  sn_reachable : bool;
  sn_healthy : bool;
  sn_ready : bool;
  sn_build : Json;
  sn_samples : gmap string f64;
  sn_error : option HttpError;
}.

Definition response_ok (r : result HttpError ClientResponse) : option ClientResponse :=
  match r with Ok r => Some r | Err _ => None end.

Definition is_ok_and {E A} (p : A -> bool) (r : result E A) : bool := match r with Ok a => p a | Err _ => false end.

Definition Snapshot_fetch (net : Connection) (addr : string) (token : option string) : Snapshot :=
  let health := http_get net addr "/healthz" token in
  let ready := http_get net addr "/readyz" token in
  let version := http_get net addr "/version" token in
  let metrics := http_get net addr "/metrics" token in
  mkSnapshot (is_ok health) (is_ok_and is_success health) (is_ok_and is_success ready)
    (default json_object (r ← response_ok version; json_from_str (str_trim (res_body r))))
    (default ∅ (parse_prometheus ∘ res_body <$> response_ok metrics))
    (match health with Err e => Some e | Ok _ => None end).

Definition sample (s : Snapshot) (key : string) : option f64 := sn_samples s !! key.
Definition sn_queries (s : Snapshot) : f64 := default (as_f64 0) (sample s "dns_queries_total").

(** [status]: whether the exit code is a success. *)
Definition status_command (net : Connection) (addr : string) (token : option string) (as_json : bool) : bool :=
  let snapshot := Snapshot_fetch net addr token in
  if as_json then sn_healthy snapshot && sn_ready snapshot
  else match sn_error snapshot with
       | Some _ => false
       | None => sn_healthy snapshot && sn_ready snapshot
       end.

(** [record::reload_server]: whether the server said it reloaded; what else its answer
    says is printed. *)
Definition reload_server (net : Connection) (addr : string) (token : option string) : result HttpError bool :=
  let? response := http_post net addr "/reload" token in
  Ok (is_success response).

(** [main.rs]'s [finish_edit], after an edit. *)
Definition finish_edit (net : Connection) (addr : string) (token : option string) (reload : bool) : result HttpError bool :=
  if negb reload then Ok true else reload_server net addr token.

End Client.
