(* ===== verification/ClientTheorems.v ===== *)
(** * ClientTheorems: what the server writes is what the client reads

    A page of counters comes back as its samples; an HTTP response comes back as
    its status and body; and so [vega status] shows the server's own state. *)

From S2P Require Import Prelude Names Rdata Hashing Zone Text RateLimit Lifecycle Metrics Handler Config Admin Exposition Client.
From stdpp Require Import pretty.

(** ** The page *)

Section Page.
Context {F : F64} {FL : F64Laws F} {HC : Crate}.

(** The lines of a page, with what each is read as. *)
Definition comment (l : string) : Prop := one_line l = true /\ starts_with_char char_hash l = true.
Definition reads (l : string) (kv : string * f64) : Prop :=
  one_line l = true /\ starts_with_char char_hash l = false /\ parse_sample l = Some kv.

Inductive page : list string -> list (string * f64) -> Prop :=
| page_nil : page [] []
| page_comment l ls kvs : comment l -> page ls kvs -> page (l :: ls) kvs
| page_sample l ls kv kvs : reads l kv -> page ls kvs -> page (l :: ls) (kv :: kvs).

Lemma page_app a b kvs kvs' : page a kvs -> page b kvs' -> page (a ++ b) (kvs ++ kvs').
Proof. induction 1; intros; cbn; eauto using page. Qed.

Lemma page_one_line ls kvs : page ls kvs -> Forall (fun l => one_line l = true) ls.
Proof. induction 1 as [|l ls kvs [H _]|l ls kv kvs [H _]]; by constructor. Qed.

Lemma page_parsed ls kvs :
  page ls kvs ->
  omap parse_sample (List.filter (fun line => negb (starts_with_char char_hash line)) ls) = kvs.
Proof.
  induction 1 as [|l ls kvs [_ H] _ IH|l ls kv kvs (_ & H & Hp) _ IH]; cbn [List.filter]; [done|by rewrite H|].
  rewrite H. cbn. rewrite Hp. by f_equal.
Qed.

(** A series name: a word that does not begin a comment. *)
Definition series (name : string) : Prop := word name = true /\ starts_with_char char_hash name = false.

Lemma sample_reads name value x :
  series name -> word value = true -> f64_parse value = Some x -> reads (sample_line name value) (name, x).
Proof.
  intros [Hn Hh] Hv Hx. pose proof (word_nonspace _ Hn) as [Hns Hne]. pose proof (word_nonspace _ Hv) as [Hvs Hve].
  unfold reads, sample_line. split_and!.
  - rewrite one_line_append, nonspace_one_line by done. cbn [one_line]. by rewrite (nonspace_one_line value).
  - destruct name as [|c name]; [done|]. rewrite append_cons. exact Hh.
  - unfold parse_sample.
    assert (Ht : str_trim (name +:+ String char_space value) = name +:+ String char_space value)
      by apply (trim_words name (String char_space EmptyString) value Hn Hv).
    rewrite Ht. rewrite decide_False by (by destruct name).
    rewrite rsplit_append by done. cbn. rewrite (trim_word value), Hx by done. cbn. by rewrite trim_word.
Qed.

Lemma labelled_series name label value :
  series name -> nonspace label = true -> nonspace value = true -> series (labelled name label value).
Proof.
  intros [Hn Hh] Hl Hv. unfold labelled. split.
  - apply word_append_l; [done|]. rewrite append_cons. cbn [nonspace]. rewrite !nonspace_append, Hl, quoted_nonspace by done. done.
  - destruct name as [|c name]; [done|]. rewrite append_cons. exact Hh.
Qed.

Lemma reads_number name n : (n < U64_MOD)%N -> series name -> reads (sample_line name (pretty n)) (name, as_f64 n).
Proof. intros Hn Hs. apply sample_reads; [done|apply pretty_word|by apply f64_parse_decimal]. Qed.

Lemma reads_float name x : series name -> reads (sample_line name (f64_display x)) (name, x).
Proof. intros Hs. apply sample_reads; [done|apply f64_display_word|apply f64_parse_display]. Qed.

Lemma help_comment name text : one_line name = true -> one_line text = true -> comment (help name text).
Proof.
  intros Hn Ht. split; [|done]. unfold help. rewrite !one_line_append. by rewrite Hn, Ht.
Qed.

Lemma type_comment name kind : one_line name = true -> one_line kind = true -> comment (type_line name kind).
Proof.
  intros Hn Ht. split; [|done]. unfold type_line. rewrite !one_line_append. by rewrite Hn, Ht.
Qed.

Lemma series_one_line name : series name -> one_line name = true.
Proof. intros [[H _]%word_nonspace _]. by apply nonspace_one_line. Qed.

Lemma gauge_page name text x : series name -> one_line text = true -> page (gauge name text x) [(name, x)].
Proof.
  intros Hs Ht. pose proof (series_one_line _ Hs). unfold gauge.
  apply page_comment; [by apply help_comment|]. apply page_comment; [apply type_comment; done|].
  apply page_sample; [by apply reads_float|constructor].
Qed.

Lemma counter_page name text n :
  (n < U64_MOD)%N -> series name -> one_line text = true -> page (counter_lines name text n) [(name, as_f64 n)].
Proof.
  intros Hn Hs Ht. pose proof (series_one_line _ Hs). unfold counter_lines.
  apply page_comment; [by apply help_comment|]. apply page_comment; [apply type_comment; done|].
  apply page_sample; [by apply reads_number|constructor].
Qed.

Lemma numbers_page {A} (f : A -> string) (g : A -> N) l :
  Forall (fun a => series (f a) /\ (g a < U64_MOD)%N) l ->
  page (map (fun a => sample_line (f a) (pretty (g a))) l) (map (fun a => (f a, as_f64 (g a))) l).
Proof. induction 1 as [|a l [Hs Hn] _ IH]; [constructor|]. cbn. apply page_sample; [by apply reads_number|done]. Qed.

(** Every counter is a word of the machine. *)
Definition counters_ok (m : Metrics) : Prop :=
  shaped m /\ (forall c, (load m c < U64_MOD)%N) /\ Forall (fun b => b < U64_MOD)%N (latency_buckets m).

(** A heading: its two comment lines. *)
Lemma heading_page name text kind ls kvs :
  series name -> one_line text = true -> one_line kind = true ->
  page ls kvs -> page ([help name text; type_line name kind] ++ ls) kvs.
Proof.
  intros Hs Ht Hk H. pose proof (series_one_line _ Hs).
  apply page_comment; [by apply help_comment|]. apply page_comment; [apply type_comment; done|]. exact H.
Qed.


Definition version_ok : Prop := nonspace VERSION = true.

(** Names written out in the source are series. *)
Ltac series := lazymatch goal with
  | |- series (labelled _ _ _) => apply labelled_series; [split; reflexivity|reflexivity|first [assumption|reflexivity]]
  | _ => split; reflexivity
  end.

Lemma info_page m now : version_ok ->
  page (render_info m now)
    [(labelled "dns_build_info" "version" VERSION, as_f64 1); ("dns_uptime_seconds"%string, as_secs_f64 (uptime m now));
     ("dns_zone_records"%string, as_f64 (zone_records m))].
Proof.
  intros Hv. unfold render_info. apply heading_page; [split; reflexivity|reflexivity|reflexivity|].
  apply page_sample; [apply (reads_number _ 1); [done|series]|].
  apply (page_app _ _ [_] [_]); apply gauge_page; try reflexivity; series.
Qed.

Lemma imap_responses m :
  imap (fun idx '(label, _) =>
    sample_line (labelled "dns_responses_total" "rcode" label) (pretty (load m (Responses idx)))) TRACKED_RCODES
  ++ [sample_line (labelled "dns_responses_total" "rcode" "other") (pretty (load m (Responses (length TRACKED_RCODES))))] =
  map (fun p => sample_line (labelled "dns_responses_total" "rcode" p.1) (pretty (load m (Responses p.2))))
    (zip (map fst TRACKED_RCODES ++ ["other"%string]) (seq 0 7)).
Proof. reflexivity. Qed.

Lemma queries_page m : counters_ok m ->
  page (render_queries m)
   ([("dns_queries_total"%string, as_f64 (queries_total m));
     (labelled "dns_queries_by_transport_total" "transport" "udp", as_f64 (queries_udp m));
     (labelled "dns_queries_by_transport_total" "transport" "tcp", as_f64 (queries_tcp m));
     (labelled "dns_queries_by_transport_total" "transport" "other", as_f64 (queries_other m))]
    ++ imap (fun idx label => (labelled "dns_responses_total" "rcode" label, as_f64 (load m (Responses idx))))
       (map fst TRACKED_RCODES ++ ["other"%string])
    ++ [("dns_rate_limited_total"%string, as_f64 (rate_limited_total m));
        ("dns_send_errors_total"%string, as_f64 (send_errors_total m))]).
Proof.
  intros (_ & Hl & _). unfold render_queries.
  apply (page_app _ _ [_]); [apply counter_page; [apply (Hl QueriesTotal)|series|reflexivity]|].
  apply heading_page; [series|reflexivity|reflexivity|].
  apply (page_app _ _ [_; _; _]).
  { apply page_sample; [apply reads_number; [apply (Hl QueriesUdp)|series]|].
    apply page_sample; [apply reads_number; [apply (Hl QueriesTcp)|series]|].
    apply page_sample; [apply reads_number; [apply (Hl QueriesOther)|series]|constructor]. }
  apply heading_page; [series|reflexivity|reflexivity|].
  rewrite app_assoc, imap_responses. apply page_app.
  - apply (numbers_page (fun p => labelled "dns_responses_total" "rcode" p.1) (fun p => load m (Responses p.2))).
    repeat (apply Forall_cons; split; [split; [series|exact (Hl (Responses _))]|]). constructor.
  - apply (page_app _ _ [_]); [apply counter_page; [apply (Hl RateLimitedTotal)|series|reflexivity]|].
    apply counter_page; [apply (Hl SendErrorsTotal)|series|reflexivity].
Qed.

Lemma rate_limit_page m limiter now :
  page (render_rate_limit m limiter now)
    (if rate_limiter m then
       [("dns_ratelimit_slots"%string, as_f64 SLOTS); ("dns_ratelimit_active"%string, as_f64 (N.of_nat (active_at limiter now)))]
     else []).
Proof.
  unfold render_rate_limit. generalize (N.of_nat (active_at limiter now)) as n. intros n.
  destruct (rate_limiter m); cbn [negb]; [|constructor].
  apply (page_app _ _ [_] [_]); apply gauge_page; try reflexivity; series.
Qed.

Lemma latency_page m : counters_ok m ->
  page (render_latency m)
    (map (fun '(bucket, upper) => (labelled "dns_query_duration_seconds_bucket" "le" upper, as_f64 bucket))
       (zip (latency_buckets m) LATENCY_LABELS)
     ++ [(labelled "dns_query_duration_seconds_bucket" "le" "+Inf", as_f64 (latency_count m));
         ("dns_query_duration_seconds_sum"%string, f64_div (as_f64 (latency_sum_micros m)) (as_f64 1000000));
         ("dns_query_duration_seconds_count"%string, as_f64 (latency_count m))]).
Proof.
  intros (_ & Hl & Hb). unfold render_latency. apply heading_page; [series|reflexivity|reflexivity|].
  apply page_app.
  - assert (Hz : Forall (fun p => series (labelled "dns_query_duration_seconds_bucket" "le" p.2) /\ (p.1 < U64_MOD)%N)
                   (zip (latency_buckets m) LATENCY_LABELS)).
    { assert (Hlab : Forall (fun l => nonspace l = true) LATENCY_LABELS) by (repeat constructor).
      revert Hb Hlab. generalize (latency_buckets m) as bs, LATENCY_LABELS as ls.
      induction bs as [|b bs IH]; intros [|l ls] Hb Hlab; cbn; try constructor.
      - split; [apply labelled_series; [split; reflexivity|reflexivity|by inversion Hlab]|by inversion Hb].
      - apply IH; [by inversion Hb|by inversion Hlab]. }
    pose proof (numbers_page (fun p => labelled "dns_query_duration_seconds_bucket" "le" p.2) fst _ Hz) as Hp.
    erewrite (map_ext (fun p : N * string => sample_line _ _)), (map_ext (fun p : N * string => (_, as_f64 p.1))) in Hp;
      [exact Hp|intros [b u]; reflexivity|intros [b u]; reflexivity].
  - apply page_sample; [apply reads_number; [apply (Hl LatencyCount)|series]|].
    apply page_sample; [apply reads_float; series|].
    apply page_sample; [apply reads_number; [apply (Hl LatencyCount)|series]|constructor].
Qed.

Lemma lifecycle_page l now :
  page (Lifecycle_render_prometheus l now)
    (("dns_shutdown_phase"%string, as_f64 (bits (phase l))) ::
     match deadline_in l now with
     | Some remaining => [("dns_shutdown_deadline_seconds"%string, as_secs_f64 remaining)]
     | None => []
     end).
Proof.
  unfold Lifecycle_render_prometheus. apply heading_page; [series|reflexivity|reflexivity|].
  apply page_sample; [apply reads_number; [by destruct (phase l)|series]|].
  destruct (deadline_in l now); [apply gauge_page; [series|reflexivity]|constructor].
Qed.

Lemma metrics_page_samples m limiter l now :
  version_ok -> counters_ok m ->
  page (Metrics_render_prometheus m limiter now ++ Lifecycle_render_prometheus l now) (samples m limiter l now).
Proof.
  intros Hv Hc.
  pose proof (page_app _ _ _ _ (page_app _ _ _ _ (info_page m now Hv) (page_app _ _ _ _ (queries_page m Hc)
    (page_app _ _ _ _ (rate_limit_page m limiter now) (latency_page m Hc)))) (lifecycle_page l now)) as H.
  unfold Metrics_render_prometheus, samples. revert H.
  generalize (N.of_nat (active_at limiter now)) as n. intros n. rewrite <- !app_assoc. exact (fun H => H).
Qed.

(** ** The map a page is read as *)

Lemma collect_map_list l : collect_map l = list_to_map (rev l).
Proof.
  unfold collect_map, list_to_map. symmetry.
  rewrite <- (fold_left_rev_right (fun kv m => <[kv.1 := kv.2]> m) l ∅). by induction (rev l) as [|[k x] r IH].
Qed.

Lemma collect_map_lookup l k x : NoDup (l.*1) -> collect_map l !! k = Some x <-> In (k, x) l.
Proof.
  intros Hd. rewrite collect_map_list. rewrite <- elem_of_list_to_map.
  - rewrite list_elem_of_In. symmetry. apply in_rev.
  - by rewrite <- Permutation_rev.
Qed.

(** The series of a page; those of the limiter and of the deadline may be absent. *)
Definition sample_keys (limited closing : bool) : list string :=
  [labelled "dns_build_info" "version" VERSION; "dns_uptime_seconds"; "dns_zone_records"; "dns_queries_total"]%string
  ++ map (labelled "dns_queries_by_transport_total" "transport") ["udp"; "tcp"; "other"]%string
  ++ map (labelled "dns_responses_total" "rcode") (map fst TRACKED_RCODES ++ ["other"%string])
  ++ ["dns_rate_limited_total"; "dns_send_errors_total"]%string
  ++ (if limited then ["dns_ratelimit_slots"; "dns_ratelimit_active"]%string else [])
  ++ map (labelled "dns_query_duration_seconds_bucket" "le") (LATENCY_LABELS ++ ["+Inf"%string])
  ++ ["dns_query_duration_seconds_sum"; "dns_query_duration_seconds_count"; "dns_shutdown_phase"]%string
  ++ (if closing then ["dns_shutdown_deadline_seconds"%string] else []).

Lemma fst_samples m limiter l now : shaped m ->
  (samples m limiter l now).*1 = sample_keys (rate_limiter m) (bool_decide (is_Some (deadline_in l now))).
Proof.
  intros [_ Hb]. unfold samples. generalize (N.of_nat (active_at limiter now)) as n. intros n. unfold sample_keys.
  assert (Hz : (map (fun '(bucket, upper) => (labelled "dns_query_duration_seconds_bucket" "le" upper, as_f64 bucket))
                 (zip (latency_buckets m) LATENCY_LABELS)).*1 =
               map (labelled "dns_query_duration_seconds_bucket" "le") LATENCY_LABELS).
  { revert Hb. change (length LATENCY_BUCKETS) with (length LATENCY_LABELS).
    generalize (latency_buckets m) as bs, LATENCY_LABELS as ls. induction bs as [|b bs IH]; intros [|u ls] Hb; try done.
    cbn. f_equal. apply IH. by injection Hb. }
  rewrite !fmap_app, Hz. destruct (rate_limiter m), (deadline_in l now) as [d|]; reflexivity.
Qed.

Lemma sample_keys_nodup limited closing : NoDup (sample_keys limited closing).
Proof.
  unfold sample_keys. apply NoDup_cons. split.
  - assert (H : Forall (fun k => str_strip_prefix "dns_b" k = None) (tail (sample_keys limited closing)))
      by (destruct limited, closing; vm_compute; repeat constructor).
    intros Hin. rewrite Forall_forall in H. specialize (H _ Hin). vm_compute in H. done.
  - destruct limited, closing; apply (bool_decide_unpack _); vm_compute; exact I.
Qed.

Lemma page_read ls kvs : page ls kvs -> parse_prometheus (unlines ls) = collect_map kvs.
Proof.
  intros H. unfold parse_prometheus. rewrite lines_unlines by (by apply (page_one_line _ kvs)). by rewrite (page_parsed _ kvs).
Qed.

Lemma metrics_body_read m limiter l now : version_ok -> counters_ok m ->
  parse_prometheus (metrics_body m limiter l now) = collect_map (samples m limiter l now).
Proof. intros Hv Hc. apply page_read. by apply metrics_page_samples. Qed.

Lemma samples_nodup m limiter l now : counters_ok m -> NoDup ((samples m limiter l now).*1).
Proof. intros [Hs _]. rewrite fst_samples by done. apply sample_keys_nodup. Qed.

Lemma scrape_map m limiter l now key x : version_ok -> counters_ok m ->
  parse_prometheus (metrics_body m limiter l now) !! key = Some x <-> In (key, x) (samples m limiter l now).
Proof.
  intros Hv Hc. rewrite metrics_body_read by done. apply collect_map_lookup. by apply samples_nodup.
Qed.

(** C21: the page of counters round-trips through the client: what [parse_prometheus]
    reads from the text [render_prometheus] wrote is each series of the page with the
    counter's value, once, and nothing else; no comment is read as a sample. *)
Theorem scrape_roundtrip m limiter l now key x :
  version_ok -> counters_ok m ->
  parse_prometheus (metrics_body m limiter l now) !! key = Some x <-> In (key, x) (samples m limiter l now).
Proof. apply scrape_map. Qed.
End Page.

(** ** The counters are always words *)

Section Words.
Context {HN : HickoryNames} {HR : HickoryRdata HN} {HT : HashTableApi} {HM : HickoryMessages} {HC : Crate}.

Lemma u64_add_fits n x : (u64_add n x < U64_MOD)%N.
Proof. by apply N.mod_lt. Qed.

Lemma fetch_add_ok m a : counters_ok m -> counters_ok (fetch_add m a).
Proof.
  intros (Hs & Hl & Hb). split; [by apply fetch_add_shaped|].
  assert (Hf : forall c x, (x < U64_MOD)%N -> ((if decide (c = a.1) then u64_add a.2 x else x) < U64_MOD)%N).
  { intros c x Hx. destruct (decide (c = a.1)); [apply u64_add_fits|done]. }
  split.
  - intros c. specialize (Hl c). destruct c as [| | | |i| | |i| |]; cbn [load fetch_add update] in *; try by apply Hf.
    + cbn. rewrite list_lookup_imap. destruct (responses m !! i) as [x|]; [by apply Hf|done].
    + cbn. rewrite list_lookup_imap. destruct (latency_buckets m !! i) as [x|]; [by apply Hf|done].
  - cbn. apply Forall_lookup. intros i x Hx. rewrite list_lookup_imap in Hx.
    destruct (latency_buckets m !! i) as [y|] eqn:E; [|done]. cbn in Hx. injection Hx as <-. apply Hf.
    rewrite Forall_lookup in Hb. by eapply Hb.
Qed.

Lemma record_ok m adds : counters_ok m -> counters_ok (Metrics.record m adds).
Proof. unfold Metrics.record. revert m. induction adds as [|a adds IH]; intros m H; [done|]. by apply IH, fetch_add_ok. Qed.

Lemma dispatch_counters h request src now : counters_ok (h_metrics h) -> counters_ok (h_metrics (dispatch h request src now).1).
Proof.
  intros H. unfold dispatch. destruct (h_limiter h) as [l|]; [|done]. destruct (check_at l src now) as [l' [|]]; [done|].
  exact (record_ok _ rate_limited_adds H).
Qed.

(** What the round trip asks of the counters, their number and their width, is so in a
    fresh process and stays so, under any interleaving of the single adds too. *)
Lemma counters_stay_words :
  (forall now, counters_ok (Metrics_new now)) /\
  (forall h request now elapsed send, counters_ok (h_metrics h) ->
     counters_ok (h_metrics (handle_request h request now elapsed send).1.1)) /\
  (forall rs sched m, counters_ok m -> counters_ok (serve rs sched m).1).
Proof.
  split_and!.
  - intros now. split; [apply shaped_new|]. split; [intros c; by rewrite load_new|]. by repeat constructor.
  - intros h request now elapsed send H. unfold handle_request.
    set (h0 := mkHandler (h_active h) (query (h_metrics h) (transport_of (rq_protocol request))) (h_limiter h)).
    assert (H0 : counters_ok (h_metrics h0)) by exact (record_ok _ (query_adds _) H).
    pose proof (dispatch_counters h0 request (rq_src request) now H0) as Hd.
    destruct (dispatch h0 request (rq_src request) now) as [h1 [resolved|]]; cbn [fst] in Hd; [|exact (record_ok _ (observe_latency_adds elapsed) Hd)].
    assert (Ho : counters_ok (observe_latency (h_metrics h1) elapsed)) by exact (record_ok _ (observe_latency_adds elapsed) Hd).
    destruct (send _) as [info|e]; cbn [fst h_metrics].
    + exact (record_ok _ (response_adds _) Ho).
    + exact (record_ok _ send_error_adds (record_ok _ (response_adds _) Ho)).
  - intros rs sched m. unfold serve. generalize (map request_adds rs) as progs. intros progs. revert m progs.
    induction sched as [|i sched IH]; intros m progs H; [done|]. cbn [fold_left]. unfold request_turn at 2. cbn [fst snd].
    destruct (progs !! i) as [[|a rest]|]; [by apply IH| |by apply IH]. apply IH. by apply fetch_add_ok.
Qed.

End Words.
