(* ===== verification/HttpTheorems.v ===== *)
(** * HttpTheorems: a response as the client reads it

    An HTTP response on the wire (RFC 9112, section 2.1), that the client of http.rs
    gets back its status and its body; and what [vega status] and
    [vega healthcheck] therefore see of a server that answers as admin.rs does. *)

From S2P Require Import Prelude BuildFacts Text RateLimit Lifecycle Metrics Handler Config Admin Exposition Client ClientTheorems.
From stdpp Require Import pretty.

(** ** The wire *)

(** Lines that end in CRLF, but for the last. *)
Fixpoint crlf_lines (l : string) (ls : list string) : string :=
  match ls with
  | [] => l
  | l' :: ls => l +:+ CRLF +:+ crlf_lines l' ls
  end.

Definition status_line (status : N) (reason : string) : string := "HTTP/1.0 " +:+ pretty status +:+ " " +:+ reason.

Definition wire (status : N) (reason : string) (headers : list (string * string)) (body : string) : string :=
  crlf_lines (status_line status reason) (map (fun h => h.1 +:+ ": " +:+ h.2) headers) +:+ CRLF +:+ CRLF +:+ body.

(** A header is a line of its own, and has a name. *)
Definition header_ok (h : string * string) : Prop := word h.1 = true /\ one_line h.2 = true.

(** ** Splitting at the blank line *)

Lemma substring_all s : String.substring 0 (String.length s) s = s.
Proof. induction s as [|c s IH]; [done|]. cbn. by rewrite IH. Qed.

Lemma prefix_strip p s : str_strip_prefix p (p +:+ s) = Some s.
Proof.
  unfold str_strip_prefix. induction p as [|c p IH].
  - change (EmptyString +:+ s) with s. replace (String.prefix EmptyString s) with true by by destruct s.
    cbn [String.length]. by rewrite Nat.sub_0_r, substring_all.
  - rewrite append_cons. cbn [String.prefix]. destruct (Ascii.ascii_dec c c); [|done]. exact IH.
Qed.

Lemma split_once_skip c c' s pat : c <> c' ->
  split_once (String c' pat) (String c s) = option_map (fun '(a, b) => (String c a, b)) (split_once (String c' pat) s).
Proof.
  intros H. change (split_once (String c' pat) (String c s)) with
    (match str_strip_prefix (String c' pat) (String c s) with Some rest => Some (EmptyString, rest)
     | None => option_map (fun '(a, b) => (String c a, b)) (split_once (String c' pat) s) end).
  unfold str_strip_prefix. cbn [String.prefix]. by destruct (Ascii.ascii_dec c' c) as [->|].
Qed.

Lemma split_once_line l rest pat : one_line l = true ->
  split_once (String char_return pat) (l +:+ rest) =
    option_map (fun '(a, b) => (l +:+ a, b)) (split_once (String char_return pat) rest).
Proof.
  induction l as [|c l IH]; intros H.
  - change (EmptyString +:+ rest) with rest. by destruct (split_once _ rest) as [[a b]|].
  - cbn [one_line] in H. apply andb_true_iff in H as [[_ Hr]%andb_true_iff Hl].
    rewrite append_cons, split_once_skip by (intros ->; done). rewrite IH by done.
    by destruct (split_once _ rest) as [[a b]|].
Qed.

(** A line end with more of a line after it is no blank line. *)
Lemma split_once_crlf c s : c <> char_return ->
  split_once (CRLF +:+ CRLF) (CRLF +:+ String c s) =
    option_map (fun '(a, b) => (CRLF +:+ a, b)) (split_once (CRLF +:+ CRLF) (String c s)).
Proof.
  intros Hc. set (t := String c s).
  change (split_once (CRLF +:+ CRLF) (CRLF +:+ t)) with
    (match str_strip_prefix (CRLF +:+ CRLF) (CRLF +:+ t) with Some rest => Some (EmptyString, rest)
     | None => option_map (fun '(a, b) => (String char_return a, b)) (split_once (CRLF +:+ CRLF) (String char_newline t)) end).
  assert (Hp : str_strip_prefix (CRLF +:+ CRLF) (CRLF +:+ t) = None).
  { unfold str_strip_prefix, t. assert (E : String.prefix (CRLF +:+ CRLF) (CRLF +:+ String c s) = false); [|by rewrite E].
    change (CRLF +:+ CRLF) with (String char_return (String char_newline CRLF)).
    change (CRLF +:+ String c s) with (String char_return (String char_newline (String c s))).
    cbn [String.prefix]. do 2 (destruct (Ascii.ascii_dec _ _) as [_|]; [|done]).
    unfold CRLF. cbn [String.prefix]. by destruct (Ascii.ascii_dec char_return c) as [<-|]. }
  rewrite Hp. change (CRLF +:+ CRLF) with (String char_return (String char_newline CRLF)).
  rewrite split_once_skip by done. by destruct (split_once _ t) as [[a b]|].
Qed.

Lemma split_blank_line l ls body :
  one_line l = true -> Forall (fun l => one_line l = true /\ l <> EmptyString) ls ->
  split_once (CRLF +:+ CRLF) (crlf_lines l ls +:+ CRLF +:+ CRLF +:+ body) = Some (crlf_lines l ls, body).
Proof.
  intros Hl Hls. revert l Hl. induction Hls as [|l' ls [Hl' Hne] _ IH]; intros l Hl; cbn [crlf_lines].
  - change (CRLF +:+ CRLF) with (String char_return (String char_newline CRLF)). rewrite split_once_line by done.
    change (split_once (String char_return (String char_newline CRLF)) (CRLF +:+ CRLF +:+ body)) with
      (match str_strip_prefix (CRLF +:+ CRLF) ((CRLF +:+ CRLF) +:+ body) with Some rest => Some (EmptyString, rest)
       | None => option_map (fun '(a, b) => (String char_return a, b))
                   (split_once (CRLF +:+ CRLF) (String char_newline (CRLF +:+ body))) end).
    rewrite prefix_strip. cbn [option_map]. by rewrite append_empty.
  - rewrite <- !append_assoc. change (CRLF +:+ CRLF) with (String char_return (String char_newline CRLF)).
    rewrite split_once_line by done. change (String char_return (String char_newline CRLF)) with (CRLF +:+ CRLF).
    specialize (IH l' Hl'). destruct l' as [|c l']; [done|].
    assert (Hc : c <> char_return).
    { intros ->. cbn [one_line] in Hl'. done. }
    assert (Hd : exists t, crlf_lines (String c l') ls = String c t) by (destruct ls; cbn [crlf_lines]; rewrite ?append_cons; by eexists).
    destruct Hd as [t Ht]. rewrite Ht in IH |- *. rewrite append_cons in IH |- *.
    rewrite split_once_crlf by done. rewrite IH. by cbn [option_map].
Qed.

(** ** The status line *)

Lemma strip_return_crlf l : one_line l = true -> strip_return (l +:+ String char_return EmptyString) = l.
Proof.
  induction l as [|c l IH]; intros H; [done|]. cbn [one_line] in H. apply andb_true_iff in H as [_ Hl].
  specialize (IH Hl). rewrite append_cons. unfold strip_return in *.
  destruct (l +:+ String char_return EmptyString) as [|d t] eqn:E; [by destruct l|]. by rewrite IH.
Qed.

Lemma split_line_none l : one_line l = true -> split_line l = (l, None).
Proof.
  induction l as [|c l IH]; [done|]. cbn [one_line split_line]. intros [[Hn _]%andb_true_iff Hl]%andb_true_iff.
  apply negb_true_iff in Hn. by rewrite Hn, IH.
Qed.

Lemma split_line_crlf l rest : one_line l = true ->
  split_line (l +:+ CRLF +:+ rest) = (l +:+ String char_return EmptyString, Some rest).
Proof.
  induction l as [|c l IH]; intros H; [done|]. cbn [one_line] in H.
  apply andb_true_iff in H as [[Hn _]%andb_true_iff Hl]. apply negb_true_iff in Hn.
  rewrite append_cons. cbn [split_line]. by rewrite Hn, IH.
Qed.

Lemma first_line l ls : one_line l = true -> l <> EmptyString -> List.hd_error (str_lines (crlf_lines l ls)) = Some l.
Proof.
  intros Hl Hne. unfold str_lines. destruct ls as [|l' ls]; cbn [crlf_lines].
  - destruct l as [|c l]; [done|]. cbn [String.length lines_fuel]. by rewrite split_line_none.
  - destruct (l +:+ CRLF +:+ crlf_lines l' ls) eqn:E; [by destruct l|].
    cbn [String.length lines_fuel]. rewrite <- E, split_line_crlf by done. cbn [hd_error]. by rewrite strip_return_crlf.
Qed.

Lemma status_line_ok status reason : one_line reason = true ->
  one_line (status_line status reason) = true /\ status_line status reason <> EmptyString.
Proof.
  intros H. split; [|done]. unfold status_line. rewrite !one_line_append, H.
  destruct (word_nonspace _ (pretty_word status)) as [Hp _]. by rewrite (nonspace_one_line _ Hp).
Qed.

(** The client's [parse] gives back the status and the body. *)
Lemma parse_wire status reason headers body :
  (status < U16_MOD)%N -> one_line reason = true -> Forall header_ok headers ->
  parse_text (wire status reason headers body) = Ok (mkClientResponse status body).
Proof.
  intros Hs Hr Hh. destruct (status_line_ok status reason Hr) as [Hl Hne]. unfold parse_text, wire.
  rewrite split_blank_line; [|done|].
  - rewrite first_line by done. cbn [ok_or rbind].
    destruct (split_first_words "HTTP/1.0" (pretty status) reason eq_refl (pretty_word status)) as [more Hw].
    assert (Hw' : split_whitespace (status_line status reason) = "HTTP/1.0"%string :: pretty status :: more) by exact Hw.
    rewrite Hw'. cbn [nth_error mbind option_bind]. by rewrite parse_pretty.
  - induction Hh as [|h headers [Hn Hv] _ IH]; cbn; constructor; [|done].
    apply word_nonspace in Hn as [Hn Hne']. split; [|by destruct h.1].
    rewrite !one_line_append, Hv. by rewrite (nonspace_one_line _ Hn).
Qed.

(** ** Octets *)

(** A Rust string is UTF-8: nothing of it is replaced. *)
Definition utf8 (s : string) : Prop := from_utf8_lossy (octets_of_string s) = octets_of_string s.

Lemma string_of_octets_inverse s : string_of_octets (octets_of_string s) = s.
Proof. induction s as [|c s IH]; [done|]. cbn. f_equal; [apply Ascii.ascii_N_embedding|exact IH]. Qed.

Lemma response_read status reason headers body :
  (status < U16_MOD)%N -> one_line reason = true -> Forall header_ok headers ->
  let text := wire status reason headers body in
  utf8 text -> (String.length text <= MAX_BODY)%nat ->
  parse (take MAX_BODY (octets_of_string text)) = Ok (mkClientResponse status body).
Proof.
  intros Hs Hr Hh text Hu Hl. rewrite take_ge by (by rewrite octets_of_string_length). unfold parse.
  rewrite Hu, string_of_octets_inverse. by apply parse_wire.
Qed.

(** ** The server's side *)

Section Server.
Context {F : F64} {FL : F64Laws F} {HC : Crate} {J : JsonText} {World : Type}.

(** The server as one request found it: the endpoints' state, the counters the page
    prints, the limiter behind two of them, and the clock. *)
Record Seen : Type := mkSeen {
  seen_state : AdminState (World := World);
  seen_metrics : Metrics;
  seen_limiter : RateLimiter;
  seen_at : N;
}.

(** What the HTTP library adds to an answer, and the JSON of a body that is not text. *)
Context (reason : N -> string) (headers : Endpoint -> list (string * string)) (json : Body -> string).

Definition body_text (s : Seen) (b : Body) : string :=
  match b with
  | Admin.Text t => t
  | Page => metrics_body (seen_metrics s) (seen_limiter s) (as_lifecycle (seen_state s)) (seen_at s)
  | _ => json b
  end.

(** The answer to a GET, on the wire. *)
Definition answer (s : Seen) (e : Endpoint) (w : World) (peer : SocketAddr) (given : HeaderMap) : string :=
  let r := (admin_request (seen_at s) (seen_state s) w e peer given).2.1 in
  wire (status r) (reason (status r)) (headers e) (body_text s (body r)).

(** A network behind which the server is: each route of [router] is answered by its
    endpoint, as the state then is, for the peer and headers it makes of the client. *)
Definition reaches (net : Connection) (addr : string) (token : option string) (seen : Endpoint -> Seen)
    (w : World) (peer : SocketAddr) (given : HeaderMap) : Prop :=
  forall method path e, router method path = Some e ->
    net (request_head method path addr token) = Some (octets_of_string (answer (seen e) e w peer given)).

(** Answers are text that fits in what the client reads. *)
Definition sendable (text : string) : Prop := utf8 text /\ (String.length text <= MAX_BODY)%nat.

Definition library_ok : Prop := (forall n, one_line (reason n) = true) /\ (forall e, Forall header_ok (headers e)).

Lemma request_answered net addr token seen w peer given method path e :
  library_ok -> reaches net addr token seen w peer given -> router method path = Some e ->
  sendable (answer (seen e) e w peer given) ->
  let r := (admin_request (seen_at (seen e)) (seen_state (seen e)) w e peer given).2.1 in
  (status r < U16_MOD)%N ->
  request net method path addr token = Ok (mkClientResponse (status r) (body_text (seen e) (body r))).
Proof.
  intros [Hr Hh] Hn Hp [Hu Hl] r Hs. unfold request. rewrite (Hn method path e Hp). by apply response_read.
Qed.

(** The endpoints a command reads. *)
Definition GETS : list Endpoint := [Healthz; Readyz; MetricsEndpoint; VersionEndpoint].

(** C18: [vega status] reports the server it reached: reachable and healthy in every
    phase, ready exactly when the server was in [Serving] as [/readyz] was asked, its
    samples those of the counters as [/metrics] was asked - each with its value, none
    other - and its exit code a success exactly when ready. *)
Theorem status_reads_the_server net addr token seen w peer given :
  library_ok -> version_ok -> reaches net addr token seen w peer given ->
  Forall (fun e => sendable (answer (seen e) e w peer given)) GETS ->
  counters_ok (seen_metrics (seen MetricsEndpoint)) ->
  let s := Snapshot_fetch net addr token in
  let m := seen MetricsEndpoint in
  sn_reachable s = true /\ sn_healthy s = true /\ sn_error s = None /\
  (sn_ready s = true <-> phase (as_lifecycle (seen_state (seen Readyz))) = Serving) /\
  (forall key x, sample s key = Some x <->
     In (key, x) (samples (seen_metrics m) (seen_limiter m) (as_lifecycle (seen_state m)) (seen_at m))) /\
  (forall as_json, status_command net addr token as_json = true <->
     phase (as_lifecycle (seen_state (seen Readyz))) = Serving).
Proof.
  intros Hlib Hv Hn Hs Hc. repeat (apply Forall_cons in Hs as [? Hs]).
  pose proof (request_answered net addr token seen w peer given "GET" "/healthz" Healthz Hlib Hn eq_refl) as Hh.
  pose proof (request_answered net addr token seen w peer given "GET" "/readyz" Readyz Hlib Hn eq_refl) as Hr.
  pose proof (request_answered net addr token seen w peer given "GET" "/metrics" MetricsEndpoint Hlib Hn eq_refl) as Hm.
  change (request net "GET" ?p addr token) with (http_get net addr p token) in Hh, Hr, Hm.
  specialize (Hh ltac:(done) ltac:(done)). specialize (Hm ltac:(done) ltac:(done)).
  assert (Hready : is_ok_and is_success (http_get net addr "/readyz" token) = true <->
                   phase (as_lifecycle (seen_state (seen Readyz))) = Serving).
  { specialize (Hr ltac:(done)). cbn in Hr. unfold readyz in Hr.
    destruct (phase (as_lifecycle (seen_state (seen Readyz)))); cbn in Hr; rewrite (Hr ltac:(done)); cbn; done. }
  intros s m. unfold status_command. fold s.
  assert (Hhealthy : sn_healthy s = true) by (unfold s, Snapshot_fetch; cbn [sn_healthy]; rewrite Hh; done).
  assert (Herror : sn_error s = None) by (unfold s, Snapshot_fetch; cbn [sn_error]; rewrite Hh; done).
  split_and!; try done.
  - unfold s, Snapshot_fetch. cbn [sn_reachable]. by rewrite Hh.
  - intros key x. unfold sample, s, Snapshot_fetch. cbn [sn_samples]. rewrite Hm. cbn [response_ok fmap option_fmap option_map default].
    apply scrape_map; done.
  - intros as_json. rewrite Herror, Hhealthy. by destruct as_json.
Qed.

(** The probe of [vega healthcheck] passes in every phase, draining and closing
    included, for as long as the server answers. *)
Theorem probe_passes_in_every_phase net addr seen w peer given :
  library_ok -> reaches net addr None seen w peer given ->
  sendable (answer (seen Healthz) Healthz w peer given) ->
  probe net addr = Ok tt.
Proof.
  intros Hlib Hn Hs. unfold probe, http_get.
  by rewrite (request_answered net addr None seen w peer given "GET" "/healthz" Healthz).
Qed.

(** The headers the server is given of a client's request. *)
Definition carries_token (token : option string) (given : HeaderMap) : Prop :=
  headers_get given "authorization" = (fun t => Some ("Bearer " +:+ t)) <$> token.

(** Who may reload: the holder of the server's token, or, where it has none, this
    host. *)
Definition trusted (st : AdminState (World := World)) (token : option string) (peer : SocketAddr) : Prop :=
  match Admin.token st with
  | Some t => token = Some t
  | None => this_host (addr_ip peer)
  end.

Lemma authorised_trusted st token peer given :
  carries_token token given -> (forall t, token = Some t -> word t = true) ->
  authorised st peer given <-> trusted st token peer.
Proof.
  intros Hc Hw. unfold authorised, trusted. destruct (Admin.token st) as [t|]; [|done].
  assert (Hb : bearer given = token).
  { unfold bearer. rewrite Hc. destruct token as [t'|]; [|done]. cbn [fmap option_fmap option_map mbind option_bind].
    rewrite prefix_strip. cbn. f_equal. apply trim_word. by apply Hw. }
  by rewrite Hb.
Qed.

(** A server token with space at an end cannot be presented: nobody may reload. *)
Lemma untrimmed_token_locks_out st t peer given :
  Admin.token st = Some t -> str_trim t <> t -> ~ authorised (World := World) st peer given.
Proof.
  intros Ht Hne. unfold authorised. rewrite Ht. unfold bearer. destruct (headers_get given "authorization") as [[v|]|]; try done.
  cbn. destruct (str_strip_prefix "Bearer " v) as [x|]; [|done]. cbn. intros [= <-]. by rewrite str_trim_idemp in Hne.
Qed.

(** The server runs its hook for this client, and it succeeds. *)
Definition reload_succeeds (s : Seen) (w : World) (token : option string) (peer : SocketAddr) : Prop :=
  let st := seen_state s in
  exists hook out, reload_hook st = Some hook /\ is_draining (as_lifecycle st) = false /\
    trusted st token peer /\ (hook w).2 = Some (Ok out).

(** The command gets an answer whatever the server's state, and says a reload happened
    exactly when it did. *)
Lemma reload_told net addr token seen w peer given :
  library_ok -> reaches net addr token seen w peer given ->
  sendable (answer (seen ReloadEndpoint) ReloadEndpoint w peer given) ->
  carries_token token given -> (forall t, token = Some t -> word t = true) ->
  exists ok, reload_server net addr token = Ok ok /\ (ok = true <-> reload_succeeds (seen ReloadEndpoint) w token peer).
Proof.
  intros Hlib Hn Hs Hc Hw. unfold reload_succeeds. set (st := seen_state (seen ReloadEndpoint)).
  set (r := (post_reload st w peer given).2).
  assert (Hr : (admin_request (seen_at (seen ReloadEndpoint)) st w ReloadEndpoint peer given).2.1 = r)
    by (unfold r; cbn; by destruct (post_reload st w peer given) as [[st' w'] r']).
  pose proof (request_answered net addr token seen w peer given "POST" "/reload" ReloadEndpoint Hlib Hn eq_refl Hs) as Ha.
  cbv zeta in Ha. fold st in Ha. rewrite Hr in Ha.
  destruct (reload_status st w peer given) as [Hsmall Hok]. fold r in Hsmall, Hok.
  assert (Hpost : reload_server net addr token = Ok (is_success (mkClientResponse (status r) (body_text (seen ReloadEndpoint) (body r)))))
    by (unfold reload_server, http_post; by rewrite Ha).
  eexists. split; [exact Hpost|].
  unfold is_success. cbn [res_status]. rewrite Hok. split.
  - intros (hook & out & Hh & Hd & Hm & Hout). exists hook, out. split_and!; try done.
    apply (authorised_trusted st token peer given); done.
  - intros (hook & out & Hh & Hd & Hm & Hout). exists hook, out. split_and!; try done.
    apply (authorised_trusted st token peer given); done.
Qed.

End Server.
