(* ===== verification/ClientExamples.v ===== *)
(** * ClientExamples: a scrape and a status, run

    A server with a few queries behind it, a network that routes a request head to
    it, and the theorems of the client applied there. *)

From S2P Require Import Prelude Text RateLimit Lifecycle Metrics Handler Config Admin Exposition Client.
From S2P Require Import ClientTheorems HttpTheorems HandlerExamples.
From stdpp Require Import pretty.

(** ** A concrete reading of numbers

    Whole numbers only, division rounding down. *)
Definition parse_whole (s : string) : option N := match s with EmptyString => None | _ => parse_digits 0 s end.

#[global] Instance whole_numbers : F64 := {|
  f64 := N;
  as_f64 n := n;
  as_secs_f64 n := (n / 1000000000)%N;
  f64_div := N.div;
  f64_gt_zero x := (0 <? x)%N;
  f64_display := pretty;
  f64_parse := parse_whole;
|}.

Lemma parse_whole_pretty n : parse_whole (pretty n) = Some n.
Proof.
  unfold parse_whole, pretty, pretty_N. destruct (decide (n = 0)%N) as [->|Hn]; [done|].
  pose proof (parse_pretty_go n EmptyString) as H. destruct (pretty_N_go n EmptyString) eqn:E; [|exact H].
  exfalso. rewrite pretty_N_go_step in E by lia. by apply pretty_go_longer in E.
Qed.

#[global] Instance whole_numbers_laws : F64Laws whole_numbers.
Proof. constructor; cbn; intros; [apply parse_whole_pretty|apply parse_whole_pretty|apply pretty_word]. Qed.

(** A JSON document as its text. *)
#[global] Instance plain_json : JsonText := {| Json := string; json_from_str := Some; json_object := "{}" |}.

(** ** The server *)

Definition seen_counters : Metrics :=
  mkMetrics 0 12 7 5 2 0 [3; 0; 0; 4; 0; 0; 0]%N 0 0 [0; 1; 7; 7; 7; 7; 7; 7; 7]%N 7 900 false.

Definition serving_state : AdminState (World := nat) := mark_ready (AdminState_new seen_counters).

Definition ex_seen (e : Endpoint) : Seen (World := nat) := mkSeen serving_state seen_counters ex_limiter 3000000000.

Definition ex_reason (n : N) : string := if (n =? 200)%N then "OK" else "Service Unavailable".
Definition ex_headers (e : Endpoint) : list (string * string) := [("x-vega-phase", "serving"); ("connection", "close")].
Definition ex_json (b : Body) : string := "{}".

Definition ex_answer (e : Endpoint) : string := answer ex_reason ex_headers ex_json (ex_seen e) e 0%nat (SockV4 0 5353) [].

(** The first line of a head is its method and path; anything else is cut off. *)
Definition routed (answers : Endpoint -> string) : Connection := fun head =>
  match split_whitespace head with
  | method :: path :: _ => octets_of_string ∘ answers <$> router method path
  | _ => None
  end.

Definition ex_net : Connection := routed ex_answer.

Lemma ex_library : library_ok ex_reason ex_headers.
Proof.
  split; [|by repeat constructor]. intros n. unfold ex_reason. by destruct (n =? 200)%N.
Qed.

Lemma routed_reaches {World} addr token seen (w : World) peer given :
  reaches ex_reason ex_headers ex_json (routed (fun e => answer ex_reason ex_headers ex_json (seen e) e w peer given))
    addr token seen w peer given.
Proof.
  intros method path e He. unfold routed.
  assert (Hw : word method = true /\ word path = true).
  { unfold router in He. destruct (String.eqb_spec method "GET") as [->|_].
    - destruct (String.eqb_spec path "/healthz") as [->|_]; [done|].
      destruct (String.eqb_spec path "/readyz") as [->|_]; [done|].
      destruct (String.eqb_spec path "/metrics") as [->|_]; [done|].
      by destruct (String.eqb_spec path "/version") as [->|_].
    - destruct (String.eqb_spec method "POST") as [->|_]; [|done]. by destruct (String.eqb_spec path "/reload") as [->|_]. }
  destruct Hw as [Hwm Hw].
  unfold request_head. destruct (split_first_words method path ("HTTP/1.0" +:+ CRLF
    +:+ "Host: " +:+ addr +:+ CRLF +:+ "User-Agent: " +:+ NAME +:+ "/" +:+ VERSION +:+ CRLF
    +:+ match token with Some token => "Authorization: Bearer " +:+ token +:+ CRLF | None => EmptyString end
    +:+ "Content-Length: 0" +:+ CRLF +:+ "Connection: close" +:+ CRLF +:+ CRLF) Hwm Hw) as [more Hs].
  assert (Hs' : forall rest, method +:+ " " +:+ path +:+ " HTTP/1.0" +:+ rest = method +:+ String char_space (path +:+ String char_space ("HTTP/1.0" +:+ rest)))
    by reflexivity.
  rewrite Hs', Hs, He. reflexivity.
Qed.

Lemma fits n : (N.of_nat n <= N.shiftl 1 20)%N -> (n <= MAX_BODY)%nat.
Proof. unfold MAX_BODY. lia. Qed.

Lemma ex_sendable : Forall (fun e => sendable (ex_answer e)) GETS.
Proof.
  repeat (apply Forall_cons; split; [split; [vm_compute; reflexivity|apply fits; apply N.leb_le; vm_compute; reflexivity]|]). constructor.
Qed.

Lemma ex_counters : counters_ok seen_counters.
Proof.
  split; [split; reflexivity|]. split; [|repeat constructor].
  intros [| | | |i| | |i| |]; try done.
  - do 8 (destruct i as [|i]; [done|]). done.
  - do 10 (destruct i as [|i]; [done|]). done.
Qed.

Lemma ex_version : version_ok.
Proof. reflexivity. Qed.

Lemma scrape_roundtrip_witness :
  parse_prometheus (metrics_body seen_counters ex_limiter Lifecycle_new 3000000000)
    !! labelled "dns_responses_total" "rcode" "servfail" = Some 4%N.
Proof.
  refine (proj2 (scrape_roundtrip seen_counters ex_limiter Lifecycle_new 3000000000
    (labelled "dns_responses_total" "rcode" "servfail") 4%N ex_version ex_counters) _).
  do 10 right. left. reflexivity.
Defined.

Lemma status_reads_the_server_witness :
  status_command ex_net "127.0.0.1:9153" None false = true.
Proof.
  apply (status_reads_the_server ex_reason ex_headers ex_json ex_net "127.0.0.1:9153" None ex_seen 0%nat (SockV4 0 5353) []
    ex_library ex_version (routed_reaches _ _ ex_seen _ _ _) ex_sendable ex_counters). reflexivity.
Defined.

Lemma probe_passes_in_every_phase_witness : probe ex_net "127.0.0.1:9153" = Ok tt.
Proof.
  apply (probe_passes_in_every_phase ex_reason ex_headers ex_json ex_net "127.0.0.1:9153" ex_seen 0%nat (SockV4 0 5353) []
    ex_library (routed_reaches _ _ ex_seen _ _ _)). split; [vm_compute; reflexivity|apply fits; apply N.leb_le; vm_compute; reflexivity].
Defined.

(** A reload with the server's token, over the same network. *)
Definition guarded_state : AdminState (World := nat) :=
  with_token (with_reload serving_state (fun n => (S n, Some (Ok (mkOutcome "z." 3 []))))) (Some "t0ken").

Definition guarded_seen (e : Endpoint) : Seen (World := nat) := mkSeen guarded_state seen_counters ex_limiter 3000000000.
Definition ex_given : HeaderMap := [("host", Some "127.0.0.1:9153"); ("authorization", Some "Bearer t0ken")].
Definition guarded_answer (e : Endpoint) : string :=
  answer ex_reason ex_headers ex_json (guarded_seen e) e 0%nat (SockV4 0 5353) ex_given.

Lemma guarded_sendable : sendable (guarded_answer ReloadEndpoint).
Proof. split; [vm_compute; reflexivity|apply fits; apply N.leb_le; vm_compute; reflexivity]. Qed.

Lemma guarded_reloads : reload_succeeds (guarded_seen ReloadEndpoint) 0%nat (Some "t0ken") (SockV4 0 5353).
Proof. eexists _, _. split_and!; reflexivity. Qed.
