(* ===== verification/DnsClient.v ===== *)
(** * DnsClient: one question to one server (dnsclient.rs, commands/inspect.rs)

    [vega query]: the question, over UDP, and over TCP again when the answer came
    back truncated.  The sockets are parameters - what a datagram is answered with,
    and what the peer of a stream sends - and so is the library's message codec. *)

From S2P Require Import Prelude Names Rdata Metrics Handler Config.
Local Open Scope vega_scope.

(** ** Messages *)

Section Messages.
Context {HN : HickoryNames}.

(** [Message], as far as it is read here; a query has no sections but its questions.
    A question's name is as it was written, not lower-cased. *)
Record Query : Type := mkQuestion { q_name : Name; q_type : RecordType; q_class : N }.

Record Message : Type := mkMessage {
  msg_metadata : Metadata;
  msg_queries : list Query;
  msg_answers : list DnsRecord;
  msg_authorities : list DnsRecord;
  msg_additionals : list DnsRecord;
}.

(** [Message::to_vec] and [Message::from_vec]. *)
Class MessageCodec : Type := {
  to_vec : Message -> option (list N);
  from_vec : list N -> option Message;
}.

End Messages.

Inductive ClientTransport : Type := OverUdp | OverTcp.

Inductive QueryError : Type :=
| BadName (name : string) | BadType (input : string)
| EncodingFailed | TooLargeForTcp | NoAnswer | ShortAnswer | Undecodable.

Definition UDP_BUFFER : nat := N.to_nat 4096.

Section Client.
Context {HN : HickoryNames} {HR : HickoryRdata HN} {MC : MessageCodec}.

Record Outcome : Type := mkOutcome {
  out_message : Message;
  out_server : SocketAddr;
  out_transport : ClientTransport;
  out_size : nat;
  retried_over_tcp : bool;
}.

Definition is_noerror (o : Outcome) : bool := bool_decide (response_code (msg_metadata (out_message o)) = NoError).

(** The sockets: from a local address, a datagram to a server and the one that comes
    back in time; a stream of octets to a server and those it sends in time. *)
Record Sockets : Type := mkSockets {
  datagram : SocketAddr -> SocketAddr -> list N -> option (list N);
  stream : SocketAddr -> list N -> option (list N);
}.

(** [u16::to_be_bytes] and [u16::from_be_bytes]. *)
Definition to_be_bytes (n : N) : list N := [n / 256; n mod 256]%N.
Definition from_be_bytes (hi lo : N) : N := (hi * 256 + lo)%N.

(** [read_exact] of a prefix of what the peer sends. *)
Definition read_exact (n : nat) (octets : list N) : option (list N * list N) :=
  if (length octets <? n)%nat then None else Some (take n octets, drop n octets).

(** [recv] drops what the buffer cannot hold. *)
Definition ask_udp (net : Sockets) (server : SocketAddr) (wire : list N) : result QueryError (Message * nat) :=
  let bind := match server with SockV6 _ _ _ _ => SockV6 0 0 0 0 | SockV4 _ _ => SockV4 0 0 end in
  let? answer := ok_or NoAnswer (datagram net bind server wire) in
  let buf := take UDP_BUFFER answer in
  let? message := ok_or Undecodable (from_vec buf) in
  Ok (message, length buf).

Definition ask_tcp (net : Sockets) (server : SocketAddr) (wire : list N) : result QueryError (Message * nat) :=
  let len := N.of_nat (length wire) in
  if (U16_MOD <=? len)%N then Err TooLargeForTcp
  else
    let? sent := ok_or NoAnswer (stream net server (to_be_bytes len ++ wire)) in
    let? (prefix, rest) := ok_or ShortAnswer (read_exact 2 sent) in
    let expected := match prefix with [hi; lo] => N.to_nat (from_be_bytes hi lo) | _ => 0%nat end in
    let? (body, _) := ok_or ShortAnswer (read_exact expected rest) in
    let? message := ok_or Undecodable (from_vec body) in
    Ok (message, length body).

(** The question as it is sent; [request_id] is drawn at random. *)
Definition query_message (request_id : N) (name : Name) (record_type : RecordType) : Message :=
  mkMessage (mkMetadata request_id MsgQuery OpQuery false false NoError)
    [mkQuestion (set_fqdn name true) record_type CLASS_IN] [] [] [].

Definition dns_query (net : Sockets) (request_id : N) (server : SocketAddr) (name : string) (record_type : RecordType)
    (force_tcp : bool) : result QueryError Outcome :=
  let? fqdn := ok_or (BadName name) (name_from_str name) in
  let? wire := ok_or EncodingFailed (to_vec (query_message request_id fqdn record_type)) in
  if force_tcp then
    let? (message, size) := ask_tcp net server wire in
    Ok (mkOutcome message server OverTcp size false)
  else
    let? (message, size) := ask_udp net server wire in
    if truncation (msg_metadata message) then
      let? (message, size) := ask_tcp net server wire in
      Ok (mkOutcome message server OverTcp size true)
    else Ok (mkOutcome message server OverUdp size false).

(** [parse_record_type]. *)
Definition parse_record_type (input : string) : result QueryError RecordType :=
  ok_or (BadType input) (record_type_parse (str_to_uppercase (str_trim input))).

(** [inspect::query], but for what it prints, which is [query_text] of Printing: the exit
    is a success exactly for NOERROR. *)
Definition query_command (net : Sockets) (request_id : N) (server : SocketAddr) (name record_type : string)
    (force_tcp : bool) : result QueryError bool :=
  let? record_type := parse_record_type record_type in
  let? outcome := dns_query net request_id server name record_type force_tcp in
  Ok (is_noerror outcome).

End Client.
