(* ===== verification/DnsClientTheorems.v ===== *)
(** * DnsClientTheorems: [vega query] against the handler

    The client's datagram and stream, answered by the request handler: what comes
    back is the handler's whole answer, whether it fitted a datagram or not. *)

From S2P Require Import Prelude Names Rdata Plain Hashing Zone Lookup Build Checked BuildFacts LayoutFacts ArenaFacts Finish.
From S2P Require Import Totality Served Asserts Answers ZoneTheorems Declared FileZone.
From S2P Require Import Cas RateLimit Metrics Handler HandlerFacts HandlerTheorems FileServer Config Serve EndToEnd DnsClient.
Local Open Scope vega_scope.

Section Reach.
Context {HN : HickoryNames} {HL : HickoryNamesLaws HN} {HR : HickoryRdata HN} {HT : HashTableApi}.
Context {HM : HickoryMessages} {HC : Crate} {MC : MessageCodec}.

(** ** The network between the two *)

(** A question as the server's library hands it over, and a response as the client's
    library reads it. *)
Definition received (q : Query) : LowerQuery := mkQuery (lower_from (q_name q)) (q_type q) (q_class q).

Definition request_of (src : IpAddr) (proto : Protocol) (m : Message) : Request :=
  mkRequestMsg src proto (msg_metadata m) None (map received (msg_queries m)).

Definition as_read (m : Message) (r : Response) : Message :=
  mkMessage (rs_metadata r) (msg_queries m) (rs_answers r) (rs_name_servers r ++ rs_soa r) (rs_additionals r).

(** Octets that are a response on the wire: compression only makes it shorter. *)
Definition carries (octets : list N) (m : Message) (r : Response) : Prop :=
  from_vec octets = Some (as_read m r) /\ (N.of_nat (length octets) <= wire_response r)%N.

(** A message on a stream. *)
Definition framed (octets : list N) : list N := to_be_bytes (N.of_nat (length octets)) ++ octets.

(** The server as a question found it: the handler, the instant and what its network
    makes of the answer. *)
Record Turn : Type := mkTurn {
  t_handler : DnsHandler;
  t_now : N;
  t_elapsed : N;
  t_send : Response -> result string ResponseInfo;
}.

Definition sent_by (t : Turn) (request : Request) : option Response :=
  (handle_request (t_handler t) request (t_now t) (t_elapsed t) (t_send t)).1.2.

(** The request was counted when its answer was made. *)
Definition answer_of (t : Turn) (request : Request) : Resolved :=
  let h := t_handler t in
  validate (mkHandler (h_active h) (query (h_metrics h) (transport_of (rq_protocol request))) (h_limiter h))
    request (rq_src request).

Record reaches_handler (net : Sockets) (server : SocketAddr) (src : IpAddr) (over_udp over_tcp : Turn) : Prop := {
  datagrams_arrive m wire r bind : to_vec m = Some wire ->
    sent_by over_udp (request_of src ProtoUdp m) = Some r ->
    exists octets, datagram net bind server wire = Some octets /\ carries octets m r;
  streams_arrive m wire r : to_vec m = Some wire -> (N.of_nat (length wire) < U16_MOD)%N ->
    sent_by over_tcp (request_of src ProtoTcp m) = Some r -> (wire_response r < U16_MOD)%N ->
    exists octets, stream net server (framed wire) = Some (framed octets) /\ carries octets m r;
}.

(** ** What is asked, and what is read *)

Lemma sent_by_answer t request : limited (t_handler t) request (t_now t) = false ->
  sent_by t request = Some (build_response request (answer_of t request)).
Proof. intros H. unfold sent_by. rewrite sent_cases, H. done. Qed.

Lemma from_be_to_be n : (n < U16_MOD)%N ->
  match to_be_bytes n with [hi; lo] => from_be_bytes hi lo | _ => 0%N end = n.
Proof. intros _. unfold to_be_bytes, from_be_bytes. pose proof (N.div_mod n 256 ltac:(done)). lia. Qed.

(** A framed message is read back, whatever follows it. *)
Lemma read_framed octets rest : (N.of_nat (length octets) < U16_MOD)%N ->
  exists prefix, read_exact 2 (framed octets ++ rest) = Some (prefix, octets ++ rest) /\
    read_exact (match prefix with [hi; lo] => N.to_nat (from_be_bytes hi lo) | _ => 0%nat end) (octets ++ rest) =
      Some (octets, rest).
Proof.
  intros H. exists (to_be_bytes (N.of_nat (length octets))). split; [done|].
  pose proof (from_be_to_be _ H) as E. unfold to_be_bytes in E |- *. cbn iota beta in E |- *. rewrite E, Nat2N.id.
  unfold read_exact. rewrite length_app. destruct (_ <? _)%nat eqn:El; [apply Nat.ltb_lt in El; lia|].
  by rewrite take_app_length, drop_app_length.
Qed.

Section Ask.
Context (net : Sockets) (server : SocketAddr) (src : IpAddr) (over_udp over_tcp : Turn).
Context (Hnet : reaches_handler net server src over_udp over_tcp).
Context (m : Message) (q : Query) (wire : list N).
Context (Hq : msg_queries m = [q]) (Hw : to_vec m = Some wire).

Lemma ask_tcp_reads r : (N.of_nat (length wire) < U16_MOD)%N ->
  sent_by over_tcp (request_of src ProtoTcp m) = Some r -> (wire_response r < U16_MOD)%N ->
  exists size, ask_tcp net server wire = Ok (as_read m r, size).
Proof using Hnet Hw.
  intros Hl Hr Hfit. destruct (streams_arrive _ _ _ _ _ Hnet m wire r Hw Hl Hr Hfit) as (octets & Hs & Hd & Hlen).
  unfold ask_tcp. destruct (U16_MOD <=? N.of_nat (length wire))%N eqn:E; [bool_prop; lia|].
  fold (framed wire). rewrite Hs. cbn [ok_or rbind].
  destruct (read_framed octets [] ltac:(lia)) as (prefix & H2 & Hb). rewrite (app_nil_r (framed octets)) in H2.
  rewrite H2. cbn [ok_or rbind]. rewrite Hb. cbn [ok_or rbind]. rewrite Hd. cbn [ok_or rbind]. eauto.
Qed.

Lemma ask_udp_reads x : sent_by over_udp (request_of src ProtoUdp m) = Some (build_response (request_of src ProtoUdp m) x) ->
  exists size, ask_udp net server wire = Ok (as_read m (build_response (request_of src ProtoUdp m) x), size) /\
    (N.of_nat size <= 512)%N.
Proof using HL Hnet Hw Hq.
  intros Hr. destruct (datagrams_arrive _ _ _ _ _ Hnet m wire _
    (match server with SockV6 _ _ _ _ => SockV6 0 0 0 0 | SockV4 _ _ => SockV4 0 0 end) Hw Hr) as (octets & Hs & Hd & Hlen).
  assert (Hfit : (wire_response (build_response (request_of src ProtoUdp m) x) <= 512)%N).
  { apply (udp_response_fits _ _ (received q)); try done. cbn. by rewrite Hq. }
  unfold ask_udp. rewrite Hs. cbn [ok_or rbind].
  assert (Ht : take UDP_BUFFER octets = octets) by (apply take_ge; unfold UDP_BUFFER; lia).
  rewrite Ht, Hd. cbn [ok_or rbind]. exists (length octets). split; [done|lia].
Qed.

End Ask.

(** What a message read holds of an answer. *)
Definition holds (x : Resolved) (m : Message) : Prop :=
  response_code (msg_metadata m) = code x /\ authoritative (msg_metadata m) = res_authoritative x /\
  truncation (msg_metadata m) = false /\
  msg_answers m = answers x /\ msg_authorities m = authority x /\ msg_additionals m = additional x.

Lemma holds_built request x m :
  truncation (rs_metadata (build_response request x)) = false -> holds x (as_read m (build_response request x)).
Proof.
  unfold holds, as_read, build_response, truncate, NO_RECORDS. destruct (_ && _); [done|]. cbn. intros _. by rewrite app_nil_r.
Qed.

Lemma tcp_not_truncated request x : rq_protocol request = ProtoTcp -> truncation (rs_metadata (build_response request x)) = false.
Proof. intros H. unfold build_response, truncate. rewrite bool_decide_false; [done|congruence]. Qed.

Lemma udp_truncated request x : rq_protocol request = ProtoUdp -> rq_edns request = None ->
  truncation (rs_metadata (build_response request x)) = (MAX_UDP_NO_EDNS <? response_size_bound request x)%N.
Proof.
  intros Hp He. unfold build_response, truncate. rewrite bool_decide_true, He by done. cbn. by destruct (_ <? _)%N.
Qed.

(** The question a client asks, over either transport. *)
Definition asked (src : IpAddr) (request_id : N) (name : Name) (record_type : RecordType) (over : ClientTransport) : Request :=
  request_of src (match over with OverUdp => ProtoUdp | OverTcp => ProtoTcp end) (query_message request_id name record_type).

Definition turn_of (over_udp over_tcp : Turn) (over : ClientTransport) : Turn :=
  match over with OverUdp => over_udp | OverTcp => over_tcp end.

(** What an outcome says of the server, which may have changed between a datagram and
    the stream after it: the whole answer, over the transport it fits. *)
Record reports (src : IpAddr) (over_udp over_tcp : Turn) (request_id : N) (fqdn : Name) (record_type : RecordType)
    (force_tcp : bool) (o : Outcome) : Prop := {
  rep_whole : let over := out_transport o in
    holds (answer_of (turn_of over_udp over_tcp over) (asked src request_id fqdn record_type over)) (out_message o);
  rep_udp : out_transport o = OverUdp <-> force_tcp = false /\
    let rq := asked src request_id fqdn record_type OverUdp in (response_size_bound rq (answer_of over_udp rq) <= 512)%N;
  rep_retried : retried_over_tcp o = true <-> force_tcp = false /\
    let rq := asked src request_id fqdn record_type OverUdp in (512 < response_size_bound rq (answer_of over_udp rq))%N;
  rep_size : out_transport o = OverUdp -> (out_size o <= 512)%nat;
}.

(** A question that can be asked and answered: its name is one, its octets fit a
    stream, the limiter lets it through, and so does the whole answer. *)
Record answerable (src : IpAddr) (over_udp over_tcp : Turn) (request_id : N) (name : string) (fqdn : Name)
    (record_type : RecordType) : Prop := {
  ans_name : name_from_str name = Some fqdn;
  ans_wire : exists wire, to_vec (query_message request_id fqdn record_type) = Some wire /\ (N.of_nat (length wire) < U16_MOD)%N;
  ans_passes over : let t := turn_of over_udp over_tcp over in
    limited (t_handler t) (asked src request_id fqdn record_type over) (t_now t) = false;
  ans_fits : let rq := asked src request_id fqdn record_type OverTcp in
    (wire_response (build_response rq (answer_of over_tcp rq)) < U16_MOD)%N;
}.

Lemma query_outcome net server src over_udp over_tcp request_id name fqdn record_type force_tcp :
  reaches_handler net server src over_udp over_tcp ->
  answerable src over_udp over_tcp request_id name fqdn record_type ->
  exists o, dns_query net request_id server name record_type force_tcp = Ok o /\
    reports src over_udp over_tcp request_id fqdn record_type force_tcp o.
Proof using HL.
  intros Hnet [Hn (wire & Hw & Hl) Hlim Hfit]. unfold dns_query. rewrite Hn. cbn [ok_or rbind]. rewrite Hw. cbn [ok_or rbind].
  set (rq := asked src request_id fqdn record_type) in *. set (m := query_message request_id fqdn record_type) in *.
  pose proof (sent_by_answer over_tcp (rq OverTcp) (Hlim OverTcp)) as Ht.
  destruct (ask_tcp_reads net server src over_udp over_tcp Hnet m wire Hw _ Hl Ht Hfit) as [size Htcp].
  assert (Hholds : holds (answer_of over_tcp (rq OverTcp)) (as_read m (build_response (rq OverTcp) (answer_of over_tcp (rq OverTcp)))))
    by (apply holds_built, tcp_not_truncated; done).
  destruct force_tcp.
  { rewrite Htcp. cbn [rbind]. eexists. split; [done|].
    constructor; [exact Hholds|split; [by intros [=]|by intros [[=] _]]|split; [by intros [=]|by intros [[=] _]]|done]. }
  pose proof (sent_by_answer over_udp (rq OverUdp) (Hlim OverUdp)) as Hu.
  destruct (ask_udp_reads net server src over_udp over_tcp Hnet m _ wire eq_refl Hw _ Hu) as (usize & Hudp & Hus).
  rewrite Hudp. cbn [rbind]. pose proof (udp_truncated (rq OverUdp) (answer_of over_udp (rq OverUdp)) eq_refl eq_refl) as Htr.
  change (truncation (msg_metadata (as_read m ?r))) with (truncation (rs_metadata r)).
  change (request_of src ProtoUdp m) with (rq OverUdp). rewrite Htr.
  destruct (MAX_UDP_NO_EDNS <? response_size_bound (rq OverUdp) (answer_of over_udp (rq OverUdp)))%N eqn:E; bool_prop; unfold MAX_UDP_NO_EDNS in E.
  - rewrite Htcp. cbn [rbind]. eexists. split; [done|].
    constructor; [exact Hholds|split; [by intros [=]|]|done|by intros [=]]. intros [_ H]. cbn zeta in H. fold rq in H. lia.
  - eexists. split; [done|]. constructor; cbn [out_transport retried_over_tcp out_size].
    + by apply holds_built.
    + done.
    + split; [by intros [=]|]. intros [_ H]. cbn zeta in H. fold rq in H. lia.
    + lia.
Qed.

(** C17: what [vega query] gets is the server's whole answer: the outcome it goes on to
    print has the code, the AA bit and all three sections of it, from the datagram when
    it fits one, and otherwise, never truncated, from the stream it then asks over.  It
    exits with success exactly when the server answered NOERROR.  The question is one
    whose name reads, whose octets fit a stream, that the limiter lets through, and
    whose answer fits the 65535 octets of a message on a stream. *)
Theorem query_gets_the_whole_answer net server src over_udp over_tcp request_id name fqdn type_text record_type force_tcp :
  reaches_handler net server src over_udp over_tcp ->
  answerable src over_udp over_tcp request_id name fqdn record_type ->
  parse_record_type type_text = Ok record_type ->
  exists o, dns_query net request_id server name record_type force_tcp = Ok o /\
    reports src over_udp over_tcp request_id fqdn record_type force_tcp o /\
    query_command net request_id server name type_text force_tcp =
      Ok (bool_decide (code (answer_of (turn_of over_udp over_tcp (out_transport o))
                              (asked src request_id fqdn record_type (out_transport o))) = NoError)).
Proof.
  intros Hnet Ha Ht. destruct (query_outcome _ _ _ _ _ _ _ _ _ force_tcp Hnet Ha) as (o & Ho & Hr).
  exists o. split; [done|]. split; [done|]. unfold query_command. rewrite Ht. cbn [rbind]. rewrite Ho. cbn [rbind].
  unfold is_noerror. destruct (rep_whole _ _ _ _ _ _ _ _ Hr) as (-> & _). done.
Qed.

End Reach.

(** ** The zone behind it *)

Section Declared.
Context {HN : HickoryNames} {HL : HickoryNamesLaws HN} {HR : HickoryRdata HN} {HO : HashOrder} {HT : HashTableApi}
  {TL : HashTableLaws HT}.
Context {HM : HickoryMessages} {HC : Crate} {MC : MessageCodec}.

(** What the client reads is what the server's file says; shared with the theorem on what
    it prints. *)
Lemma query_reads_the_file seed cfg z net server src over_udp over_tcp request_id name fqdn record_type force_tcp :
  from_config seed cfg = Ok z -> plain_config cfg -> fits cfg ->
  zone (h_active (t_handler over_udp)) = z -> zone (h_active (t_handler over_tcp)) = z ->
  reaches_handler net server src over_udp over_tcp ->
  answerable src over_udp over_tcp request_id name fqdn record_type ->
  let asked_name := lower_from (set_fqdn fqdn true) in
  diagnostic (h_active (t_handler over_udp)) asked_name = false ->
  diagnostic (h_active (t_handler over_tcp)) asked_name = false ->
  record_type ∉ [RT_AXFR; RT_IXFR; RT_OPT; RT_TSIG; RT_ZERO; MAILB_QTYPE; MAILA_QTYPE] ->
  answer_departs cfg asked_name record_type = false ->
  exists o, dns_query net request_id server name record_type force_tcp = Ok o /\
    holds (file_resolve cfg asked_name record_type) (out_message o).
Proof.
  intros Hz Hp Hf Hzu Hzt Hnet Ha asked_name Hdu Hdt Hty Hdep.
  destruct (query_outcome _ _ _ _ _ _ _ _ _ force_tcp Hnet Ha) as (o & Ho & [Hr _ _ _]).
  exists o. split; [done|]. set (t := turn_of over_udp over_tcp (out_transport o)) in *.
  assert (Hzone : zone (h_active (t_handler t)) = z) by (unfold t; by destruct (out_transport o)).
  assert (Hdiag : diagnostic (h_active (t_handler t)) asked_name = false) by (unfold t; by destruct (out_transport o)).
  assert (Hans : answer_of t (asked src request_id fqdn record_type (out_transport o)) = file_resolve cfg asked_name record_type).
  { unfold answer_of. rewrite (validate_valid _ _ (mkQuery asked_name record_type CLASS_IN)) by (by constructor).
    apply (served_reads seed cfg z); try done. by apply builtin_none. }
  cbv zeta in Hr. fold t in Hr. by rewrite Hans in Hr.
Qed.

End Declared.
