(* ===== verification/DnsClientExamples.v ===== *)
(** * DnsClientExamples: a question, asked

    The zone of [ZoneExamples] behind a handler, asked about one of its names, over a
    network and with a codec made for that question. *)

From S2P Require Import Prelude Names Rdata Plain Hashing Zone Lookup Build Checked Served Answers ZoneTheorems Declared FileZone ZoneExamples.
From S2P Require Import Cas RateLimit Metrics Handler HandlerFacts HandlerTheorems FileServer HandlerExamples Config EndToEnd.
From S2P Require Import DnsClient DnsClientTheorems.

Open Scope string_scope.

(** ** The question *)

Lemma plain_name_eq (a b : PlainName) : pn_raw a = pn_raw b -> a = b.
Proof.
  destruct a as [a Ha], b as [b Hb]; cbn; intros <-. f_equal. apply (Eqdep_dec.UIP_dec Bool.bool_dec).
Qed.

Definition name_or (o : option PlainName) : PlainName := match o with Some n => n | None => pname "." end.

Definition ex_fqdn : @Name plain_names := name_or (name_from_str "a.b.z").

Lemma ex_fqdn_parsed : name_from_str "a.b.z" = Some ex_fqdn.
Proof. unfold ex_fqdn. assert (H : is_present (name_from_str "a.b.z") = true) by evaluate. by destruct (name_from_str _). Qed.

Definition ex_question : Message (HN := plain_names) := query_message 7 ex_fqdn RT_A.

#[global] Instance metadata_eq_dec : EqDecision Metadata.
Proof. solve_decision. Defined.

(** The message is the question. *)
Definition is_question (m : Message (HN := plain_names)) : bool :=
  match m with
  | mkMessage meta [mkQuestion n t c] [] [] [] =>
      bool_decide (meta = msg_metadata ex_question) && bool_decide (pn_raw n = pn_raw (set_fqdn ex_fqdn true))
      && bool_decide (t = RT_A) && bool_decide (c = CLASS_IN)
  | _ => false
  end.

Lemma is_question_spec m : is_question m = true -> m = ex_question.
Proof.
  destruct m as [meta [|[n t c] [|]] [|] [|] [|]]; try done. cbn [is_question].
  rewrite !andb_true_iff, !bool_decide_eq_true. intros [[[-> Hn%plain_name_eq] ->] ->]. by rewrite Hn.
Qed.

(** ** The server *)

Definition ex_turn : Turn := mkTurn (ex_handler None) 5000000 1000 delivers.

Definition ex_request_over (over : ClientTransport) : Request := asked (V4 3221226219) 7 ex_fqdn RT_A over.
Definition ex_answer_over (over : ClientTransport) : Response :=
  build_response (ex_request_over over) (answer_of ex_turn (ex_request_over over)).

(** One octet stands for each message. *)
#[global] Instance ex_codec : MessageCodec (HN := plain_names) := {|
  to_vec m := if is_question m then Some [0%N] else None;
  from_vec octets :=
    match octets with
    | [1%N] => Some (as_read ex_question (ex_answer_over OverUdp))
    | [2%N] => Some (as_read ex_question (ex_answer_over OverTcp))
    | _ => None
    end;
|}.

Definition ex_sockets : Sockets := mkSockets (fun _ _ _ => Some [1%N]) (fun _ _ => Some (framed [2%N])).

Lemma ex_passes over : limited (t_handler ex_turn) (ex_request_over over) (t_now ex_turn) = false.
Proof. destruct over; evaluate. Qed.

Lemma ex_sent over r : sent_by ex_turn (ex_request_over over) = Some r -> r = ex_answer_over over.
Proof.
  rewrite (sent_by_answer ex_turn _ (ex_passes over)). unfold ex_answer_over. generalize (answer_of ex_turn (ex_request_over over)).
  generalize (ex_request_over over). intros rq x H. assert (Hi : forall a b : Response, Some a = Some b -> a = b) by (by intros a b [= ->]).
  symmetry. exact (Hi _ _ H).
Qed.

Lemma ex_carried over : carries [match over with OverUdp => 1%N | OverTcp => 2%N end] ex_question (ex_answer_over over).
Proof.
  split; [destruct over; cbn [from_vec ex_codec]; reflexivity|]. generalize (ex_answer_over over) as r. intros r. unfold wire_response. cbn [length]. lia.
Qed.

Lemma ex_reaches_handler :
  reaches_handler ex_sockets (SockV4 2130706433 53) (V4 3221226219) ex_turn ex_turn.
Proof.
  assert (Hvec : forall m wire, to_vec m = Some wire -> m = ex_question).
  { intros m wire. cbn. destruct (is_question m) eqn:E; [|done]. intros _. by apply is_question_spec. }
  split.
  - intros m wire r bind ->%Hvec Hr. exists [1%N]. split; [reflexivity|].
    rewrite (ex_sent OverUdp r Hr). exact (ex_carried OverUdp).
  - intros m wire r ->%Hvec _ Hr _. exists [2%N]. split; [reflexivity|].
    rewrite (ex_sent OverTcp r Hr). exact (ex_carried OverTcp).
Qed.

Lemma ex_answerable : answerable (V4 3221226219) ex_turn ex_turn 7 "a.b.z" ex_fqdn RT_A.
Proof.
  split.
  - exact ex_fqdn_parsed.
  - exists [0%N]. split; [|done]. assert (E : is_question ex_question = true) by evaluate.
    change ((if is_question ex_question then Some [0%N] else None) = Some [0%N]). by rewrite E.
  - intros []; evaluate.
  - apply N.ltb_lt. evaluate.
Qed.

Lemma query_gets_the_whole_answer_witness :
  exists o, dns_query ex_sockets 7 (SockV4 2130706433 53) "a.b.z" RT_A false = Ok o /\ (out_size o <= 512)%nat.
Proof.
  destruct (query_gets_the_whole_answer _ _ _ _ _ 7 "a.b.z" ex_fqdn "a" RT_A false ex_reaches_handler ex_answerable)
    as (o & Ho & [_ Hu _ Hs] & _); [reflexivity|].
  exists o. split; [exact Ho|]. apply Hs, Hu. split; [reflexivity|]. apply N.leb_le. evaluate.
Defined.

Close Scope string_scope.
