(* ===== verification/Diagnostics.v ===== *)
(** * Diagnostics: why a configuration does not parse (tomlparse.rs)

    The gate between a file's text and the TOML parsers: where a failure is said to
    be, and what is said of it.  The parsers are parameters; of an error they give a
    span, when they have one, and a message. *)

From S2P Require Import Prelude Names Rdata Text.
From stdpp Require Import pretty.
Local Open Scope vega_scope.

(** ** Places in a text *)

(** [s[..n]] and [s[n..]], for a place that is in [s]. *)
Fixpoint str_take (n : nat) (s : string) : string :=
  match n, s with S n, String c s => String c (str_take n s) | _, _ => EmptyString end.
Fixpoint str_drop (n : nat) (s : string) : string :=
  match n, s with S n, String _ s => str_drop n s | _, _ => s end.

(** [s.is_char_boundary(n)]. *)
Definition is_char_boundary (s : string) (n : nat) : bool :=
  match n with
  | O => true
  | _ => match String.get n s with
         | Some c => negb (is_continuation c)
         | None => (n =? String.length s)%nat
         end
  end.

(** [s.rfind('\n')] and [s.matches('\n').count()]. *)
Fixpoint rfind_newline (s : string) : option nat :=
  match s with
  | EmptyString => None
  | String c s => match rfind_newline s with
                  | Some n => Some (S n)
                  | None => if Ascii.eqb c char_newline then Some O else None
                  end
  end.
Fixpoint newlines (s : string) : N :=
  match s with
  | EmptyString => 0
  | String c s => (if Ascii.eqb c char_newline then 1 else 0) + newlines s
  end.

(** The loop that steps back to a boundary: zero is one. *)
Fixpoint floor_boundary (raw : string) (offset : nat) : nat :=
  match offset with
  | O => O
  | S below => if negb (is_char_boundary raw offset) then floor_boundary raw below else offset
  end.

Definition position (raw : string) (offset : nat) : N * N :=
  let offset := floor_boundary raw (Nat.min offset (String.length raw)) in
  let head := str_take offset raw in
  let line_start := match rfind_newline head with Some newline => S newline | None => O end in
  let line := (newlines (str_take line_start head) + 1)%N in
  let column := (chars_count (str_drop line_start head) + 1)%N in
  (line, column).

(** ** Errors *)

Record ParseError : Type := mkParseError {
  pe_position : option (N * N);
  pe_message : string;
}.

Definition ParseError_new (raw : string) (span : option (nat * nat)) (message : string) : ParseError :=
  mkParseError ((fun span => position raw span.1) <$> span) message.

Definition pe_line (e : ParseError) : option N := fst <$> pe_position e.
Definition pe_column (e : ParseError) : option N := snd <$> pe_position e.

(** [Display], and [Debug]. *)
Definition ParseError_fmt (e : ParseError) : string :=
  match pe_position e with
  | Some (line, column) =>
      "TOML parse error at line " +:+ pretty line +:+ ", column " +:+ pretty column +:+ ": " +:+ pe_message e
  | None => pe_message e
  end.

Section Parsers.
Context {T : Type}.

(** A parser of one of the two libraries: its error has a span and a message. *)
Definition Parser : Type := string -> result (option (nat * nat) * string) T.

(** [deserialize] and [document], which differ in the library they call. *)
Definition through_gate (parser : Parser) (raw : string) : result ParseError T :=
  map_err (fun error => ParseError_new raw error.1 error.2) (parser raw).

End Parsers.

(** ** The position, character by character *)

Definition advance (place : N * N) (c : Ascii.ascii) : N * N :=
  if Ascii.eqb c char_newline then (place.1 + 1, 1)%N
  else if is_continuation c then place
  else (place.1, place.2 + 1)%N.

Fixpoint walk (place : N * N) (s : string) : N * N :=
  match s with
  | EmptyString => place
  | String c s => walk (advance place c) s
  end.

Lemma chars_count_cons c s : chars_count (String c s) = ((if is_continuation c then 0 else 1) + chars_count s)%N.
Proof. done. Qed.

Lemma newline_is_char : is_continuation char_newline = false.
Proof. reflexivity. Qed.

Lemma walk_no_newline s place : rfind_newline s = None -> walk place s = (place.1, place.2 + chars_count s)%N.
Proof.
  revert place. induction s as [|c s IH]; intros [l k] H; [cbn; f_equal; lia|].
  cbn [rfind_newline] in H. destruct (rfind_newline s) eqn:E; [done|]. destruct (Ascii.eqb c char_newline) eqn:Ec; [done|].
  cbn [walk]. rewrite IH by done. unfold advance. rewrite Ec, chars_count_cons. destruct (is_continuation c); cbn; f_equal; lia.
Qed.

Lemma newlines_none s : rfind_newline s = None -> newlines s = 0%N.
Proof.
  induction s as [|c s IH]; [done|]. cbn [rfind_newline newlines]. destruct (rfind_newline s); [done|].
  destruct (Ascii.eqb c char_newline); [done|]. intros _. by rewrite IH.
Qed.

Lemma walk_newline s place n : rfind_newline s = Some n ->
  walk place s = (place.1 + newlines (str_take (S n) s), 1 + chars_count (str_drop (S n) s))%N.
Proof.
  revert place n. induction s as [|c s IH]; intros [l k] n H; [done|]. cbn [rfind_newline] in H.
  destruct (rfind_newline s) as [n'|] eqn:E.
  - injection H as <-. cbn [walk]. rewrite (IH _ n') by done.
    change (str_take (S (S n')) (String c s)) with (String c (str_take (S n') s)).
    change (str_drop (S (S n')) (String c s)) with (str_drop (S n') s). cbn [newlines fst]. f_equal.
    unfold advance. destruct (Ascii.eqb c char_newline); [|destruct (is_continuation c)]; cbn [fst]; lia.
  - destruct (Ascii.eqb c char_newline) eqn:Ec; [|done]. injection H as <-. cbn [walk]. rewrite walk_no_newline by done.
    unfold advance. rewrite Ec. cbn [fst snd]. 
    change (str_drop 1 (String c s)) with (str_drop 0 s). change (str_take 1 (String c s)) with (String c (str_take 0 s)).
    cbn [newlines]. rewrite Ec. assert (E0 : str_take 0 s = EmptyString) by (by destruct s).
    assert (E1 : str_drop 0 s = s) by (by destruct s). rewrite E0, E1. cbn. f_equal; lia.
Qed.

Lemma position_walk raw offset :
  position raw offset = walk (1, 1)%N (str_take (floor_boundary raw (Nat.min offset (String.length raw))) raw).
Proof.
  unfold position. generalize (str_take (floor_boundary raw (Nat.min offset (String.length raw))) raw) as head. intros head.
  destruct (rfind_newline head) as [n|] eqn:E.
  - rewrite (walk_newline _ _ n) by done. cbn [fst snd]. f_equal; lia.
  - rewrite walk_no_newline by done. cbn [fst snd].
    assert (E0 : str_take 0 head = EmptyString) by (by destruct head).
    assert (E1 : str_drop 0 head = head) by (by destruct head). rewrite E0, E1. cbn [newlines]. f_equal; lia.
Qed.

(** Places come in the order of the text. *)
Definition before (p q : N * N) : Prop := (p.1 < q.1 \/ p.1 = q.1 /\ p.2 < q.2)%N.

Lemma advance_before place c : before place (advance place c) \/ advance place c = place /\ is_continuation c = true.
Proof.
  destruct place as [l k]. unfold advance, before. destruct (Ascii.eqb c char_newline); [left; cbn; lia|].
  destruct (is_continuation c); [by right|left; cbn; lia].
Qed.

Lemma before_trans p q r : before p q -> before q r -> before p r.
Proof. unfold before. lia. Qed.

Lemma walk_forward s place : walk place s = place \/ before place (walk place s).
Proof.
  revert place. induction s as [|c s IH]; intros place; [by left|]. cbn [walk].
  destruct (advance_before place c) as [H|[-> _]]; [|apply IH]. right.
  destruct (IH (advance place c)) as [->|H']; [done|]. by eapply before_trans.
Qed.

Lemma walk_app a b place : walk place (a +:+ b) = walk (walk place a) b.
Proof. revert place. induction a as [|c a IH]; intros place; [done|]. rewrite append_cons. cbn [walk]. apply IH. Qed.

Lemma take_empty n : str_take n EmptyString = EmptyString.
Proof. by destruct n. Qed.

Lemma take_grows a b s : (a <= b)%nat -> str_take b s = str_take a s +:+ str_take (b - a) (str_drop a s).
Proof.
  revert b s. induction a as [|a IH]; intros b s H.
  - assert (E0 : str_take 0 s = EmptyString) by (by destruct s). assert (E1 : str_drop 0 s = s) by (by destruct s).
    rewrite E0, E1, Nat.sub_0_r. done.
  - destruct b as [|b]; [lia|]. destruct s as [|c s]; [cbn [str_drop]; by rewrite !take_empty|].
    change (String c (str_take b s) = String c (str_take a s +:+ str_take (b - a) (str_drop a s))). f_equal. apply IH. lia.
Qed.

Lemma get_drop n s : String.get n s = match str_drop n s with EmptyString => None | String c _ => Some c end.
Proof. revert s. induction n as [|n IH]; intros [|c s]; try done. cbn. apply IH. Qed.

Lemma get_inside n s : (n < String.length s)%nat -> exists c, String.get n s = Some c.
Proof.
  revert s. induction n as [|n IH]; intros [|c s] H; cbn in H; [lia|by exists c|lia|]. cbn. apply IH. lia.
Qed.

(** The text starts with a character. *)
Definition text_ok (raw : string) : bool := match raw with String c _ => negb (is_continuation c) | EmptyString => true end.

Lemma boundary_starts raw n : text_ok raw = true -> is_char_boundary raw n = true -> (n < String.length raw)%nat ->
  exists c rest, str_drop n raw = String c rest /\ is_continuation c = false.
Proof.
  intros Ht Hb Hn. destruct (get_inside n raw Hn) as [c Hc]. pose proof (get_drop n raw) as Hd. rewrite Hc in Hd.
  destruct (str_drop n raw) as [|d rest] eqn:E; [done|]. injection Hd as <-. exists c, rest. split; [done|].
  destruct n as [|n].
  - destruct raw as [|c' raw]; [done|]. cbn in E. injection E as -> ->. cbn in Ht. by destruct (is_continuation c).
  - unfold is_char_boundary in Hb. rewrite Hc in Hb. by destruct (is_continuation c).
Qed.

Lemma floor_is_boundary raw n : is_char_boundary raw (floor_boundary raw n) = true.
Proof. induction n as [|n IH]; [done|]. cbn [floor_boundary]. by destruct (is_char_boundary raw (S n)) eqn:E. Qed.

Lemma floor_of_boundary raw n : is_char_boundary raw n = true -> floor_boundary raw n = n.
Proof. destruct n as [|n]; [done|]. intros H. cbn [floor_boundary]. by rewrite H. Qed.

Lemma floor_below raw n : (floor_boundary raw n <= n)%nat.
Proof. induction n as [|n IH]; [done|]. cbn [floor_boundary]. destruct (negb _); lia. Qed.

Lemma floor_highest raw n b : is_char_boundary raw b = true -> (b <= n)%nat -> (b <= floor_boundary raw n)%nat.
Proof.
  intros Hb. induction n as [|n IH]; [done|]. intros H. cbn [floor_boundary].
  destruct (is_char_boundary raw (S n)) eqn:E; cbn [negb]; [done|]. apply IH.
  destruct (decide (b = S n)) as [->|]; [congruence|lia].
Qed.

(** The line and the column are those of a walk from the start of the file to the
    character that holds the offset - one line further at each newline, one column
    at each character, however many octets it has - and no slice is ever taken
    off a character boundary.  So the position names one place: two boundaries of
    the file at the same line and column are the same. *)
Theorem position_names_a_place raw offset :
  let place := floor_boundary raw (Nat.min offset (String.length raw)) in
  is_char_boundary raw place = true /\ (place <= offset)%nat /\
  (forall b, is_char_boundary raw b = true -> (b <= Nat.min offset (String.length raw))%nat -> (b <= place)%nat) /\
  position raw offset = walk (1, 1)%N (str_take place raw) /\
  (text_ok raw = true -> forall b, is_char_boundary raw b = true -> (b <= String.length raw)%nat ->
     position raw b = position raw offset -> b = place).
Proof.
  intros place. assert (Hle : (place <= Nat.min offset (String.length raw))%nat) by apply floor_below.
  split_and!; [apply floor_is_boundary|lia|by intros b Hb ?; apply floor_highest|apply position_walk|].
  intros Ht b Hb Hbl. rewrite !position_walk, (Nat.min_l b) by done. rewrite (floor_of_boundary _ b) by done. fold place.
  assert (Hlt : forall x y, is_char_boundary raw x = true -> (x < y <= String.length raw)%nat ->
    before (walk (1, 1)%N (str_take x raw)) (walk (1, 1)%N (str_take y raw))).
  { intros x y Hx [Hxy Hy]. rewrite (take_grows x y) by lia. rewrite walk_app.
    destruct (boundary_starts raw x Ht Hx ltac:(lia)) as (c & rest & Hd & Hc). rewrite Hd.
    destruct (y - x)%nat as [|k] eqn:E; [lia|]. cbn [str_take walk].
    destruct (advance_before (walk (1, 1)%N (str_take x raw)) c) as [H|[_ H]]; [|congruence].
    destruct (walk_forward (str_take k rest) (advance (walk (1, 1)%N (str_take x raw)) c)) as [->|H']; [done|].
    by eapply before_trans. }
  intros Heq. destruct (Nat.lt_trichotomy b place) as [H|[H|H]]; [|done|].
  - pose proof (Hlt b place Hb ltac:(lia)) as Hbf. rewrite Heq in Hbf. unfold before in Hbf. lia.
  - pose proof (Hlt place b (floor_is_boundary _ _) ltac:(lia)) as Hbf. rewrite Heq in Hbf. unfold before in Hbf. lia.
Qed.

(** ** What an error cannot tell *)

(** Octets of a kind: a newline, the rest of a character, the start of one. *)
Definition same_kind (c d : Ascii.ascii) : Prop :=
  Ascii.eqb c char_newline = Ascii.eqb d char_newline /\ is_continuation c = is_continuation d.

Inductive same_shape : string -> string -> Prop :=
| shape_empty : same_shape EmptyString EmptyString
| shape_cons c d s t : same_kind c d -> same_shape s t -> same_shape (String c s) (String d t).

Lemma shape_length s t : same_shape s t -> String.length s = String.length t.
Proof. induction 1; cbn; congruence. Qed.

Lemma shape_get s t n : same_shape s t ->
  match String.get n s, String.get n t with
  | Some c, Some d => same_kind c d
  | None, None => True
  | _, _ => False
  end.
Proof. intros H. revert n. induction H as [|c d s t Hk H IH]; intros [|n]; cbn; try done. apply IH. Qed.

Lemma shape_boundary s t n : same_shape s t -> is_char_boundary s n = is_char_boundary t n.
Proof.
  intros H. unfold is_char_boundary. destruct n as [|n]; [done|]. pose proof (shape_get _ _ (S n) H) as Hg.
  rewrite (shape_length _ _ H). destruct (String.get (S n) s), (String.get (S n) t); try done. destruct Hg as [_ Hc]. by rewrite Hc.
Qed.

Lemma shape_floor s t n : same_shape s t -> floor_boundary s n = floor_boundary t n.
Proof. intros H. induction n as [|n IH]; [done|]. cbn [floor_boundary]. by rewrite (shape_boundary _ _ _ H), IH. Qed.

Lemma shape_walk s t n place : same_shape s t -> walk place (str_take n s) = walk place (str_take n t).
Proof.
  intros H. revert n place. induction H as [|c d s t [Hn Hc] H IH]; intros [|n] place; try done. cbn [str_take walk].
  assert (E : advance place c = advance place d) by (unfold advance; by rewrite Hn, Hc). by rewrite E.
Qed.

Lemma shape_position s t offset : same_shape s t -> position s offset = position t offset.
Proof. intros H. rewrite !position_walk, (shape_length _ _ H), (shape_floor _ _ _ H). by apply shape_walk. Qed.

(** A parse error tells nothing of the file but where: for two files that differ in
    any characters at all - those of a token, say - but not in where lines and
    characters begin, and for which the parser reports the same span and the same
    words, the error is the same value, and every rendering of it the same text. *)
Theorem parse_error_is_blind {T} (parser : Parser (T := T)) raw raw' span message :
  same_shape raw raw' ->
  parser raw = Err (span, message) -> parser raw' = Err (span, message) ->
  exists e, through_gate parser raw = Err e /\ through_gate parser raw' = Err e /\
    pe_message e = message /\ (forall p, pe_position e = Some p -> exists s, span = Some s /\ p = position raw s.1).
Proof.
  intros Hs H1 H2. unfold through_gate. rewrite H1, H2. cbn [map_err fst snd]. exists (ParseError_new raw span message).
  assert (E : ParseError_new raw' span message = ParseError_new raw span message).
  { unfold ParseError_new. destruct span as [sp|]; [|done]. cbn. by rewrite (shape_position _ _ _ Hs). }
  rewrite E. split_and!; [done|done|done|].
  unfold ParseError_new. destruct span as [sp|]; [|done]. cbn. intros p [= <-]. by exists sp.
Qed.

(** ** A broken file, reported *)

Definition ex_broken : string := "origin = z" +:+ String char_newline "admin_token = t0ken".
Definition ex_other : string := "origin = z" +:+ String char_newline "admin_token = other".

Definition ex_parser : Parser (T := unit) := fun raw => Err (Some (25, 30)%nat, "expected a quoted string"%string).

Lemma ex_same_shape : same_shape ex_broken ex_other.
Proof. repeat (apply shape_cons; [split; reflexivity|]). apply shape_empty. Qed.

Lemma parse_error_is_blind_witness :
  exists e, through_gate ex_parser ex_broken = Err e /\ through_gate ex_parser ex_other = Err e /\
    ParseError_fmt e = "TOML parse error at line 2, column 15: expected a quoted string"%string.
Proof.
  destruct (parse_error_is_blind ex_parser ex_broken ex_other (Some (25, 30)%nat) "expected a quoted string" ex_same_shape
    eq_refl eq_refl) as (e & H1 & H2 & _). exists e. split; [exact H1|]. split; [exact H2|].
  assert (E : @Err ParseError unit e = through_gate ex_parser ex_broken) by (symmetry; exact H1).
  vm_compute in E. assert (Hi : forall a b : ParseError, @Err ParseError unit a = Err b -> a = b) by (by intros a b [= ->]).
  rewrite (Hi _ _ E). reflexivity.
Defined.

(** An offset inside a character of two octets is the place of the character. *)
Definition ex_accented : string := String (Ascii.ascii_of_N 104) (String (Ascii.ascii_of_N 195) (String (Ascii.ascii_of_N 169) "llo")).

Lemma position_names_a_place_witness : 1%nat = floor_boundary ex_accented (Nat.min 2 (String.length ex_accented)).
Proof.
  refine (proj2 (proj2 (proj2 (proj2 (position_names_a_place ex_accented 2)))) _ 1%nat _ _ _); try reflexivity.
  apply Nat.leb_le. reflexivity.
Defined.
