(* ===== verification/SeedFree.v ===== *)
(** * SeedFree: the hash seed cannot be observed (zone.rs, commands/zone.rs)

    Two builds of one configuration that drew different seeds hold the same nodes,
    records, referrals and findings, and answer alike; so what [vega check] says of a
    file is what the server that loads it will find. *)

From S2P Require Import Prelude Names Rdata Hashing Zone Lookup Build Checked BuildFacts LayoutFacts ArenaFacts Finish Answers.
From S2P Require Import Config ConfigTheorems Plain ZoneExamples ReloadExamples.
Local Open Scope vega_scope.
Local Open Scope list_scope.

(** ** Folds that run alike *)

Lemma fold_res_twin {E S A} (R : S -> S -> Prop) (f g : S -> A -> result E S) l s t s' :
  (forall s t a s', R s t -> f s a = Ok s' -> exists t', g t a = Ok t' /\ R s' t') ->
  R s t -> fold_res f s l = Ok s' -> exists t', fold_res g t l = Ok t' /\ R s' t'.
Proof.
  intros Hstep. revert s t. induction l as [|a l IH]; intros s t HR H; cbn in *; [injection H as <-; eauto|].
  destruct (f s a) as [s1|] eqn:Ef; [|done]. destruct (Hstep _ _ _ _ HR Ef) as (t1 & -> & HR1). by eapply IH.
Qed.

Section Twins.
Context {HN : HickoryNames} {HL : HickoryNamesLaws HN} {HR : HickoryRdata HN} {HO : HashOrder}.
Context {HT : HashTableApi} {TL : HashTableLaws HT}.

(** ** Arenas that differ in their hashes only *)

Record twin (a b : Arena) : Prop := {
  tw_slots : ar_slots a = ar_slots b;
  tw_nodes : ar_nodes a = ar_nodes b;
  tw_rrsets : ar_rrsets a = ar_rrsets b;
  tw_rdata : ar_rdata a = ar_rdata b;
  tw_hashes : length (ar_hashes a) = length (ar_hashes b);
  tw_depth : ar_max_depth a = ar_max_depth b;
  tw_dropped : ar_dropped a = ar_dropped b;
  tw_diagnostics : ar_diagnostics a = ar_diagnostics b;
}.

Lemma place_node_twin s1 s2 cut_of delegations a b entry a' :
  twin a b -> place_node s1 cut_of delegations a entry = Ok a' ->
  exists b', place_node s2 cut_of delegations b entry = Ok b' /\ twin a' b'.
Proof.
  intros [H1 H2 H3 H4 H5 H6 H7 H8] H. destruct entry as [rank position]. unfold place_node in *.
  rewrite <- H1, <- H2, <- H3, <- H4, <- H6, <- H7, <- H8. destruct (ar_slots a !! position) as [[[lower scratch]|]|].
  - apply rbind_ok in H as (here & -> & H). cbn [rbind].
    destruct (apply_cut _ _ _ _ _) as [[[runs flags] dropped] notes].
    apply rbind_ok in H as (start & -> & H). cbn [rbind]. apply rbind_ok in H as ([[rrs rds] flags'] & -> & H). cbn [rbind].
    apply rbind_ok in H as (stop & -> & H). cbn [rbind]. injection H as <-. eexists. split; [done|].
    constructor; try done. cbn [ar_hashes]. by rewrite !length_app, H5.
  - injection H as <-. eexists. by split.
  - injection H as <-. eexists. by split.
Qed.

Lemma build_index_twin h1 h2 t1 : length h1 = length h2 -> build_index h1 = Ok t1 -> exists t2, build_index h2 = Ok t2.
Proof.
  intros Hl. unfold build_index.
  assert (Hgen : forall k h1 h2 t t' r, length h1 = length h2 ->
    fold_res (fun index p => let? i := arena_offset (fst p) in Ok (ht_insert_unique (snd p) i index)) t (imap (fun i h => ((k + i)%nat, h)) h1) = Ok r ->
    exists r', fold_res (fun index p => let? i := arena_offset (fst p) in Ok (ht_insert_unique (snd p) i index)) t' (imap (fun i h => ((k + i)%nat, h)) h2) = Ok r').
  { clear. intros k h1. revert k. induction h1 as [|x h1 IH]; intros k [|y h2] t t' r Hl H; try done; [by eexists|].
    cbn [imap fold_res fst snd] in *. destruct (arena_offset (k + 0)) as [i|] eqn:E; [|done]. cbn [rbind] in *.
    assert (Hs : forall h : list N, imap ((fun i (h : N) => ((k + i)%nat, h)) ∘ S) h = imap (fun i h => ((S k + i)%nat, h)) h).
    { intros h. apply imap_ext. intros j z _. cbn. f_equal. lia. }
    rewrite Hs in H |- *. eapply IH; [by injection Hl|exact H]. }
  intros H. exact (Hgen 0%nat h1 h2 _ _ _ Hl H).
Qed.

(** ** Zones that differ in their seed and index only *)

Record twins (z1 z2 : Zone) : Prop := {
  tz_origin : lower_origin z1 = lower_origin z2;
  tz_ttl : default_ttl z1 = default_ttl z2;
  tz_soa : soa z1 = soa z2;
  tz_nodes : nodes z1 = nodes z2;
  tz_rrsets : rrsets z1 = rrsets z2;
  tz_rdata : rdata z1 = rdata z2;
  tz_count : record_count z1 = record_count z2;
}.

Lemma twins_find z1 z2 ls : twins z1 z2 -> find_node z1 ls = find_node z2 ls.
Proof. intros H. unfold find_node. by rewrite (tz_nodes _ _ H). Qed.

Lemma twins_exact z1 z2 name : twins z1 z2 -> ZoneWf z1 -> ZoneWf z2 ->
  (idx ← exact_node z1 name (SuffixHashes_new (hash_seed z1) name); node_get z1 idx) =
  (idx ← exact_node z2 name (SuffixHashes_new (hash_seed z2) name); node_get z2 idx).
Proof. intros H W1 W2. rewrite !exact_node_get by done. by rewrite (twins_find _ _ _ H). Qed.

Lemma twins_rrsets z1 z2 nd t : twins z1 z2 -> rrsets_of z1 nd t = rrsets_of z2 nd t.
Proof. intros H. unfold rrsets_of. by rewrite (tz_rrsets _ _ H). Qed.

Lemma twins_emit z1 z2 run owner out : twins z1 z2 -> emit z1 run owner out = emit z2 run owner out.
Proof. intros H. unfold emit. by rewrite (tz_rdata _ _ H). Qed.

Lemma twins_referral z1 z2 nd : twins z1 z2 -> ZoneWf z1 -> ZoneWf z2 -> node_referral z1 nd = node_referral z2 nd.
Proof.
  intros H W1 W2. unfold node_referral. rewrite (twins_rrsets z1 z2) by done. rewrite (tz_rdata _ _ H), (twins_emit z1 z2) by done.
  assert (Hstep : forall acc v, referral_target z1 (lower_from (nd_name nd)) acc v = referral_target z2 (lower_from (nd_name nd)) acc v).
  { intros [[additional seen] notes] v. destruct v as [| |ns| | | | | | | |]; try done. unfold referral_target, Zone_contains. rewrite (tz_origin _ _ H), (twins_exact z1 z2) by done.
    destruct (if zone_of (lower_origin z2) (lower_from ns) then _ else None) as [g|]; [|done].
    by rewrite !(twins_rrsets z1 z2), !(twins_emit z1 z2) by done. }
  assert (Hfold : forall l acc, fold_left (referral_target z1 (lower_from (nd_name nd))) l acc =
                                fold_left (referral_target z2 (lower_from (nd_name nd))) l acc).
  { induction l as [|v l IH]; intros acc; [done|]. cbn [fold_left]. by rewrite Hstep. }
  by rewrite Hfold.
Qed.

Lemma twins_referrals z1 z2 notes : twins z1 z2 -> ZoneWf z1 -> ZoneWf z2 -> build_referrals z1 notes = build_referrals z2 notes.
Proof.
  intros H W1 W2. unfold build_referrals. rewrite (tz_nodes _ _ H). generalize (imap pair (nodes z2)) as l. intros l.
  assert (Hgen : forall acc : gmap N Referral * list Diagnostic, fold_left (fun acc p => let '(i, nd) := p in
      if negb (flags_contains (nd_flags nd) DELEGATION) then acc
      else match arena_offset i with Err _ => acc | Ok i => let '(r, notes) := node_referral z1 nd in (<[i := r]> (fst acc), snd acc ++ notes) end) l acc =
    fold_left (fun acc p => let '(i, nd) := p in
      if negb (flags_contains (nd_flags nd) DELEGATION) then acc
      else match arena_offset i with Err _ => acc | Ok i => let '(r, notes) := node_referral z2 nd in (<[i := r]> (fst acc), snd acc ++ notes) end) l acc);
    [|apply Hgen].
  induction l as [|[i nd] l IH]; intros acc; [done|]. cbn [fold_left]. rewrite (twins_referral z1 z2) by done. apply IH.
Qed.

Lemma twins_abs z1 z2 : twins z1 z2 -> abs_zone z1 = abs_zone z2.
Proof.
  intros H. unfold abs_zone, find_node, abs_node, node_values, run_values.
  by rewrite (tz_origin _ _ H), (tz_nodes _ _ H), (tz_rrsets _ _ H), (tz_rdata _ _ H).
Qed.

(** ** Two builds *)

Lemma finish_twin b soa_in s1 s2 z1 : BuilderOk b -> finish b soa_in s1 = Ok z1 ->
  exists z2, finish b soa_in s2 = Ok z2 /\ twins z1 z2 /\ referrals z1 = referrals z2 /\ diagnostics z1 = diagnostics z2.
Proof.
  intros Hb H1. destruct (finish_inv _ _ _ _ H1) as (ly & ar1 & F1).
  assert (exists ar2, fold_res (place_node s2 (ly_cut_of ly) (ly_delegations ly))
      (mkArena (map Some (entries_of b)) [] [] [] [] 0 0 []) (imap pair (ly_order ly)) = Ok ar2 /\ twin ar1 ar2) as (ar2 & Har2 & Ht).
  { eapply (fold_res_twin twin); [|by constructor|apply (fi_arena _ _ _ _ _ _ F1)]. intros. by eapply place_node_twin. }
  destruct (build_index_twin _ (ar_hashes ar2) _ (tw_hashes _ _ Ht) (fi_index _ _ _ _ _ _ F1)) as [idx2 Hidx2].
  assert (exists z2, finish b soa_in s2 = Ok z2) as [z2 H2].
  { unfold finish. fold (with_apex b). fold (closed_builder b). unfold check_invariants. rewrite (fi_checked _ _ _ _ _ _ F1). cbn [rbind].
    rewrite <- (fi_soa _ _ _ _ _ _ F1). cbn [ok_or rbind]. fold (entries_of b). rewrite (fi_layout _ _ _ _ _ _ F1). cbn [rbind].
    rewrite Har2. cbn [rbind]. rewrite Hidx2. cbn [rbind]. destruct (build_referrals _ _) as [refs diags]. by eexists. }
  exists z2. split; [done|]. destruct (finish_inv _ _ _ _ H2) as (ly' & ar2' & F2).
  assert (ly' = ly) as ->.
  { pose proof (fi_layout _ _ _ _ _ _ F1) as E1. pose proof (fi_layout _ _ _ _ _ _ F2) as E2. congruence. }
  assert (ar2' = ar2) as ->.
  { pose proof (fi_arena _ _ _ _ _ _ F2) as E2. congruence. }
  assert (Htw : twins z1 z2).
  { pose proof (fi_soa _ _ _ _ _ _ F1) as S1. pose proof (fi_soa _ _ _ _ _ _ F2) as S2. constructor.
    - by rewrite (fi_origin _ _ _ _ _ _ F1), (fi_origin _ _ _ _ _ _ F2).
    - by rewrite (fi_ttl _ _ _ _ _ _ F1), (fi_ttl _ _ _ _ _ _ F2).
    - congruence.
    - by rewrite (fi_nodes _ _ _ _ _ _ F1), (fi_nodes _ _ _ _ _ _ F2), (tw_nodes _ _ Ht).
    - by rewrite (fi_rrsets _ _ _ _ _ _ F1), (fi_rrsets _ _ _ _ _ _ F2), (tw_rrsets _ _ Ht).
    - by rewrite (fi_rdata _ _ _ _ _ _ F1), (fi_rdata _ _ _ _ _ _ F2), (tw_rdata _ _ Ht).
    - by rewrite (fi_count _ _ _ _ _ _ F1), (fi_count _ _ _ _ _ _ F2), (tw_dropped _ _ Ht). }
  split; [done|]. pose proof (finished_wf b Hb soa_in s1 z1 ly ar1 F1) as W1. pose proof (finished_wf b Hb soa_in s2 z2 ly ar2 F2) as W2.
  pose proof (fi_referrals _ _ _ _ _ _ F1) as R1. pose proof (fi_referrals _ _ _ _ _ _ F2) as R2.
  rewrite <- (tw_diagnostics _ _ Ht) in R2.
  rewrite (twins_referrals _ (@mkZone HN HT (lower_origin z2) (default_ttl z2) (soa z2) (nodes z2) (rrsets z2) (rdata z2)
      (index z2) (hash_seed z2) (origin_depth z2) (max_depth z2) ∅ [] (record_count z2))) in R1.
  - assert (E : (referrals z1, diagnostics z1) = (referrals z2, diagnostics z2)) by congruence. by injection E.
  - destruct Htw. by constructor.
  - destruct W1. by constructor.
  - destruct W2. by constructor.
Qed.

Lemma from_config_twin cfg s1 s2 z1 : plain_config cfg -> from_config s1 cfg = Ok z1 ->
  exists z2, from_config s2 cfg = Ok z2 /\ twins z1 z2 /\ referrals z1 = referrals z2 /\ diagnostics z1 = diagnostics z2.
Proof.
  intros Hp H. unfold from_config in *. apply rbind_ok in H as (origin & Ho & H). rewrite Ho. cbn [rbind].
  apply rbind_ok in H as (soa_in & Hs & H). rewrite Hs. cbn [rbind]. apply rbind_ok in H as (b & Hb & H). rewrite Hb. cbn [rbind].
  eapply finish_twin; [|done]. eapply config_builder_ok; [done|]. unfold config_builder. rewrite Ho. exact Hb.
Qed.

End Twins.

(** ** [zone check] *)

Section Check.
Context {HN : HickoryNames} {HR : HickoryRdata HN} {HO : HashOrder} {HT : HashTableApi}.

Inductive CheckError : Type := BuildFailed (e : BuildError) | Findings (count : nat).

(** [report_findings]; Printing has what is printed. *)
Definition report_findings (zone : Zone) : result CheckError unit :=
  match diagnostics zone with [] => Ok tt | findings => Err (Findings (length findings)) end.

(** [check], after the configuration has loaded. *)
Definition zone_check (seed : N) (config : Config) : result CheckError unit :=
  let? zone := map_err BuildFailed (from_config seed (cfg_zone config)) in
  report_findings zone.

End Check.

Section Verdict.
Context {HN : HickoryNames} {HL : HickoryNamesLaws HN} {HR : HickoryRdata HN} {HO : HashOrder}.
Context {HT : HashTableApi} {TL : HashTableLaws HT}.

(** C20: the seed a process draws for its hashes cannot be observed: for one
    configuration, [vega check] and the build of any server give the same verdict; if
    they build, both zones hold as many records and the same findings, and every
    lookup has the same answer in both - the bisection, the probes and the referrals
    included. *)
Theorem seed_is_unobservable config check_seed serve_seed :
  plain_config (cfg_zone config) ->
  let verdict := zone_check check_seed config in
  match from_config serve_seed (cfg_zone config) with
  | Err _ => exists e, verdict = Err (BuildFailed e)
  | Ok z =>
      verdict = report_findings z /\
      forall z', from_config check_seed (cfg_zone config) = Ok z' ->
        record_count z' = record_count z /\ diagnostics z' = diagnostics z /\
        forall name t, Zone_lookup z' name t = Zone_lookup z name t
  end.
Proof.
  intros Hp verdict. unfold verdict, zone_check. destruct (from_config serve_seed (cfg_zone config)) as [z|e] eqn:E.
  - destruct (from_config_twin _ _ check_seed _ Hp E) as (z' & E' & Htw & Hr & Hd). rewrite E'. cbn [map_err rbind].
    unfold report_findings. rewrite Hd. split; [done|]. intros ? [= <-]. split_and!; [by rewrite (tz_count _ _ Htw)|done|].
    intros name t. rewrite !lookup_spec by (by eapply from_config_wf). by rewrite (twins_abs _ _ Htw), Hr.
  - destruct (from_config check_seed (cfg_zone config)) as [z'|e'] eqn:E'; [|by eexists].
    exfalso. destruct (from_config_twin _ _ serve_seed _ Hp E') as (z & Ez & _). congruence.
Qed.

End Verdict.

Lemma seed_is_unobservable_witness : zone_check 7 (overlay ex_cli ex_plain_toml) = report_findings ex_z.
Proof.
  pose proof (seed_is_unobservable (overlay ex_cli ex_plain_toml) 7 ex_seed ex_plain) as H.
  change (cfg_zone (overlay ex_cli ex_plain_toml)) with ex_cfg in H. rewrite ex_built in H. exact (proj1 H).
Defined.
