(* ===== verification/Dispatch.v ===== *)
(** * Dispatch: the command line, from its arguments to its exit code (main.rs, cli.rs,
    commands/zone.rs, editor.rs's init)

    Every subcommand over the directory, the sockets and the clock it is run with.
    Binding the server's sockets and running it is [run], an argument here (Shutdown
    models how it ends); Printing has what is printed. *)

From S2P Require Import Prelude Names Rdata Hashing Zone Build Cas RateLimit Metrics Handler Config Toml Editor Files Serial Commands.
From S2P Require Import Text Exposition Client DnsClient SeedFree.
From stdpp Require Import pretty.
Local Open Scope vega_scope.
Local Open Scope list_scope.

(** ** The environment *)

Definition RENAMED_ENV : list (string * string) :=
  [("DNS_CONFIG", "VEGA_CONFIG"); ("DNS_UDP", "VEGA_UDP"); ("DNS_TCP", "VEGA_TCP");
   ("DNS_ADMIN_LISTEN", "VEGA_ADMIN_LISTEN"); ("DNS_ADMIN_TOKEN", "VEGA_ADMIN_TOKEN");
   ("DNS_DOMAIN", "VEGA_DOMAIN"); ("DNS_RATE_LIMIT_QPS", "VEGA_RATE_LIMIT_QPS");
   ("DNS_RATE_LIMIT_BURST", "VEGA_RATE_LIMIT_BURST"); ("DNS_TCP_TIMEOUT_SECS", "VEGA_TCP_TIMEOUT_SECS");
   ("DNS_NO_BUILTINS", "VEGA_NO_BUILTINS"); ("DNS_LOG_FORMAT", "VEGA_LOG_FORMAT");
   ("DNS_LOG_LEVEL", "VEGA_LOG_LEVEL")]%string.

(** One pair of the loop: the variables, and the names warned about. *)
Definition migrate_one (acc : gmap string string * list string) (pair : string * string) : gmap string string * list string :=
  let '(old, new) := pair in
  match acc.1 !! new with
  | Some _ => acc
  | None => match acc.1 !! old with
            | Some value => (<[new := value]> acc.1, acc.2 ++ [old])
            | None => acc
            end
  end.

Definition migrate_legacy_env (vars : gmap string string) : gmap string string * list string :=
  fold_left migrate_one RENAMED_ENV (vars, []).

(** ** Arguments *)

Inductive RecordAction : Type :=
| ActList (name record_type : option string)
| ActGet (name : string) (record_type : option string)
| ActAdd (name record_type : string) (values : list string) (ttl : option N) (replace bump_serial reload : bool)
| ActDelete (name : string) (record_type : option string) (values : list string) (bump_serial reload : bool).

Inductive ZoneAction : Type := ZoneShow | ZoneExport | ZoneBumpSerial.

Inductive Command : Type :=
| CmdServe | CmdCheck
| CmdInit (origin : string) (output : option string)
| CmdRecord (action : RecordAction)
| CmdZone (action : ZoneAction)
| CmdQuery (name record_type : string) (server : option string) (use_tcp : bool)
| CmdStatus | CmdReload | CmdHealthcheck
| CmdCompletions.

Record Cli : Type := mkCli { cli_command : option Command; cli_global : GlobalArgs }.

Definition CONFIG_SEARCH_PATH : list string :=
  ["vega.toml"; "/etc/vega/vega.toml"; "/usr/local/etc/vega/vega.toml";
   "dns-server.toml"; "/etc/dns-server/dns-server.toml"; "/usr/local/etc/dns-server/dns-server.toml"]%string.

(** Every entry of a directory of Files is a file. *)
Definition is_file (fs : Fs) (path : string) : bool := bool_decide (is_Some (entries fs !! path)).

Definition config_path (cli : Cli) (fs : Fs) : option string :=
  match cli_config (cli_global cli) with
  | Some path => Some path
  | None => List.find (is_file fs) CONFIG_SEARCH_PATH
  end.

Definition with_config_path (global : GlobalArgs) (path : option string) : GlobalArgs :=
  mkGlobalArgs path (cli_udp global) (cli_tcp global) (cli_admin_listen global) (cli_domain global)
    (cli_rate_limit_qps global) (cli_rate_limit_burst global) (cli_tcp_timeout_secs global)
    (cli_shutdown_drain_secs global) (cli_no_builtins global) (cli_log_format global) (cli_log_level global)
    (cli_admin_token global) (cli_json global) (cli_verbose global).

(** ** Addresses *)

(** The standard library's text of an address, read and written. *)
Class AddrText : Type := {
  socket_addr_from_str : string -> option SocketAddr;
  ip_addr_from_str : string -> option IpAddr;
  socket_addr_to_string : SocketAddr -> string;
}.

Definition DEFAULT_ADMIN_ADDR : SocketAddr := SockV4 2130706433 9100.
Definition DEFAULT_QUERY_ADDR : SocketAddr := SockV4 2130706433 53.

Definition addr_port (a : SocketAddr) : N := match a with SockV4 _ port => port | SockV6 _ port _ _ => port end.
Definition is_unspecified (ip : IpAddr) : bool := match ip with V4 a => (a =? 0)%N | V6 a => (a =? 0)%N end.

Fixpoint trim_start_ats (s : string) : string :=
  match s with
  | String c s' => if Ascii.eqb c (Ascii.ascii_of_N 64) then trim_start_ats s' else s
  | EmptyString => EmptyString
  end.

Section Addresses.
Context {AT : AddrText}.

(** [dnsclient::parse_server]. *)
Definition parse_server (input : string) : option SocketAddr :=
  let trimmed := trim_start_ats (str_trim input) in
  if decide (trimmed = EmptyString) then None
  else match socket_addr_from_str trimmed with
       | Some addr => Some addr
       | None => match ip_addr_from_str trimmed with
                 | Some (V4 ip) => Some (SockV4 ip 53)
                 | Some (V6 ip) => Some (SockV6 ip 53 0 0)
                 | None => None
                 end
       end.

Definition admin_addr (global : GlobalArgs) : SocketAddr := default DEFAULT_ADMIN_ADDR (cli_admin_listen global).

Definition query_target (files : Config.Files) (global : GlobalArgs) (server : option string) : option SocketAddr :=
  match server with
  | Some server => parse_server server
  | None =>
      let listener := match Config_load files global with
                      | Ok config => match udp config with addr :: _ => Some addr | [] => head (tcp config) end
                      | Err _ => None
                      end in
      match listener with
      | Some addr => Some (if is_unspecified (addr_ip addr) then SockV4 2130706433 (addr_port addr) else addr)
      | None => Some DEFAULT_QUERY_ADDR
      end
  end.

End Addresses.

(** ** The zone commands *)

Section ZoneCommands.
Context {TM : Toml} {HN : HickoryNames} {HR : HickoryRdata HN} {RT : RecordTypeText} {HC : Crate}.

(** [zone show]'s summary. *)
Record ZoneSummary : Type := mkSummary {
  zs_origin : string;
  zs_serial : option N;
  zs_record_sets : nat;
  zs_records : nat;
  zs_names : gset string;
  zs_by_type : gmap string nat;
}.

Definition by_type (records : list RecordEntry) : gmap string nat :=
  fold_left (fun m r => <[re_type r := (default 0 (m !! re_type r) + length (re_values r))%nat]> m) records ∅.

Definition zone_show (doc : Table) : ZoneSummary :=
  let records := records doc in
  mkSummary (default "<unset>"%string (ConfigEditor_origin doc)) (serial doc) (length records)
    (sum_list_with (length ∘ re_values) records) (list_to_set (map re_name records)) (by_type records).

(** [zone export], line by line. *)
Definition char_tab : Ascii.ascii := Ascii.ascii_of_N 9.
Definition tabbed (a b : string) : string := a +:+ String char_tab b.

Definition export_line (r : RecordEntry) (value : string) : string :=
  let owner := if decide (re_name r = "@"%string) then "@"%string else re_name r in
  let rest := tabbed "IN" (tabbed (re_type r) value) in
  tabbed owner (match re_ttl r with None => rest | Some t => tabbed (pretty t) rest end).

Definition export_records (records : list RecordEntry) : list string :=
  flat_map (fun r => map (export_line r) (re_values r)) records.

Definition zone_export (path : string) (doc : Table) : list string :=
  ["; exported by " +:+ NAME +:+ " " +:+ VERSION; "; source: " +:+ path;
   "$ORIGIN " +:+ default "example.invalid" (ConfigEditor_origin doc) +:+ "."]%string
  ++ (match serial doc with Some serial => ["; SOA serial " +:+ pretty serial]%string | None => [] end)
  ++ [EmptyString] ++ export_records (records doc).

(** [ConfigEditor::init]: the file a new zone starts from, its origin as it was given. *)
Definition starter (origin : string) : string :=
  unlines
    ["# vega configuration. See vega.example.toml for every option.";
     "";
     "[server]";
     "udp = [" +:+ quoted "0.0.0.0:53" +:+ "]";
     "tcp = [" +:+ quoted "0.0.0.0:53" +:+ "]";
     "admin_listen = " +:+ quoted "127.0.0.1:9100";
     "log_format = " +:+ quoted "json";
     "";
     "[zone]";
     "origin = " +:+ quoted origin;
     "default_ttl = 300";
     "builtins = true";
     "";
     "[zone.soa]";
     "mname = " +:+ quoted ("ns1." +:+ origin +:+ ".");
     "rname = " +:+ quoted ("hostmaster." +:+ origin +:+ ".");
     "serial = 1";
     "minimum = 60";
     "";
     "# RFC 1034 §4.2.1 requires an NS record set at the apex, and the server refuses";
     "# to start without one: it names the servers authoritative for this zone, and";
     "# every delegation checker and every secondary reads it. Point it at this host.";
     "[[zone.records]]";
     "name = " +:+ quoted "@";
     "type = " +:+ quoted "NS";
     "values = [" +:+ quoted ("ns1." +:+ origin +:+ ".") +:+ "]";
     "";
     "[[zone.records]]";
     "name = " +:+ quoted "ns1";
     "type = " +:+ quoted "A";
     "values = [" +:+ quoted "127.0.0.1" +:+ "]        # replace with this server's public address"]%string.

(** [make_dirs] says whether the parent directory could be made. *)
Definition ConfigEditor_init (env : Env) (make_dirs : string -> bool) (fs : Fs) (path origin : string)
    : Fs * result CommandError bool :=
  if is_file fs path then (fs, Ok false)
  else if negb (make_dirs path) then (fs, Err (SaveFailed WriteFailed))
  else
    let job := mkJob (env_pid env) (env_nanos env) (starter origin) (env_umode env) (env_stat_denied env) in
    let '(fs, p) := write_atomically path (env_faults env) job fs in
    (fs, match p with Returned (Err e) => Err (SaveFailed e) | _ => Ok true end).

Definition zone_init (env : Env) (make_dirs : string -> bool) (fs : Fs) (output : option string) (origin : string)
    : Fs * result CommandError bool :=
  ConfigEditor_init env make_dirs fs (default "vega.toml"%string output) origin.

End ZoneCommands.

(** ** Dispatch *)

Section Errors.
Context {HN : HickoryNames}.

Inductive CliError : Type :=
| LoadFailed (e : ConfigError)
| CheckFailed (e : CheckError)
| CommandFailed (e : CommandError)
| BadServer
| QueryFailed (e : QueryError)
| HttpFailed (e : HttpError).

End Errors.

Definition SUCCESS : N := 0.
Definition FAILURE : N := 1.
Definition exit_code (ok : bool) : N := if ok then SUCCESS else FAILURE.

Section Dispatch.
Context {TM : Toml} {HN : HickoryNames} {HR : HickoryRdata HN} {RT : RecordTypeText} {HC : Crate} {HO : HashOrder}
  {HT : HashTableApi} {F : F64} {J : JsonText} {AT : AddrText} {MC : MessageCodec}.

(** What a command is run with. *)
Record World : Type := mkWorld {
  w_env : Env;
  w_make_dirs : string -> bool;
  (** what the deserialiser makes of the files *)
  w_files : Fs -> Config.Files;
  w_seed : N;
  w_http : Connection;
  w_sockets : Sockets;
  w_request_id : N;
  (** the server itself: its exit code, unless it could not start or failed *)
  w_run : Config -> option N;
}.

Definition serve_command (w : World) (fs : Fs) (global : GlobalArgs) : result CliError N :=
  let? config := map_err LoadFailed (Config_load (w_files w fs) global) in
  Ok (default FAILURE (w_run w config)).

Definition finish_edit_command (w : World) (global : GlobalArgs) (reload : bool) : result CliError N :=
  let? ok := map_err HttpFailed
    (finish_edit (w_http w) (socket_addr_to_string (admin_addr global)) (cli_admin_token global) reload) in
  Ok (exit_code ok).

(** [None] is the end of the process. *)
Definition record_command (w : World) (cli : Cli) (fs : Fs) (config : option string) (action : RecordAction)
    : option (Fs * result CliError N) :=
  let finish (fs : Fs) (r : result CommandError EditResult) (reload : bool) : Fs * result CliError N :=
    (fs, let? _ := map_err CommandFailed r in finish_edit_command w (cli_global cli) reload) in
  match action with
  | ActList name record_type =>
      Some (fs, let? _ := map_err CommandFailed (open_config (w_env w) fs config) in Ok SUCCESS)
  | ActGet name record_type =>
      Some (fs, let? (_, doc) := map_err CommandFailed (open_config (w_env w) fs config) in
                Ok (exit_code (record_get doc name record_type).1))
  | ActAdd name record_type values ttl replace bump_serial reload =>
      '(fs, r) ← record_add (w_env w) fs config name record_type values ttl replace bump_serial;
      Some (finish fs r reload)
  | ActDelete name record_type values bump_serial reload =>
      let '(fs, r) := record_delete (w_env w) fs config name record_type values bump_serial in
      Some (finish fs r reload)
  end.

(** [Cli::dispatch].  The [option] is the process, which only the lexer behind
    [record add] can end here: a [println!] to a closed standard output, which panics,
    and whatever happens to a server while it runs are not modelled as ends. *)
Definition Cli_dispatch (w : World) (cli : Cli) (fs : Fs) : option (Fs * result CliError N) :=
  let config := config_path cli fs in
  let global := with_config_path (cli_global cli) config in
  let admin := socket_addr_to_string (admin_addr (cli_global cli)) in
  let token := cli_admin_token (cli_global cli) in
  let same (r : result CliError N) := Some (fs, r) in
  match cli_command cli with
  | None | Some CmdServe => same (serve_command w fs global)
  | Some CmdCheck =>
      same (let? config := map_err LoadFailed (Config_load (w_files w fs) global) in
            let? _ := map_err CheckFailed (zone_check (w_seed w) config) in Ok SUCCESS)
  | Some (CmdInit origin output) =>
      let '(fs, r) := zone_init (w_env w) (w_make_dirs w) fs output origin in
      Some (fs, let? _ := map_err CommandFailed r in Ok SUCCESS)
  | Some (CmdRecord action) => record_command w cli fs config action
  | Some (CmdZone ZoneShow) | Some (CmdZone ZoneExport) =>
      same (let? _ := map_err CommandFailed (open_config (w_env w) fs config) in Ok SUCCESS)
  | Some (CmdZone ZoneBumpSerial) =>
      let '(fs, r) := bump_serial (w_env w) fs config in
      Some (fs, let? _ := map_err CommandFailed r in Ok SUCCESS)
  | Some (CmdQuery name record_type server use_tcp) =>
      same (let? target := ok_or BadServer (query_target (w_files w fs) global server) in
            let? ok := map_err QueryFailed (query_command (w_sockets w) (w_request_id w) target name record_type use_tcp) in
            Ok (exit_code ok))
  | Some CmdStatus => same (Ok (exit_code (status_command (w_http w) admin token (cli_json (cli_global cli)))))
  | Some CmdReload => same (let? ok := map_err HttpFailed (reload_server (w_http w) admin token) in Ok (exit_code ok))
  | Some CmdHealthcheck => same (Ok (match probe (w_http w) admin with Ok _ => SUCCESS | Err _ => FAILURE end))
  | Some CmdCompletions => same (Ok SUCCESS)
  end.

(** [main], once the environment's old variables are migrated and clap has parsed
    the arguments: the command's exit code, and any error is reported and is failure. *)
Definition main (w : World) (cli : Cli) (fs : Fs) : option (Fs * N) :=
  (fun '(fs, r) => (fs, match r with Ok code => code | Err _ => FAILURE end)) <$> Cli_dispatch w cli fs.

End Dispatch.
