(* ===== verification/DispatchTheorems.v ===== *)
(** * DispatchTheorems: what the command line promises its caller

    Which variables a renamed one stands in for, what an exported zone says, which
    commands write, and what an exit code means. *)

From S2P Require Import Prelude Names Rdata Hashing Zone Build Cas RateLimit Lifecycle Metrics Handler Config Admin.
From S2P Require Import Toml Editor EditorFacts EditorSpec EditorTheorems Files FilesTheorems Serial Commands CommandTheorems.
From S2P Require Import Text Exposition Client HttpTheorems DnsClient SeedFree Dispatch.
From stdpp Require Import pretty.
Local Open Scope vega_scope.
Local Open Scope list_scope.

(** ** Renamed variables *)

(** The name a variable had before. *)
Definition legacy (l : list (string * string)) (name : string) : option string :=
  fst <$> List.find (fun pair => String.eqb pair.2 name) l.

Lemma find_new_in l name p : List.find (fun pair : string * string => String.eqb pair.2 name) l = Some p -> In p l /\ p.2 = name.
Proof. intros H. apply find_some in H as [Hin He]. split; [done|]. by apply String.eqb_eq. Qed.

Lemma migrate_fold l vars warned name :
  NoDup (map snd l) -> Forall (fun old => old ∉ map snd l) (map fst l) ->
  (fold_left migrate_one l (vars, warned)).1 !! name =
    match vars !! name with Some v => Some v | None => legacy l name ≫= fun old => vars !! old end.
Proof.
  revert vars warned. induction l as [|[old new] l IH]; intros vars warned Hnd Hdis.
  { change (vars !! name = match vars !! name with Some v => Some v | None => None end). by destruct (vars !! name). }
  cbn [map snd] in Hnd. apply NoDup_cons in Hnd as [Hnew Hnd]. cbn [map fst] in Hdis. apply Forall_cons in Hdis as [Hold Hdis].
  cbn [snd map] in Hold. apply not_elem_of_cons in Hold as [Hon Hold].
  assert (Hdis' : Forall (fun old => old ∉ map snd l) (map fst l)).
  { eapply Forall_impl; [exact Hdis|]. intros x Hx. by apply not_elem_of_cons in Hx as [_ Hx]. }
  assert (Hlater : new = name -> legacy l name = None).
  { intros ->. unfold legacy. destruct (List.find _ l) as [p|] eqn:E; [|done]. apply find_new_in in E as [Hin <-].
    exfalso. apply Hnew, list_elem_of_In, in_map_iff. by exists p. }
  assert (Hother : forall old', legacy l name = Some old' -> old' <> new).
  { unfold legacy. intros old' H ->. destruct (List.find _ l) as [p|] eqn:E; [|done]. cbn in H. injection H as Hp.
    apply find_new_in in E as [Hin _]. rewrite Forall_forall in Hdis. specialize (Hdis p.1).
    assert (Hin' : p.1 ∈ map fst l) by (apply list_elem_of_In, in_map_iff; by exists p).
    specialize (Hdis Hin'). rewrite Hp in Hdis. apply Hdis. cbn. by left. }
  cbn [fold_left]. unfold migrate_one at 2. cbn [fst snd].
  assert (Hleg : legacy ((old, new) :: l) name = if decide (new = name) then Some old else legacy l name).
  { unfold legacy. cbn [List.find snd]. destruct (String.eqb_spec new name) as [->|Hne]; [by rewrite decide_True|by rewrite decide_False]. }
  rewrite Hleg. destruct (vars !! new) as [v|] eqn:En.
  - rewrite IH by done. destruct (decide (new = name)) as [<-|Hne]; [by rewrite En|done].
  - destruct (vars !! old) as [v|] eqn:Eo.
    + rewrite IH by done. destruct (decide (new = name)) as [<-|Hne].
      * rewrite lookup_insert_eq, En. cbn. by rewrite Eo.
      * rewrite lookup_insert_ne by done. destruct (vars !! name); [done|]. destruct (legacy l name) as [old'|] eqn:El; [|done].
        cbn. rewrite lookup_insert_ne; [done|]. intros <-. by apply (Hother new).
    + rewrite IH by done. destruct (decide (new = name)) as [<-|Hne]; [|done]. rewrite En, Hlater by done. cbn. by rewrite Eo.
Qed.

(** After the migration every variable reads as it did before; a new name that was
    not set reads as its old name did, whatever the order of the twelve pairs; and
    no other variable has appeared. *)
Theorem migration_falls_back vars name :
  (migrate_legacy_env vars).1 !! name =
    match vars !! name with Some v => Some v | None => legacy RENAMED_ENV name ≫= fun old => vars !! old end.
Proof.
  apply migrate_fold; [apply (bool_decide_unpack _); vm_compute; exact I|].
  repeat (apply Forall_cons; split; [apply (bool_decide_eq_false_1 (_ ∈ _)); vm_compute; reflexivity|]). constructor.
Qed.

(** ** An exported zone *)

Fixpoint tabless (s : string) : bool :=
  match s with EmptyString => true | String c s => negb (Ascii.eqb c char_tab) && tabless s end.

(** A reader of the lines: what is between the tabs. *)
Definition split_tab (s : string) : option (string * string) := split_once (String char_tab EmptyString) s.

Definition read_line (line : string) : option (string * option N * string * string) :=
  '(owner, rest) ← split_tab line;
  '(field, rest) ← split_tab rest;
  if decide (field = "IN"%string) then
    '(type, value) ← split_tab rest; Some (owner, None, type, value)
  else
    ttl ← parse_unsigned (2 ^ 32) field;
    '(_, rest) ← split_tab rest;
    '(type, value) ← split_tab rest;
    Some (owner, Some ttl, type, value).

(** The lines after the first empty one. *)
Fixpoint after_blank (lines : list string) : list string :=
  match lines with
  | [] => []
  | EmptyString :: lines => lines
  | _ :: lines => after_blank lines
  end.

Record entry_ok (r : RecordEntry) : Prop := {
  eo_name : tabless (re_name r) = true /\ one_line (re_name r) = true;
  eo_type : tabless (re_type r) = true /\ one_line (re_type r) = true;
  eo_ttl t : re_ttl r = Some t -> (t < 2 ^ 32)%N;
  eo_values : Forall (fun v => one_line v = true) (re_values r);
}.

Lemma split_tabbed a b : tabless a = true -> split_tab (tabbed a b) = Some (a, b).
Proof.
  unfold split_tab, tabbed. induction a as [|c a IH]; intros H.
  - change (split_once (String char_tab EmptyString) (String char_tab b) = Some (EmptyString, b)).
    change (String char_tab b) with (String char_tab EmptyString +:+ b).
    pose proof (prefix_strip (String char_tab EmptyString) b) as Hp. rewrite append_cons in Hp |- *.
    cbn [split_once]. by rewrite Hp.
  - cbn [tabless] in H. apply andb_true_iff in H as [Hc Ha]. rewrite append_cons, split_once_skip.
    + by rewrite IH.
    + intros ->. by rewrite Ascii.eqb_refl in Hc.
Qed.

Lemma nonspace_tabless s : nonspace s = true -> tabless s = true.
Proof.
  induction s as [|c s IH]; [done|]. cbn [nonspace tabless]. intros [Hc Hs]%andb_true_iff. rewrite IH, andb_true_r by done.
  by destruct (Ascii.eqb_spec c char_tab) as [->|].
Qed.

Lemma export_line_read r v : entry_ok r -> read_line (export_line r v) = Some (re_name r, re_ttl r, re_type r, v).
Proof.
  intros [[Hn _] [Ht _] Httl _]. unfold export_line, read_line.
  assert (Ho : (if decide (re_name r = "@"%string) then "@"%string else re_name r) = re_name r) by (by destruct (decide _) as [->|]).
  rewrite Ho, split_tabbed by done. cbn [mbind option_bind]. destruct (re_ttl r) as [t|] eqn:Et.
  - destruct (word_nonspace _ (pretty_word t)) as [Hp _]. rewrite split_tabbed by (by apply nonspace_tabless).
    cbn [mbind option_bind]. destruct (decide (pretty t = "IN"%string)) as [E|_].
    { exfalso. pose proof (parse_pretty (2 ^ 32) t (Httl t eq_refl)) as Hpp. rewrite E in Hpp. done. }
    rewrite parse_pretty by (by apply Httl). cbn [mbind option_bind]. rewrite split_tabbed by done. cbn [mbind option_bind].
    by rewrite split_tabbed.
  - rewrite split_tabbed by done. cbn [mbind option_bind]. rewrite decide_True by done. by rewrite split_tabbed.
Qed.

Lemma tabbed_one_line a b : one_line a = true -> one_line b = true -> one_line (tabbed a b) = true.
Proof. intros Ha Hb. unfold tabbed. rewrite one_line_append, Ha. cbn [one_line]. by rewrite Hb. Qed.

Lemma export_line_one_line r v : entry_ok r -> one_line v = true -> one_line (export_line r v) = true.
Proof.
  intros [[_ Hn] [_ Ht] _ _] Hv. unfold export_line.
  assert (Ho : (if decide (re_name r = "@"%string) then "@"%string else re_name r) = re_name r) by (by destruct (decide _) as [->|]).
  rewrite Ho. apply tabbed_one_line; [done|]. destruct (re_ttl r) as [t|]; repeat apply tabbed_one_line; try done.
  destruct (word_nonspace _ (pretty_word t)) as [Hp _]. by apply nonspace_one_line.
Qed.

Lemma export_records_read rs : Forall entry_ok rs ->
  omap read_line (export_records rs) = flat_map (fun r => map (fun v => (re_name r, re_ttl r, re_type r, v)) (re_values r)) rs.
Proof.
  unfold export_records. induction 1 as [|r rs Hok _ IH]; [done|]. cbn [flat_map]. rewrite omap_app, IH. f_equal.
  induction (re_values r) as [|v vs IHv]; [done|]. cbn [map]. change (omap read_line (export_line r v :: map (export_line r) vs))
    with (match read_line (export_line r v) with Some x => x :: omap read_line (map (export_line r) vs) | None => omap read_line (map (export_line r) vs) end).
  by rewrite export_line_read, IHv.
Qed.

Section ZoneText.
Context {TM : Toml} {HN : HickoryNames} {HR : HickoryRdata HN} {RT : RecordTypeText} {HC : Crate}.

Definition header_ok (path : string) (doc : Table) : Prop :=
  one_line NAME = true /\ one_line VERSION = true /\ one_line path = true /\
  (forall o, ConfigEditor_origin doc = Some o -> one_line o = true).

(** C40: [zone export], of record sets whose names and types have no tab and are, like
    their values, of one line each, loses nothing: read back line by line after its
    header, the text gives every value of every record set in the document's order,
    with its owner, its TTL (of 32 bits) where it has one of its own, and its type.  The
    path, the origin and the crate's own name and version are of one line too.  Nothing
    is escaped, so a value of two lines is not read back (a code_bug of the findings). *)
Theorem export_roundtrip path doc :
  header_ok path doc -> Forall entry_ok (records doc) ->
  omap read_line (after_blank (str_lines (unlines (zone_export path doc)))) =
    flat_map (fun r => map (fun v => (re_name r, re_ttl r, re_type r, v)) (re_values r)) (records doc).
Proof.
  intros (Hnm & Hv & Hp & Ho) Hr. rewrite lines_unlines.
  - rewrite <- export_records_read by done. f_equal. unfold zone_export. by destruct (serial doc).
  - assert (Horigin : one_line (default "example.invalid"%string (ConfigEditor_origin doc)) = true).
    { destruct (ConfigEditor_origin doc) as [o|]; [by apply Ho|done]. }
    unfold zone_export. repeat (apply Forall_cons; split; [rewrite ?one_line_append, ?Hnm, ?Hv, ?Hp, ?Horigin; done|]).
    apply Forall_app. split.
    { destruct (serial doc) as [s|]; [|done]. constructor; [|done]. destruct (word_nonspace _ (pretty_word s)) as [Hs _].
      rewrite one_line_append, (nonspace_one_line (pretty s)) by done. done. }
    apply Forall_cons. split; [done|]. unfold export_records. induction Hr as [|r rs Hok _ IH]; [done|]. cbn [flat_map].
    apply Forall_app. split; [|done]. apply Forall_map. eapply Forall_impl; [apply (eo_values _ Hok)|].
    intros v Hval. by apply export_line_one_line.
Qed.

End ZoneText.

(** ** A zone's summary *)

(** [zone show] counts every value once, under its type. *)
Lemma by_type_counts rs t :
  default 0%nat (by_type rs !! t) = sum_list_with (length ∘ re_values) (List.filter (fun r => String.eqb (re_type r) t) rs).
Proof.
  unfold by_type.
  assert (H : forall m : gmap string nat, default 0%nat (fold_left (fun m r => <[re_type r := (default 0 (m !! re_type r) + length (re_values r))%nat]> m) rs m !! t) =
    (default 0 (m !! t) + sum_list_with (length ∘ re_values) (List.filter (fun r => String.eqb (re_type r) t) rs))%nat); [|by rewrite H, lookup_empty].
  induction rs as [|r rs IH]; intros m; cbn [fold_left List.filter]; [cbn; lia|]. rewrite IH.
  destruct (String.eqb_spec (re_type r) t) as [<-|Hne].
  - rewrite lookup_insert_eq. cbn. lia.
  - rewrite lookup_insert_ne by done. done.
Qed.

(** What [vega query] asks, when it is not told, is an address that can be asked. *)
Lemma query_target_usable {AT : AddrText} files global :
  exists addr, query_target files global None = Some addr /\ is_unspecified (addr_ip addr) = false.
Proof.
  unfold query_target. destruct (match Config_load files global with Ok _ => _ | Err _ => None end) as [addr|]; [|by eexists].
  eexists. split; [done|]. by destruct (is_unspecified (addr_ip addr)) eqn:E.
Qed.

(** ** What a command leaves behind *)

Section Commands.
Context {TM : Toml} {TL : TomlLaws TM} {TS : TomlSame TM} {TSL : TomlSameLaws TM TS}
  {HN : HickoryNames} {HR : HickoryRdata HN} {HL : HickoryRdataLaws HN HR}
  {RT : RecordTypeText} {RL : RecordTypeTextLaws HN HR RT}.
Context {HC : Crate} {HO : HashOrder} {HT : HashTableApi} {F : F64} {J : JsonText} {AT : AddrText} {MC : MessageCodec}.

(** Only the file at [path] may read differently. *)
Definition only_at (path : option string) (fs fs' : Fs) : Prop :=
  forall name, is_Some (entries fs !! name) -> path <> Some name -> read fs' name = read fs name.

(** An edit's end: nothing differs after an error, and one file at most after none. *)
Definition edits {A} (config : option string) (fs : Fs) (out : Fs * result CommandError A) : Prop :=
  only_at config fs out.1 /\ forall e, out.2 = Err e -> untouched fs out.1.

Lemma untouched_only path fs fs' : untouched fs fs' -> only_at path fs fs'.
Proof. intros H name Hn _. by apply H. Qed.

Lemma untouched_refl fs : untouched fs fs.
Proof. by intros name _. Qed.

Lemma edits_error {A} config fs (e : CommandError) : edits (A := A) config fs (fs, Err e).
Proof. split; [apply untouched_only, untouched_refl|]. intros _ _. apply untouched_refl. Qed.

Lemma finish_edits env fs path doc change name record_type bump : settled fs ->
  edits (Some path) fs (finish_command env fs path doc change name record_type bump).
Proof.
  intros Hs. destruct (finish_command_spec env fs path doc change name record_type bump Hs) as (fs' & r & -> & Hf).
  destruct r as [res|e]; [|by split; [apply untouched_only|]]. destruct Hf as (_ & Hu & Hc). split; [|done]. cbn [fst].
  destruct (decide (change = Unchanged)) as [Hun|Hne]; [by destruct (Hu Hun) as [-> _]; apply untouched_only, untouched_refl|].
  destruct (Hc Hne) as (edited & (f & doc' & _ & _ & _ & _ & Hother) & _). intros other _ Hp. apply Hother. congruence.
Qed.

Lemma open_config_path env fs config path doc : open_config env fs config = Ok (path, doc) -> config = Some path.
Proof.
  unfold open_config, require_config. destruct config as [p|]; [|done]. cbn. intros H.
  apply rbind_ok in H as (d & _ & H). congruence.
Qed.

Lemma record_add_edits env fs config name record_type values ttl replace bump : settled fs -> ttl_ok ttl ->
  exists out, record_add env fs config name record_type values ttl replace bump = Some out /\ edits config fs out.
Proof.
  intros Hs Ht. unfold record_add. destruct (open_config env fs config) as [[path doc]|e] eqn:Eo; [|eexists; split; [done|apply edits_error]].
  apply open_config_path in Eo as ->. destruct (add_spec doc name record_type values ttl replace Ht) as (doc' & r & -> & _ & _).
  destruct r as [change|e]; eexists; (split; [done|]); [by apply finish_edits|apply edits_error].
Qed.

Lemma record_delete_edits env fs config name record_type values bump : settled fs ->
  edits config fs (record_delete env fs config name record_type values bump).
Proof.
  intros Hs. unfold record_delete. destruct (open_config env fs config) as [[path doc]|e] eqn:Eo; [|apply edits_error].
  apply open_config_path in Eo as ->. destruct (Editor.remove doc name record_type values) as [doc' [change|e]]; [by apply finish_edits|apply edits_error].
Qed.

Lemma save_edits {A} env fs path doc (a : A) : settled fs ->
  edits (Some path) fs (let '(fs, saved) := ConfigEditor_save env fs path doc in (fs, let? _ := saved in Ok a)).
Proof.
  intros Hs. destruct (save_spec env fs path doc Hs) as (fs' & r & -> & Hr). destruct r as [[]|e]; cbn [rbind].
  - destruct Hr as (f & doc' & _ & _ & _ & _ & Hother). split; [|done]. intros other _ Hp. apply Hother. congruence.
  - split; [by apply untouched_only|done].
Qed.

Lemma bump_serial_edits env fs config : settled fs -> edits config fs (bump_serial env fs config).
Proof.
  intros Hs. unfold bump_serial. destruct (open_config env fs config) as [[path doc]|e] eqn:Eo; [|apply edits_error].
  apply open_config_path in Eo as ->. destruct (env_clock env) as [now|]; [|apply edits_error].
  destruct (set_serial doc _) as [doc' [[]|e]]; [by apply save_edits|apply edits_error].
Qed.

(** [init] changes no file there is. *)
Lemma init_edits env make_dirs fs output origin : settled fs -> edits None fs (zone_init env make_dirs fs output origin).
Proof.
  intros Hs. unfold zone_init, ConfigEditor_init. set (path := default "vega.toml"%string output).
  destruct (is_file fs path) eqn:Ef; [split; [apply untouched_only, untouched_refl|done]|].
  destruct (make_dirs path); cbn [negb]; [|apply edits_error].
  unfold is_file in Ef. apply bool_decide_eq_false in Ef. unfold write_atomically.
  set (job := mkJob (env_pid env) (env_nanos env) (starter origin) (env_umode env) (env_stat_denied env)).
  destruct (write_alone_ends path job fs (env_faults env) Hs write_fuel fs (AtCreate 0)) as (fs' & r & -> & Ha).
  - done.
  - split; [done|]. intros a Ha. lia.
  - destruct r as [[]|e]; cbn.
    + destruct Ha as [[_ Ho] _]. split; [|done]. intros other Hother _. apply Ho. by intros ->.
    + destruct Ha as [Hu _]. split; [by apply untouched_only|done].
Qed.

(** Which commands may write, where, and which end by asking a server to reload. *)
Definition written (cli : Cli) (fs : Fs) : option string :=
  match cli_command cli with
  | Some (CmdRecord (ActAdd _ _ _ _ _ _ _)) | Some (CmdRecord (ActDelete _ _ _ _ _))
  | Some (CmdZone ZoneBumpSerial) => config_path cli fs
  | _ => None
  end.

Definition asks_reload (cli : Cli) : bool :=
  match cli_command cli with
  | Some (CmdRecord (ActAdd _ _ _ _ _ _ reload)) | Some (CmdRecord (ActDelete _ _ _ _ reload)) => reload
  | _ => false
  end.

Definition cli_ok (cli : Cli) : Prop :=
  match cli_command cli with Some (CmdRecord (ActAdd _ _ _ ttl _ _ _)) => ttl_ok ttl | _ => True end.

(** The edit a command asks for does not come about: it is refused, or its save fails. *)
Definition edit_failed (w : Dispatch.World) (cli : Cli) (fs : Fs) : Prop :=
  match cli_command cli with
  | Some (CmdRecord (ActAdd name type values ttl replace bump _)) =>
      exists fs' e, record_add (w_env w) fs (config_path cli fs) name type values ttl replace bump = Some (fs', Err e)
  | Some (CmdRecord (ActDelete name type values bump _)) =>
      exists fs' e, record_delete (w_env w) fs (config_path cli fs) name type values bump = (fs', Err e)
  | _ => False
  end.

(** C22: every command line ends with an exit code, the lexer behind the values of a
    [record add] included (what ends a process from outside - a closed standard output,
    whatever happens to a server while it runs - is not in the model), and none changes
    a file it should not: at most the configuration it edits reads differently
    afterwards, and not even that when it exits with a failure, with one exception: the
    edit was saved, and it is the reload asked for with it that failed.  An edit that is
    refused or cannot be saved is a failure with every file as it was, whatever was
    asked for with it.  [init] never changes a file that was there.  The directory is on
    disk as it reads, and a TTL given is one of 32 bits. *)
Theorem commands_change_one_file w cli fs :
  settled fs -> cli_ok cli ->
  exists fs' code, main w cli fs = Some (fs', code) /\ only_at (written cli fs) fs fs' /\
    (code <> SUCCESS -> asks_reload cli = false -> untouched fs fs') /\
    (edit_failed w cli fs -> code = FAILURE /\ untouched fs fs').
Proof.
  intros Hs Hok. unfold main, Cli_dispatch, written, asks_reload, cli_ok, edit_failed in *.
  assert (Hsame : forall p (r : result CliError N), exists fs' code,
    (fun '(fs, r) => (fs, match r with Ok code => code | Err _ => FAILURE end)) <$> Some (fs, r) = Some (fs', code) /\
    only_at p fs fs' /\ (code <> SUCCESS -> false = false -> untouched fs fs') /\ (False -> code = FAILURE /\ untouched fs fs')).
  { intros p r. eexists _, _. split; [done|]. split; [apply untouched_only, untouched_refl|]. split; [|done].
    intros _ _. apply untouched_refl. }
  assert (Hedit : forall A config (out : Fs * result CommandError A) (rest : bool -> result CliError N) (reload : bool) (failed : Prop),
    edits config fs out -> rest false = Ok SUCCESS -> (failed -> exists e, out.2 = Err e) -> exists fs' code,
    (fun '(fs, r) => (fs, match r with Ok code => code | Err _ => FAILURE end)) <$>
      Some (out.1, let? _ := map_err CommandFailed out.2 in rest reload) = Some (fs', code) /\
    only_at config fs fs' /\ (code <> SUCCESS -> reload = false -> untouched fs fs') /\
    (failed -> code = FAILURE /\ untouched fs fs')).
  { intros A config [fs1 r] rest reload failed [Ho Hu] Hrest Hfail. cbn [fst snd]. eexists _, _. split; [done|]. split; [exact Ho|]. split.
    - intros Hcode ->. destruct r as [a|e]; [|by apply (Hu e)]. cbn in Hcode. by rewrite Hrest in Hcode.
    - intros [e He]%Hfail. cbn in He. subst r. split; [done|]. by apply (Hu e). }
  destruct (cli_command cli) as [[| |origin output|action|action|name type server tcp| | | |]|]; try apply Hsame.
  - pose proof (Hedit _ None _ (fun _ => Ok SUCCESS) false False (init_edits (w_env w) (w_make_dirs w) fs output origin Hs) eq_refl
      ltac:(done)) as H.
    destruct (zone_init _ _ _ _ _) as [fs1 r]. exact H.
  - destruct action as [| |name type values ttl replace bump reload|name type values bump reload]; cbn [record_command]; try apply Hsame.
    + destruct (record_add_edits (w_env w) fs (config_path cli fs) name type values ttl replace bump Hs Hok) as (out & Hadd & He).
      pose proof (Hedit _ _ out (finish_edit_command w (cli_global cli)) reload (exists fs' e, Some out = Some (fs', Err e)) He eq_refl
        ltac:(intros (? & e & [= ->]); by exists e)) as H.
      rewrite Hadd. destruct out as [fs1 r]. exact H.
    + set (out := record_delete (w_env w) fs (config_path cli fs) name type values bump).
      pose proof (Hedit _ _ out (finish_edit_command w (cli_global cli)) reload (exists fs' e, out = (fs', Err e))
        (record_delete_edits (w_env w) fs (config_path cli fs) name type values bump Hs) eq_refl
        ltac:(intros (? & e & ->); by exists e)) as H.
      clearbody out. destruct out as [fs1 r]. exact H.
  - destruct action; try apply Hsame.
    pose proof (Hedit _ _ _ (fun _ => Ok SUCCESS) false False (bump_serial_edits (w_env w) fs (config_path cli fs) Hs) eq_refl ltac:(done)) as H.
    destruct (bump_serial _ _ _) as [fs1 r]. exact H.
Qed.

(** ** An edit, and the reload asked for with it *)

Context {FL : F64Laws F} {World : Type}.
Context (reason : N -> string) (headers : Endpoint -> list (string * string)) (json : Body -> string).

(** The server the command talks to, as its request finds it. *)
Record serves_reload (w : Dispatch.World) (global : GlobalArgs) (s : Seen (World := World)) (sw : World)
    (peer : SocketAddr) (given : HeaderMap) : Prop := {
  sr_library : library_ok reason headers;
  sr_reaches : reaches reason headers json (w_http w) (socket_addr_to_string (admin_addr global)) (cli_admin_token global)
    (fun _ => s) sw peer given;
  sr_sendable : sendable (answer reason headers json s ReloadEndpoint sw peer given);
  sr_token : carries_token (cli_admin_token global) given;
  sr_word t : cli_admin_token global = Some t -> word t = true;
}.

Lemma reload_exit w global s sw peer given : serves_reload w global s sw peer given ->
  exists ok, reload_server (w_http w) (socket_addr_to_string (admin_addr global)) (cli_admin_token global) = Ok ok /\
    (exit_code ok = SUCCESS <-> reload_succeeds s sw (cli_admin_token global) peer).
Proof.
  intros [Hl Hr Hs Ht Hw]. destruct (reload_told _ _ _ _ _ _ (fun _ => s) _ _ _ Hl Hr Hs Ht Hw) as (ok & Hok & Hiff).
  exists ok. split; [done|]. rewrite <- Hiff. by destruct ok.
Qed.

(** [vega record add --reload]: both halves. *)
Lemma added_then_reloaded w cli fs s sw peer given name type values ttl replace bump :
  settled fs -> serves_reload w (cli_global cli) s sw peer given -> ttl_ok ttl ->
  cli_command cli = Some (CmdRecord (ActAdd name type values ttl replace bump true)) ->
  exists fs' r code,
    record_add (w_env w) fs (config_path cli fs) name type values ttl replace bump = Some (fs', r) /\
    main w cli fs = Some (fs', code) /\
    (code = SUCCESS <-> is_ok r = true /\ reload_succeeds s sw (cli_admin_token (cli_global cli)) peer).
Proof.
  intros Hset Hs Httl Hc. destruct (reload_exit w (cli_global cli) s sw peer given Hs) as (ok & Hok & Hiff).
  destruct (record_add_edits (w_env w) fs (config_path cli fs) name type values ttl replace bump Hset Httl) as ([fs' r] & Hadd & _).
  exists fs', r. eexists. split; [done|]. unfold main, Cli_dispatch. rewrite Hc. cbn [record_command]. rewrite Hadd. split; [done|].
  unfold finish_edit_command, finish_edit. cbn [negb]. rewrite Hok. destruct r as [res|e]; cbn.
  - rewrite Hiff. split; [by intros|by intros [_ ?]].
  - split; [by intros|by intros [? _]].
Qed.

(** C19: the exit code tells the truth about both halves: [vega reload] exits 0 exactly
    when the server, trusting the caller and not draining, ran its reload and it
    succeeded; [vega record add --reload] exits 0 exactly when the edit went into the
    file and then the server reloaded. *)
Theorem reload_exit_codes w cli fs s sw peer given :
  settled fs -> serves_reload w (cli_global cli) s sw peer given ->
  let reloaded := reload_succeeds s sw (cli_admin_token (cli_global cli)) peer in
  (cli_command cli = Some CmdReload ->
     exists code, main w cli fs = Some (fs, code) /\ (code = SUCCESS <-> reloaded)) /\
  (forall name type values ttl replace bump, ttl_ok ttl ->
     cli_command cli = Some (CmdRecord (ActAdd name type values ttl replace bump true)) ->
     exists fs' r code,
       record_add (w_env w) fs (config_path cli fs) name type values ttl replace bump = Some (fs', r) /\
       main w cli fs = Some (fs', code) /\ (code = SUCCESS <-> is_ok r = true /\ reloaded)).
Proof.
  intros Hset Hs reloaded. split.
  - intros Hc. destruct (reload_exit w (cli_global cli) s sw peer given Hs) as (ok & Hok & Hiff).
    unfold main, Cli_dispatch. rewrite Hc, Hok. eexists. split; [done|]. exact Hiff.
  - intros name type values ttl replace bump Httl Hc. by eapply added_then_reloaded.
Qed.

End Commands.
