(* ===== verification/Added.v ===== *)
(** * Added: from [vega record add --reload] to the answers

    The command line, the editor, the file, the admin endpoint, the reload, the build,
    the lookup and the handler in one statement: once the command has exited with
    success, the values it was given are what the server answers.  And what
    [vega check] says of a file is true of the servers started from it. *)

From S2P Require Import Prelude Names Rdata Hashing Zone Lookup Build Checked BuildFacts LayoutFacts ArenaFacts Finish.
From S2P Require Import Totality Served Asserts Answers ZoneTheorems Declared FileVerdict FileZone.
From S2P Require Import Cas RateLimit Lifecycle Metrics Handler HandlerFacts HandlerTheorems FileServer.
From S2P Require Import Config ConfigTheorems Admin Reload Serve ReloadTheorems Drift EndToEnd.
From S2P Require Import Toml Editor EditorFacts EditorSpec EditorTheorems Files FilesTheorems Serial Commands CommandTheorems.
From S2P Require Import Text Exposition Client HttpTheorems DnsClient SeedFree Dispatch DispatchTheorems.
Local Open Scope vega_scope.

(** ** What the edit leaves in the document *)

Lemma spec_add_unchanged es name ty values ttl replace es' :
  spec_add es name ty values ttl replace = (es', Unchanged) -> es' = es.
Proof.
  unfold spec_add. destruct (list_find _ es) as [[i e]|] eqn:El; [|done].
  apply list_find_Some in El as (Hi & _). unfold spec_extend.
  destruct replace; (destruct (decide _) as [[_ _]|]; [|done]); intros [= <-]; by apply list_insert_id.
Qed.

(** A record set that [values] cannot change holds them all. *)
Lemma spec_extend_holds e values ttl replace v :
  spec_extend e values ttl replace = (e, Unchanged) -> v ∈ values -> v ∈ re_values e.
Proof.
  unfold spec_extend. destruct replace.
  - destruct (decide _) as [[-> _]|]; [done|by intros [=]].
  - destruct (decide _) as [[Hm _]|]; [|by intros [=]]. intros _ Hv.
    destruct (existsb (String.eqb v) (re_values e)) eqn:E.
    + apply existsb_exists in E as (v' & Hv' & ->%String.eqb_eq). by apply list_elem_of_In.
    + exfalso. assert (Hin : In v (List.filter (fun v => negb (existsb (String.eqb v) (re_values e))) values)).
      { apply filter_In. split; [by apply list_elem_of_In|]. by rewrite E. }
      by rewrite Hm in Hin.
Qed.

Section Edit.
Context {TM : Toml} {TL : TomlLaws TM} {TS : TomlSame TM} {TSL : TomlSameLaws TM TS}
  {HN : HickoryNames} {HR : HickoryRdata HN} {RT : RecordTypeText} {RTL : RecordTypeTextLaws HN HR RT} {RL : HickoryRdataLaws HN HR}.

(** What a [record add] that succeeded leaves behind. *)
Record holds_added (fs : Fs) (path : string) (name : string) (t : RecordType) (values : list string)
    (doc : Table) (e : RecordEntry) : Prop := {
  ha_text : exists f, read fs path = Some f /\ Document_parse (text f) = Some doc;
  ha_entry : e ∈ records doc;
  ha_name : normalise_name (re_name e) = normalise_name name;
  ha_type : re_type e = record_type_to_string t;
  ha_values v : v ∈ values -> v ∈ re_values e;
}.

Lemma record_add_leaves env fs config name record_type values ttl replace bump fs' res :
  settled fs -> ttl_ok ttl ->
  record_add env fs config name record_type values ttl replace bump = Some (fs', Ok res) ->
  exists path t doc e, config = Some path /\ normalise_type record_type = Ok t /\ values <> [] /\ holds_added fs' path name t values doc e.
Proof.
  intros Hs Httl. unfold record_add, open_config. destruct config as [path|]; cbn [require_config ok_or rbind]; [|done].
  destruct (ConfigEditor_open env fs path) as [doc|e] eqn:Eo; cbn [rbind]; [|done].
  destruct (add_spec doc name record_type values ttl replace Httl) as (doc1 & r & -> & _ & Hr).
  destruct r as [change|e]; [|done]. destruct Hr as (t & Ht & Hne & _ & Hspec & _).
  destruct (finish_command_spec env fs path doc1 change name (Some record_type) bump Hs) as (fs1 & r & -> & Hf).
  intros [= -> ->]. destruct Hf as (_ & Hsame & Hsaved). exists path, t.
  destruct (spec_add_shape _ _ _ _ _ _ _ _ (normalise_name_idem name) Hspec) as (l1 & e & l2 & Hes & _ & Hset & Hext & _).
  assert (He : e ∈ records doc1) by (rewrite Hes; apply elem_of_app; right; left).
  unfold same_set in Hset. apply andb_true_iff in Hset as [Hn Hty]. apply bool_decide_eq_true in Hn, Hty.
  assert (Hdoc : exists doc', records doc' = records doc1 /\ exists f, read fs' path = Some f /\ Document_parse (text f) = Some doc').
  { destruct (decide (change = Unchanged)) as [->|Hch].
    - destruct (Hsame eq_refl) as [-> _]. exists doc. apply spec_add_unchanged in Hspec as ->. split; [done|].
      unfold ConfigEditor_open in Eo. destruct (env_read_fails env); [done|]. destruct (read fs path) as [f|]; [|done].
      exists f. split; [done|]. by destruct (Document_parse (text f)); [injection Eo as ->|].
    - destruct (Hsaved Hch) as (edited & (f & doc' & Hf & Hp & Hd & _) & Hr & _). exists doc'.
      split; [by rewrite Hd|]. by exists f. }
  destruct Hdoc as (doc' & Hr & Htext). exists doc', e. split_and!; [done|done|done|]. constructor; try done; [by rewrite Hr|].
  intros v. by eapply spec_extend_holds.
Qed.

End Edit.

(** ** What the server reads of it *)

Section Served.
Context {HN : HickoryNames} {HL : HickoryNamesLaws HN} {HR : HickoryRdata HN} {HO : HashOrder}.
Context {HT : HashTableApi} {TL : HashTableLaws HT}.

(** A block that was read is among the declarations, with every one of its values. *)
Lemma block_declared cfg origin ds spec d :
  parse_name (zc_origin cfg) = Ok origin -> declarations cfg = Ok ds -> spec ∈ zc_records cfg ->
  read_block origin (zc_default_ttl cfg) spec = Ok (Some d) -> d ∈ ds.
Proof.
  unfold declarations. intros Ho Hds Hspec Hd. rewrite Ho in Hds. cbn [map_err rbind] in Hds.
  apply rbind_ok in Hds as (ods & Hods & Hds). injection Hds as <-. apply list_elem_of_omap. exists (Some d). split; [|done].
  clear Ho. revert ods Hods. induction Hspec as [spec l|spec spec' l Hin IH]; intros ods H; cbn in H.
  - rewrite Hd in H. destruct (map_res _ l); [|done]. injection H as <-. left.
  - destruct (read_block _ _ spec'); [|done]. destruct (map_res _ l) as [ods'|]; [|done]. injection H as <-. right. by apply IH.
Qed.

Lemma read_block_parts origin default_ttl spec d t :
  record_type_parse (str_to_uppercase (rs_type spec)) = Some t ->
  read_block origin default_ttl spec = Ok (Some d) ->
  dc_type d = t /\ forall v, v ∈ rs_values spec -> exists rd, parse_spec_value t spec v = Ok rd /\ rd ∈ dc_rdata d.
Proof.
  unfold read_block. intros -> H. cbn [ok_or rbind] in H. destruct (rs_values spec) as [|v0 vs]; [done|].
  apply rbind_ok in H as (owner & _ & H). apply rbind_ok in H as (rdata & Hr & H).
  assert (Hd : dc_type d = t /\ dc_rdata d = rdata).
  { destruct (if is_wildcard_text _ then _ else _); [|done]. by injection H as <-. }
  destruct Hd as [Ht Hrd]. split; [done|]. intros v Hv. rewrite Hrd. clear H Hrd. revert rdata Hr.
  induction Hv as [v l|v v' l Hin IH]; intros rdata H; cbn in H.
  - destruct (parse_spec_value t spec v) as [rd|]; [|done]. destruct (map_res _ l); [|done]. injection H as <-. exists rd. split; [done|left].
  - destruct (parse_spec_value t spec v') as [rd'|]; [|done]. destruct (map_res _ l) as [rds|]; [|done]. injection H as <-.
    destruct (IH rds eq_refl) as (rd & Hp & Hin'). exists rd. split; [done|by right].
Qed.

(** The owner of a declared block that no delegation covers is given the block's values. *)
Lemma block_given cfg origin ds d rd name :
  parse_name (zc_origin cfg) = Ok origin -> declarations cfg = Ok ds -> d ∈ ds -> rd ∈ dc_rdata d ->
  owned_by (liter name) d -> cut_of ds (liter (lower_from origin)) (liter name) = None ->
  exists owner values, given cfg name (dc_type d) = Some (owner, values) /\ (dc_ttl d, rd) ∈ values.
Proof.
  intros Ho Hds Hd Hrd Hown Hc.
  assert (Hv : (dc_ttl d, rd) ∈ declared_values ds (liter name) (dc_type d)) by (apply declared_values_in; by exists d).
  destruct (declared_owner ds (liter name)) as [owner|] eqn:Eo.
  - exists owner, (declared_values ds (liter name) (dc_type d)). split; [|done]. apply given_spec. exists origin, ds.
    split_and!; try done. intros E. rewrite E in Hv. by apply elem_of_nil in Hv.
  - exfalso. unfold declared_owner in Eo. destruct (filter (owned_by (liter name)) ds) eqn:E; [|done].
    assert (Hin : d ∈ filter (owned_by (liter name)) ds) by (by apply list_elem_of_filter). rewrite E in Hin. by apply elem_of_nil in Hin.
Qed.

End Served.

(** ** From the command line to the answers *)

Section Added.
Context {TM : Toml} {TL : TomlLaws TM} {TS : TomlSame TM} {TSL : TomlSameLaws TM TS}
  {HN : HickoryNames} {HL : HickoryNamesLaws HN} {HR : HickoryRdata HN} {RL : HickoryRdataLaws HN HR}
  {RT : RecordTypeText} {RTL : RecordTypeTextLaws HN HR RT} {HO : HashOrder} {HT : HashTableApi} {HTL : HashTableLaws HT}.
Context {HM : HickoryMessages} {HC : Crate} {F : F64} {FL : F64Laws F} {J : JsonText} {AT : AddrText} {MC : MessageCodec}.
Context (reason : N -> string) (headers : Endpoint -> list (string * string)) (json : Body -> string).

(** The two readings of one text: serde's, by the server, and toml_edit's, by the
    editor, whose types are in capitals. *)
Definition alike (spec : RecordSpec) (e : RecordEntry) : Prop :=
  rs_name spec = re_name e /\ str_to_uppercase (rs_type spec) = re_type e /\
  rs_ttl spec = re_ttl e /\ rs_values spec = re_values e.

Definition reads_alike (files : Config.Files) (fs : Fs) (path : string) : Prop :=
  forall f doc file, read fs path = Some f -> Document_parse (text f) = Some doc -> files path = Parsed file ->
    Forall2 alike (Config.zs_records (fc_zone file)) (records doc).

Lemma resolved_records files inv path r : Config_resolve files inv = Ok r -> cli_config inv = Some path ->
  exists file, files path = Parsed file /\ zc_records (cfg_zone (config r)) = Config.zs_records (fc_zone file).
Proof.
  unfold Config_resolve. intros H Hc. rewrite Hc in H. unfold read_file in H. destruct (files path) as [| |file]; [done|done|].
  cbn [rbind] in H. exists file. split; [done|]. destruct (merge inv file) as [c|] eqn:Em; [|done]. cbn in H. injection H as <-.
  apply merge_ok in Em as [-> _]. done.
Qed.

(** The record set of the edit, as the reloaded configuration has it. *)
Record block_of (cfg : ZoneConfig) (name : string) (t : RecordType) (values : list string) (spec : RecordSpec) : Prop := {
  bl_block : spec ∈ zc_records cfg;
  bl_name : normalise_name (rs_name spec) = normalise_name name;
  bl_type : record_type_parse (str_to_uppercase (rs_type spec)) = Some t;
  bl_values v : v ∈ values -> v ∈ rs_values spec;
}.

(** The server [h] answers a valid question for the block's owner and type with every
    one of [values], where no delegation covers the owner. *)
Definition answers_values (h : DnsHandler) (cfg : ZoneConfig) (spec : RecordSpec) (t : RecordType) (values : list string) : Prop :=
  forall origin ds d request q now elapsed send,
    parse_name (zc_origin cfg) = Ok origin -> declarations cfg = Ok ds ->
    read_block origin (zc_default_ttl cfg) spec = Ok (Some d) ->
    cut_of ds (liter (lower_from origin)) (liter (query_name q)) = None ->
    valid_query request q -> limited h request now = false -> diagnostic (h_active h) (query_name q) = false ->
    owned_by (liter (query_name q)) d -> query_type q = t ->
    exists records, (handle_request h request now elapsed send).1.2 = Some (build_response request (found records)) /\
      forall v, v ∈ values -> exists rd r, parse_spec_value t spec v = Ok rd /\ r ∈ records /\ rec_data r = rd.

Lemma answered_values seed cfg z h name t values spec :
  from_config seed cfg = Ok z -> plain_config cfg -> fits cfg -> zone (h_active h) = z ->
  is_any t = false -> t <> RT_SOA -> values <> [] -> block_of cfg name t values spec -> answers_values h cfg spec t values.
Proof.
  intros Hz Hp Hf Hzone Hany Hsoa Hne [Hin _ Hty Hvals] origin ds d request q now elapsed send Ho Hds Hd Hc Hq Hlim Hdiag Hown Hqt.
  pose proof (block_declared _ _ _ _ _ Ho Hds Hin Hd) as Hdd. destruct (read_block_parts _ _ _ _ t Hty Hd) as [Hdt Hparsed].
  rewrite (served_plainly h request q now elapsed send Hq Hlim), Hqt.
  destruct values as [|v0 vs]; [done|]. destruct (Hparsed v0 (Hvals v0 ltac:(left))) as (rd0 & _ & Hrd0).
  destruct (block_given cfg origin ds d rd0 (query_name q) Ho Hds Hdd Hrd0 Hown Hc) as (owner & given_values & Hg & _).
  rewrite Hdt in Hg. rewrite (resolve_given seed cfg z _ _ _ t _ owner given_values) by (done || by apply builtin_none).
  exists (records_at owner given_values). split; [done|]. intros v Hv. destruct (Hparsed v (Hvals v Hv)) as (rd & Hpv & Hrd).
  destruct (block_given cfg origin ds d rd (query_name q) Ho Hds Hdd Hrd Hown Hc) as (owner' & values' & Hg' & Hin').
  rewrite Hdt, Hg in Hg'. injection Hg' as <- <-. exists rd, (from_rdata owner (dc_ttl d) rd). split; [done|].
  split; [|done]. unfold records_at. apply list_elem_of_In, in_map_iff. exists (dc_ttl d, rd). split; [done|]. by apply list_elem_of_In.
Qed.

(** C2: an addition is answered.  When [vega record add --reload] exits with success,
    the configuration the server then runs has a record set of that name and type with
    every value given to the command, besides those it had; and every later valid
    question for its owner and type is answered with every one of those values,
    unless a delegation covers the owner, it is a diagnostic name or the limiter
    refuses.  Asked of the command: a TTL of 32 bits, and a type other than ANY and SOA
    that is read back as it is written.  Asked of the file: that its directory is on disk
    as it reads ([settled]), that the server runs from it, and that the two TOML readers agree
    on what the save leaves.  Asked, for the answers, of the configuration: no backslash
    in a name, an origin neither empty nor a wildcard, nodes within a 32-bit index. *)
Theorem added_records_are_answered w cli fs fs' s ctx peer given files seed cancelled path name type values ttl replace bump :
  settled fs -> ttl_ok ttl ->
  cli_command cli = Some (CmdRecord (ActAdd name type values ttl replace bump true)) ->
  serves_reload reason headers json w (cli_global cli) s ctx peer given ->
  reload_hook (seen_state s) = Some (hook files seed cancelled) ->
  config_path cli fs = Some path -> cli_config (invocation ctx) = Some path ->
  (forall t, normalise_type type = Ok t -> record_type_parse (record_type_to_string t) = Some t) ->
  main w cli fs = Some (fs', SUCCESS) -> reads_alike files fs' path ->
  exists r t spec, Config_resolve files (invocation ctx) = Ok r /\ normalise_type type = Ok t /\
    let cfg := cfg_zone (config r) in
    block_of cfg name t values spec /\
    (plain_config cfg -> fits cfg -> is_any t = false -> t <> RT_SOA ->
     answers_values (rc_handler (hook files seed cancelled ctx).1) cfg spec t values).
Proof.
  intros Hset Httl Hc Hserves Hhook Hpath Hinv Htype Hmain Halike.
  destruct (added_then_reloaded _ _ _ w cli fs s ctx peer given _ _ _ _ _ _ Hset Hserves Httl Hc)
    as (fs1 & res & code & Hadd & Hmain' & Hcode).
  rewrite Hmain in Hmain'. injection Hmain' as <- <-. destruct (proj1 Hcode eq_refl) as [Hok (hk & out & Hhk & _ & _ & Hout)].
  rewrite Hhook in Hhk. injection Hhk as <-. destruct res as [res|e]; [|done].
  destruct (record_add_leaves _ _ _ _ _ _ _ _ _ _ _ Hset Httl Hadd) as (path' & t & doc & e & Hp' & Ht & Hne & Hadded).
  rewrite Hpath in Hp'. injection Hp' as <-.
  unfold hook in *. destruct (reload ctx files seed cancelled) as [ctx' rr] eqn:Er. cbn in Hout. injection Hout as ->. cbn [fst].
  apply reload_ok in Er as (r & z & Hr & Hz & _ & _ & Hact).
  destruct (resolved_records _ _ _ _ Hr Hinv) as (file & Hfile & Hrecords). destruct Hadded as [(f & Hf & Hdoc) Hin Hname Hty Hvals].
  pose proof (Halike f doc file Hf Hdoc Hfile) as Hall. apply list_elem_of_lookup_1 in Hin as [i Hi].
  destruct (Forall2_lookup_r _ _ _ _ _ Hall Hi) as (spec & Hspec & (Hn & Htt & _ & Hv)).
  assert (Hb : block_of (cfg_zone (config r)) name t values spec).
  { constructor; [rewrite Hrecords; by eapply list_elem_of_lookup_2|congruence| |].
    - rewrite Htt, Hty. by apply Htype.
    - intros v. rewrite Hv. apply Hvals. }
  exists r, t, spec. split; [done|]. split; [done|]. split; [done|].
  intros Hp Hfit Hany Hsoa. eapply (answered_values seed _ z); try done. by rewrite Hact.
Qed.

End Added.

(** ** What a check says of the server *)

Section Check.
Context {TM : Toml} {HN : HickoryNames} {HL : HickoryNamesLaws HN} {HR : HickoryRdata HN}
  {RT : RecordTypeText} {HO : HashOrder} {HT : HashTableApi} {HTL : HashTableLaws HT}.
Context {HM : HickoryMessages} {HC : Crate} {F : F64} {J : JsonText} {AT : AddrText} {MC : MessageCodec}.

(** C7: [vega check] speaks for the server.  It changes nothing, and exits with success
    exactly when the configuration loads, its file reads and keeps the rules of a zone,
    and the build has nothing to remark.  A server started from the same file and
    arguments then starts, whatever seed it draws, and answers every valid question the
    limiter lets through as the file says, in RFC 1034's terms ([file_respond]) and but
    for what [answer_departs] lists: ANY for a name missing below a delegation, which
    it denies, and aliases that lead to a wildcard's; from a file that does not, none
    starts.  Asked of the file: no backslash in a name, an origin neither empty nor a
    wildcard, and that the nodes, records and octets of its names each fit a 32-bit
    index. *)
Theorem check_speaks_for_the_server w cli fs :
  cli_command cli = Some CmdCheck ->
  exists code, main w cli fs = Some (fs, code) /\
  match Config_load (w_files w fs) (with_config_path (cli_global cli) (config_path cli fs)) with
  | Err _ => code = FAILURE
  | Ok config =>
      let cfg := cfg_zone config in
      plain_config cfg -> (forall b, config_builder cfg = Ok b -> arenas_fit (entries_of b)) ->
      (code = SUCCESS <-> file_accepted cfg /\ exists z, from_config (w_seed w) cfg = Ok z /\ diagnostics z = []) /\
      forall invocation seed now hash_one reload_fn,
        match serve_setup config invocation seed now hash_one reload_fn with
        | Ok p => file_accepted cfg /\ answers_for (p_handler p) cfg
        | Err _ => ~ file_accepted cfg
        end
  end.
Proof.
  intros Hc. unfold main, Cli_dispatch. rewrite Hc. cbv zeta. cbn [fmap option_fmap option_map].
  set (loaded := Config_load _ _). destruct loaded as [config|e]; cbn [map_err rbind]; [|by eexists].
  set (cfg := cfg_zone config).
  assert (Hcode : exists code, code = SUCCESS /\ zone_check (w_seed w) config = Ok tt \/ code = FAILURE /\ zone_check (w_seed w) config <> Ok tt)
    by (destruct (zone_check _ _) as [[]|e]; [by exists SUCCESS; left|exists FAILURE; by right]).
  destruct Hcode as [code Hcode]. exists code. split.
  { destruct Hcode as [[-> ->]|[-> Hno]]; [done|]. by destruct (zone_check _ _) as [[]|e]. }
  intros Hp Hfit.
  pose proof (from_config_accepts (w_seed w) cfg Hp Hfit) as Hcheck. split.
  - rewrite <- Hcheck. assert (Hiff : code = SUCCESS <-> zone_check (w_seed w) config = Ok tt).
    { by destruct Hcode as [[-> ->]|[-> Hno]]. }
    rewrite Hiff. unfold zone_check, report_findings. fold cfg. destruct (from_config (w_seed w) cfg) as [z|e]; cbn [map_err rbind].
    + destruct (diagnostics z) eqn:Ed; split.
      * intros _. split; by exists z.
      * by intros _.
      * by intros [=].
      * intros [_ (z' & [= <-] & Hd)]. congruence.
    + split; [done|]. by intros [[z Hz] _].
  - intros invocation seed now hash_one reload_fn. pose proof (from_config_accepts seed cfg Hp Hfit) as Hs.
    unfold serve_setup. fold cfg. destruct (from_config seed cfg) as [z|e] eqn:Ez; cbn [rbind].
    + assert (Hans : forall m l, answers_for (DnsHandler_new z (zc_builtins cfg) m l) cfg).
      { intros m l. apply (served_is_answered seed cfg z); [done|done| |done]. intros b Hb. apply Hfit, Hb. }
      destruct (source config); (split; [apply Hs; by exists z|apply Hans]).
    + intros Hacc. apply Hs in Hacc as [z Hz]. done.
Qed.

End Check.
