(* ===== verification/DispatchExamples.v ===== *)
(** * DispatchExamples: command lines, run

    A directory with the configuration of [EditorExamples], a server behind the
    network of [ClientExamples], and the theorems of the command line applied to
    them. *)

From S2P Require Import Prelude Names Rdata Plain Hashing Zone Lookup Build Checked Finish Totality Answers Declared FileVerdict FileZone ZoneExamples.
From S2P Require Import Cas RateLimit Lifecycle Metrics Handler HandlerTheorems FileServer HandlerExamples.
From S2P Require Import Config ConfigTheorems Admin Reload Serve ReloadExamples EndToEnd.
From S2P Require Import Toml Editor EditorFacts EditorTheorems Files FilesTheorems Serial Commands CommandTheorems PlainToml EditorExamples.
From S2P Require Import Text Exposition Client ClientTheorems HttpTheorems ClientExamples DnsClient DnsClientExamples SeedFree.
From S2P Require Import Dispatch DispatchTheorems Added.

Open Scope string_scope.

(** Addresses are written one way here, and none is read. *)
#[global] Instance ex_addr_text : AddrText := {|
  socket_addr_from_str _ := None;
  ip_addr_from_str _ := None;
  socket_addr_to_string _ := "127.0.0.1:9100";
|}.

Lemma migration_falls_back_witness :
  (migrate_legacy_env (<["DNS_UDP" := "0.0.0.0:53"]> ∅)).1 !! "VEGA_UDP" = Some "0.0.0.0:53".
Proof. rewrite (migration_falls_back _ "VEGA_UDP"). vm_compute. reflexivity. Defined.

(** ** An export *)

Lemma ex_header : header_ok (TM := plain_toml) "vega.toml" ex_doc.
Proof. split_and!; try reflexivity. intros o H. vm_compute in H. by injection H as <-. Qed.

Lemma ex_entries : Forall entry_ok (records (TM := plain_toml) ex_doc).
Proof.
  vm_compute records. repeat (apply Forall_cons; split; [constructor; cbn; [split; reflexivity|split; reflexivity|by intros t [= <-]|by repeat constructor]|]).
  constructor.
Qed.

Lemma export_roundtrip_witness :
  length (omap read_line (after_blank (str_lines (unlines (zone_export (TM := plain_toml) "vega.toml" ex_doc))))) = 3%nat.
Proof. rewrite (export_roundtrip (TM := plain_toml) "vega.toml" ex_doc ex_header ex_entries). vm_compute. reflexivity. Defined.

(** A value of two lines, as TOML can write one, is exported as two, and what is read back
    is its first. *)
Example two_lines_are_lost :
  let r := mkEntry "t" "TXT" None ["one" +:+ String char_newline "two"] in
  omap read_line (str_lines (unlines (export_records [r]))) = [("t", None, "TXT", "one")].
Proof. vm_compute. reflexivity. Qed.

(** ** A command *)

Definition ex_global : GlobalArgs :=
  mkGlobalArgs (Some "vega.toml") [] [] None None None None None None false None None (Some "t0ken") false false.

Definition ex_world : Dispatch.World :=
  mkWorld ex_env (fun _ => true) (fun _ _ => NoFile) 7 (routed guarded_answer) ex_sockets 7 (fun _ => None).

Definition ex_add_cli (ttl : option N) : Cli := mkCli (Some (CmdRecord (ActAdd "mail" "A" ["203.0.113.25"] ttl false true true))) ex_global.

Lemma ex_cli_ok : cli_ok (ex_add_cli (Some 60%N)).
Proof. exact ex_ttl. Qed.

Lemma commands_change_one_file_witness :
  exists fs' code, main (TM := plain_toml) ex_world (ex_add_cli (Some 60%N)) ex_home = Some (fs', code) /\
    only_at (Some "vega.toml") ex_home fs'.
Proof.
  destruct (commands_change_one_file (TM := plain_toml) ex_world (ex_add_cli (Some 60%N)) ex_home ex_home_settled ex_cli_ok)
    as (fs' & code & H & Ho & _).
  exists fs', code. split; [exact H|exact Ho].
Defined.

Lemma ex_serves_reload :
  serves_reload ex_reason ex_headers ex_json ex_world ex_global (guarded_seen ReloadEndpoint) 0%nat (SockV4 0 5353) ex_given.
Proof.
  constructor; [exact ex_library|exact (routed_reaches _ _ guarded_seen _ _ _)|exact guarded_sendable|reflexivity|].
  intros t [= <-]. reflexivity.
Qed.

Definition ex_reload_cli : Cli := mkCli (Some CmdReload) ex_global.

Lemma reload_exit_codes_witness : exists code, main (TM := plain_toml) ex_world ex_reload_cli ex_home = Some (ex_home, code) /\ code = SUCCESS.
Proof.
  destruct (proj1 (reload_exit_codes (TM := plain_toml) ex_reason ex_headers ex_json ex_world ex_reload_cli ex_home
    (guarded_seen ReloadEndpoint) 0%nat (SockV4 0 5353) ex_given ex_home_settled ex_serves_reload) eq_refl) as (code & H & Hiff).
  exists code. split; [exact H|]. exact (proj2 Hiff guarded_reloads).
Defined.

(** ** An address added, and answered

    The zone of [ZoneExamples] in a file, a server running from it, and
    [vega record add n A 192.0.2.77 --reload]. *)

Definition zone_doc : plain_table :=
  [("zone", table_tree
     [("origin", GenLeaf (inl "Z"));
      ("records", GenNode 2 (map (fun r => table_tree (ex_set (rs_name r) (rs_type r) (rs_values r))) (zc_records ex_cfg)))])].

Definition zone_file : File := mkFile (Document_render (Toml := plain_toml) zone_doc) 0x1A0 true.
Definition zone_home : Fs := mkFs {[0%N := zone_file]} {["vega.toml" := 0%N]} [].

Lemma zone_home_settled : settled zone_home.
Proof.
  split; [done|]. intros name fd H. unfold zone_home in *. cbn [entries inodes] in *.
  apply lookup_singleton_Some in H as [<- <-]. exists zone_file. split; [apply lookup_singleton_eq|done].
Qed.

(** As the server reads it after the edit: one address more. *)
Definition added_cfg : ZoneConfig := mkZoneConfig "Z" 300 true (Some ex_soa)
  [rec "@" "NS" ["n.z."]; rec "n" "A" ["192.0.2.1"; "192.0.2.77"]; rec "w" "CNAME" ["a.b.z."];
   rec "a.b" "A" ["192.0.2.2"; "192.0.2.5"]; rec "*.d" "A" ["192.0.2.3"];
   rec "s" "NS" ["n.s.z."]; rec "n.s" "A" ["192.0.2.4"]; rec "x.s" "A" ["192.0.2.9"]].

Definition added_toml : FileConfig :=
  mkFileConfig (fc_server ex_plain_toml) (mkZoneSection (Some "Z") (Some 300%N) None (zc_soa added_cfg) (zc_records added_cfg)).
Definition added_files : Config.Files := fun _ => Parsed added_toml.

(** ** The server *)

Definition live_cli : GlobalArgs :=
  mkGlobalArgs (Some "vega.toml") [] [] None None None None None None false None None None false false.
Definition live_ctx : ReloadContext := ReloadContext_new live_cli "vega.toml" ex_served (overlay live_cli ex_plain_toml) false.

Definition live_state : AdminState (World := ReloadContext) :=
  with_token (with_reload (mark_ready (AdminState_new seen_counters)) (hook added_files ex_seed false)) (Some "t0ken").
Definition live_seen (e : Endpoint) : Seen (World := ReloadContext) := mkSeen live_state seen_counters ex_limiter 3000000000.
Definition live_answer (e : Endpoint) : string :=
  answer ex_reason ex_headers ex_json (live_seen e) e live_ctx (SockV4 0 5353) ex_given.

Definition live_world : Dispatch.World :=
  mkWorld ex_env (fun _ => true) (fun _ _ => NoFile) 7 (routed live_answer) ex_sockets 7 (fun _ => None).

Definition live_add : Cli := mkCli (Some (CmdRecord (ActAdd "N " "a" ["192.0.2.77"] None false false true))) ex_global.

Lemma live_sendable : sendable (live_answer ReloadEndpoint).
Proof.
  assert (H : forall t, bool_decide (from_utf8_lossy (octets_of_string t) = octets_of_string t) = true -> (N.of_nat (String.length t) <=? N.shiftl 1 20)%N = true -> sendable t).
  { intros t H1 H2. split; [by apply bool_decide_eq_true in H1|]. apply fits, N.leb_le, H2. }
  apply H; evaluate.
Qed.

Lemma live_serves_reload :
  serves_reload ex_reason ex_headers ex_json live_world ex_global (live_seen ReloadEndpoint) live_ctx (SockV4 0 5353) ex_given.
Proof.
  constructor; [exact ex_library|exact (routed_reaches _ _ live_seen _ _ _)|exact live_sendable|reflexivity|].
  intros t [= <-]. reflexivity.
Qed.

(** ** The command, run *)

Definition live_run : option (Fs * N) := main (TM := plain_toml) live_world live_add zone_home.
Definition live_home : Fs := match live_run with Some (fs, _) => fs | None => zone_home end.

Lemma live_run_succeeds : main (TM := plain_toml) live_world live_add zone_home = Some (live_home, SUCCESS).
Proof.
  change (live_run = Some (live_home, SUCCESS)).
  assert (H : match live_run with Some (_, code) => (code =? SUCCESS)%N | None => false end = true) by evaluate.
  unfold live_home. destruct live_run as [[fs code]|]; [|discriminate H]. apply N.eqb_eq in H as ->. reflexivity.
Qed.

Definition added_entries : list RecordEntry :=
  map (fun r => mkEntry (rs_name r) (rs_type r) (rs_ttl r) (rs_values r)) (zc_records added_cfg).

Lemma live_reads_alike : reads_alike (TM := plain_toml) added_files live_home "vega.toml".
Proof.
  intros f doc file Hf Hdoc [= <-].
  assert (H : match read live_home "vega.toml" with
              | Some f => match Document_parse (Toml := plain_toml) (text f) with
                          | Some doc => bool_decide (records (TM := plain_toml) doc = added_entries)
                          | None => false
                          end
              | None => false
              end = true) by evaluate.
  rewrite Hf, Hdoc in H. apply bool_decide_eq_true in H. rewrite H. clear.
  change (Forall2 alike (zc_records added_cfg) added_entries). unfold added_entries. cbn [added_cfg zc_records map].
  repeat (apply Forall2_cons; split; [by split_and!|]). constructor.
Qed.

Definition live_after : DnsHandler := rc_handler (hook added_files ex_seed false live_ctx).1.

Lemma added_fits : Declared.fits added_cfg.
Proof.
  unfold Declared.fits. assert (H : match config_builder added_cfg with
    | Ok b => (N.of_nat (length (entries_of b)) <=? u32_MAX)%N | Err _ => false end = true) by evaluate.
  revert H. generalize (config_builder added_cfg). intros [b|e] H b' E; [|discriminate E].
  injection E as <-. by apply N.leb_le.
Qed.

Lemma added_plain : plain_config added_cfg.
Proof. constructor; [reflexivity|discriminate|reflexivity|repeat constructor]. Qed.

Definition live_resolved : ResolvedConfig := mkResolvedConfig (overlay live_cli added_toml) (FileSettings_from added_toml).

Lemma live_resolves : Config_resolve added_files live_cli = Ok live_resolved.
Proof. reflexivity. Qed.

Lemma added_records_are_answered_witness :
  exists spec, block_of added_cfg "N " RT_A ["192.0.2.77"] spec /\ answers_values live_after added_cfg spec RT_A ["192.0.2.77"].
Proof.
  assert (Ht : normalise_type (HN := plain_names) "a" = Ok RT_A) by reflexivity.
  destruct (added_records_are_answered (TM := plain_toml) ex_reason ex_headers ex_json live_world live_add zone_home live_home
    (live_seen ReloadEndpoint) live_ctx (SockV4 0 5353) ex_given added_files ex_seed false "vega.toml" "N " "a" ["192.0.2.77"]
    None false false zone_home_settled ltac:(discriminate) eq_refl live_serves_reload eq_refl eq_refl eq_refl)
    as (r & t & spec & Hr & Ht' & Hb & Ha).
  - intros t H. rewrite Ht in H. injection H as <-. reflexivity.
  - exact live_run_succeeds.
  - exact live_reads_alike.
  - rewrite Ht in Ht'. injection Ht' as <-. change (invocation live_ctx) with live_cli in Hr. rewrite live_resolves in Hr.
    injection Hr as <-. exists spec. split; [exact Hb|]. apply Ha; [exact added_plain|exact added_fits|reflexivity|discriminate].
Defined.

(** ** A check

    The same zone without the address below its delegation, so that there is nothing to
    remark: the check is passed, and a server of any seed starts and answers. *)

Definition clean_cfg : ZoneConfig := mkZoneConfig "Z" 300 true (Some ex_soa)
  [rec "@" "NS" ["n.z."]; rec "n" "A" ["192.0.2.1"]; rec "w" "CNAME" ["a.b.z."]; rec "a.b" "A" ["192.0.2.2"; "192.0.2.5"];
   rec "*.d" "A" ["192.0.2.3"]; rec "s" "NS" ["n.s.z."]; rec "n.s" "A" ["192.0.2.4"]].

Definition clean_toml : FileConfig :=
  mkFileConfig (fc_server ex_plain_toml) (mkZoneSection (Some "Z") (Some 300%N) None (zc_soa clean_cfg) (zc_records clean_cfg)).

Definition check_world : Dispatch.World :=
  mkWorld ex_env (fun _ => true) (fun _ _ => Parsed clean_toml) ex_seed (routed guarded_answer) ex_sockets 7 (fun _ => None).
Definition check_cli : Cli := mkCli (Some CmdCheck) live_cli.

Lemma clean_plain : plain_config clean_cfg.
Proof. constructor; [reflexivity|discriminate|reflexivity|repeat constructor]. Qed.

Lemma clean_arenas b : config_builder clean_cfg = Ok b -> arenas_fit (entries_of b).
Proof.
  assert (H : match config_builder clean_cfg with
    | Ok b => (N.of_nat (length (entries_of b)) <=? u32_MAX)%N && (N.of_nat (keys_size (entries_of b)) <=? u32_MAX)%N &&
              (N.of_nat (runs_size (entries_of b)) <=? u32_MAX)%N && (N.of_nat (rdata_size (entries_of b)) <=? u32_MAX)%N
    | Err _ => false end = true) by evaluate.
  revert H. generalize (config_builder clean_cfg). intros [b'|e] H E; [|discriminate E]. injection E as ->.
  apply andb_true_iff in H as [H H4]. apply andb_true_iff in H as [H H3]. apply andb_true_iff in H as [H1 H2].
  constructor; by apply N.leb_le.
Qed.

Lemma clean_passes code : main (TM := plain_toml) check_world check_cli zone_home = Some (zone_home, code) -> code = SUCCESS.
Proof.
  assert (H : match main (TM := plain_toml) check_world check_cli zone_home with Some (_, code) => (code =? SUCCESS)%N | None => false end = true)
    by evaluate.
  intros E. rewrite E in H. by apply N.eqb_eq.
Qed.

Lemma check_speaks_for_the_server_witness :
  main (TM := plain_toml) check_world check_cli zone_home = Some (zone_home, SUCCESS) /\ file_accepted clean_cfg /\
  exists p, serve_setup (overlay live_cli clean_toml) live_cli 77 0 (fun k => k) (hook added_files 7 false) = Ok p /\
    answers_for (p_handler p) clean_cfg.
Proof.
  destruct (check_speaks_for_the_server (TM := plain_toml) check_world check_cli zone_home eq_refl) as (code & Hm & H).
  pose proof (clean_passes code Hm) as ->.
  assert (E : Config_load (w_files check_world zone_home) (with_config_path (cli_global check_cli) (config_path check_cli zone_home))
              = Ok (overlay live_cli clean_toml)) by reflexivity.
  rewrite E in H. change (cfg_zone (overlay live_cli clean_toml)) with clean_cfg in H.
  destruct (H clean_plain clean_arenas) as [Hcode Hserve]. destruct (proj1 Hcode eq_refl) as [Hacc _].
  split; [exact Hm|]. split; [exact Hacc|].
  specialize (Hserve live_cli 77%N 0%N (fun k => k) (hook added_files 7 false)). revert Hserve.
  generalize (serve_setup (overlay live_cli clean_toml) live_cli 77 0 (fun k => k) (hook added_files 7 false)).
  intros [p|e] Hp; [|destruct (Hp Hacc)]. exists p. split; [reflexivity|exact (proj2 Hp)].
Defined.

Close Scope string_scope.
