(* ===== verification/Ui.v ===== *)
(** * Ui: terminal text (ui.rs)

    Colour decided once, styled text, key and value lines, tables measured on what
    is visible, durations and bars.  What is printed is the list of its lines; the
    escape sequences are owo_colors', a parameter. *)

From S2P Require Import Prelude Rdata Text Exposition.
From stdpp Require Import pretty.
Local Open Scope string_scope.

(** ** Whether to colour *)

(** What [should_colour] looks at: three variables and the standard output. *)
Record Terminal : Type := mkTerminal {
  clicolor_force : option string;
  no_color : option string;
  term : option string;
  is_terminal : bool;
}.

Definition should_colour (t : Terminal) (structured : bool) : bool :=
  if structured then false
  else if bool_decide (is_Some (clicolor_force t)) then true
  else if bool_decide (is_Some (no_color t)) then false
  else if bool_decide (term t = Some "dumb") then false
  else is_terminal t.

(** The two statics, as [init] sets them. *)
Record Ui : Type := mkUi { colour : bool; verbose : bool }.

Definition ui_init (t : Terminal) (structured verbosity : bool) : Ui :=
  mkUi (should_colour t structured) verbosity.

(** ** Styles *)

Inductive Style : Type := Bold | Dimmed | Green | Yellow | Red | Cyan | Magenta | Blue.

(** The text a style puts before and after what it styles. *)
Class OwoColors : Type := { style_open : Style -> string; style_close : Style -> string }.

(** ** Characters *)

Definition ESC : Ascii.ascii := Ascii.ascii_of_N 27.

(** [char::is_ascii_alphabetic]; no octet of a longer character is. *)
Definition is_ascii_alphabetic (c : Ascii.ascii) : bool :=
  let n := Ascii.N_of_ascii c in (((65 <=? n) && (n <=? 90)) || ((97 <=? n) && (n <=? 122)))%N.

(** [chars().count()], [repeat] and [join]. *)
Definition char_count (s : string) : nat := N.to_nat (chars_count s).

Fixpoint str_repeat (s : string) (n : nat) : string :=
  match n with O => "" | S n => s +:+ str_repeat s n end.

Definition spaces (n : nat) : string := str_repeat " " n.

Fixpoint str_join (sep : string) (l : list string) : string :=
  match l with [] => "" | [x] => x | x :: l => x +:+ sep +:+ str_join sep l end.

(** [visible_width]: [esc] is in the middle of a sequence, which ends with a letter. *)
Fixpoint visible_from (esc : bool) (s : string) : nat :=
  match s with
  | EmptyString => 0
  | String c s =>
      if esc then visible_from (negb (is_ascii_alphabetic c)) s
      else if Ascii.eqb c ESC then visible_from true s
      else ((if is_continuation c then 0 else 1) + visible_from false s)%nat
  end.

Definition visible_width (text : string) : nat := visible_from false text.

(** [format!("{text:<width$}")] pads with spaces. *)
Definition pad (text : string) (width : nat) (last : bool) : string :=
  if last then text else text +:+ spaces (width - char_count text).

Definition pad_styled (text : string) (width : nat) (last : bool) : string :=
  if last then text
  else
    let visible := visible_width text in
    if (visible <? width)%nat then text +:+ spaces (width - visible) else text.

(** ** Tables *)

(** [Table]. *)
Record TextTable : Type := mkTextTable {
  tt_header : list string;
  tt_rows : list (list string);
  tt_widths : list nat;
}.

Definition TextTable_new (header : list string) : TextTable := mkTextTable header [] (map char_count header).

(** One cell of a row: its column grows to it, or starts with it. *)
Definition widen (widths : list nat) (cell : nat * string) : list nat :=
  let '(idx, text) := cell in
  let width := char_count text in
  match widths !! idx with
  | Some current => <[idx := (current `max` width)%nat]> widths
  | None => (widths ++ [width])%list
  end.

Definition enumerate {A} (l : list A) : list (nat * A) := imap pair l.

Definition TextTable_row (t : TextTable) (cells plain : list string) : TextTable :=
  mkTextTable (tt_header t) (tt_rows t ++ [cells])%list (fold_left widen (enumerate plain) (tt_widths t)).

(** A table and its rows, each its cells and their plain texts. *)
Definition table_of (header : list string) (rows : list (list string * list string)) : TextTable :=
  fold_left (fun t r => TextTable_row t r.1 r.2) rows (TextTable_new header).

Definition tt_width (t : TextTable) (idx : nat) : nat := default 0%nat (tt_widths t !! idx).

Section Styled.
Context {O : OwoColors} (u : Ui).

(** [styled!]. *)
Definition paint (st : Style) (text : string) : string := style_open st +:+ text +:+ style_close st.
Definition styled (st : Style) (text : string) : string := if colour u then paint st text else text.

Definition heading : string -> string := styled Bold.
Definition ui_label : string -> string := styled Dimmed.
Definition ui_good : string -> string := styled Green.
Definition warn : string -> string := styled Yellow.
Definition bad : string -> string := styled Red.
Definition accent : string -> string := styled Cyan.
Definition muted : string -> string := styled Dimmed.

Definition type_style (ty : string) : Style :=
  if bool_decide (ty ∈ ["A"; "AAAA"]) then Green
  else if bool_decide (ty ∈ ["CNAME"; "NS"; "SOA"; "DNAME"]) then Magenta
  else if bool_decide (ty ∈ ["MX"; "SRV"; "SVCB"; "HTTPS"]) then Blue
  else if bool_decide (ty ∈ ["TXT"; "CAA"]) then Yellow
  else Cyan.

Definition record_type (ty : string) : string :=
  if negb (colour u) then ty else paint (type_style ty) ty.

Definition code_style (code : string) : Style :=
  if bool_decide (code = "NOERROR") then Green
  else if bool_decide (code = "NXDOMAIN") then Yellow else Red.

Definition rcode (code : string) : string :=
  if negb (colour u) then code else paint Bold (paint (code_style code) code).

Definition tick : string := if colour u then paint Green "✔" else "OK".
Definition cross : string := if colour u then paint Red "✘" else "FAIL".
Definition bang : string := if colour u then paint Yellow "!" else "WARN".

(** What is printed, line by line. *)
Definition section (title : string) : list string :=
  [""; heading title; muted (str_repeat "─" (char_count title `max` 8))].

Definition field (name value : string) (width : nat) : list string :=
  [ui_label name +:+ spaces (width - char_count name) +:+ " " +:+ value].

Definition TextTable_print (t : TextTable) : list string :=
  let last := (length (tt_header t) - 1)%nat in
  let header := imap (fun idx cell => pad cell (tt_width t idx) (idx =? last)%nat) (tt_header t) in
  (ui_label (str_join "  " header)
   :: map (fun row => str_join "  " (imap (fun idx cell => pad_styled cell (tt_width t idx) (idx =? last)%nat) row))
        (tt_rows t))%list.

End Styled.

(** ** Numbers *)

(** The rest of [f64] that is printed with: [trunc], [round], [clamp], the saturating
    cast to an unsigned integer, and [{:.n}]. *)
Class F64Text (F : F64) : Type := {
  f64_lt : f64 -> f64 -> bool;
  f64_mul : f64 -> f64 -> f64;
  f64_trunc : f64 -> f64;
  f64_round : f64 -> f64;
  f64_clamp : f64 -> f64 -> f64 -> f64;
  as_u64 : f64 -> N;
  f64_fixed : nat -> f64 -> string;
}.

Section Numbers.
Context {O : OwoColors} {F : F64} {FT : F64Text F} (u : Ui).

Definition U64_MAX_AS_F64 : f64 := as_f64 (U64_MOD - 1)%N.

(** [secs.trunc().clamp(0.0, U64_MAX_AS_F64) as u64], and [count]. *)
Definition whole (x : f64) : N := as_u64 (f64_clamp (f64_trunc x) (as_f64 0) U64_MAX_AS_F64).

(** A whole number of seconds in its units. *)
Definition duration_of (total : N) : string :=
  let days := (total / 86400)%N in let rest := (total mod 86400)%N in
  let hours := (rest / 3600)%N in let rest := (rest mod 3600)%N in
  let minutes := (rest / 60)%N in let seconds := (rest mod 60)%N in
  if (0 <? days)%N then pretty days +:+ "d " +:+ pretty hours +:+ "h " +:+ pretty minutes +:+ "m"
  else if (0 <? hours)%N then pretty hours +:+ "h " +:+ pretty minutes +:+ "m " +:+ pretty seconds +:+ "s"
  else if (0 <? minutes)%N then pretty minutes +:+ "m " +:+ pretty seconds +:+ "s"
  else pretty seconds +:+ "s".

Definition duration (secs : f64) : string :=
  if f64_lt secs (as_f64 1) then f64_fixed 0 (f64_mul secs (as_f64 1000)) +:+ "ms"
  else duration_of (whole secs).

Definition bar (ratio : f64) (width : nat) : string :=
  let clamped := f64_clamp ratio (as_f64 0) (as_f64 1) in
  let filled := N.to_nat (as_u64 (f64_round (f64_mul clamped (as_f64 (N.of_nat width))))) in
  let filled := (filled `min` width)%nat in
  let glyphs := str_repeat "█" filled +:+ str_repeat "░" (width - filled) in
  if colour u then paint Cyan glyphs else glyphs.

End Numbers.
