(* ===== verification/UiTheorems.v ===== *)
(** * UiTheorems: what a terminal shows of the text

    [strip] is a text without its escape sequences, which is what the eye sees.
    Styling is invisible to it, so a table lines up whether it is coloured or not. *)

From S2P Require Import Prelude Rdata Text Exposition Ui.
From stdpp Require Import pretty.
Local Open Scope string_scope.

(** ** Sequences *)

Fixpoint strip_from (esc : bool) (s : string) : string :=
  match s with
  | EmptyString => EmptyString
  | String c s =>
      if esc then strip_from (negb (is_ascii_alphabetic c)) s
      else if Ascii.eqb c ESC then strip_from true s
      else String c (strip_from false s)
  end.

Definition strip (s : string) : string := strip_from false s.

(** Whether a text ends in the middle of a sequence. *)
Fixpoint open_after (esc : bool) (s : string) : bool :=
  match s with
  | EmptyString => esc
  | String c s =>
      if esc then open_after (negb (is_ascii_alphabetic c)) s
      else open_after (Ascii.eqb c ESC) s
  end.

Definition closed (s : string) : Prop := open_after false s = false.

Fixpoint no_escape (s : string) : bool :=
  match s with EmptyString => true | String c s => negb (Ascii.eqb c ESC) && no_escape s end.

(** A sequence, or several: nothing of it is seen. *)
Definition invisible (s : string) : Prop := strip s = "" /\ closed s.

(** What owo_colors writes is Select Graphic Rendition sequences. *)
Class OwoLaws (O : OwoColors) : Prop := {
  style_open_invisible st : invisible (style_open st);
  style_close_invisible st : invisible (style_close st);
}.

Lemma strip_app e a b : strip_from e (a +:+ b) = strip_from e a +:+ strip_from (open_after e a) b.
Proof.
  revert e. induction a as [|c a IH]; intros e; [done|]. rewrite append_cons. cbn [strip_from open_after].
  destruct e; [apply IH|]. destruct (Ascii.eqb c ESC); [apply IH|]. rewrite IH. done.
Qed.

Lemma open_after_app e a b : open_after e (a +:+ b) = open_after (open_after e a) b.
Proof.
  revert e. induction a as [|c a IH]; intros e; [done|]. rewrite append_cons. cbn [open_after].
  destruct e; apply IH.
Qed.

Lemma closed_app a b : closed a -> closed b -> closed (a +:+ b).
Proof. unfold closed. intros Ha Hb. by rewrite open_after_app, Ha. Qed.

Lemma strip_closed_app a b : closed a -> strip (a +:+ b) = strip a +:+ strip b.
Proof. unfold strip, closed. intros Ha. by rewrite strip_app, Ha. Qed.

Lemma no_escape_app a b : no_escape (a +:+ b) = no_escape a && no_escape b.
Proof.
  induction a as [|c a IH]; [done|]. rewrite append_cons. cbn [no_escape]. rewrite IH. apply andb_assoc.
Qed.

Lemma no_escape_plain s : no_escape s = true -> strip s = s /\ closed s.
Proof.
  unfold strip, closed. induction s as [|c s IH]; [done|]. cbn. intros [Hc Hs]%andb_true_iff.
  apply negb_true_iff in Hc. rewrite Hc. destruct (IH Hs) as [-> ->]. done.
Qed.

Lemma strip_no_escape e s : no_escape (strip_from e s) = true.
Proof.
  revert e. induction s as [|c s IH]; intros e; [done|]. cbn [strip_from].
  destruct e; [apply IH|]. destruct (Ascii.eqb c ESC) eqn:E; [apply IH|]. cbn [no_escape]. by rewrite E, IH.
Qed.

Lemma strip_idemp s : strip (strip s) = strip s.
Proof. apply no_escape_plain, strip_no_escape. Qed.

(** ** Widths *)

Lemma char_count_app a b : char_count (a +:+ b) = (char_count a + char_count b)%nat.
Proof.
  unfold char_count. induction a as [|c a IH]; [done|]. rewrite append_cons. cbn [chars_count].
  destruct (is_continuation c); rewrite ?N2Nat.inj_add, IH; lia.
Qed.

(** [visible_width] counts what is seen. *)
Lemma visible_width_strip s : visible_width s = char_count (strip s).
Proof.
  unfold visible_width, strip, char_count. generalize false. induction s as [|c s IH]; intros e; [done|].
  cbn [visible_from strip_from]. destruct e; [apply IH|]. destruct (Ascii.eqb c ESC); [apply IH|].
  cbn [chars_count]. rewrite IH. destruct (is_continuation c); lia.
Qed.

Lemma char_count_spaces n : char_count (spaces n) = n.
Proof. induction n as [|n IH]; [done|]. unfold spaces. cbn [str_repeat]. rewrite char_count_app. fold (spaces n). by rewrite IH. Qed.

Lemma no_escape_spaces n : no_escape (spaces n) = true.
Proof. induction n as [|n IH]; [done|]. unfold spaces. cbn [str_repeat]. by rewrite no_escape_app. Qed.

Lemma char_count_pad x w last : last = false -> (char_count x <= w)%nat -> char_count (pad x w last) = w.
Proof. intros -> H. unfold pad. rewrite char_count_app, char_count_spaces. lia. Qed.

(** A styled cell is padded as what it shows. *)
Lemma strip_pad cell w last : closed cell ->
  strip (pad_styled cell w last) = pad (strip cell) w last /\ closed (pad_styled cell w last).
Proof.
  intros Hc. unfold pad_styled, pad. destruct last; [done|]. rewrite visible_width_strip.
  pose proof (no_escape_plain _ (no_escape_spaces (w - char_count (strip cell)))) as [Hs Hsc].
  destruct (_ <? w)%nat eqn:E; bool_prop.
  - split; [by rewrite strip_closed_app, Hs|by apply closed_app].
  - replace (w - char_count (strip cell))%nat with 0%nat by lia. split; [by rewrite append_empty|done].
Qed.

(** ** Joins *)

Lemma strip_join sep l : no_escape sep = true -> Forall closed l ->
  strip (str_join sep l) = str_join sep (map strip l).
Proof.
  intros [Hs Hc]%no_escape_plain Hl. induction Hl as [|x l Hx Hl IH]; [done|]. destruct l as [|y l]; [done|].
  cbn [str_join map] in *. rewrite !strip_closed_app, Hs, IH by done. done.
Qed.

(** Where the [i]-th of some texts joined begins. *)
Fixpoint join_offset (sep : string) (l : list string) (i : nat) : nat :=
  match i, l with
  | S i, x :: l => (char_count x + char_count sep + join_offset sep l i)%nat
  | _, _ => 0%nat
  end.

Lemma join_lookup sep l i x : l !! i = Some x ->
  exists before after, str_join sep l = before +:+ x +:+ after /\ char_count before = join_offset sep l i.
Proof.
  revert i. induction l as [|y l IH]; intros i; [done|]. destruct i as [|i]; cbn [lookup list_lookup].
  - intros [= ->]. exists "". destruct l as [|z l]; [exists ""; by rewrite append_empty|]. by eexists.
  - intros Hi. destruct (IH i Hi) as (before & after & He & Ho).
    destruct l as [|z l]; [done|]. exists (y +:+ sep +:+ before), after. split.
    + change (str_join sep (y :: z :: l)) with (y +:+ sep +:+ str_join sep (z :: l)). rewrite He. by rewrite !append_assoc.
    + rewrite !char_count_app, Ho.
      change (join_offset sep (y :: z :: l) (S i)) with (char_count y + char_count sep + join_offset sep (z :: l) i)%nat. lia.
Qed.

(** ** Tables *)

Section Tables.
Context {O : OwoColors} {OL : OwoLaws O}.

Lemma strip_paint st s : closed s -> strip (paint st s) = strip s /\ closed (paint st s).
Proof.
  intros Hs. destruct (style_open_invisible st) as [Ho Hoc], (style_close_invisible st) as [Hc Hcc]. unfold paint.
  split; [|by repeat apply closed_app]. rewrite !strip_closed_app by done. rewrite Ho, Hc. apply append_empty.
Qed.

(** Styling shows nothing, whatever was decided about colour. *)
Lemma strip_styled u st s : closed s -> strip (styled u st s) = strip s /\ closed (styled u st s).
Proof. intros Hs. unfold styled. destruct (colour u); [by apply strip_paint|done]. Qed.

(** A cell and what column widths are measured from. *)
Definition cell_shows (cell plain : string) : Prop := closed cell /\ strip cell = plain.

Lemma styled_shows u st s : no_escape s = true -> cell_shows (styled u st s) s.
Proof. intros [Hs Hc]%no_escape_plain. destruct (strip_styled u st s Hc). split; [done|congruence]. Qed.

Lemma plain_shows s : no_escape s = true -> cell_shows s s.
Proof. intros [Hs Hc]%no_escape_plain. done. Qed.

Lemma record_type_shows u s : no_escape s = true -> cell_shows (record_type u s) s.
Proof.
  intros [Hs Hc]%no_escape_plain. unfold record_type. destruct (colour u); [|done]. cbn [negb].
  destruct (strip_paint (type_style s) s Hc). split; [done|congruence].
Qed.

Lemma rcode_shows u s : no_escape s = true -> cell_shows (rcode u s) s.
Proof.
  intros [Hs Hc]%no_escape_plain. unfold rcode. destruct (colour u); [|done]. cbn [negb].
  destruct (strip_paint (code_style s) s Hc) as [H1 H2]. destruct (strip_paint Bold _ H2) as [H3 ?].
  split; [done|]. congruence.
Qed.

(** A row as a table expects it: every cell is closed, and what it shows is as wide as
    the plain text it came with, the last column apart, which is never padded. *)
Definition shown (r : list string * list string) : list string := map strip r.1.

Definition row_ok (header : list string) (r : list string * list string) : Prop :=
  Forall closed r.1 /\ length r.1 = length r.2 /\ (length r.2 <= length header)%nat /\
  forall i cell plain, (i < length header - 1)%nat -> r.1 !! i = Some cell -> r.2 !! i = Some plain ->
    char_count (strip cell) = char_count plain.

Lemma shows_row_ok header cells plain :
  Forall2 cell_shows cells plain -> (length plain <= length header)%nat -> row_ok header (cells, plain).
Proof.
  intros H Hl. split_and!; [|by eapply Forall2_length|done|]; cbn.
  - apply Forall_lookup. intros i c Hc. destruct (Forall2_lookup_l _ _ _ _ _ H Hc) as (p & _ & ? & _). done.
  - intros i c p _ Hc Hp. destruct (Forall2_lookup_lr _ _ _ _ _ _ H Hc Hp) as [_ <-]. done.
Qed.

Lemma built_snoc header rows r : table_of header (rows ++ [r]) = TextTable_row (table_of header rows) r.1 r.2.
Proof. unfold table_of. by rewrite fold_left_app. Qed.

Lemma built_parts header rows :
  tt_header (table_of header rows) = header /\ tt_rows (table_of header rows) = map fst rows.
Proof.
  induction rows as [|r rows [IH1 IH2]] using rev_ind; [done|]. rewrite built_snoc, map_app. cbn. by rewrite IH1, IH2.
Qed.

(** Widths only grow, and each plain text fits its own. *)
Lemma widen_mono widths cell i :
  (default 0%nat (widths !! i) <= default 0%nat (widen widths cell !! i))%nat.
Proof.
  destruct cell as [idx text]. unfold widen. destruct (widths !! idx) as [w|] eqn:E.
  - destruct (decide (i = idx)) as [->|Hn].
    + rewrite list_lookup_insert_eq by (by eapply lookup_lt_Some). rewrite E. cbn. lia.
    + by rewrite list_lookup_insert_ne by done.
  - destruct (widths !! i) as [w|] eqn:Ei; cbn; [|lia]. erewrite lookup_app_l_Some by done. cbn. lia.
Qed.

Lemma fold_widen_mono cells widths i :
  (default 0%nat (widths !! i) <= default 0%nat (fold_left widen cells widths !! i))%nat.
Proof.
  revert widths. induction cells as [|c cells IH]; intros widths; [done|]. cbn [fold_left].
  etrans; [apply widen_mono|apply IH].
Qed.

(** A cell of a row is no wider than its column, once the column is there. *)
Lemma fold_widen_fits cells k widths :
  (k + length cells <= length widths)%nat -> forall i x, cells !! i = Some x ->
  (char_count x <= default 0%nat (fold_left widen (imap (fun j c => (k + j, c))%nat cells) widths !! (k + i)%nat))%nat /\
  length (fold_left widen (imap (fun j c => (k + j, c))%nat cells) widths) = length widths.
Proof.
  revert k widths. induction cells as [|c cells IH]; intros k widths Hl i x Hx; [done|]. cbn [imap fold_left length] in *.
  rewrite Nat.add_0_r.
  destruct (lookup_lt_is_Some_2 widths k) as [w Hw]; [lia|].
  assert (Hlen : length (widen widths (k, c)) = length widths) by (unfold widen; rewrite Hw; apply length_insert).
  assert (Hshift : imap ((fun j c => (k + j, c))%nat ∘ S) cells = imap (fun j c => (S k + j, c))%nat cells).
  { apply imap_ext. intros j y _. cbn. f_equal. lia. }
  rewrite Hshift. assert (Hfold : length (fold_left widen (imap (fun j c => (S k + j, c))%nat cells) (widen widths (k, c))) = length widths).
  { destruct cells as [|d cells]; [done|]. etrans; [|exact Hlen].
    apply (proj2 (IH (S k) (widen widths (k, c)) ltac:(rewrite Hlen; cbn in *; lia) 0%nat d eq_refl)). }
  split; [|done]. destruct i as [|i]; cbn in Hx.
  - injection Hx as <-. rewrite Nat.add_0_r. etrans; [|apply fold_widen_mono]. unfold widen. rewrite Hw.
    rewrite list_lookup_insert_eq by (by eapply lookup_lt_Some). cbn. lia.
  - replace (k + S i)%nat with (S k + i)%nat by lia.
    apply (IH (S k) (widen widths (k, c)) ltac:(rewrite Hlen; cbn in *; lia) i x Hx).
Qed.

Lemma enumerate_shift {A} (l : list A) : enumerate l = imap (fun j c => (0 + j, c))%nat l.
Proof. done. Qed.

Lemma built_widths header rows :
  Forall (fun r => length r.2 <= length header)%nat rows ->
  length (tt_widths (table_of header rows)) = length header /\
  forall texts, texts ∈ header :: map snd rows -> forall i x, texts !! i = Some x ->
    (char_count x <= tt_width (table_of header rows) i)%nat.
Proof.
  unfold tt_width. induction rows as [|r rows IH] using rev_ind; intros Hr.
  - split; [apply length_map|]. intros texts Ht i x Hx. apply list_elem_of_singleton in Ht as ->. cbn.
    rewrite list_lookup_fmap, Hx. cbn. lia.
  - apply Forall_app in Hr as [Hr Hl]. rewrite Forall_singleton in Hl. destruct (IH Hr) as [IHl IHw]. clear IH.
    rewrite built_snoc. cbn [tt_widths TextTable_row]. rewrite enumerate_shift. split.
    + revert Hl. destruct r.2 as [|x l]; intros Hl; [done|]. rewrite <- IHl.
      apply (proj2 (fold_widen_fits (x :: l) 0 (tt_widths (table_of header rows)) ltac:(rewrite IHl; exact Hl) 0%nat x eq_refl)).
    + intros texts Ht i x Hx. rewrite map_app in Ht. change (texts ∈ (header :: map snd rows) ++ [r.2])%list in Ht.
      apply elem_of_app in Ht as [Ht|Ht]; [|apply list_elem_of_singleton in Ht as ->].
      * etrans; [by eapply IHw|apply fold_widen_mono].
      * apply (proj1 (fold_widen_fits _ 0 _ ltac:(rewrite IHl; exact Hl) i x Hx)).
Qed.

(** The line of some texts in the columns of a table. *)
Definition plain_cells (t : TextTable) (texts : list string) : list string :=
  imap (fun idx x => pad x (tt_width t idx) (idx =? length (tt_header t) - 1)%nat) texts.

Definition plain_line (t : TextTable) (texts : list string) : string := str_join "  " (plain_cells t texts).

Lemma pad_no_escape x w last : no_escape x = true -> no_escape (pad x w last) = true.
Proof. intros H. unfold pad. destruct last; [done|]. by rewrite no_escape_app, H, no_escape_spaces. Qed.

Lemma no_escape_join sep l :
  no_escape sep = true -> Forall (fun x => no_escape x = true) l -> no_escape (str_join sep l) = true.
Proof.
  intros Hs. induction 1 as [|x l Hx Hl IH]; [done|]. destruct l as [|y l]; [done|].
  cbn [str_join] in *. by rewrite !no_escape_app, Hx, Hs, IH.
Qed.

Lemma strip_header u t : Forall (fun x => no_escape x = true) (tt_header t) ->
  strip (ui_label u (str_join "  " (plain_cells t (tt_header t)))) = plain_line t (tt_header t).
Proof.
  intros Hh. apply styled_shows, no_escape_join; [done|]. unfold plain_cells. apply Forall_lookup. intros i x Hx.
  rewrite list_lookup_imap in Hx. destruct (tt_header t !! i) as [y|] eqn:E; [|done]. injection Hx as <-.
  apply pad_no_escape. rewrite Forall_lookup in Hh. by eapply Hh.
Qed.

Lemma strip_row t cells : Forall closed cells ->
  strip (str_join "  " (imap (fun idx cell => pad_styled cell (tt_width t idx) (idx =? length (tt_header t) - 1)%nat) cells))
  = plain_line t (map strip cells).
Proof.
  intros Hc. rewrite Forall_lookup in Hc. rewrite strip_join; [|done|].
  - unfold plain_line, plain_cells. f_equal. apply list_eq. intros i.
    rewrite list_lookup_fmap, !list_lookup_imap, list_lookup_fmap.
    destruct (cells !! i) as [c|] eqn:E; cbn; [|done]. f_equal. apply strip_pad. by eapply Hc.
  - apply Forall_lookup. intros i x Hx. rewrite list_lookup_imap in Hx.
    destruct (cells !! i) as [c|] eqn:E; [|done]. injection Hx as <-. apply strip_pad. by eapply Hc.
Qed.

(** What is seen of a table is its texts in its columns. *)
Lemma table_shows u header rows :
  Forall (fun x => no_escape x = true) header -> Forall (row_ok header) rows ->
  map strip (TextTable_print u (table_of header rows)) = map (plain_line (table_of header rows)) (header :: map shown rows).
Proof.
  intros Hh Hr. destruct (built_parts header rows) as [He1 He2]. unfold TextTable_print. cbn [map]. f_equal.
  - pose proof (strip_header u (table_of header rows)) as Hl. rewrite He1 in Hl. rewrite <- Hl by done.
    unfold plain_cells. by rewrite He1.
  - rewrite He2, !map_map. apply map_ext_Forall. eapply Forall_impl; [exact Hr|]. intros r [Hc _]. by apply strip_row.
Qed.

(** The texts shown fit their columns, the last one apart. *)
Lemma shown_fits header rows texts i x :
  Forall (row_ok header) rows -> texts ∈ header :: map shown rows -> texts !! i = Some x ->
  (length texts <= length header)%nat /\
  ((i < length header - 1)%nat -> (char_count x <= tt_width (table_of header rows) i)%nat).
Proof.
  intros Hr Hin Hx.
  assert (Hrl : Forall (fun r => length r.2 <= length header)%nat rows)
    by (eapply Forall_impl; [exact Hr|]; intros r (_ & _ & ? & _); done).
  destruct (built_widths header rows Hrl) as [_ Hw]. apply elem_of_cons in Hin as [->|Hin].
  - split; [done|]. intros _. by eapply (Hw header); [left|].
  - apply list_elem_of_fmap in Hin as (r & -> & Hin). rewrite Forall_forall in Hr.
    destruct (Hr r Hin) as (_ & Hlen & Hle & Hcw). unfold shown in *. rewrite length_map. split; [lia|]. intros Hi.
    rewrite list_lookup_fmap in Hx. destruct (r.1 !! i) as [c|] eqn:Ec; [|done]. injection Hx as <-.
    destruct (lookup_lt_is_Some_2 r.2 i) as [p Hp]; [apply lookup_lt_Some in Ec; lia|].
    rewrite (Hcw i c p) by done. apply (Hw r.2); [|done]. right. by apply list_elem_of_fmap_2.
Qed.

(** Where a column begins: the columns before it, each its width and two spaces. *)
Definition column (t : TextTable) (i : nat) : nat := sum_list_with (fun j => tt_width t j + 2)%nat (seq 0 i).

Lemma column_from (w : nat -> nat) k i :
  sum_list_with (fun j => w j + 2)%nat (seq k (S i)) = (w k + 2 + sum_list_with (fun j => w (S j) + 2) (seq k i))%nat.
Proof.
  cbn [seq sum_list_with]. f_equal. rewrite <- seq_shift. induction (seq k i) as [|a l IH]; [done|]. cbn. by rewrite IH.
Qed.

Lemma padded_offset (w : nat -> nat) last texts i :
  (i <= last)%nat -> (i < length texts)%nat -> (forall j x, j < last -> texts !! j = Some x -> char_count x <= w j)%nat ->
  join_offset "  " (imap (fun j x => pad x (w j) (j =? last)%nat) texts) i = sum_list_with (fun j => w j + 2)%nat (seq 0 i).
Proof.
  revert w last texts. induction i as [|i IH]; intros w last texts Hl Hi Hw; [by destruct texts|].
  destruct texts as [|x texts]; [cbn in Hi; lia|]. cbn [length] in Hi. rewrite column_from. cbn [imap join_offset].
  rewrite char_count_pad; [|destruct last; [lia|done]|apply (Hw 0%nat); [lia|done]].
  change (char_count "  ") with 2%nat. f_equal.
  destruct last as [|last]; [lia|].
  rewrite <- (IH (fun j => w (S j)) last texts); [done|lia|lia|]. intros j y Hj Hy. apply (Hw (S j)); [lia|done].
Qed.

(** C38: a table lines up, coloured or not.  It has one line for its header and one
    for each row; what is seen of a line does not depend on whether colour is on; and
    on every line the [i]-th text begins at one and the same column, which the texts
    before it are all narrow enough for. *)
Theorem table_lines_up u header rows :
  Forall (fun x => no_escape x = true) header -> Forall (row_ok header) rows ->
  let t := table_of header rows in
  length (TextTable_print u t) = S (length rows) /\
  forall k line texts, TextTable_print u t !! k = Some line -> (header :: map shown rows) !! k = Some texts ->
    strip line = plain_line t texts /\
    forall i x, texts !! i = Some x ->
      ((i < length header - 1)%nat -> (char_count x <= tt_width t i)%nat) /\
      exists before after, strip line = before +:+ x +:+ after /\ char_count before = column t i.
Proof.
  intros Hh Hr t. pose proof (table_shows u header rows Hh Hr) as Hs. fold t in Hs. split.
  { apply (f_equal length) in Hs. rewrite !length_map in Hs. rewrite Hs. cbn. by rewrite length_map. }
  intros k line texts Hk Ht. pose proof (list_elem_of_lookup_2 _ _ _ Ht) as Hin.
  assert (Hline : strip line = plain_line t texts).
  { apply (f_equal (lookup k)) in Hs. rewrite !list_lookup_fmap, Hk, Ht in Hs. by injection Hs. }
  split; [done|]. intros i x Hx. destruct (shown_fits header rows texts i x Hr Hin Hx) as [Hlen Hfit].
  split; [done|]. rewrite Hline. pose proof (lookup_lt_Some _ _ _ Hx) as Hi.
  assert (Hth : tt_header t = header) by apply built_parts.
  destruct (join_lookup "  " (plain_cells t texts) i (pad x (tt_width t i) (i =? length (tt_header t) - 1)%nat))
    as (before & after & He & Ho).
  { unfold plain_cells. rewrite list_lookup_imap, Hx. reflexivity. }
  unfold plain_cells in Ho. rewrite Hth, padded_offset in Ho;
    [|lia|done|intros j y Hj Hy; by apply (shown_fits header rows texts j y Hr Hin Hy)].
  unfold plain_line. rewrite He. unfold pad. destruct (_ =? _)%nat; [by exists before, after|].
  exists before, (spaces (tt_width t i - char_count x) +:+ after). by rewrite !append_assoc.
Qed.

End Tables.
