(* ===== verification/Printing.v ===== *)
(** * Printing: what the commands show (src/src/commands/)

    The lines each command prints, for people and, with [--json], for programs.
    serde_json's values are [Value]; writing one out, and reading one from a text,
    is the library's. *)

From S2P Require Import Prelude Shutdown Names Rdata Hashing Zone Build Cas RateLimit Metrics Handler Config Admin Toml Editor Files Serial Commands.
From S2P Require Import Text Exposition Client DnsClient SeedFree Dispatch Ui.
From stdpp Require Import pretty.
#[local] Set Warnings "-register-all".
Local Open Scope vega_scope.
Local Open Scope string_scope.
Local Open Scope list_scope.

(** ** JSON *)

Inductive Value {F : F64} : Type :=
| VNull
| VBool (b : bool)
| VNumber (n : N)
| VFloat (x : f64)
| VStr (s : string)
| VArray (l : list Value)
| VObject (l : list (string * Value)).

(** What a document is, and the text of a value, on one line. *)
Class JsonDoc (F : F64) (J : JsonText) : Type := {
  json_value : Json -> Value;
  value_to_string : Value -> string;
}.

Section Json.
Context {F : F64} {J : JsonText} {JD : JsonDoc F J}.

(** [Value::get], [as_str], [as_u64] and [as_array]. *)
Definition value_get (v : Value) (key : string) : option Value :=
  match v with VObject l => snd <$> List.find (fun kv => String.eqb kv.1 key) l | _ => None end.
Definition value_as_str (v : Value) : option string := match v with VStr s => Some s | _ => None end.
Definition value_as_u64 (v : Value) : option N := match v with VNumber n => Some n | _ => None end.
Definition value_as_array (v : Value) : option (list Value) := match v with VArray l => Some l | _ => None end.

(** A [null] for what is not there. *)
Definition value_opt {A} (f : A -> Value) (o : option A) : Value := match o with Some a => f a | None => VNull end.
Definition value_nat (n : nat) : Value := VNumber (N.of_nat n).

Definition emit_json (v : Value) : list string := [value_to_string v].

(** [ignored_keys]. *)
Definition ignored_keys (body : Value) : list string :=
  match entries ← value_get body "ignored"; value_as_array entries with
  | Some entries => omap value_as_str entries
  | None => []
  end.

End Json.

(** ** Names and texts of the other libraries *)

(** [Display] of names, of RDATA and of the errors of the HTTP client; the type of some
    RDATA. *)
Class DisplayText (HN : HickoryNames) : Type := {
  name_to_string : Name -> string;
  lower_to_string : LowerName -> string;
  rdata_to_string : RData -> string;
  record_to_string : DnsRecord -> string;
  record_type_of : RData -> RecordType;
  http_error_to_string : HttpError -> string;
}.

(** ** Record sets *)

Section Records.
Context {O : OwoColors} {F : F64} {J : JsonText} {JD : JsonDoc F J} {TM : Toml} (u : Ui) (as_json : bool).

(** [fqdn]. *)
Definition fqdn (name origin : string) : string :=
  if String.eqb name "@" then origin +:+ "." else name +:+ "." +:+ origin +:+ ".".

Definition entry_json (e : RecordEntry) : Value :=
  VObject [("name", VStr (re_name e)); ("type", VStr (re_type e)); ("ttl", value_opt VNumber (re_ttl e));
           ("values", VArray (map VStr (re_values e)))].

(** The row of a value: the first of its set shows the set's name, type and TTL. *)
Definition value_row (name type ttl : string) (idx : nat) (value : string) : list string * list string :=
  let '(shown_name, shown_type, shown_ttl) := if (idx =? 0)%nat then (name, type, ttl) else ("", "", "") in
  ([accent u shown_name; record_type u shown_type; muted u shown_ttl; value], [shown_name; shown_type; shown_ttl; value]).

Definition record_rows (origin : string) (r : RecordEntry) : list (list string * list string) :=
  let name := fqdn (re_name r) origin in
  let ttl := match re_ttl r with None => "-" | Some t => pretty t +:+ "s" end in
  imap (value_row name (re_type r) ttl) (re_values r).

Definition RECORD_COLUMNS : list string := ["NAME"; "TYPE"; "TTL"; "VALUE"].

Definition print_table (origin config : string) (records : list RecordEntry) : list string :=
  match records with
  | [] => [bang u +:+ " no records in " +:+ muted u config]
  | _ =>
      TextTable_print u (table_of RECORD_COLUMNS (flat_map (record_rows origin) records))
      ++ [muted u (pretty (N.of_nat (length records)) +:+ " record set(s), "
            +:+ pretty (N.of_nat (sum_list_with (length ∘ re_values) records)) +:+ " value(s) in " +:+ config)]
  end.

(** [record::list]. *)
Definition record_list_text (path : string) (doc : Table) (name_filter type_filter : option string) : list string :=
  let origin := default "<unset>" (ConfigEditor_origin doc) in
  let records := record_list doc name_filter type_filter in
  if as_json then
    emit_json (VObject [("origin", VStr origin); ("config", VStr path); ("count", value_nat (length records));
                        ("records", VArray (map entry_json records))])
  else print_table origin path records.

(** [record::get]. *)
Definition record_get_text (path : string) (doc : Table) (name : string) (record_type : option string) : list string :=
  let origin := default "<unset>" (ConfigEditor_origin doc) in
  let '(found, records) := record_get doc name record_type in
  if as_json then
    emit_json (VObject [("origin", VStr origin); ("name", VStr (normalise name)); ("found", VBool found);
                        ("records", VArray (map entry_json records))])
  else if negb found then
    [bang u +:+ " no records for " +:+ accent u (fqdn (normalise name) origin) +:+ " in " +:+ origin]
  else print_table origin path records.

Definition change_str (c : Change) : string :=
  match c with
  | Created => "created" | Extended => "extended" | Replaced => "replaced"
  | Removed => "removed" | Unchanged => "unchanged"
  end.

(** [report]: what an edit did, from the document it left. *)
Definition report_edit (path : string) (doc : Table) (r : EditResult) : list string :=
  if as_json then
    emit_json (VObject [("change", VStr (change_str (er_change r))); ("config", VStr path);
                        ("origin", value_opt VStr (ConfigEditor_origin doc));
                        ("serial", value_opt VNumber (er_serial r)); ("record", value_opt entry_json (er_entry r))])
  else
    let origin := default "<unset>" (ConfigEditor_origin doc) in
    let '(symbol, verb) := match er_change r with
      | Created => (tick u, ui_good u "created") | Extended => (tick u, ui_good u "extended")
      | Replaced => (tick u, ui_good u "replaced") | Removed => (tick u, warn u "removed")
      | Unchanged => (bang u, muted u "unchanged") end in
    [symbol +:+ " " +:+ verb
     +:+ match er_entry r with
         | Some e => " " +:+ accent u (fqdn (re_name e) origin) +:+ " " +:+ record_type u (re_type e) +:+ " → "
                     +:+ str_join ", " (re_values e)
         | None => ""
         end]
    ++ (match er_serial r with Some serial => [muted u "  " +:+ " SOA serial → " +:+ accent u (pretty serial)] | None => [] end)
    ++ (if verbose u then [ui_label u "  config:" +:+ " " +:+ path] else []).

(** [reload_server], once answered by [addr]. *)
Definition reload_text (addr : string) (response : ClientResponse) : list string :=
  let parsed := match json_from_str (str_trim (res_body response)) with
                | Some j => json_value j | None => VObject [] end in
  if as_json then
    emit_json (VObject [("reload", VObject [("server", VStr addr); ("status", VNumber (res_status response));
                                            ("ok", VBool (is_success response)); ("detail", parsed)])])
  else if is_success response then
    (match v ← value_get parsed "records"; value_as_u64 v with
     | Some count => [tick u +:+ " reloaded " +:+ muted u addr +:+ " (" +:+ accent u (pretty count) +:+ " records now live)"]
     | None => [tick u +:+ " reloaded " +:+ muted u addr]
     end)
    ++ (match ignored_keys parsed with
        | [] => []
        | ignored => [cross u +:+ " not applied (restart to change): " +:+ bad u (str_join ", " ignored)]
        end)
  else
    let detail := default (str_trim (res_body response)) (v ← value_get parsed "error"; value_as_str v) in
    let code := default "error" (v ← value_get parsed "code"; value_as_str v) in
    [cross u +:+ " reload refused by " +:+ muted u addr +:+ " (HTTP " +:+ pretty (res_status response) +:+ " " +:+ code
     +:+ "): " +:+ bad u detail].

End Records.

(** ** The zone as a whole *)

(** A [BTreeMap]'s entries, in the order of their keys. *)
Definition btree_iter {A} (m : gmap string A) : list (string * A) :=
  sort_by (fun a b => String.leb a.1 b.1) (map_to_list m).

Section Zone.
Context {O : OwoColors} {F : F64} {FT : F64Text F} {J : JsonText} {JD : JsonDoc F J} {TM : Toml} (u : Ui) (as_json : bool).

(** [zone show]. *)
Definition zone_show_json (path : string) (s : ZoneSummary) : Value :=
  VObject [("origin", VStr (zs_origin s)); ("config", VStr path); ("serial", value_opt VNumber (zs_serial s));
           ("record_sets", value_nat (zs_record_sets s)); ("records", value_nat (zs_records s));
           ("names", value_nat (size (zs_names s)));
           ("by_type", VObject (map (fun '(ty, n) => (ty, value_nat n)) (btree_iter (zs_by_type s))))].

Definition type_row (widest : nat) (entry : string * nat) : list string * list string :=
  let '(ty, count) := entry in
  let ratio := f64_div (as_f64 (N.of_nat count)) (as_f64 (N.of_nat widest)) in
  let n := pretty (N.of_nat count) in
  ([record_type u ty; n; bar u ratio 20], [ty; n; ""]).

Definition print_by_type (counts : list (string * nat)) : list string :=
  match counts with
  | [] => []
  | _ =>
      let widest := foldr Nat.max 1%nat (map snd counts) in
      section u "BY TYPE" ++ TextTable_print u (table_of ["TYPE"; "COUNT"; ""] (map (type_row widest) counts))
  end.

Definition zone_show_text (path : string) (doc : Table) : list string :=
  let s := zone_show doc in
  if as_json then emit_json (zone_show_json path s)
  else
    section u "ZONE"
    ++ field u "origin" (accent u (zs_origin s)) 14 ++ field u "config" path 14
    ++ field u "soa serial" (match zs_serial s with Some n => accent u (pretty n) | None => muted u "unset" end) 14
    ++ field u "names" (pretty (N.of_nat (size (zs_names s)))) 14
    ++ field u "record sets" (pretty (N.of_nat (zs_record_sets s))) 14
    ++ field u "records" (pretty (N.of_nat (zs_records s))) 14
    ++ print_by_type (btree_iter (zs_by_type s)).

(** [zone bump-serial], from the serial before and after. *)
Definition bump_serial_text (path : string) (previous : option N) (serial : N) : list string :=
  if as_json then
    emit_json (VObject [("serial", VNumber serial); ("previous", value_opt VNumber previous); ("config", VStr path)])
  else match previous with
       | Some previous => [tick u +:+ " SOA serial " +:+ muted u (pretty previous) +:+ " → " +:+ accent u (pretty serial)]
       | None => [tick u +:+ " SOA serial set to " +:+ accent u (pretty serial)]
       end.

(** [init]. *)
Definition init_text {HC : Crate} (output : option string) (origin : string) (created : bool) : list string :=
  let path := default "vega.toml" output in
  if as_json then
    emit_json (VObject [("created", VBool created); ("config", VStr path); ("origin", VStr origin)])
  else if created then
    [tick u +:+ " wrote " +:+ accent u path +:+ " for zone " +:+ accent u origin; ""; muted u "next:";
     "  " +:+ NAME +:+ " record add www A 203.0.113.10 --config " +:+ path;
     "  " +:+ NAME +:+ " check --config " +:+ path; "  " +:+ NAME +:+ " serve --config " +:+ path]
  else [bang u +:+ " " +:+ accent u path +:+ " already exists, leaving it alone"].

End Zone.

(** ** vega check *)

Section Check.
Context {O : OwoColors} {F : F64} {J : JsonText} {JD : JsonDoc F J} {HN : HickoryNames} {DT : DisplayText HN}
  {HR : HickoryRdata HN} {HO : HashOrder} {HT : HashTableApi} {RT : RecordTypeText} {AT : AddrText} (u : Ui) (as_json : bool).

(** The findings of a build, as zone.rs words them. *)
Definition diagnostic_text (d : Diagnostic) : string :=
  match d with
  | Occluded owner rtype =>
      lower_to_string owner +:+ " " +:+ record_type_to_string rtype
      +:+ " is occluded by a zone cut and is not served: RFC 2181 §6 makes data at or below a delegation the child zone's, and only the NS RRset and A/AAAA glue for its targets are answered here"
  | MissingGlue cut target =>
      "delegation " +:+ lower_to_string cut +:+ " names " +:+ lower_to_string target
      +:+ " as a name server but the zone holds no A or AAAA for it. RFC 1034 §4.2.1 requires that glue: the target sits inside the delegated subtree, so a resolver cannot find its address without already being able to reach it, and the whole subtree is unresolvable"
  end.

Definition log_format_str (l : LogFormat) : string := match l with Config.Pretty => "pretty" | Config.Json => "json" end.

Definition join_items (items : list string) : string := match items with [] => muted u "none" | _ => str_join ", " items end.

Definition check_json (config : Config) (config_path : option string) (z : Zone) : Value :=
  let addrs (l : list SocketAddr) := VArray (map (fun a => VStr (socket_addr_to_string a)) l) in
  VObject
    [("ok", VBool (bool_decide (diagnostics z = []))); ("config", value_opt VStr config_path);
     ("findings", VArray (map (fun d => VStr (diagnostic_text d)) (diagnostics z)));
     ("zone", VObject
        [("origin", VStr (zc_origin (cfg_zone config))); ("default_ttl", VNumber (zc_default_ttl (cfg_zone config)));
         ("builtins", VBool (zc_builtins (cfg_zone config))); ("record_sets", value_nat (length (zc_records (cfg_zone config))));
         ("records", VNumber (record_count z));
         ("soa", VStr (record_to_string (soa z)))]);
     ("listeners", VObject
        [("udp", addrs (udp config)); ("tcp", addrs (tcp config));
         ("admin", value_opt (fun a => VStr (socket_addr_to_string a)) (admin_listen config))]);
     ("rate_limit", value_opt (fun r => VObject [("qps", VNumber (rl_qps r)); ("burst", VNumber (rl_burst r))]) (rate_limit config));
     ("log", VObject [("format", VStr (log_format_str (log_format config))); ("level", VStr (log_level config))])].

(** [print_findings]. *)
Definition print_findings (z : Zone) : list string :=
  match diagnostics z with
  | [] => []
  | notes => section u "ZONE FINDINGS" ++ map (fun d => "  " +:+ bang u +:+ " " +:+ diagnostic_text d) notes ++ [""]
  end.

Definition check_configuration (config : Config) (config_path : option string) (z : Zone) : list string :=
  section u "CONFIGURATION"
  ++ field u "source" (match config_path with Some path => path | None => muted u "defaults + flags only" end) 16
  ++ field u "zone" (accent u (zc_origin (cfg_zone config))) 16
  ++ field u "default ttl" (pretty (zc_default_ttl (cfg_zone config)) +:+ "s") 16
  ++ field u "record sets" (pretty (N.of_nat (length (zc_records (cfg_zone config))))) 16
  ++ field u "records" (accent u (pretty (record_count z))) 16
  ++ field u "soa" (match rec_data (soa z) with
                    | RD_SOA _ _ serial _ _ _ _ => tick u +:+ " serial " +:+ accent u (pretty serial)
                    | other => tick u +:+ " " +:+ rdata_to_string other
                    end) 16
  ++ field u "builtins" (if zc_builtins (cfg_zone config) then ui_good u "enabled" else muted u "disabled") 16.

Definition admin_text (a : SocketAddr) : string :=
  if is_loopback (addr_ip a) then ui_good u (socket_addr_to_string a)
  else bang u +:+ " " +:+ socket_addr_to_string a +:+ " (not loopback — keep it firewalled)".

Definition check_exposure (config : Config) : list string :=
  section u "LISTENERS"
  ++ field u "udp" (join_items (map socket_addr_to_string (udp config))) 16
  ++ field u "tcp" (join_items (map socket_addr_to_string (tcp config))) 16
  ++ field u "admin" (match admin_listen config with Some a => admin_text a | None => muted u "disabled" end) 16
  ++ section u "PROTECTION"
  ++ field u "rate limit" (match rate_limit config with
                           | Some r => ui_good u (pretty (rl_qps r) +:+ " qps / burst " +:+ pretty (rl_burst r) +:+ " per source IP")
                           | None => bang u +:+ " disabled"
                           end) 16
  ++ field u "admin token" (match admin_token config with
                            | Some _ => ui_good u "set" | None => muted u "unset (reload restricted to loopback)" end) 16.

(** [check]: what it prints, and what it returns; a failed build prints nothing. *)
Definition check_text (seed : N) (config : Config) (config_path : option string) : list string * result CheckError unit :=
  match map_err BuildFailed (from_config seed (cfg_zone config)) with
  | Err e => ([], Err e)
  | Ok z =>
      if as_json then (emit_json (check_json config config_path z), report_findings z)
      else
        let shown := check_configuration config config_path z ++ check_exposure config ++ [""] ++ print_findings z in
        match report_findings z with
        | Err e => (shown, Err e)
        | Ok _ => (shown ++ [tick u +:+ " configuration is valid"], Ok tt)
        end
  end.

End Check.

(** ** vega query *)

Section Query.
Context {O : OwoColors} {F : F64} {FT : F64Text F} {J : JsonText} {JD : JsonDoc F J} {HN : HickoryNames}
  {DT : DisplayText HN} {RT : RecordTypeText} {AT : AddrText} (u : Ui) (as_json : bool).

(** [rcode_name]; the codes kept as numbers are the rest of the library's. *)
Definition OTHER_CODES : list (N * string) :=
  [(6, "YXDOMAIN"); (7, "YXRRSET"); (8, "NXRRSET"); (9, "NOTAUTH"); (10, "NOTZONE"); (17, "BADKEY"); (18, "BADTIME");
   (19, "BADMODE"); (20, "BADNAME"); (21, "BADALG"); (22, "BADTRUNC"); (23, "BADCOOKIE")]%N.

Definition rcode_name (code : ResponseCode) : string :=
  match code with
  | NoError => "NOERROR" | FormErr => "FORMERR" | ServFail => "SERVFAIL" | NXDomain => "NXDOMAIN"
  | NotImp => "NOTIMP" | Refused => "REFUSED" | BADVERS => "BADVERS"
  | OtherCode c => match List.find (fun entry => (entry.1 =? c)%N) OTHER_CODES with Some (_, name) => name | None => "UNKNOWN" end
  end.

Definition out_rcode (o : Outcome) : string := rcode_name (response_code (msg_metadata (out_message o))).

Definition transport_str (t : ClientTransport) : string := match t with OverUdp => "udp" | OverTcp => "tcp" end.

Definition flags (authoritative truncated recursion_available : bool) : string :=
  match ((if authoritative then [ui_good u "aa"] else []) ++ (if truncated then [warn u "tc"] else [])
         ++ (if recursion_available then [muted u "ra"] else []))%list with
  | [] => muted u "none"
  | set => str_join " " set
  end.

Definition record_json (r : DnsRecord) : Value :=
  VObject [("name", VStr (name_to_string (rec_name r))); ("ttl", VNumber (rec_ttl r));
           ("type", VStr (record_type_to_string (record_type_of (rec_data r)))); ("data", VStr (rdata_to_string (rec_data r)))].

Definition answer_row (r : DnsRecord) : list string * list string :=
  let name := name_to_string (rec_name r) in
  let ttl := pretty (rec_ttl r) +:+ "s" in
  let ty := record_type_to_string (record_type_of (rec_data r)) in
  let data := rdata_to_string (rec_data r) in
  ([accent u name; muted u ttl; record_type u ty; data], [name; ttl; ty; data]).

Definition print_section (title : string) (records : list DnsRecord) : list string :=
  match records with
  | [] => []
  | _ => section u title ++ TextTable_print u (table_of ["NAME"; "TTL"; "TYPE"; "DATA"] (map answer_row records))
  end.

Definition answer_hint (code : string) : string :=
  if String.eqb code "NOERROR" then "the name exists but has no records of this type (NODATA)"
  else if String.eqb code "NXDOMAIN" then "the name does not exist in this zone"
  else if String.eqb code "REFUSED" then "the server is not authoritative for this name"
  else "no answer records were returned".

(** [print_answer]; [elapsed] in nanoseconds, and whether recursion is available is not
    part of the modelled header. *)
Definition print_answer (name : string) (o : Outcome) (elapsed : N) (recursion_available : bool) : list string :=
  let meta := msg_metadata (out_message o) in
  section u "QUERY"
  ++ field u "name" (accent u name) 16 ++ field u "server" (socket_addr_to_string (out_server o)) 16
  ++ field u "transport" (if retried_over_tcp o
       then transport_str (out_transport o) +:+ " " +:+ muted u "(retried after truncation)"
       else transport_str (out_transport o)) 16
  ++ field u "rcode" (rcode u (out_rcode o)) 16
  ++ field u "flags" (flags (authoritative meta) (truncation meta) recursion_available) 16
  ++ field u "time" (f64_fixed 2 (f64_mul (as_secs_f64 elapsed) (as_f64 1000)) +:+ " ms") 16
  ++ field u "size" (pretty (N.of_nat (out_size o)) +:+ " bytes") 16
  ++ print_section "ANSWER" (msg_answers (out_message o))
  ++ print_section "AUTHORITY" (msg_authorities (out_message o))
  ++ (if verbose u then print_section "ADDITIONAL" (msg_additionals (out_message o)) else [])
  ++ (match msg_answers (out_message o) with
      | [] => [""; bang u +:+ " " +:+ muted u (answer_hint (out_rcode o))]
      | _ => []
      end).

Definition query_json (name : string) (record_type : RecordType) (o : Outcome) (elapsed : N) : Value :=
  let meta := msg_metadata (out_message o) in
  VObject
    [("server", VStr (socket_addr_to_string (out_server o))); ("transport", VStr (transport_str (out_transport o)));
     ("query", VObject [("name", VStr name); ("type", VStr (record_type_to_string record_type))]);
     ("rcode", VStr (out_rcode o)); ("authoritative", VBool (authoritative meta)); ("truncated", VBool (truncation meta));
     ("retried_over_tcp", VBool (retried_over_tcp o)); ("elapsed_ms", VFloat (f64_mul (as_secs_f64 elapsed) (as_f64 1000)));
     ("size_bytes", value_nat (out_size o)); ("answers", VArray (map record_json (msg_answers (out_message o))));
     ("authority", VArray (map record_json (msg_authorities (out_message o))));
     ("additional", VArray (map record_json (msg_additionals (out_message o))))].

(** [query], once answered. *)
Definition query_text (name : string) (record_type : RecordType) (o : Outcome) (elapsed : N) (recursion_available : bool)
    : list string :=
  if as_json then emit_json (query_json name record_type o elapsed) else print_answer name o elapsed recursion_available.

End Query.

(** ** vega status *)

Section Status.
Context {O : OwoColors} {F : F64} {FT : F64Text F} {J : JsonText} {JD : JsonDoc F J} (u : Ui) (as_json : bool).

(** [count]. *)
Definition count (x : f64) : N := whole x.

Definition print_server (addr : string) (s : Snapshot) : list string :=
  let build := json_value (sn_build s) in
  section u "SERVER"
  ++ field u "admin" (accent u addr) 16
  ++ field u "health" (if sn_healthy s then tick u +:+ " healthy" else cross u +:+ " unhealthy") 16
  ++ field u "ready" (if sn_ready s then tick u +:+ " serving" else bang u +:+ " not accepting traffic") 16
  ++ (match v ← value_get build "version"; value_as_str v with Some v => field u "version" (accent u v) 16 | None => [] end)
  ++ (match sample s "dns_uptime_seconds" with Some uptime => field u "uptime" (duration uptime) 16 | None => [] end)
  ++ (match v ← value_get build "reloads"; value_as_u64 v with Some n => field u "reloads" (pretty n) 16 | None => [] end)
  ++ (match sample s "dns_zone_records" with Some n => field u "zone records" (accent u (pretty (count n))) 16 | None => [] end).

(** A counter that should be zero. *)
Definition trouble (style : string -> string) (x : f64) : string :=
  if f64_gt_zero x then style (pretty (count x)) else "0".

Definition print_traffic (s : Snapshot) : list string :=
  let queries := sn_queries s in
  section u "TRAFFIC"
  ++ field u "queries" (accent u (pretty (count queries))) 16
  ++ (match sample s "dns_uptime_seconds" with
      | Some uptime => if f64_gt_zero uptime then field u "average" (f64_fixed 2 (f64_div queries uptime) +:+ " qps") 16 else []
      | None => []
      end)
  ++ (match mean_latency (sn_samples s) with
      | Some latency => field u "mean latency" (f64_fixed 3 (f64_mul latency (as_f64 1000)) +:+ " ms") 16
      | None => []
      end)
  ++ field u "rate limited" (trouble (warn u) (default (as_f64 0) (sample s "dns_rate_limited_total"))) 16
  ++ field u "send errors" (trouble (bad u) (default (as_f64 0) (sample s "dns_send_errors_total"))) 16.

(** [trim_matches] of double quotes and closing braces. *)
Definition char_brace : Ascii.ascii := Ascii.ascii_of_N 125.
Definition label_end (c : Ascii.ascii) : bool := Ascii.eqb c char_quote || Ascii.eqb c char_brace.
Definition trim_label (s : string) : string := trim_end_by label_end (trim_start_by label_end s).

(** The label of a series of [prefix], and its value unless that is zero. *)
Definition breakdown_row (prefix : string) (kv : string * f64) : option (string * f64) :=
  rest ← str_strip_prefix prefix kv.1;
  rest ← str_strip_prefix "{" rest;
  '(_, quoted_label) ← split_once "=" rest;
  if f64_gt_zero kv.2 then Some (trim_label quoted_label, kv.2) else None.

Definition breakdown_rows (samples : gmap string f64) (prefix : string) : list (string * f64) :=
  omap (breakdown_row prefix) (btree_iter samples).

Definition breakdown_cells (title : string) (total : f64) (row : string * f64) : list string * list string :=
  let '(label, value) := row in
  let share := if f64_gt_zero total then f64_div value total else as_f64 0 in
  let styled_label := if String.eqb title "RESPONSE CODES" then rcode u (str_to_uppercase label) else accent u label in
  let pct := f64_fixed 1 (f64_mul share (as_f64 100)) +:+ "%" in
  let n := pretty (count value) in
  ([styled_label; n; pct; bar u share 16], [label; n; pct; ""]).

Definition print_breakdown (title : string) (samples : gmap string f64) (prefix : string) (total : f64) : list string :=
  match breakdown_rows samples prefix with
  | [] => []
  | rows => section u title
            ++ TextTable_print u (table_of ["LABEL"; "COUNT"; "SHARE"; ""] (map (breakdown_cells title total) rows))
  end.

Definition status_json (addr : string) (s : Snapshot) : Value :=
  VObject [("server", VStr addr); ("reachable", VBool (sn_reachable s)); ("healthy", VBool (sn_healthy s));
           ("ready", VBool (sn_ready s)); ("build", json_value (sn_build s));
           ("metrics", VObject (map (fun '(key, x) => (key, VFloat x)) (btree_iter (sn_samples s))))].

(** [status], of what one round of requests learned. *)
Definition status_text {HN : HickoryNames} {DT : DisplayText HN} (addr : string) (s : Snapshot) : list string :=
  if as_json then emit_json (status_json addr s)
  else match sn_error s with
       | Some e => [cross u +:+ " " +:+ accent u addr +:+ " is unreachable: " +:+ http_error_to_string e]
       | None =>
           print_server addr s ++ print_traffic s
           ++ print_breakdown "RESPONSE CODES" (sn_samples s) "dns_responses_total" (sn_queries s)
           ++ print_breakdown "TRANSPORT" (sn_samples s) "dns_queries_by_transport_total" (sn_queries s)
           ++ (if verbose u
               then section u "RAW METRICS"
                    ++ map (fun '(key, x) => ui_label u key +:+ " " +:+ f64_display x) (btree_iter (sn_samples s))
               else [])
       end.

End Status.

(** ** The server's own words *)

Section Server.
Context {AT : AddrText}.

Definition join_addrs (addrs : list SocketAddr) : string :=
  match addrs with [] => "none" | _ => str_join ", " (map socket_addr_to_string addrs) end.

Definition bool_display (b : bool) : string := if b then "true" else "false".
Definition log_format_debug (l : LogFormat) : string := match l with Config.Pretty => "Pretty" | Config.Json => "Json" end.

(** [Display] of the effective configuration. *)
Definition Config_fmt (c : Config) : list string :=
  ["zone            : " +:+ zc_origin (cfg_zone c);
   "record sets     : " +:+ pretty (N.of_nat (length (zc_records (cfg_zone c))));
   "default ttl     : " +:+ pretty (zc_default_ttl (cfg_zone c)) +:+ "s";
   "builtins        : " +:+ bool_display (zc_builtins (cfg_zone c));
   "udp listeners   : " +:+ join_addrs (udp c);
   "tcp listeners   : " +:+ join_addrs (tcp c);
   "admin listener  : " +:+ match admin_listen c with Some a => socket_addr_to_string a | None => "disabled" end;
   "rate limit      : " +:+ match rate_limit c with
     | Some r => pretty (rl_qps r) +:+ " qps / burst " +:+ pretty (rl_burst r) +:+ " per source IP"
     | None => "disabled" end;
   "log             : " +:+ log_format_debug (log_format c) +:+ " @ " +:+ log_level c].

(** [log_shutdown_plan], in seconds: the warnings, then the drain, the hard deadline
    and the figure the operator is to stay above. *)
Inductive PlanWarning : Type :=
| DrainUnderTcpTimeout (drain tcp_timeout : N)
| DrainUnobservable (drain : N).

Record ShutdownPlan : Type := mkPlan {
  plan_warnings : list PlanWarning;
  plan_drain : N;
  plan_deadline : N;
  plan_watchdog : N;
}.

Definition log_shutdown_plan (c : Config) : ShutdownPlan :=
  let drain := shutdown_drain c in
  let deadline := (drain + Shutdown.STOP_BUDGET / Shutdown.SECOND)%N in
  let watchdog := (deadline + Shutdown.WATCHDOG_GRACE / Shutdown.SECOND)%N in
  mkPlan
    ((if negb (drain =? 0)%N && (drain <? tcp_timeout c)%N then [DrainUnderTcpTimeout drain (tcp_timeout c)] else [])
     ++ (if bool_decide (admin_listen c = None) && negb (drain =? 0)%N then [DrainUnobservable drain] else []))%list
    drain deadline watchdog.

End Server.
