(* ===== verification/PrintingTheorems.v ===== *)
(** * PrintingTheorems: what the commands print says what they found

    The listing of records shows every value on a line of its own, whatever was
    decided about colour; the breakdown of [vega status] lists exactly the counters
    of the server's page that are not zero; [vega check] prints its verdict; and
    [vega query] what the server's file says. *)

From S2P Require Import Prelude Shutdown Names Rdata Hashing Zone Build Cas RateLimit Lifecycle Metrics Handler Config Admin Toml Editor Files Serial Commands.
From S2P Require Import Declared FileZone HandlerFacts HandlerTheorems FileServer Serve EndToEnd Answers.
From S2P Require Import Text Exposition Client ClientTheorems DnsClient DnsClientTheorems SeedFree Dispatch Ui UiTheorems Printing.
From stdpp Require Import pretty.
Local Open Scope string_scope.
Local Open Scope list_scope.

(** ** The columns of a table are measured on the plain texts only *)

Lemma fold_rows_widths rows rows' t t' :
  tt_widths t = tt_widths t' -> map snd rows = map snd rows' ->
  tt_widths (fold_left (fun t r => TextTable_row t r.1 r.2) rows t)
  = tt_widths (fold_left (fun t r => TextTable_row t r.1 r.2) rows' t').
Proof.
  revert rows' t t'. induction rows as [|r rows IH]; intros [|r' rows'] t t' Ht Hm; try done.
  injection Hm as Hr Hm. cbn [fold_left]. apply IH; [|done]. cbn. by rewrite Ht, Hr.
Qed.

(** A table of texts nobody styled. *)
Definition plain_table (header : list string) (texts : list (list string)) : TextTable :=
  table_of header (map (fun x => (x, x)) texts).

Lemma plain_line_plain header rows texts :
  plain_line (table_of header rows) texts = plain_line (plain_table header (map snd rows)) texts.
Proof.
  unfold plain_line, plain_cells, tt_width, plain_table.
  destruct (built_parts header rows) as [-> _], (built_parts header (map (fun x => (x, x)) (map snd rows))) as [-> _].
  f_equal. apply list_eq. intros i. rewrite !list_lookup_imap. unfold table_of.
  rewrite (fold_rows_widths rows (map (fun x => (x, x)) (map snd rows)) _ _ eq_refl); [done|].
  rewrite !map_map. by apply map_ext.
Qed.

Lemma no_escape_pretty (n : N) : no_escape (pretty n) = true.
Proof.
  unfold pretty, pretty_N. destruct (decide (n = 0)%N) as [->|Hn]; [done|].
  assert (Hg : forall x s, no_escape s = true -> no_escape (pretty_N_go x s) = true).
  { intros x. induction (N.lt_wf_0 x) as [x _ IH]. intros s Hs. destruct (decide (x = 0)%N) as [->|Hx]; [done|].
    rewrite pretty_N_go_step by lia. apply IH; [apply N.div_lt; lia|]. cbn [no_escape]. rewrite Hs, andb_true_r.
    destruct (pretty_char_digit (x mod 10)) as (_ & Hd & _); [by apply N.mod_lt|].
    destruct (Ascii.eqb_spec (pretty_N_char (x mod 10)) ESC) as [E|]; [|done]. rewrite E in Hd. exfalso. destruct Hd as [Hd _]. by apply Hd. }
  by apply Hg.
Qed.

(** ** The listing of record sets *)

Section Listing.
Context {O : OwoColors} {OL : OwoLaws O} {F : F64} {J : JsonText} {JD : JsonDoc F J} {TM : Toml}.

(** What a listing is to show: every value, in order, the first of a set after the
    set's name, type and TTL. *)
Definition value_texts (name type ttl : string) (idx : nat) (value : string) : list string :=
  if (idx =? 0)%nat then [name; type; ttl; value] else [""; ""; ""; value].

Definition ttl_text (ttl : option N) : string := match ttl with None => "-" | Some t => pretty t +:+ "s" end.

Definition record_texts (origin : string) (r : RecordEntry) : list (list string) :=
  imap (value_texts (fqdn (re_name r) origin) (re_type r) (ttl_text (re_ttl r))) (re_values r).

Definition entry_printable (r : RecordEntry) : Prop :=
  no_escape (re_name r) = true /\ no_escape (re_type r) = true /\ Forall (fun v => no_escape v = true) (re_values r).

Lemma no_escape_fqdn name origin : no_escape name = true -> no_escape origin = true -> no_escape (fqdn name origin) = true.
Proof. intros Hn Ho. unfold fqdn. destruct (String.eqb name "@"); by rewrite !no_escape_app, ?Hn, Ho. Qed.

Lemma value_row_shows u name type ttl idx value :
  no_escape name = true -> no_escape type = true -> no_escape ttl = true -> no_escape value = true ->
  Forall2 cell_shows (value_row u name type ttl idx value).1 (value_row u name type ttl idx value).2 /\
  (value_row u name type ttl idx value).2 = value_texts name type ttl idx value.
Proof.
  intros Hn Ht Hl Hv. unfold value_row, value_texts. destruct (idx =? 0)%nat; cbn [fst snd]; (split; [|done]);
    repeat constructor; first [by apply styled_shows|by apply record_type_shows|by apply plain_shows].
Qed.

Lemma record_rows_shows u origin r :
  no_escape origin = true -> entry_printable r ->
  Forall (fun row => Forall2 cell_shows row.1 row.2) (record_rows u origin r) /\
  map snd (record_rows u origin r) = record_texts origin r.
Proof.
  intros Ho (Hn & Ht & Hv). rewrite Forall_lookup in Hv.
  assert (Hl : no_escape (ttl_text (re_ttl r)) = true)
    by (unfold ttl_text; destruct (re_ttl r); by rewrite ?no_escape_app, ?no_escape_pretty).
  pose proof (no_escape_fqdn _ _ Hn Ho) as Hf. unfold record_rows, record_texts. fold (ttl_text (re_ttl r)). split.
  - apply Forall_lookup. intros i row Hrow. rewrite list_lookup_imap in Hrow.
    destruct (re_values r !! i) as [v|] eqn:E; [|done]. injection Hrow as <-. apply value_row_shows; try done. by eapply Hv.
  - apply list_eq. intros i. rewrite list_lookup_fmap, !list_lookup_imap.
    destruct (re_values r !! i) as [v|] eqn:E; [|done]. cbn [fmap option_fmap option_map]. f_equal.
    apply (value_row_shows u); try done. by eapply Hv.
Qed.

Lemma shown_of_shows (row : list string * list string) : Forall2 cell_shows row.1 row.2 -> shown row = row.2.
Proof. unfold shown. induction 1 as [|c p cs ps [_ <-] _ IH]; [done|]. cbn. by rewrite IH. Qed.

Lemma listing_rows u origin records :
  no_escape origin = true -> Forall entry_printable records ->
  let rows := flat_map (record_rows u origin) records in
  Forall (row_ok RECORD_COLUMNS) rows /\ map snd rows = flat_map (record_texts origin) records /\ map shown rows = map snd rows.
Proof.
  intros Ho Hr. cbn zeta.
  assert (H : Forall (fun row => Forall2 cell_shows row.1 row.2) (flat_map (record_rows u origin) records) /\
              map snd (flat_map (record_rows u origin) records) = flat_map (record_texts origin) records).
  { induction Hr as [|r records Hp _ [IH1 IH2]]; [done|]. cbn [flat_map].
    destruct (record_rows_shows u origin r Ho Hp) as [H1 H2]. rewrite map_app, H2, IH2. split; [|done]. by apply Forall_app. }
  destruct H as [H1 H2]. split_and!; [|done|].
  - apply Forall_forall. intros row Hin. rewrite Forall_forall in H1. pose proof (H1 row Hin) as Hs. destruct row as [cells plain].
    apply shows_row_ok; [done|].
    assert (Hp : plain ∈ flat_map (record_texts origin) records).
    { rewrite <- H2. apply list_elem_of_fmap. by exists (cells, plain). }
    apply list_elem_of_In, in_flat_map in Hp as (r & _ & Hp). apply list_elem_of_In, list_elem_of_lookup in Hp as [i Hp].
    unfold record_texts in Hp. rewrite list_lookup_imap in Hp. destruct (re_values r !! i); [|done]. injection Hp as <-.
    unfold value_texts. destruct (i =? 0)%nat; cbn; lia.
  - apply map_ext_Forall. eapply Forall_impl; [exact H1|]. intros row. apply shown_of_shows.
Qed.

(** The listing shows every value of every set on a line of its own, in the order of
    the document, in columns that are the same whether it is coloured or not; the
    first line of a set also shows its name, type and TTL, and the last of all
    counts the sets and the values. *)
Theorem listing_shows_every_value u origin config records :
  no_escape origin = true -> no_escape config = true -> Forall entry_printable records -> records <> [] ->
  let texts := flat_map (record_texts origin) records in
  map strip (print_table u origin config records)
  = map (plain_line (plain_table RECORD_COLUMNS texts)) (RECORD_COLUMNS :: texts)
    ++ [pretty (N.of_nat (length records)) +:+ " record set(s), " +:+ pretty (N.of_nat (length texts)) +:+ " value(s) in " +:+ config].
Proof.
  intros Ho Hc Hr Hne texts. destruct (listing_rows u origin records Ho Hr) as (Hok & Hsnd & Hsh).
  assert (Hlen : length texts = sum_list_with (length ∘ re_values) records).
  { unfold texts. clear. induction records as [|r records IH]; [done|]. cbn [flat_map sum_list_with].
    rewrite length_app, IH. unfold record_texts. by rewrite length_imap. }
  unfold print_table. destruct records as [|r records]; [done|]. set (rs := r :: records) in *.
  rewrite map_app. f_equal.
  - rewrite table_shows by (done || by repeat constructor). rewrite Hsh, Hsnd. apply map_ext. intros x.
    rewrite plain_line_plain. by rewrite Hsnd.
  - cbn [map]. f_equal. rewrite <- Hlen. apply styled_shows. by rewrite !no_escape_app, !no_escape_pretty, Hc.
Qed.

End Listing.

(** ** The breakdowns of vega status *)

(** Whole numbers as floats: one is above zero exactly when it is not zero, and up to
    2^53 the way to a float and back loses nothing. *)
Class F64TextLaws {F : F64} (FT : F64Text F) : Prop := {
  gt_zero_whole n : f64_gt_zero (as_f64 n) = (0 <? n)%N;
  trunc_whole n : (n <= 2 ^ 53)%N -> f64_trunc (as_f64 n) = as_f64 n;
  clamp_whole n : (n <= 2 ^ 53)%N -> f64_clamp (as_f64 n) (as_f64 0) (as_f64 (U64_MOD - 1)) = as_f64 n;
  as_u64_whole n : (n <= 2 ^ 53)%N -> as_u64 (as_f64 n) = n;
}.

Section Breakdown.
Context {F : F64} {FL : F64Laws F} {FT : F64Text F} {FTL : F64TextLaws FT} {HC : Crate}.

Lemma count_whole n : (n <= 2 ^ 53)%N -> count (as_f64 n) = n.
Proof. intros H. unfold count, whole, U64_MAX_AS_F64. by rewrite trunc_whole, clamp_whole, as_u64_whole. Qed.

Lemma omap_perm {A B} (f : A -> option B) l l' : l ≡ₚ l' -> omap f l ≡ₚ omap f l'.
Proof.
  induction 1 as [|x l l' _ IH|x y l|l l' l'' _ IH1 _ IH2]; cbn; [done| | |by etrans].
  - by destruct (f x); rewrite IH.
  - destruct (f x), (f y); first [apply perm_swap|done].
Qed.

Lemma btree_iter_collect kvs : NoDup (kvs.*1) -> btree_iter (collect_map kvs) ≡ₚ kvs.
Proof.
  intros H. unfold btree_iter. rewrite sort_by_perm, collect_map_list.
  rewrite map_to_list_to_map.
  - symmetry. apply Permutation_rev.
  - by rewrite <- Permutation_rev.
Qed.

(** The counters that are not zero, under their labels. *)
Definition nonzero (l : list (string * N)) : list (string * f64) :=
  omap (fun '(label, n) => if (0 <? n)%N then Some (label, as_f64 n) else None) l.

Definition response_counts (m : Metrics) : list (string * N) :=
  imap (fun idx label => (label, load m (Responses idx))) (map fst TRACKED_RCODES ++ ["other"]).

Definition transport_counts (m : Metrics) : list (string * N) :=
  [("udp", queries_udp m); ("tcp", queries_tcp m); ("other", queries_other m)].

(** A bucket of the histogram is of neither breakdown. *)
Lemma buckets_apart prefix bs :
  prefix = "dns_responses_total" \/ prefix = "dns_queries_by_transport_total" ->
  omap (breakdown_row prefix)
    (map (fun '(bucket, upper) => (labelled "dns_query_duration_seconds_bucket" "le" upper, as_f64 bucket)) bs) = [].
Proof. intros Hp. induction bs as [|[b u] bs IH]; [done|]. by destruct Hp as [-> | ->]; apply IH. Qed.

(** A sample of the series itself. *)
Lemma own_sample prefix name label x n :
  (forall y, breakdown_row prefix (labelled prefix name label, y) = if f64_gt_zero y then Some (label, y) else None) ->
  x = as_f64 n ->
  breakdown_row prefix (labelled prefix name label, x) = (if (0 <? n)%N then Some (label, as_f64 n) else None).
Proof. intros H ->. by rewrite H, gt_zero_whole. Qed.

Lemma omap_cons_eq {A B C} (f : A -> option C) (g : B -> option C) x y l l' :
  f x = g y -> omap f l = omap g l' -> omap f (x :: l) = omap g (y :: l').
Proof. intros H1 H2. cbn. rewrite H1. by destruct (g y); rewrite H2. Qed.

Lemma responses_of_samples m limiter l now :
  omap (breakdown_row "dns_responses_total") (samples m limiter l now) = nonzero (response_counts m).
Proof.
  unfold samples. generalize (N.of_nat (active_at limiter now)) as active. intros active.
  rewrite !omap_app, buckets_apart by auto.
  match goal with |- omap ?f ?a ++ omap ?f ?r ++ omap ?f ?b ++ omap ?f ?c ++ [] ++ omap ?f ?d ++ omap ?f ?e = _ =>
    assert (omap f a = []) as -> by reflexivity; assert (omap f b = []) as -> by reflexivity;
    assert (omap f c = []) as -> by (destruct (rate_limiter m); reflexivity);
    assert (omap f d = []) as -> by reflexivity; assert (omap f e = []) as -> by (destruct (deadline_in l now); reflexivity)
  end.
  rewrite !app_nil_r. unfold nonzero, response_counts. cbn [imap map fst TRACKED_RCODES app].
  repeat (apply omap_cons_eq; [by apply own_sample|]). done.
Qed.

Lemma transports_of_samples m limiter l now :
  omap (breakdown_row "dns_queries_by_transport_total") (samples m limiter l now) = nonzero (transport_counts m).
Proof.
  unfold samples. generalize (N.of_nat (active_at limiter now)) as active. intros active.
  rewrite !omap_app, buckets_apart by auto.
  match goal with |- omap ?f ?a ++ omap ?f ?r ++ omap ?f ?b ++ omap ?f ?c ++ [] ++ omap ?f ?d ++ omap ?f ?e = _ =>
    assert (omap f r = []) as -> by reflexivity; assert (omap f b = []) as -> by reflexivity;
    assert (omap f c = []) as -> by (destruct (rate_limiter m); reflexivity);
    assert (omap f d = []) as -> by reflexivity; assert (omap f e = []) as -> by (destruct (deadline_in l now); reflexivity)
  end.
  rewrite !app_nil_r. unfold nonzero, transport_counts.
  assert (Hskip : forall (k : string * f64) r, breakdown_row "dns_queries_by_transport_total" k = None ->
    omap (breakdown_row "dns_queries_by_transport_total") (k :: r) = omap (breakdown_row "dns_queries_by_transport_total") r)
    by (intros k r Hk; cbn; by rewrite Hk).
  do 4 (rewrite Hskip by reflexivity). repeat (apply omap_cons_eq; [by apply own_sample|]). done.
Qed.

(** The breakdowns [vega status] prints of the page it scraped are the codes and the
    transports the server has counted, those that are not zero, each once with its
    count; and a count up to 2^53 is shown as it is. *)
Theorem breakdowns_list_counters m limiter l now :
  version_ok -> counters_ok m ->
  let samples := parse_prometheus (metrics_body m limiter l now) in
  breakdown_rows samples "dns_responses_total" ≡ₚ nonzero (response_counts m) /\
  breakdown_rows samples "dns_queries_by_transport_total" ≡ₚ nonzero (transport_counts m) /\
  forall n, (n <= 2 ^ 53)%N -> pretty (count (as_f64 n)) = pretty n.
Proof.
  intros Hv Hc. cbn zeta. rewrite metrics_body_read by done.
  pose proof (btree_iter_collect _ (samples_nodup m limiter l now Hc)) as Hp. unfold breakdown_rows. split_and!.
  - by rewrite <- (responses_of_samples m limiter l now), (omap_perm _ _ _ Hp).
  - by rewrite <- (transports_of_samples m limiter l now), (omap_perm _ _ _ Hp).
  - intros n Hn. by rewrite count_whole.
Qed.

End Breakdown.

(** ** vega check, and what programs read *)

Section Verdict.
Context {O : OwoColors} {F : F64} {FT : F64Text F} {J : JsonText} {JD : JsonDoc F J} {TM : Toml} {HN : HickoryNames} {DT : DisplayText HN}
  {HR : HickoryRdata HN} {HO : HashOrder} {HT : HashTableApi} {RT : RecordTypeText} {AT : AddrText} {HC : Crate}.

(** What [check] prints does not change what it returns, and its last line says the
    configuration is valid exactly when it is. *)
Theorem check_prints_its_verdict u as_json seed config config_path :
  (check_text u as_json seed config config_path).2 = zone_check seed config /\
  (as_json = false ->
   zone_check seed config = Ok tt <->
   last (check_text u as_json seed config config_path).1 = Some (tick u +:+ " configuration is valid")).
Proof.
  unfold check_text, zone_check. destruct (map_err BuildFailed (from_config seed (cfg_zone config))) as [z|e]; cbn [rbind];
    [|split; [done|]; intros _; by split].
  destruct as_json; [by split; [destruct (report_findings z) as [[]|]|]|].
  destruct (report_findings z) as [[]|e] eqn:Er; cbn [fst snd]; (split; [done|]); intros _.
  - split; [|done]. intros _. by rewrite last_snoc.
  - split; [done|]. unfold print_findings, report_findings in *. destruct (diagnostics z) as [|d ds]; [done|].
    rewrite !app_assoc, last_snoc. intros [= H]. unfold tick, paint in H.
    by destruct (colour u), (style_open Green).
Qed.

Definition with_admin_token (c : Config) (t : option string) : Config :=
  mkConfig (source c) (udp c) (tcp c) (admin_listen c) (tcp_timeout c) (shutdown_drain c) (tcp_response_buffer c)
    (cfg_zone c) (rate_limit c) (log_format c) (log_level c) t.

(** The token itself is never shown, only whether there is one. *)
Theorem check_hides_the_token u as_json seed config config_path t t' :
  check_text u as_json seed (with_admin_token config (Some t)) config_path
  = check_text u as_json seed (with_admin_token config (Some t')) config_path.
Proof. done. Qed.

(** With [--json] a command prints one line, a value of serde_json's, and colour is off. *)
Lemma json_is_one_value u path doc nf tf name ty edit addr response origin output created previous new seed config z
    question qtype outcome elapsed recursion snapshot :
  from_config seed (cfg_zone config) = Ok z ->
  Forall (fun lines => exists v, lines = [value_to_string v])
    [record_list_text u true path doc nf tf; record_get_text u true path doc name ty; report_edit u true path doc edit;
     reload_text u true addr response; zone_show_text u true path doc; bump_serial_text u true path previous new;
     init_text u true output origin created; (check_text u true seed config (Some path)).1;
     query_text u true question qtype outcome elapsed recursion; status_text u true addr snapshot].
Proof.
  intros Hz. repeat (apply Forall_cons; split); [by eexists| |by eexists..| |by eexists|by eexists|apply Forall_nil; done].
  - unfold record_get_text. destruct (record_get doc name ty). by eexists.
  - unfold check_text. rewrite Hz. by eexists.
Qed.

Lemma structured_output_is_plain t verbosity : colour (ui_init t true verbosity) = false.
Proof. done. Qed.

End Verdict.

(** ** The plan the server announces *)

Section Plan.

(** The figures logged at start-up are what a signal arms: the deadline and the
    watchdog of a termination, and no later than they for any other cause. *)
Theorem plan_is_what_is_armed config c s :
  let configured := (shutdown_drain config * Shutdown.SECOND)%N in
  let plan := log_shutdown_plan config in
  let armed := Shutdown.arm configured c s in
  exists deadline, Shutdown.due armed = Some deadline /\ Shutdown.watchdog armed = Some (deadline + Shutdown.WATCHDOG_GRACE)%N /\
    (deadline <= Shutdown.now s + plan_deadline plan * Shutdown.SECOND)%N /\
    (deadline + Shutdown.WATCHDOG_GRACE <= Shutdown.now s + plan_watchdog plan * Shutdown.SECOND)%N /\
    (c = Shutdown.Term -> deadline = Shutdown.now s + plan_deadline plan * Shutdown.SECOND)%N.
Proof.
  cbn zeta. eexists. split; [reflexivity|]. split; [reflexivity|].
  unfold log_shutdown_plan, Shutdown.STOP_BUDGET, Shutdown.WATCHDOG_GRACE, Shutdown.SECOND. cbn [plan_deadline plan_watchdog].
  change (5 * 1000000000 / 1000000000)%N with 5%N. change (2 * 1000000000 / 1000000000)%N with 2%N.
  split_and!; destruct c; cbn [Shutdown.drain_window]; intros; try done; lia.
Qed.

End Plan.

(** ** An answer, shown *)

Section Shown.
Context {HN : HickoryNames} {HL : HickoryNamesLaws HN} {HR : HickoryRdata HN} {HO : HashOrder} {HT : HashTableApi} {TL : HashTableLaws HT}.
Context {HM : HickoryMessages} {HC : Crate} {MC : MessageCodec}.
Context {O : OwoColors} {F : F64} {FT : F64Text F} {J : JsonText} {JD : JsonDoc F J} {DT : DisplayText HN} {RT : RecordTypeText} {AT : AddrText}.
Context (u : Ui).

(** The sections of an answer as they are printed: the additional one only when asked for
    more. *)
Definition shown_sections (x : Resolved) : list string :=
  print_section u "ANSWER" (answers x) ++ print_section u "AUTHORITY" (authority x)
  ++ (if verbose u then print_section u "ADDITIONAL" (additional x) else [])
  ++ match answers x with [] => [""; bang u +:+ " " +:+ muted u (answer_hint (rcode_name (code x)))] | _ => [] end.

(** Lines that show an answer: its code, its flags, and then its sections. *)
Definition shows (x : Resolved) (recursion : bool) (lines : list string) : Prop :=
  exists before between, lines =
    before ++ field u "rcode" (rcode u (rcode_name (code x))) 16
    ++ field u "flags" (flags u (res_authoritative x) false recursion) 16 ++ between ++ shown_sections x.

(** The same as a JSON value. *)
Definition tells (x : Resolved) (v : Value) : Prop :=
  value_get v "rcode" = Some (VStr (rcode_name (code x))) /\ value_get v "authoritative" = Some (VBool (res_authoritative x)) /\
  value_get v "truncated" = Some (VBool false) /\
  value_get v "answers" = Some (VArray (map record_json (answers x))) /\
  value_get v "authority" = Some (VArray (map record_json (authority x))) /\
  value_get v "additional" = Some (VArray (map record_json (additional x))).

Lemma held_is_shown x name o elapsed recursion : holds x (out_message o) -> shows x recursion (print_answer u name o elapsed recursion).
Proof using.
  intros (Hc & Ha & Ht & H1 & H2 & H3). unfold print_answer, shown_sections, shows, out_rcode. rewrite Hc, Ha, Ht, H1, H2, H3.
  generalize (field u "rcode" (rcode u (rcode_name (code x))) 16). intros code_line.
  generalize (field u "flags" (flags u (res_authoritative x) false recursion) 16). intros flags_line.
  match goal with |- context [?a ++ ?b ++ ?c ++ ?d ++ code_line ++ flags_line ++ ?e ++ ?f ++ _] =>
    exists (a ++ b ++ c ++ d), (e ++ f) end.
  by rewrite <- !app_assoc.
Qed.

Lemma held_is_told x name t o elapsed : holds x (out_message o) -> tells x (query_json name t o elapsed).
Proof using.
  intros (Hc & Ha & Ht & H1 & H2 & H3). unfold tells, query_json, out_rcode. rewrite Hc, Ha, Ht, H1, H2, H3. by split_and!.
Qed.

(** C16: [vega query] shows what the file says.  What it prints of a question outside the
    diagnostic sub-zones, for an ordinary type - the code, the AA bit, the answer and
    authority sections, and the additional one with -v or in JSON, never truncated,
    whichever transport - is what RFC 1034's algorithm (chains of at most eight aliases), and RFC 8482 for ANY, answers
    on the record blocks and the SOA of the server's configuration; and it exits with
    success exactly when that is NOERROR.  Asked of the configuration: no backslash in a
    name, an origin neither empty nor a wildcard, nodes within a 32-bit index.  Asked of
    the question: a name that reads, octets that fit a stream, that the limiter lets it
    through, that its answer fits the 65535 octets of a message on a stream, and that it
    is none the server answers otherwise (ANY for a name missing below a delegation;
    aliases that lead to a wildcard's). *)
Theorem query_shows_the_file seed cfg z net server src over_udp over_tcp request_id name fqdn type_text record_type force_tcp :
  from_config seed cfg = Ok z -> plain_config cfg -> fits cfg ->
  zone (h_active (t_handler over_udp)) = z -> zone (h_active (t_handler over_tcp)) = z ->
  reaches_handler net server src over_udp over_tcp ->
  answerable src over_udp over_tcp request_id name fqdn record_type ->
  let asked_name := lower_from (set_fqdn fqdn true) in
  diagnostic (h_active (t_handler over_udp)) asked_name = false ->
  diagnostic (h_active (t_handler over_tcp)) asked_name = false ->
  parse_record_type type_text = Ok record_type ->
  record_type ∉ [RT_AXFR; RT_IXFR; RT_OPT; RT_TSIG; RT_ZERO; MAILB_QTYPE; MAILA_QTYPE] ->
  answer_departs cfg asked_name record_type = false ->
  let said := file_resolve cfg asked_name record_type in
  exists o, dns_query net request_id server name record_type force_tcp = Ok o /\
    query_command net request_id server name type_text force_tcp = Ok (bool_decide (code said = NoError)) /\
    forall elapsed recursion,
      shows said recursion (query_text u false name record_type o elapsed recursion) /\
      exists v, query_text u true name record_type o elapsed recursion = [value_to_string v] /\ tells said v.
Proof using HL HR HO TL HC HM.
  intros Hz Hp Hf Hzu Hzt Hnet Ha asked_name Hdu Hdt Hparse Hty Hdep said.
  destruct (query_reads_the_file _ _ _ _ _ _ _ _ _ _ _ _ force_tcp Hz Hp Hf Hzu Hzt Hnet Ha Hdu Hdt Hty Hdep) as (o & Ho & Hh).
  exists o. split; [done|]. split.
  - unfold query_command. rewrite Hparse. cbn [rbind]. rewrite Ho. cbn [rbind]. unfold is_noerror. by rewrite (proj1 Hh).
  - intros elapsed recursion. split; [by apply held_is_shown|]. eexists. split; [done|]. by apply held_is_told.
Qed.

End Shown.
