(* ===== verification/UiExamples.v ===== *)
(** * UiExamples: a terminal, run

    The escape sequences owo_colors writes, whole numbers for floats, and tables,
    durations and a listing printed with and without colour. *)

From S2P Require Import Names Plain Hashing Zone Lookup Build Checked Served Answers ZoneTheorems Declared FileZone ZoneExamples.
From S2P Require Import Cas RateLimit HandlerFacts HandlerTheorems FileServer HandlerExamples Config EndToEnd DnsClient DnsClientTheorems DnsClientExamples Toml PlainToml Dispatch DispatchExamples.
From S2P Require Import Prelude Rdata Metrics Handler Editor Text Exposition Client ClientTheorems ClientExamples Ui UiTheorems Printing PrintingTheorems.
From stdpp Require Import pretty.
Local Open Scope string_scope.
Local Open Scope list_scope.

(** Select Graphic Rendition: [ESC \[ n m]. *)
Definition sgr (n : string) : string := String ESC ("[" +:+ n +:+ "m").

Definition style_code (s : Style) : string :=
  match s with
  | Bold => "1" | Dimmed => "2" | Red => "31" | Green => "32" | Yellow => "33" | Blue => "34" | Magenta => "35" | Cyan => "36"
  end.

#[global] Instance ansi : OwoColors := {|
  style_open s := sgr (style_code s);
  style_close s := sgr (match s with Bold | Dimmed => "0" | _ => "39" end);
|}.

#[global] Instance ansi_laws : OwoLaws ansi.
Proof. split; by intros []. Qed.

(** Whole numbers, on which rounding changes nothing. *)
#[global] Instance whole_text : F64Text whole_numbers := {|
  f64_lt := N.ltb : @f64 whole_numbers -> @f64 whole_numbers -> bool;
  f64_mul := N.mul : @f64 whole_numbers -> @f64 whole_numbers -> @f64 whole_numbers;
  f64_trunc x := x;
  f64_round x := x;
  f64_clamp x lo hi := N.max lo (N.min hi x) : @f64 whole_numbers;
  as_u64 x := N.min (U64_MOD - 1) x;
  f64_fixed digits x := pretty (x : N);
|}.

#[global] Instance whole_text_laws : F64TextLaws whole_text.
Proof.
  constructor; cbn; intros; [done|done| |]; change (U64_MOD - 1)%N with 18446744073709551615%N;
    change (2 ^ 53)%N with 9007199254740992%N in *; lia.
Qed.

Definition on_screen : Ui := mkUi true false.
Definition in_a_pipe : Ui := mkUi false false.

Example a_pipe_is_plain : colour (ui_init (mkTerminal None None (Some "xterm") false) false false) = false.
Proof. reflexivity. Qed.

Example force_wins : colour (ui_init (mkTerminal (Some "1") (Some "1") (Some "dumb") false) false false) = true.
Proof. reflexivity. Qed.

Example durations : map duration_of [59; 3599; 86399; 93784]%N = ["59s"; "59m 59s"; "23h 59m 59s"; "1d 2h 3m"].
Proof. reflexivity. Qed.

Example full_bar : bar in_a_pipe (1%N : @f64 whole_numbers) 4 = "████".
Proof. reflexivity. Qed.

(** ** A listing *)

Definition ex_records : list RecordEntry :=
  [mkEntry "@" "NS" None ["ns1.example.com."; "ns2.example.com."]; mkEntry "café" "A" (Some 60%N) ["203.0.113.10"]].

Example ex_listing :
  print_table in_a_pipe "example.com" "vega.toml" ex_records =
  ["NAME               TYPE  TTL  VALUE";
   "example.com.       NS    -    ns1.example.com.";
   "                              ns2.example.com.";
   "café.example.com.  A     60s  203.0.113.10";
   "2 record set(s), 3 value(s) in vega.toml"].
Proof. vm_compute. reflexivity. Qed.

Example ex_listing_coloured :
  map strip (print_table on_screen "example.com" "vega.toml" ex_records) = print_table in_a_pipe "example.com" "vega.toml" ex_records.
Proof. vm_compute. reflexivity. Qed.

Definition ex_rows : list (list string * list string) := flat_map (record_rows on_screen "example.com") ex_records.

Lemma table_lines_up_witness :
  exists line before after,
    TextTable_print on_screen (table_of RECORD_COLUMNS ex_rows) !! 3%nat = Some line /\
    strip line = before +:+ "60s" +:+ after /\ char_count before = 25%nat.
Proof.
  assert (Hr : Forall (row_ok RECORD_COLUMNS) ex_rows).
  { apply (listing_rows on_screen "example.com" ex_records); [reflexivity|]. repeat constructor. }
  destruct (table_lines_up on_screen RECORD_COLUMNS ex_rows ltac:(repeat constructor) Hr) as [_ H].
  destruct (H 3%nat _ ["café.example.com."; "A"; "60s"; "203.0.113.10"] eq_refl eq_refl) as [_ Hc].
  destruct (Hc 2%nat "60s" eq_refl) as (_ & before & after & Hs & Hb).
  eexists _, before, after. split; [reflexivity|]. split; [exact Hs|]. rewrite Hb. vm_compute. reflexivity.
Defined.

Lemma listing_witness :
  length (print_table on_screen "example.com" "vega.toml" ex_records) = 5%nat.
Proof.
  assert (H : Forall entry_printable ex_records) by repeat constructor.
  pose proof (listing_shows_every_value on_screen "example.com" "vega.toml" ex_records eq_refl eq_refl H ltac:(done)) as Hl.
  apply (f_equal length) in Hl. rewrite length_map in Hl. rewrite Hl. reflexivity.
Defined.

(** ** A breakdown *)

Example ex_codes :
  print_breakdown in_a_pipe "RESPONSE CODES" (list_to_map (map (fun '(l, n) => (labelled "dns_responses_total" "rcode" l, n))
    (response_counts seen_counters))) "dns_responses_total" 7%N =
  [""; "RESPONSE CODES"; "──────────────";
   "LABEL     COUNT  SHARE  ";
   "NOERROR   3      0%     ░░░░░░░░░░░░░░░░";
   "SERVFAIL  4      0%     ░░░░░░░░░░░░░░░░"].
Proof. vm_compute. reflexivity. Qed.

(** ** An answer *)

#[global] Instance plain_display : DisplayText plain_names := {|
  name_to_string n := string_of_octets (List.concat (map (fun l => l ++ [46%N]) (raw_labels (pn_raw n))));
  lower_to_string n := string_of_octets (List.concat (map (fun l => l ++ [46%N]) (raw_labels (pl_raw n))));
  rdata_to_string rd := match rd with RD_A a => pretty a | _ => "" end;
  record_to_string r := "";
  record_type_of rd := match rd with RD_A _ => RT_A | RD_CNAME _ => RT_CNAME | _ => RT_TXT end;
  http_error_to_string e := "";
|}.

#[global] Instance plain_values : JsonDoc whole_numbers plain_json := {| json_value := VStr; value_to_string v := "{}" |}.

(** The two addresses of the name, in the lines that are printed. *)
Lemma query_shows_the_file_witness :
  exists o, query_command ex_sockets 7 (SockV4 2130706433 53) "a.b.z" "A" false = Ok true /\
    shows in_a_pipe (file_resolve ex_cfg (lower_from (set_fqdn ex_fqdn true)) RT_A) false
      (query_text in_a_pipe false "a.b.z" RT_A o 0 false) /\
    length (answers (file_resolve ex_cfg (lower_from (set_fqdn ex_fqdn true)) RT_A)) = 2%nat.
Proof.
  assert (Hn : (bool_decide (code (file_resolve ex_cfg (lower_from (set_fqdn ex_fqdn true)) RT_A) = NoError)) = true) by evaluate.
  assert (Hl : (length (answers (file_resolve ex_cfg (lower_from (set_fqdn ex_fqdn true)) RT_A)) =? 2)%nat = true) by evaluate.
  destruct (query_shows_the_file in_a_pipe ex_seed ex_cfg ex_z ex_sockets (SockV4 2130706433 53) (V4 3221226219)
    ex_turn ex_turn 7 "a.b.z" ex_fqdn "A" RT_A false ex_built ex_plain ex_fits) as (o & _ & Hc & Hs).
  - reflexivity.
  - reflexivity.
  - exact ex_reaches_handler.
  - exact ex_answerable.
  - evaluate.
  - evaluate.
  - reflexivity.
  - apply (bool_decide_eq_false_1 (RT_A ∈ [RT_AXFR; RT_IXFR; RT_OPT; RT_TSIG; RT_ZERO; MAILB_QTYPE; MAILA_QTYPE])). evaluate.
  - evaluate.
  - exists o. split; [|split].
    + rewrite Hc. exact (f_equal Ok Hn).
    + exact (proj1 (Hs 0%N false)).
    + by apply Nat.eqb_eq.
Defined.
